(* ===== verification/_CoqProject ===== *)
-Q . S2P
Prelude.v
CMonad.v
ListNode.v
CString.v
CStringTheorems.v
World.v
TestPlatform.v
Report.v
Memory.v
FloatCompare.v
FloatTheorems.v
Compare.v
SymbolMap.v
Tree.v
SymbolTree.v
SymbolGet.v
SymbolAdd.v
SymbolRemove.v
SymbolLeftover.v
SymbolTheorems.v
Mock.v
Checks.v
Asserts.v
CompareProofs.v
CheckSpec.v
AssertTheorems.v
Coverity.v
Alloc.v
AllocBytes.v
AllocProofs.v
AllocOps.v
AllocTheorems.v
AllocLeaks.v
Output.v
OutputProofs.v
Runner.v
Api.v
Frame.v
MockSpec.v
MockProofs.v
DoubleFree.v
ParamProofs.v
ParamTheorems.v
MockTheorems.v
RunnerProofs.v
TestContract.v
TestRun.v
GroupProofs.v
RunnerTheorems.v
RunnerExamples.v
GroupTheorems.v
GroupFixtures.v
GroupFaults.v
XmlReader.v
XmlReport.v
ReportTheorems.v
ClientSupport.v
Calculator.v
CalculatorTheorems.v
CalculatorMain.v
CalculatorTests.v
AssertExamples.v
AllocateModule.v
Programs.v
ProgramProofs.v
ProgramTheorems.v
ApiTheorems.v
Witnesses.v
LibraryWitnesses.v
