(* ===== verification/Prelude.v ===== *)
(** * A verification development for cmocka

    cmocka (src/src/cmocka.c with the macros of src/include/cmocka.h) is a unit
    testing framework for C.  A test is a C function that the runner calls; it
    declares what the functions it mocks shall return and be called with,
    allocates memory through checked allocators, and asserts; the runner
    decides from what the test did and left behind whether it passed.

    ** Parts of the program and their files

    - Lists ([list_initialize] to [list_first]): ListNode.v, over a memory
      given by the classes [HeapOps] and [HeapLaws]; Memory.v discharges the
      laws for the memory of the process.
    - State: World.v.  [World] gathers the static variables, the memory, the
      files, the signal dispositions and the streams; one C function is one
      Definition in the monad [M World] of CMonad.v, whose outcomes are a
      return, the longjmp to the runner, the longjmp to
      [expect_assert_failure], exit, abort, undefined behaviour and [NoFuel].
    - Messages and leaving a test ([cmocka_print_error], [exit_test], [_fail],
      [_skip], [_stop], [cm_get_output]): Report.v.
    - Symbol maps ([add_symbol_value], [get_symbol_value], the removal of
      values that are always returned, the leftover checks): SymbolMap.v.
      Abstract contract: trees of queues (Tree.v); representation:
      SymbolTree.v; refinement: SymbolGet.v, SymbolAdd.v, SymbolRemove.v,
      SymbolLeftover.v; the resulting theorems: SymbolTheorems.v.
    - Mock values, call order, their life cycle and [mock_assert]: Mock.v.
      Abstract contract: the record [expectations] and the relation [mocks]
      (MockSpec.v); refinement: MockProofs.v; theorems: MockTheorems.v; what a
      value freed while it is queued does to [teardown_testing]: DoubleFree.v.
    - Expected parameters (the checking functions, [_expect_value] and the
      others, [_check_expected]): Checks.v.  Contract: [check_passes]
      (CheckSpec.v); refinement ParamProofs.v; theorems ParamTheorems.v.
    - Comparisons that report their failure, and assertions: FloatCompare.v,
      Compare.v, Asserts.v; theorems in AssertTheorems.v, from
      CompareProofs.v.  FloatTheorems.v shows what the comparison of floats
      and doubles decides.
    - Checked memory ([_test_malloc], [_test_calloc], [_test_realloc],
      [_test_free], the check points and the leak check): Alloc.v, at the level
      of bytes.  Invariant [heap] and its preservation: AllocBytes.v,
      AllocProofs.v, AllocOps.v; theorems: AllocTheorems.v, AllocLeaks.v.
    - String helpers ([c_strreplace], [c_strmatch],
      [cmprepare_xml_attribute_string]): CString.v, CStringTheorems.v.
    - Reports ([cmprintf_*]: standard, TAP, subunit, XML): Output.v, and that
      they return and only print: OutputProofs.v.  XmlReader.v is a reader of
      XML documents, and XmlReport.v shows that it reads the XML report of a
      group back as the results of its tests.
    - The runner ([cmocka_run_one_test_or_fixture] to
      [_cmocka_run_group_tests], [cm_tspecdiff], [cm_secdiff]): Runner.v.
      Frame.v says what the library leaves alone; RunnerProofs.v runs one
      function of a test.  Contract: [performs] (TestContract.v), the game
      between the runner and a test with its fixtures; TestRun.v shows that
      the runner plays it, GroupProofs.v and GroupTheorems.v that a group of
      such tests gives its result, GroupFixtures.v that a group with fixtures
      does, ReportTheorems.v what is printed in each format for machines,
      GroupFaults.v what [skip] in a setup function does to the next test,
      and what a mock value of another type does to its test;
      RunnerTheorems.v and the examples of RunnerExamples.v.
    - The public macros: Api.v; theorems in ApiTheorems.v.
    - The Coverity model of the assertions (src/coverity): Coverity.v, over the
      class [Analyser] of the primitives of the analyser.
    - The example programs (src/example), as clients of the library:
      AllocateModule.v, AssertExamples.v (with the macros of
      src/include/cmocka_pbc.h), Calculator.v over the class [Stdio], its
      reference semantics [evaluate] in CalculatorTheorems.v, its main in
      CalculatorMain.v, its test program in CalculatorTests.v.  What they share
      - blocks of a program, ints in memory, tests without fixtures - is in
      ClientSupport.v.
    - Test programs in general: Programs.v has a language of test functions,
      whose operations are calls of the library, and an executable
      specification of their verdicts; ProgramProofs.v is the simulation
      between the two, ProgramTheorems.v the result.

    The parts meet as in the code: a test runs between [initialize_testing] and
    [teardown_testing] with the memory, the expectations and the messages of
    one [World]; a failing assertion prints and leaves by [exit_test], whose
    longjmp [setjmp] of Runner.v catches.

    ** What the theorems show

    - Lists implement finite sequences; symbol maps implement trees of queues,
      free exactly what they unlink, and their loops terminate.
    - [will_return] and [mock] are FIFO queues per function with counts,
      [function_called] follows the call-order automaton, a check of a
      parameter consumes the next declared check and decides its condition;
      leftovers fail a test exactly if the specification has some; the life
      cycle frees every store.  Mock values are dynamically typed, and soundly.
    - What each will_return macro gives to each macro that reads it: the value
      unchanged, doubles included, or the end of the test for another type.
      Each of the thirteen declarations of an expected parameter decides its
      condition, whatever else is expected; the expect macros do under the
      casts they apply.
    - Assertions return without any effect if their condition holds and end
      the test otherwise; the difference dump stays within its memory.  The
      comparison of floats and doubles decides an inequality of integers as
      long as the numbers have few enough digits.
    - The checked allocators keep the heap invariant, refuse sizes that wrap
      around, detect every damaged guard byte, and the leak check finds exactly
      the blocks allocated since the check point.
    - [c_strreplace] never leaves its buffer and replaces from left to right;
      [c_strmatch] is wildcard matching for patterns without two consecutive
      stars.
    - One test returns 0 or -1 as its contract says; the test array holds
      exactly the selected tests; the totals partition the tests; a group of
      tests that keep the contract [performs] - with setup and teardown
      functions, passing, failing, skipping, stopping -, in any process state
      in which a group may start, returns the number of its failures and
      errors, or exits in the leak check.  Its TAP report is one document with
      the tests numbered in order, its subunit report the start and result of
      each test; its XML report reads back as the results of the tests, for
      names that fit when escaped and messages without "]]>".
      With a setup and a teardown of the group, its tests run with the state
      of the setup; a group whose setup fails runs no test and returns 1, and
      the result of its teardown is not counted.
    - Every test program of Programs.v gets from the runner the verdict of its
      specification, which has queues and sizes of blocks in place of memory.
    - The Coverity model returns when the assertions on conditions, integers,
      return codes, ranges and sets do, but for one range; for floating-point
      numbers within the epsilon, strings and memory it does not.
    - The calculator evaluates every expression as the reference does, without
      an access outside its array, and releases it, with any [fprintf]; its
      test program, run as an example, passes on the library.  The examples with errors fail as the build expects.
    - Where the code does something its documentation or its comments exclude,
      a theorem says so: [c_strreplace] with an empty pattern, [**] in
      [c_strmatch], NaN, infinities and the tolerance of floats for doubles in
      the float comparisons, [mock_ptr_type] of what [will_return_ptr]
      declares, the skip flag
      that survives any setup that skips and hides the failure of the next
      test, the double free after any type mismatch on a value that stays in
      its queue, the exit on a leak of a failed test, the nanoseconds of
      [cm_tspecdiff].

    Witnesses.v and LibraryWitnesses.v apply the theorems that have hypotheses
    to concrete states of TestPlatform.v, from [initial_world] on.

    ** Assumptions, integers, bounds

    The platform is POSIX and LP64: [int] has 32 bits, [size_t], pointers and
    [intmax_t] 64, CHAR_BIT is 8, and signals, [struct timespec] and strtok_r
    are available.  What C leaves open is the class [Platform] (the addresses
    malloc() returns, strerror(), %p, the clock, fopen()); [PlatformLaws] is the
    documented behaviour of malloc(): NULL or storage disjoint from everything
    in use; [PlatformTotal], that it succeeds, is assumed only where cmocka
    does not check its result.  Integers are Z with the conversions [to_u64],
    [to_s64], [to_u32] and [to_s32] of this file where the code converts or
    wraps around.  Texts are formatted at the call: a printf with its arguments
    is a string.

    Loops over pointer structures take fuel.  The fuel of a loop over a list is
    one more than the number of nodes in memory ([node_bound]), which the
    refinement theorems show to be enough; that of [c_strreplace] is one more
    than the length of the buffer, enough for a non-empty pattern ([c_strreplace_spec]).
    [NoFuel] is an outcome of its own, so that "it returns" in a theorem
    excludes it.

    The loops of the examples take the number of arguments as fuel, which
    [example_main_prints] shows to be enough.

    ** Not modelled

    The branches for Windows (its exception filter and debug output) and for
    compilers without C99, with the portability macros of
    src/include/cmocka_private.h; the deprecated tables of the old interface
    ([unit_test], [group_test_setup]); threads: the static variables are
    CMOCKA_THREAD, and one thread is modelled; asynchronous signals: a signal
    of the test is [exception_handler] called by it.  INVARIANT of
    src/include/cmocka_pbc.h does not compile where contracts are checked.  The
    programs under src/tests use the library and are not part of it;
    src/example/database.h declares types only; the build files have no
    run-time behaviour.

    ** Left open

    Blocks that the setup of a group allocates and its tests write to: the
    contract of a group with fixtures says which blocks there are, not what is
    in them.  The mocks of the calculator's tests are run, not proved for every
    expression. *)
From Stdlib Require Export Ascii ZArith Lia.
From stdpp Require Export base gmap strings pretty numbers list.

#[export] Set Warnings "-clear-no-such-hyp".
#[global] Open Scope Z_scope.

(** ** Notation scope of the development *)
Declare Scope cmocka_scope.
Delimit Scope cmocka_scope with cm.

(** The newline character, which a Rocq string literal cannot escape. *)
Definition nl : string := String (Ascii.ascii_of_nat 10) "".

(** The lemmas that automate the common cases. *)
Create HintDb cmocka.

(** ** Tactics *)

(** Case analysis on the head [match] or [if] of a hypothesis or of the goal,
    remembering the equation. *)
Ltac split_match :=
  match goal with
  | |- context [match ?x with _ => _ end] => destruct x eqn:?
  | H : context [match ?x with _ => _ end] |- _ => destruct x eqn:?
  end.

(** Turn boolean comparisons of hypotheses into propositions and call [lia]. *)
Ltac zbool :=
  repeat match goal with
  | H : (_ =? _) = true |- _ => apply Z.eqb_eq in H
  | H : (_ =? _) = false |- _ => apply Z.eqb_neq in H
  | H : (_ <? _) = true |- _ => apply Z.ltb_lt in H
  | H : (_ <? _) = false |- _ => apply Z.ltb_ge in H
  | H : (_ <=? _) = true |- _ => apply Z.leb_le in H
  | H : (_ <=? _) = false |- _ => apply Z.leb_gt in H
  end.

(** ** Machine integers (LP64) *)

Definition SIZE_MAX : Z := 2 ^ 64 - 1.
(** Conversion to [uintmax_t] / [size_t]. *)
Definition to_u64 (z : Z) : Z := z mod 2 ^ 64.
(** The [intmax_t] with the same 64 bits. *)
Definition to_s64 (z : Z) : Z := (z + 2 ^ 63) mod 2 ^ 64 - 2 ^ 63.
(** Conversion to [unsigned] / [uint32_t]. *)
Definition to_u32 (z : Z) : Z := z mod 2 ^ 32.
(** Conversion to [int]. *)
Definition to_s32 (z : Z) : Z := (z + 2 ^ 31) mod 2 ^ 32 - 2 ^ 31.

Lemma to_u64_small z : 0 <= z < 2 ^ 64 -> to_u64 z = z.
Proof. intros; unfold to_u64; by rewrite Z.mod_small. Qed.

Lemma to_s64_range z : - 2 ^ 63 <= to_s64 z < 2 ^ 63.
Proof. unfold to_s64. pose proof (Z.mod_pos_bound (z + 2 ^ 63) (2 ^ 64)). lia. Qed.

Lemma to_s64_u64 z : - 2 ^ 63 <= z < 2 ^ 63 -> to_s64 (to_u64 z) = z.
Proof.
  intros; unfold to_s64, to_u64.
  rewrite Zplus_mod_idemp_l, Z.mod_small; lia.
Qed.

Lemma to_s64_small z : - 2 ^ 63 <= z < 2 ^ 63 -> to_s64 z = z.
Proof. intros; unfold to_s64. rewrite Z.mod_small; lia. Qed.

Lemma to_u64_signed z : - 2 ^ 63 <= z < 2 ^ 63 -> to_u64 z = if z <? 0 then z + 2 ^ 64 else z.
Proof.
  intros Hz. unfold to_u64. destruct (Z.ltb_spec z 0); [|apply Z.mod_small; lia].
  symmetry. apply (Z.mod_unique_pos _ _ (-1)); lia.
Qed.

Lemma to_u64_idemp z : to_u64 (to_u64 z) = to_u64 z.
Proof. unfold to_u64. by rewrite Z.mod_mod. Qed.

(** ** Strings *)

Lemma string_app_nil s : s +:+ "" = s.
Proof. induction s as [|c s IH]; [done|]. change (String c (s +:+ "") = String c s). by rewrite IH. Qed.
Lemma string_app_assoc s t u : s +:+ (t +:+ u) = (s +:+ t) +:+ u.
Proof.
  induction s as [|c s IH]; [done|]. change (String c (s +:+ (t +:+ u)) = String c ((s +:+ t) +:+ u)). by rewrite IH.
Qed.

(** ** Generic lemmas on lists *)

Section lists.
Context {A B : Type}.
Implicit Types l k : list A.

Lemma NoDup_app_cons_middle l x k :
  NoDup (l ++ x :: k) → (x ∉ l) ∧ (x ∉ k) ∧ NoDup (l ++ k).
Proof.
  rewrite NoDup_app, NoDup_cons. intros (Hl & Hd & Hx & Hk).
  split_and!; [ | done | ].
  - intros Hin. by apply (Hd x Hin), elem_of_cons; left.
  - apply NoDup_app; split_and!; [done| |done].
    intros y Hy Hy'. apply (Hd y Hy), elem_of_cons; by right.
Qed.

Lemma last_default_snoc d l x : default d (last (l ++ [x])) = x.
Proof. by rewrite last_snoc. Qed.

Lemma Forall_app_l (P : A -> Prop) l k : Forall P (l ++ k) -> Forall P l.
Proof. by intros [? ?]%Forall_app. Qed.

Lemma Forall_app_r (P : A -> Prop) l k : Forall P (l ++ k) -> Forall P k.
Proof. by intros [? ?]%Forall_app. Qed.

(** Splitting a node [n], a map [m] and its contents [s] out of a footprint. *)
Lemma footprint_perm (h n m : A) (l1 s l2 : list A) :
  h :: l1 ++ n :: m :: s ++ l2 ≡ₚ (m :: s) ++ (h :: l1 ++ n :: l2).
Proof. solve_Permutation. Qed.

Lemma footprint_outside (h n m : A) (l1 s l2 X : list A) :
  NoDup (h :: l1 ++ n :: m :: s ++ l2) ->
  (forall x, x ∈ X -> x ∈ m :: s \/ (x ∉ h :: l1 ++ n :: m :: s ++ l2)) ->
  forall x, x ∈ h :: l1 ++ n :: l2 -> x ∉ X.
Proof.
  intros Hnd HX x Hx HxX. rewrite footprint_perm in Hnd.
  apply NoDup_app in Hnd as (_ & Hd & _).
  destruct (HX x HxX) as [Hin|Hin]; [by apply (Hd x)|].
  apply Hin. rewrite footprint_perm. apply elem_of_app. by right.
Qed.

Lemma footprint_replace (h n m : A) (l1 s s' l2 : list A) :
  NoDup (h :: l1 ++ n :: m :: s ++ l2) -> NoDup (m :: s') ->
  (forall x, x ∈ s' -> x ∈ s \/ (x ∉ h :: l1 ++ n :: m :: s ++ l2)) ->
  NoDup (h :: l1 ++ n :: m :: s' ++ l2).
Proof.
  intros Hnd Hnd' Hs. pose proof Hnd as Hnd0. rewrite footprint_perm in Hnd |- *.
  apply NoDup_app in Hnd as (_ & Hd & Hout). apply NoDup_app. split_and!; [done| |done].
  intros x [->|Hx]%elem_of_cons; [by apply Hd; left|].
  destruct (Hs x Hx) as [Hin|Hin]; [by apply Hd; right|].
  rewrite footprint_perm in Hin. intros Hx'. apply Hin, elem_of_app. by right.
Qed.
End lists.
