(* ===== verification/CMonad.v ===== *)
(** * The computation monad

    C functions are modelled as functions from a state to an outcome and a
    state.  An outcome is a normal return or one of the ways in which the code
    leaves a function without returning: the two [longjmp]s of cmocka, process
    termination, undefined behaviour.  The state survives a [longjmp] (C
    globals are not rolled back), hence [outcome A * S] and not
    [outcome (A * S)]. *)
From S2P Require Import Prelude.

(** The ways a C computation ends. *)
Inductive outcome (A : Type) : Type :=
  | Ret (a : A)          (* normal return *)
  | LongJmp              (* cm_longjmp(global_run_test_env, 1) *)
  | AssertJmp            (* longjmp(global_expect_assert_env, 1) *)
  | Exit (status : Z)    (* exit(status) *)
  | Aborted              (* abort() *)
  | Undef                (* undefined behaviour: the C code may do anything *)
  | NoFuel.              (* the loop bound of the model was reached *)
Arguments Ret {A} a.
Arguments LongJmp {A}.
Arguments AssertJmp {A}.
Arguments Exit {A} status.
Arguments Aborted {A}.
Arguments Undef {A}.
Arguments NoFuel {A}.

(** Outcomes that do not return carry no value: they pass through every frame. *)
Definition outcome_bind {A B S : Type} (r : outcome A * S)
    (f : A -> S -> outcome B * S) : outcome B * S :=
  match r with
  | (Ret a, s) => f a s
  | (LongJmp, s) => (LongJmp, s)
  | (AssertJmp, s) => (AssertJmp, s)
  | (Exit c, s) => (Exit c, s)
  | (Aborted, s) => (Aborted, s)
  | (Undef, s) => (Undef, s)
  | (NoFuel, s) => (NoFuel, s)
  end.

Definition M (S A : Type) : Type := S -> outcome A * S.

#[export] Instance M_ret {S} : MRet (M S) := fun A a s => (Ret a, s).
#[export] Instance M_bind {S} : MBind (M S) := fun A B f m s => outcome_bind (m s) f.

Definition fails {S A} (o : forall B, outcome B) : M S A := fun s => (o A, s).
Definition longjmp {S A} : M S A := fails (@LongJmp).
Definition assert_longjmp {S A} : M S A := fails (@AssertJmp).
Definition libc_exit {S A} (status : Z) : M S A := fails (fun B => Exit status).
Definition libc_abort {S A} : M S A := fails (@Aborted).
Definition undef {S A} : M S A := fails (@Undef).
Definition no_fuel {S A} : M S A := fails (@NoFuel).
Definition gets {S A} (f : S -> A) : M S A := fun s => (Ret (f s), s).
Definition modify {S} (f : S -> S) : M S unit := fun s => (Ret tt, f s).
(** An access that is undefined behaviour when it has no value. *)
Definition deref {S A} (f : S -> option A) : M S A :=
  fun s => match f s with Some a => (Ret a, s) | None => (Undef, s) end.
Definition when {S} (b : bool) (m : M S unit) : M S unit :=
  if b then m else mret tt.

Section laws.
Context {S A B C : Type}.

Lemma bind_eq (m : M S A) (f : A -> M S B) s :
  (m ≫= f) s = outcome_bind (m s) f.
Proof. done. Qed.

(** The execution rule of sequencing: run the first part, continue. *)
Lemma bind_run (m : M S A) (f : A -> M S B) s a s' :
  m s = (Ret a, s') -> (m ≫= f) s = f a s'.
Proof. intros H. unfold mbind, M_bind. by rewrite H. Qed.

Lemma bind_longjmp (m : M S A) (f : A -> M S B) s s' :
  m s = (LongJmp, s') -> (m ≫= f) s = (LongJmp, s').
Proof. intros H. unfold mbind, M_bind. by rewrite H. Qed.

Lemma bind_ret_inv (m : M S A) (f : A -> M S B) s b s' :
  (m ≫= f) s = (Ret b, s') -> exists a s1, m s = (Ret a, s1) /\ f a s1 = (Ret b, s').
Proof. unfold mbind, M_bind. destruct (m s) as [[] s1]; simpl; naive_solver. Qed.

Lemma bind_assoc_run (m : M S A) (f : A -> M S B) (g : B -> M S C) s :
  ((m ≫= f) ≫= g) s = (m ≫= (fun a => f a ≫= g)) s.
Proof. unfold mbind, M_bind. by destruct (m s) as [[] ?]. Qed.

Lemma ret_run (a : A) (s : S) : (mret a : M S A) s = (Ret a, s).
Proof. done. Qed.

Lemma gets_run (f : S -> A) s : gets f s = (Ret (f s), s).
Proof. done. Qed.

Lemma modify_run (f : S -> S) s : modify f s = (Ret tt, f s).
Proof. done. Qed.

Lemma deref_run (f : S -> option A) s a : f s = Some a -> deref f s = (Ret a, s).
Proof. intros H. unfold deref. by rewrite H. Qed.
End laws.

(** [mrun H] runs the first computation of a sequence with the equation
    [H : m s = (Ret a, s')]; [mprim] uses the equations of the primitives. *)
Ltac mrun H := rewrite (bind_run _ _ _ _ _ H); cbn beta iota.
Ltac mprim :=
  match goal with
  | |- context [(mret ?a ≫= ?f) ?s] => rewrite (bind_run (mret a) f s a s (ret_run a s))
  | |- context [(gets ?g ≫= ?f) ?s] => rewrite (bind_run (gets g) f s _ _ (gets_run g s))
  | |- context [(modify ?g ≫= ?f) ?s] => rewrite (bind_run (modify g) f s _ _ (modify_run g s))
  end; cbn beta iota.
