(* ===== verification/ListNode.v ===== *)
(** * Doubly linked lists of [ListNode]

    The circular, doubly linked list of src/src/cmocka.c ([list_initialize] to
    [list_first]), pointer by pointer.  The component is a client of a memory
    described by the class [HeapOps]: it is written and proved against the
    laws of [HeapLaws], which the memory of the whole program discharges in
    [World.v]. *)
From S2P Require Import Prelude CMonad.

(** Addresses; [NULL] is 0.  The address of a [ListNode] embedded in a bigger
    allocation is represented by the address of that allocation, which holds
    exactly one node, so that distinct nodes have distinct addresses. *)
Abbreviation ptr := Z (only parsing).
Definition NULL : ptr := 0.

(** [struct ListNode] *)
Record ListNode := mkListNode {
  ln_value : ptr;
  ln_refcount : Z;
  ln_next : ptr;
  ln_prev : ptr;
}.

Definition with_value (v : ptr) (n : ListNode) : ListNode :=
  mkListNode v (ln_refcount n) (ln_next n) (ln_prev n).
Definition with_refcount (r : Z) (n : ListNode) : ListNode :=
  mkListNode (ln_value n) r (ln_next n) (ln_prev n).
Definition with_next (p : ptr) (n : ListNode) : ListNode :=
  mkListNode (ln_value n) (ln_refcount n) p (ln_prev n).
Definition with_prev (p : ptr) (n : ListNode) : ListNode :=
  mkListNode (ln_value n) (ln_refcount n) (ln_next n) p.

(** ** The memory interface *)

(** What the list code needs of a memory [S]: nodes that can be read and
    written, allocations that can be made and freed, cmocka's own
    [assert_non_null] (with the source line of the call) and a bound on the
    number of nodes, used as fuel. *)
Class HeapOps (S : Type) := {
  get_node : S -> ptr -> option ListNode;
  put_node : ptr -> ListNode -> S -> S;
  owned : S -> ptr -> bool;      (* the base of a live malloc()ed block *)
  drop : ptr -> S -> S;          (* the memory without that block *)
  alloc_node : S -> ptr * S;     (* malloc(sizeof(ListNode)), maybe NULL *)
  assert_non_null_at : Z -> ptr -> M S unit;
  node_bound : S -> nat;
}.

Class HeapLaws (S : Type) `{!HeapOps S} := {
  get_node_NULL (s : S) : get_node s NULL = None;
  get_put_node (s : S) p n q :
    is_Some (get_node s p) ->
    get_node (put_node p n s) q = if decide (q = p) then Some n else get_node s q;
  owned_put (s : S) p n q : owned (put_node p n s) q = owned s q;
  get_drop (s : S) p q :
    get_node (drop p s) q = if decide (q = p) then None else get_node s q;
  owned_drop (s : S) p q :
    owned (drop p s) q = if decide (q = p) then false else owned s q;
  alloc_node_fresh (s s' : S) p :
    alloc_node s = (p, s') -> p <> NULL ->
    get_node s p = None /\ owned s p = false /\
    is_Some (get_node s' p) /\ owned s' p = true /\
    (forall q, q <> p -> get_node s' q = get_node s q /\ owned s' q = owned s q);
  assert_non_null_run (s : S) line p :
    p <> NULL -> assert_non_null_at line p s = (Ret tt, s);
  node_bound_spec (s : S) (ps : list ptr) :
    NoDup ps -> (forall p, p ∈ ps -> is_Some (get_node s p)) ->
    (length ps <= node_bound s)%nat;
}.

Section code.
Context {S : Type} `{!HeapOps S}.

(** ** Access to the fields of a node *)

Definition get_value (p : ptr) : M S ptr := deref (fun s => ln_value <$> get_node s p).
Definition get_refcount (p : ptr) : M S Z := deref (fun s => ln_refcount <$> get_node s p).
Definition get_next (p : ptr) : M S ptr := deref (fun s => ln_next <$> get_node s p).
Definition get_prev (p : ptr) : M S ptr := deref (fun s => ln_prev <$> get_node s p).

Definition update_node (p : ptr) (f : ListNode -> ListNode) : M S unit :=
  n ← deref (fun s => get_node s p); modify (put_node p (f n)).
Definition set_value (p v : ptr) : M S unit := update_node p (with_value v).
Definition set_refcount (p : ptr) (r : Z) : M S unit := update_node p (with_refcount r).
Definition set_next (p q : ptr) : M S unit := update_node p (with_next q).
Definition set_prev (p q : ptr) : M S unit := update_node p (with_prev q).

(** [free]: no effect on NULL, undefined behaviour unless the argument is
    the base of a live allocation. *)
Definition free (p : ptr) : M S unit := fun s =>
  if p =? NULL then (Ret tt, s)
  else if owned s p then (Ret tt, drop p s) else (Undef, s).

(** ** The list operations *)

Definition list_initialize (node : ptr) : M S ptr :=
  set_value node NULL;;
  set_next node node;;
  set_prev node node;;
  set_refcount node 1;;
  mret node.

Definition list_add (head new_node : ptr) : M S ptr :=
  assert_non_null_at 663 head;;
  assert_non_null_at 664 new_node;;
  set_next new_node head;;
  hp ← get_prev head;
  set_prev new_node hp;;
  hp' ← get_prev head;
  set_next hp' new_node;;
  set_prev head new_node;;
  mret new_node.

Definition list_add_value (head value : ptr) (refcount : Z) : M S ptr :=
  new_node ← (fun s => let '(p, s') := alloc_node s in (Ret p, s'));
  assert_non_null_at 653 head;;
  assert_non_null_at 654 value;;
  set_value new_node value;;
  set_refcount new_node refcount;;
  list_add head new_node.

(** A [CleanupListValue] with its data argument applied; [None] is NULL. *)
Definition CleanupListValue : Type := option (ptr -> M S unit).

Definition list_remove (node : ptr) (cleanup_value : CleanupListValue) : M S ptr :=
  assert_non_null_at 677 node;;
  np ← get_prev node;
  nn ← get_next node;
  set_next np nn;;
  nn' ← get_next node;
  np' ← get_prev node;
  set_prev nn' np';;
  match cleanup_value with
  | Some cleanup => v ← get_value node; cleanup v
  | None => mret tt
  end;;
  mret node.

Definition list_remove_free (node : ptr) (cleanup_value : CleanupListValue) : M S unit :=
  assert_non_null_at 691 node;;
  r ← list_remove node cleanup_value;
  free r.

Definition list_empty (head : ptr) : M S bool :=
  assert_non_null_at 715 head;;
  n ← get_next head;
  mret (bool_decide (n = head)).

(** The [while] loop of [list_free]. *)
Fixpoint list_free_loop (fuel : nat) (head : ptr) (cleanup_value : CleanupListValue)
    : M S unit :=
  match fuel with
  | O => no_fuel
  | Datatypes.S k =>
      e ← list_empty head;
      if (e : bool) then mret tt
      else
        n ← get_next head;
        list_remove_free n cleanup_value;;
        list_free_loop k head cleanup_value
  end.

Definition list_free (head : ptr) (cleanup_value : CleanupListValue) : M S ptr :=
  assert_non_null_at 705 head;;
  fuel ← gets node_bound;
  list_free_loop (Datatypes.S fuel) head cleanup_value;;
  mret head.

(** The [for] loop of [list_find], from [current] on. *)
Fixpoint list_find_loop (fuel : nat) (head current : ptr)
    (equal_func : ptr -> M S bool) : M S (option ptr) :=
  match fuel with
  | O => no_fuel
  | Datatypes.S k =>
      if decide (current = head) then mret None
      else
        v ← get_value current;
        b ← equal_func v;
        if (b : bool) then mret (Some current)
        else n ← get_next current; list_find_loop k head n equal_func
  end.

(** [Some node] is the result true with [*output = node]. *)
Definition list_find (head : ptr) (equal_func : ptr -> M S bool) : M S (option ptr) :=
  assert_non_null_at 727 head;;
  current ← get_next head;
  fuel ← gets node_bound;
  list_find_loop (Datatypes.S fuel) head current equal_func.

Definition list_first (head : ptr) : M S (option ptr) :=
  assert_non_null_at 740 head;;
  e ← list_empty head;
  if (e : bool) then mret None
  else n ← get_next head; mret (Some n).
End code.

(** ** Observations of a memory *)

Section observations.
Context {S : Type} `{!HeapOps S}.

Definition next_of (s : S) (p : ptr) : option ptr := ln_next <$> get_node s p.
Definition prev_of (s : S) (p : ptr) : option ptr := ln_prev <$> get_node s p.
(** The payload of a node: its value and reference count. *)
Definition data_of (s : S) (p : ptr) : option (ptr * Z) :=
  (fun n => (ln_value n, ln_refcount n)) <$> get_node s p.

(** [p->next == q] and [q->prev == p]. *)
Definition link (s : S) (p q : ptr) : Prop :=
  next_of s p = Some q /\ prev_of s q = Some p.

(** A list cell: the address of its node, its value, its reference count. *)
Definition cell : Type := ptr * ptr * Z.
Definition cell_addr (c : cell) : ptr := c.1.1.
Definition addrs (cs : list cell) : list ptr := cell_addr <$> cs.
Definition last_addr (p : ptr) (cs : list cell) : ptr :=
  default p (last (addrs cs)).

(** From node [p] the [next] pointers lead through the cells [cs], in order,
    the [prev] pointers lead back, and the nodes hold the cells' data. *)
Fixpoint lpath (s : S) (p : ptr) (cs : list cell) : Prop :=
  match cs with
  | [] => True
  | (a, v, r) :: cs' =>
      link s p a /\ data_of s a = Some (v, r) /\ lpath s a cs'
  end.

(** The circular list with head node [h] represents the cells [cs]. *)
Definition dll (s : S) (h : ptr) (cs : list cell) : Prop :=
  NoDup (h :: addrs cs) /\ lpath s h cs /\ link s (last_addr h cs) h.

(** [s'] is [s] but for writes to the nodes at [W] and for allocations made
    or freed at the addresses [D]. *)
Inductive touches (W D : list ptr) : S -> S -> Prop :=
  | touch_none s : touches W D s s
  | touch_put s s' p n :
      p ∈ W -> is_Some (get_node s p) -> touches W D (put_node p n s) s' -> touches W D s s'
  | touch_drop s s' p : p ∈ D -> owned s p = true -> touches W D (drop p s) s' -> touches W D s s'
  | touch_alloc s s1 s' p :
      p ∈ D -> p <> NULL -> alloc_node s = (p, s1) -> touches W D s1 s' -> touches W D s s'.
End observations.

Section proofs.
Context {S : Type} `{!HeapOps S, !HeapLaws S}.
Implicit Types (s : S) (p q h a v : ptr) (cs : list cell) (X : list ptr).

Lemma touches_trans W D s1 s2 s3 : touches W D s1 s2 -> touches W D s2 s3 -> touches W D s1 s3.
Proof. induction 1; eauto using touches. Qed.

Lemma touches_mono W D W' D' s s' :
  W ⊆ W' -> D ⊆ D' -> touches W D s s' -> touches W' D' s s'.
Proof. intros HW HD. induction 1; eauto using touches. Qed.

Lemma touches_get W D s s' q :
  touches W D s s' -> (q ∉ W) -> (q ∉ D) -> get_node s' q = get_node s q.
Proof.
  induction 1 as [|s s' p n Hp Hn _ IH|s s' p Hp _ _ IH|s s1 s' p Hp Hnz Ha _ IH];
    intros Hq Hq'; [done| | |]; rewrite IH by done.
  - rewrite get_put_node by done. by rewrite decide_False by (intros ->; auto).
  - rewrite get_drop. by rewrite decide_False by (intros ->; auto).
  - apply alloc_node_fresh in Ha as (_ & _ & _ & _ & Ha); [|done].
    by apply Ha; intros ->; auto.
Qed.

Lemma touches_owned W D s s' q :
  touches W D s s' -> (q ∉ D) -> owned s' q = owned s q.
Proof.
  induction 1 as [|s s' p n Hp Hn _ IH|s s' p Hp _ _ IH|s s1 s' p Hp Hnz Ha _ IH];
    intros Hq; [done| | |]; rewrite IH by done.
  - apply owned_put.
  - rewrite owned_drop. by rewrite decide_False by (intros ->; auto).
  - apply alloc_node_fresh in Ha as (_ & _ & _ & _ & Ha); [|done].
    by apply Ha; intros ->; auto.
Qed.

(** *** Single field updates *)

(** What an update of node [p] by [f] does to every observation. *)
Definition upd p (f : ListNode -> ListNode) s s' : Prop :=
  is_Some (get_node s p) /\
  (forall q, get_node s' q = if decide (q = p) then f <$> get_node s p else get_node s q) /\
  (forall q, owned s' q = owned s q) /\
  (forall X, p ∈ X -> touches X [] s s').

Lemma update_node_run p f s :
  is_Some (get_node s p) ->
  exists s', update_node p f s = (Ret tt, s') /\ upd p f s s'.
Proof.
  intros [n Hn]. exists (put_node p (f n) s). unfold update_node.
  erewrite bind_run by (by apply deref_run). split; [done|].
  split_and!; [eauto| | |].
  - intros q. rewrite get_put_node by eauto. case_decide; [by rewrite Hn|done].
  - intros q. apply owned_put.
  - intros X HX. eapply touch_put; eauto using touch_none.
Qed.

Lemma is_node_NULL s p : is_Some (get_node s p) -> p <> NULL.
Proof. intros [n Hn] ->. by rewrite get_node_NULL in Hn. Qed.

Lemma next_of_node s p q : next_of s p = Some q -> is_Some (get_node s p).
Proof. unfold next_of. destruct (get_node s p); simpl; eauto; discriminate. Qed.
Lemma prev_of_node s p q : prev_of s p = Some q -> is_Some (get_node s p).
Proof. unfold prev_of. destruct (get_node s p); simpl; eauto; discriminate. Qed.

Lemma get_next_run s p q : next_of s p = Some q -> get_next p s = (Ret q, s).
Proof. intros H. by apply deref_run. Qed.
Lemma get_prev_run s p q : prev_of s p = Some q -> get_prev p s = (Ret q, s).
Proof. intros H. by apply deref_run. Qed.
Lemma get_value_run s p v r : data_of s p = Some (v, r) -> get_value p s = (Ret v, s).
Proof.
  intros H. apply deref_run. unfold data_of in H.
  destruct (get_node s p); simplify_eq/=; congruence.
Qed.
Lemma get_refcount_run s p v r : data_of s p = Some (v, r) -> get_refcount p s = (Ret r, s).
Proof.
  intros H. apply deref_run. unfold data_of in H.
  destruct (get_node s p); simplify_eq/=; congruence.
Qed.

Lemma upd_obs p f s s' :
  upd p f s s' ->
  (forall x, next_of s' x = if decide (x = p) then ln_next ∘ f <$> get_node s p else next_of s x) /\
  (forall x, prev_of s' x = if decide (x = p) then ln_prev ∘ f <$> get_node s p else prev_of s x) /\
  (forall x, data_of s' x =
     if decide (x = p)
     then (fun n => (ln_value (f n), ln_refcount (f n))) <$> get_node s p else data_of s x).
Proof.
  intros (_ & Hg & _). unfold next_of, prev_of, data_of.
  split_and!; intros x; rewrite Hg; case_decide; simplify_eq; try done;
    by destruct (get_node s p).
Qed.

Lemma set_next_run p q s :
  is_Some (get_node s p) ->
  exists s', set_next p q s = (Ret tt, s') /\
    (forall x, next_of s' x = if decide (x = p) then Some q else next_of s x) /\
    (forall x, prev_of s' x = prev_of s x) /\ (forall x, data_of s' x = data_of s x) /\
    (forall x, owned s' x = owned s x) /\ (forall X, p ∈ X -> touches X [] s s').
Proof.
  intros Hp. destruct (update_node_run p (with_next q) s Hp) as (s' & Hr & Hu).
  exists s'. split; [done|]. destruct (upd_obs _ _ _ _ Hu) as (Hn & Hv & Hd).
  destruct Hu as ([n Hn'] & _ & Ho & Ht).
  split_and!; intros; rewrite ?Hn, ?Hv, ?Hd, ?Hn'; eauto;
    case_decide; subst; eauto; unfold prev_of, data_of; by rewrite Hn'.
Qed.

Lemma set_prev_run p q s :
  is_Some (get_node s p) ->
  exists s', set_prev p q s = (Ret tt, s') /\
    (forall x, next_of s' x = next_of s x) /\
    (forall x, prev_of s' x = if decide (x = p) then Some q else prev_of s x) /\
    (forall x, data_of s' x = data_of s x) /\
    (forall x, owned s' x = owned s x) /\ (forall X, p ∈ X -> touches X [] s s').
Proof.
  intros Hp. destruct (update_node_run p (with_prev q) s Hp) as (s' & Hr & Hu).
  exists s'. split; [done|]. destruct (upd_obs _ _ _ _ Hu) as (Hn & Hv & Hd).
  destruct Hu as ([n Hn'] & _ & Ho & Ht).
  split_and!; intros; rewrite ?Hn, ?Hv, ?Hd, ?Hn'; eauto;
    case_decide; subst; eauto; unfold next_of, data_of; by rewrite Hn'.
Qed.

Lemma set_data_run p (f : ListNode -> ListNode) s n :
  get_node s p = Some n ->
  (forall n, ln_next (f n) = ln_next n /\ ln_prev (f n) = ln_prev n) ->
  exists s', update_node p f s = (Ret tt, s') /\
    (forall x, next_of s' x = next_of s x) /\ (forall x, prev_of s' x = prev_of s x) /\
    (forall x, data_of s' x =
       if decide (x = p) then Some (ln_value (f n), ln_refcount (f n)) else data_of s x) /\
    get_node s' p = Some (f n) /\
    (forall x, owned s' x = owned s x) /\ (forall X, p ∈ X -> touches X [] s s').
Proof.
  intros Hp Hf. destruct (update_node_run p f s ltac:(eauto)) as (s' & Hr & Hu).
  exists s'. split; [done|]. destruct (upd_obs _ _ _ _ Hu) as (Hn & Hv & Hd).
  destruct Hu as (_ & Hg & Ho & Ht). rewrite Hp in Hn, Hv, Hd, Hg.
  split_and!; intros; rewrite ?Hn, ?Hv, ?Hd, ?Hg; eauto;
    case_decide; simplify_eq; eauto; unfold next_of, prev_of; rewrite ?Hp; simpl;
    f_equal; by apply Hf.
Qed.

(** *** Paths *)

Lemma last_addr_app h cs1 cs2 :
  last_addr h (cs1 ++ cs2) = last_addr (last_addr h cs1) cs2.
Proof.
  unfold last_addr, addrs. rewrite fmap_app, last_app.
  by destruct (last (cell_addr <$> cs2)).
Qed.

Lemma last_addr_cons p c cs : last_addr p (c :: cs) = last_addr (cell_addr c) cs.
Proof. exact (last_addr_app p [c] cs). Qed.

Lemma last_addr_in h cs : last_addr h cs ∈ h :: addrs cs.
Proof.
  unfold last_addr. destruct (last (addrs cs)) eqn:E; simpl; [|set_solver].
  apply elem_of_cons; right. by apply last_Some_elem_of.
Qed.

Lemma lpath_app s p cs1 cs2 :
  lpath s p (cs1 ++ cs2) <-> lpath s p cs1 /\ lpath s (last_addr p cs1) cs2.
Proof.
  revert p. induction cs1 as [|[[a v] r] cs1 IH]; intros p; simpl; [tauto|].
  rewrite IH, last_addr_cons. tauto.
Qed.

(** A path only depends on the [next] fields before its last node and on the
    other fields after its first node. *)
Lemma lpath_frame s s' p cs :
  NoDup (p :: addrs cs) ->
  (forall x, x ∈ p :: addrs cs -> x <> last_addr p cs -> next_of s' x = next_of s x) ->
  (forall x, x ∈ addrs cs -> prev_of s' x = prev_of s x /\ data_of s' x = data_of s x) ->
  lpath s p cs -> lpath s' p cs.
Proof.
  revert p. induction cs as [|[[a v] r] cs IH]; intros p Hnd Hn Hp; [done|].
  simpl in *. unfold cell_addr in *; simpl in *.
  rewrite last_addr_cons in Hn. apply NoDup_cons in Hnd as [Hpn Hnd].
  destruct (Hp a ltac:(set_solver)) as [Hpa Hda].
  intros ([Hl1 Hl2] & Hd & Hpath). split_and!.
  - split; [|by rewrite Hpa]. rewrite Hn; [done|set_solver|].
    intros ->. by apply Hpn, last_addr_in.
  - by rewrite Hda.
  - apply IH; try done; set_solver.
Qed.

Lemma dll_frame s s' h cs :
  (forall x, x ∈ h :: addrs cs ->
     next_of s' x = next_of s x /\ prev_of s' x = prev_of s x /\ data_of s' x = data_of s x) ->
  dll s h cs -> dll s' h cs.
Proof.
  intros Hx (Hnd & Hp & [Hl1 Hl2]). split_and!; [done| |split].
  - apply (lpath_frame s); [done| | |done]; set_solver.
  - rewrite <-Hl1. apply Hx, last_addr_in.
  - rewrite <-Hl2. apply Hx. set_solver.
Qed.

Lemma dll_frame_node s s' h cs :
  (forall x, x ∈ h :: addrs cs -> get_node s' x = get_node s x) -> dll s h cs -> dll s' h cs.
Proof.
  intros Hx. apply dll_frame. intros x Hin. unfold next_of, prev_of, data_of.
  by rewrite Hx.
Qed.

Lemma dll_head_node s h cs : dll s h cs -> is_Some (get_node s h).
Proof. intros (_ & _ & [_ Hp]). by eapply prev_of_node. Qed.

Lemma dll_cell s h cs a v r :
  dll s h cs -> (a, v, r) ∈ cs -> data_of s a = Some (v, r) /\ is_Some (get_node s a).
Proof.
  intros (_ & Hp & _) (cs1 & cs2 & ->)%list_elem_of_split.
  apply lpath_app in Hp as [_ [[_ Hl] [Hd _]]]. split; [done|]. by eapply prev_of_node.
Qed.

Lemma dll_nodes s h cs x : dll s h cs -> x ∈ h :: addrs cs -> is_Some (get_node s x).
Proof.
  intros Hdll [->|Hx]%elem_of_cons; [by eapply dll_head_node|].
  apply list_elem_of_fmap in Hx as ([[a v] r] & -> & Hin). by eapply dll_cell.
Qed.

Lemma dll_fuel s h cs : dll s h cs -> (length cs < node_bound s)%nat.
Proof.
  intros Hdll. assert (length (h :: addrs cs) <= node_bound s)%nat as Hb.
  { apply node_bound_spec; [by apply Hdll|]. intros; by eapply dll_nodes. }
  unfold addrs in Hb. simpl in Hb. rewrite length_fmap in Hb. lia.
Qed.

(** *** The operations *)

(** Chain the [touches] facts of consecutive updates. *)
Ltac touches_chain :=
  repeat match goal with
  | H : forall X, ?p ∈ X -> touches X [] ?s ?s' |- touches _ _ ?s ?s' => apply H; set_solver
  | H : forall X, ?p ∈ X -> touches X [] ?s ?s1 |- touches _ _ ?s _ =>
      eapply touches_trans; [apply H; set_solver|]
  end.

Lemma assert_non_null_node line s p :
  is_Some (get_node s p) -> assert_non_null_at line p s = (Ret tt, s).
Proof. intros Hp. apply assert_non_null_run. by eapply is_node_NULL. Qed.

Lemma list_initialize_spec s p :
  is_Some (get_node s p) ->
  exists s', list_initialize p s = (Ret p, s') /\ dll s' p [] /\
    data_of s' p = Some (NULL, 1) /\
    (forall x, owned s' x = owned s x) /\ touches [p] [] s s'.
Proof.
  intros [n Hn]. unfold list_initialize, set_value, set_refcount.
  destruct (set_data_run p (with_value NULL) s n Hn ltac:(done))
    as (s1 & R1 & _ & _ & D1 & G1 & O1 & T1). mrun R1.
  destruct (set_next_run p p s1 ltac:(eauto)) as (s2 & R2 & N2 & P2 & D2 & O2 & T2). mrun R2.
  assert (is_Some (get_node s2 p)) as Hs2.
  { apply (next_of_node _ _ p). by rewrite N2, decide_True. }
  destruct (set_prev_run p p s2 Hs2) as (s3 & R3 & N3 & P3 & D3 & O3 & T3). mrun R3.
  assert (exists n3, get_node s3 p = Some n3) as [n3 Hn3].
  { apply (next_of_node _ _ p). by rewrite N3, N2, decide_True. }
  destruct (set_data_run p (with_refcount 1) s3 n3 Hn3 ltac:(done))
    as (s4 & R4 & N4 & P4 & D4 & _ & O4 & T4). mrun R4.
  exists s4. split_and!; [done| | | |].
  - split_and!; [by apply NoDup_singleton|done|split].
    + unfold last_addr; simpl. by rewrite N4, N3, N2, decide_True.
    + by rewrite P4, P3, decide_True.
  - rewrite D4, decide_True by done. simpl. repeat f_equal.
    assert (data_of s3 p = Some (NULL, ln_refcount n)) as Hd
      by (by rewrite D3, D2, D1, decide_True).
    unfold data_of in Hd. rewrite Hn3 in Hd. simpl in Hd. congruence.
  - intros x. by rewrite O4, O3, O2, O1.
  - touches_chain.
Qed.

Lemma NoDup_snoc_cell h cs n v r :
  NoDup (h :: addrs cs) -> (n ∉ h :: addrs cs) -> NoDup (h :: addrs (cs ++ [(n, v, r)])).
Proof.
  intros Hnd Hn. unfold addrs in *. rewrite fmap_app, app_comm_cons.
  apply NoDup_app. split_and!; [done| |apply NoDup_singleton].
  simpl. intros x Hx ->%list_elem_of_singleton. done.
Qed.

Lemma list_add_spec s h cs n v r :
  dll s h cs -> data_of s n = Some (v, r) -> (n ∉ h :: addrs cs) ->
  exists s', list_add h n s = (Ret n, s') /\ dll s' h (cs ++ [(n, v, r)]) /\
    data_of s' h = data_of s h /\
    (forall x, owned s' x = owned s x) /\ touches (n :: h :: addrs cs) [] s s'.
Proof.
  intros Hdll Hd Hfresh. pose proof Hdll as (Hnd & Hpath & [Hl1 Hl2]).
  assert (is_Some (get_node s n)) as Hn.
  { unfold data_of in Hd. destruct (get_node s n); [eauto|done]. }
  set (t := last_addr h cs) in *.
  assert (t ∈ h :: addrs cs) as Ht by apply last_addr_in.
  assert (n <> h /\ n <> t) as [Hnh Hnt] by (split; intros ->; set_solver).
  unfold list_add.
  mrun (assert_non_null_node 663 s h (dll_head_node s h cs Hdll)).
  mrun (assert_non_null_node 664 s n Hn).
  destruct (set_next_run n h s Hn) as (s1 & R1 & N1 & P1 & D1 & O1 & T1). mrun R1.
  assert (prev_of s1 h = Some t) as Hp1 by by rewrite P1. mrun (get_prev_run s1 h t Hp1).
  assert (is_Some (get_node s1 n)) as Hn1.
  { apply (next_of_node _ _ h). by rewrite N1, decide_True. }
  destruct (set_prev_run n t s1 Hn1) as (s2 & R2 & N2 & P2 & D2 & O2 & T2). mrun R2.
  assert (prev_of s2 h = Some t) as Hp2.
  { by rewrite P2, decide_False. }
  mrun (get_prev_run s2 h t Hp2).
  assert (is_Some (get_node s2 t)) as Hn2.
  { apply (next_of_node _ _ h). by rewrite N2, N1, decide_False. }
  destruct (set_next_run t n s2 Hn2) as (s3 & R3 & N3 & P3 & D3 & O3 & T3). mrun R3.
  assert (is_Some (get_node s3 h)) as Hn3.
  { apply (prev_of_node _ _ t). by rewrite P3. }
  destruct (set_prev_run h n s3 Hn3) as (s4 & R4 & N4 & P4 & D4 & O4 & T4). mrun R4.
  exists s4. split_and!; [done| | | |].
  - split_and!; [by apply NoDup_snoc_cell| |].
    + apply lpath_app. split; [|simpl; split_and!; [split| |done]].
      * apply (lpath_frame s); [done| | |done]; intros x Hx.
        { intros Hxl. rewrite N4, N3, decide_False, N2, N1, decide_False by set_solver. done. }
        split; [|by rewrite D4, D3, D2, D1].
        apply NoDup_cons in Hnd as [Hnd _].
        rewrite P4, decide_False, P3, P2, decide_False, P1 by set_solver. done.
      * fold t. by rewrite N4, N3, decide_True.
      * fold t. by rewrite P4, decide_False, P3, P2, decide_True.
      * by rewrite D4, D3, D2, D1.
    + rewrite last_addr_app. split.
      * change (next_of s4 n = Some h). by rewrite N4, N3, decide_False, N2, N1, decide_True.
      * change (prev_of s4 h = Some n). by rewrite P4, decide_True.
  - by rewrite D4, D3, D2, D1.
  - intros x. by rewrite O4, O3, O2, O1.
  - touches_chain.
Qed.

(** The neighbours of a cell. *)
Lemma dll_around s h cs1 a v r cs2 :
  dll s h (cs1 ++ (a, v, r) :: cs2) ->
  exists b, b = default h (head (addrs cs2)) /\ next_of s a = Some b /\ prev_of s b = Some a /\
    prev_of s a = Some (last_addr h cs1) /\ next_of s (last_addr h cs1) = Some a /\
    data_of s a = Some (v, r) /\ a <> last_addr h cs1 /\ a <> b.
Proof.
  intros (Hnd & Hpath & Hlast). apply lpath_app in Hpath as [_ [[Hna Hpa] [Hda Hpath2]]].
  rewrite last_addr_app, last_addr_cons in Hlast. simpl in Hlast.
  unfold addrs in Hnd. rewrite fmap_app, fmap_cons in Hnd. simpl in Hnd. fold (addrs cs1) (addrs cs2) in Hnd.
  rewrite app_comm_cons in Hnd. apply NoDup_app_cons_middle in Hnd as (Ha1 & Ha2 & _).
  pose proof (last_addr_in h cs1) as Ht. exists (default h (head (addrs cs2))).
  assert (default h (head (addrs cs2)) ∈ h :: addrs cs2) as Hb by (destruct cs2; simpl; set_solver).
  split_and!; try done; [..|intros Heq; rewrite <-Heq in Ht; set_solver|intros Heq; rewrite <-Heq in Hb; set_solver].
  - destruct cs2 as [|[[b ?] ?] cs2]; [apply Hlast|apply Hpath2].
  - destruct cs2 as [|[[b ?] ?] cs2]; [apply Hlast|apply Hpath2].
Qed.

(** The list after its links go around a cell. *)
Lemma dll_unlink s s2 h cs1 a v r cs2 :
  let t := last_addr h cs1 in
  let b := default h (head (addrs cs2)) in
  dll s h (cs1 ++ (a, v, r) :: cs2) ->
  (forall x, next_of s2 x = if decide (x = t) then Some b else next_of s x) ->
  (forall x, prev_of s2 x = if decide (x = b) then Some t else prev_of s x) ->
  (forall x, data_of s2 x = data_of s x) ->
  dll s2 h (cs1 ++ cs2).
Proof.
  intros t b (Hnd & Hpath & Hlast) N P D.
  apply lpath_app in Hpath as [Hpath1 [_ [_ Hpath2]]].
  rewrite last_addr_app, last_addr_cons in Hlast. simpl in Hlast.
  unfold addrs in Hnd. rewrite fmap_app, fmap_cons in Hnd. simpl in Hnd. fold (addrs cs1) (addrs cs2) in Hnd.
  rewrite app_comm_cons in Hnd. apply NoDup_app_cons_middle in Hnd as (_ & _ & Hnd').
  assert (h :: addrs (cs1 ++ cs2) = (h :: addrs cs1) ++ addrs cs2) as Happ by (unfold addrs; by rewrite fmap_app).
  pose proof (last_addr_in h cs1) as Ht. fold t in Ht.
  assert (b ∈ h :: addrs cs2) as Hbin by (unfold b; destruct cs2; simpl; set_solver).
  split_and!; [by rewrite Happ| |].
  - apply lpath_app. split.
    + apply NoDup_app in Hnd' as (Hnd1 & Hdisj & _). apply (lpath_frame s); [done| | |done]; intros x Hx.
      { intros Hxl. by rewrite N, decide_False. }
      split; [|by rewrite D]. rewrite P, decide_False; [done|].
      intros ->. apply elem_of_cons in Hbin as [Heq|Hin]; [|set_solver].
      rewrite Heq in Hx. by apply NoDup_cons in Hnd1 as [? _].
    + fold t. destruct cs2 as [|[[c v'] r'] cs2]; [done|]. simpl in *. subst b.
      destruct Hpath2 as (_ & Hd' & Hpath2). split_and!; [split| |].
      { by rewrite N, decide_True. } { by rewrite P, decide_True. } { by rewrite D. }
      unfold cell_addr in *; simpl in *. rewrite app_comm_cons in Hnd'.
      apply NoDup_app in Hnd' as (_ & Hdisj & Hnd2). apply (lpath_frame s); [done| | |done]; intros x Hx.
      { intros _. rewrite N, decide_False; [done|]. intros ->. set_solver. }
      split; [|by rewrite D]. apply NoDup_cons in Hnd2 as [Hnd2 _]. rewrite P, decide_False; [done|]. intros ->. done.
  - rewrite last_addr_app. fold t. destruct cs2 as [|c cs2].
    + simpl in *. split; [by rewrite N, decide_True|by rewrite P, decide_True].
    + rewrite last_addr_cons in *. destruct c as [[c v'] r']. simpl in *. subst b.
      unfold cell_addr in *; simpl in *. destruct Hlast as [Hl1 Hl2].
      rewrite app_comm_cons in Hnd'. apply NoDup_app in Hnd' as (Hnd1 & Hdisj & Hnd2).
      pose proof (last_addr_in c cs2) as Hlin. split.
      { rewrite N, decide_False; [done|]. intros Heq. rewrite Heq in Hlin. set_solver. }
      { rewrite P, decide_False; [done|]. intros ->. set_solver. }
Qed.

(** The unlinking part of [list_remove], whatever the cleanup does next. *)
Lemma list_remove_unlink s h cs1 a v r cs2 :
  dll s h (cs1 ++ (a, v, r) :: cs2) ->
  exists s', dll s' h (cs1 ++ cs2) /\
    (forall cleanup, list_remove a cleanup s =
       (match cleanup with Some f => f v | None => mret tt end;; mret a) s') /\
    (forall x, data_of s' x = data_of s x) /\ (forall x, owned s' x = owned s x) /\
    touches (h :: addrs (cs1 ++ (a, v, r) :: cs2)) [] s s'.
Proof.
  intros Hdll. destruct (dll_around _ _ _ _ _ _ _ Hdll) as (b & Hb & Hnb & Hpb & Hpa & Hna & Hda & Hat & Hab).
  set (t := last_addr h cs1) in *.
  assert (t ∈ h :: addrs cs1) as Ht by apply last_addr_in.
  assert (b ∈ h :: addrs cs2) as Hbin by (subst b; destruct cs2; simpl; set_solver).
  destruct (set_next_run t b s (next_of_node _ _ _ Hna)) as (s1 & R1 & N1 & P1 & D1 & O1 & T1).
  assert (next_of s1 a = Some b) as Hnb1 by by rewrite N1, decide_False.
  assert (prev_of s1 a = Some t) as Hpa1 by by rewrite P1.
  assert (is_Some (get_node s1 b)) as Hb1 by (apply (prev_of_node _ _ a); by rewrite P1).
  destruct (set_prev_run b t s1 Hb1) as (s2 & R2 & N2 & P2 & D2 & O2 & T2).
  exists s2. split_and!.
  - eapply dll_unlink; [exact Hdll|..]; intros x; rewrite ?N2, ?N1, ?P2, ?P1, ?D2, ?D1, <-?Hb; done.
  - intros cleanup. unfold list_remove.
    mrun (assert_non_null_node 677 s a (prev_of_node _ _ _ Hpa)).
    mrun (get_prev_run s a t Hpa). mrun (get_next_run s a b Hnb). mrun R1.
    mrun (get_next_run s1 a b Hnb1). mrun (get_prev_run s1 a t Hpa1). mrun R2.
    destruct cleanup; [|done].
    assert (data_of s2 a = Some (v, r)) as Hd2 by (by rewrite D2, D1).
    by rewrite !bind_eq, (get_value_run s2 a v r Hd2).
  - intros x. by rewrite D2, D1.
  - intros x. by rewrite O2, O1.
  - unfold addrs in *. rewrite fmap_app, fmap_cons. touches_chain.
Qed.

Lemma free_run s p : p <> NULL -> owned s p = true -> free p s = (Ret tt, drop p s).
Proof. intros Hp Ho. unfold free. rewrite (proj2 (Z.eqb_neq _ _) Hp). by rewrite Ho. Qed.

(** [list_remove_free] with a cleanup that returns: unlink, clean, free. *)
Lemma list_remove_free_spec s h cs1 a v r cs2 :
  dll s h (cs1 ++ (a, v, r) :: cs2) -> owned s a = true ->
  exists s', dll s' h (cs1 ++ cs2) /\
    (forall x, data_of s' x = data_of s x) /\ (forall x, owned s' x = owned s x) /\
    touches (h :: addrs (cs1 ++ (a, v, r) :: cs2)) [] s s' /\
    list_remove_free a None s = (Ret tt, drop a s') /\
    (forall f s3, f v s' = (Ret tt, s3) -> owned s3 a = true ->
       list_remove_free a (Some f) s = (Ret tt, drop a s3)).
Proof.
  intros Hdll Ho. destruct (list_remove_unlink s h cs1 a v r cs2 Hdll)
    as (s' & Hdll' & Hr & Hd & Ho' & Ht).
  assert (is_Some (get_node s a)) as Ha
    by (eapply dll_cell; [done|apply elem_of_app; right; left]).
  assert (a <> NULL) as Hnz by by eapply is_node_NULL.
  exists s'. split_and!; try done; unfold list_remove_free.
  - mrun (assert_non_null_node 691 s a Ha).
    rewrite bind_eq, Hr. simpl. apply free_run; [done|]. by rewrite Ho'.
  - intros f s3 Hf Ho3. mrun (assert_non_null_node 691 s a Ha).
    rewrite bind_eq, Hr, (bind_run _ _ _ _ _ Hf). simpl. by apply free_run.
Qed.

Lemma list_empty_run s h cs :
  dll s h cs -> list_empty h s = (Ret (bool_decide (cs = [])), s).
Proof.
  intros Hdll. unfold list_empty.
  mrun (assert_non_null_node 715 s h (dll_head_node s h cs Hdll)).
  pose proof Hdll as (Hnd & Hpath & [Hl1 Hl2]). destruct cs as [|[[a v] r] cs]; simpl in *.
  - mrun (get_next_run s h h Hl1). unfold mret, M_ret. by rewrite bool_decide_true.
  - destruct Hpath as [[Hn _] _]. mrun (get_next_run s h a Hn).
    unfold mret, M_ret. rewrite bool_decide_false; [done|].
    intros ->. apply NoDup_cons in Hnd as [Hnd _]. set_solver.
Qed.

Lemma dll_next_first s h a v r cs : dll s h ((a, v, r) :: cs) -> get_next h s = (Ret a, s).
Proof. intros (_ & [[Hn _] _] & _). by apply get_next_run. Qed.

Lemma list_first_run s h cs :
  dll s h cs -> list_first h s = (Ret (head (addrs cs)), s).
Proof.
  intros Hdll. unfold list_first.
  mrun (assert_non_null_node 740 s h (dll_head_node s h cs Hdll)).
  mrun (list_empty_run s h cs Hdll). destruct cs as [|[[a v] r] cs]; [done|].
  rewrite bool_decide_false by done. by mrun (dll_next_first s h a v r cs Hdll).
Qed.

Lemma list_find_loop_run s h (f : ptr -> M S bool) (g : ptr -> bool) cs p fuel :
  NoDup (h :: addrs cs) -> lpath s p cs -> next_of s (last_addr p cs) = Some h ->
  (forall a v r, (a, v, r) ∈ cs -> f v s = (Ret (g v), s)) -> (length cs < fuel)%nat ->
  forall c, next_of s p = Some c ->
  list_find_loop fuel h c f s =
    (Ret (cell_addr <$> List.find (fun c => g c.1.2) cs), s).
Proof.
  revert p fuel. induction cs as [|[[a v] r] cs IH]; intros p [|fuel] Hnd Hp Hl Hf Hfuel c Hc;
    simpl in Hfuel; try lia; simpl.
  - unfold last_addr in Hl. simpl in Hl. rewrite Hc in Hl. simplify_eq.
    by rewrite decide_True.
  - destruct Hp as ([Hn Hpr] & Hd & Hp). rewrite Hc in Hn. simplify_eq.
    apply NoDup_cons in Hnd as [Hh Hnd]. apply NoDup_cons in Hnd as [Ha Hnd].
    unfold cell_addr in *; simpl in *.
    rewrite decide_False by (intros ->; set_solver).
    mrun (get_value_run s a v r Hd).
    mrun (Hf a v r ltac:(set_solver)). destruct (g v) eqn:Hg; [done|].
    rewrite last_addr_cons in Hl. unfold cell_addr in Hl; simpl in Hl.
    assert (exists b, next_of s a = Some b) as [b Hb].
    { destruct cs as [|[[b v'] r'] cs]; [eauto|]. destruct Hp as [[] _]. eauto. }
    mrun (get_next_run s a b Hb). apply (IH a fuel); try done; [|set_solver|lia].
    apply NoDup_cons. set_solver.
Qed.

(** [list_find] returns the first node whose value satisfies [equal_func]. *)
Lemma list_find_run s h (f : ptr -> M S bool) (g : ptr -> bool) cs :
  dll s h cs -> (forall a v r, (a, v, r) ∈ cs -> f v s = (Ret (g v), s)) ->
  list_find h f s = (Ret (cell_addr <$> List.find (fun c => g c.1.2) cs), s).
Proof.
  intros Hdll Hf. pose proof Hdll as (Hnd & Hpath & [Hl1 Hl2]). unfold list_find.
  mrun (assert_non_null_node 727 s h (dll_head_node s h cs Hdll)).
  assert (exists c, next_of s h = Some c) as [c Hc].
  { destruct cs as [|[[b v'] r'] cs]; [eauto|]. destruct Hpath as [[] _]. eauto. }
  mrun (get_next_run s h c Hc). mprim.
  apply (list_find_loop_run s h f g cs h); try done. pose proof (dll_fuel s h cs Hdll). lia.
Qed.

Lemma alloc_not_node s p s1 q :
  alloc_node s = (p, s1) -> p <> NULL -> is_Some (get_node s q) -> q <> p.
Proof.
  intros Ha Hp [n Hq] ->. apply alloc_node_fresh in Ha as [Hn _]; [|done]. congruence.
Qed.

Lemma list_add_value_spec s h cs v r p s1 :
  dll s h cs -> v <> NULL -> alloc_node s = (p, s1) -> p <> NULL ->
  exists s', list_add_value h v r s = (Ret p, s') /\ dll s' h (cs ++ [(p, v, r)]) /\
    data_of s' h = data_of s h /\ owned s' p = true /\
    (forall x, x <> p -> owned s' x = owned s x) /\ touches (p :: h :: addrs cs) [p] s s'.
Proof.
  intros Hdll Hv Ha Hp.
  pose proof (fun q => alloc_not_node s p s1 q Ha Hp) as Hne.
  pose proof Ha as (Hgp & Hop & [n Hn] & Ho1 & Hsame)%alloc_node_fresh; [|done].
  assert (dll s1 h cs) as Hdll1.
  { eapply dll_frame_node; [|done]. intros x Hx.
    apply Hsame, Hne. by eapply dll_nodes. }
  unfold list_add_value.
  assert ((let '(p, s') := alloc_node s in (Ret p, s')) = (Ret p, s1)) as Ralloc by (by rewrite Ha).
  mrun Ralloc.
  mrun (assert_non_null_node 653 s1 h (dll_head_node s1 h cs Hdll1)).
  mrun (assert_non_null_run s1 654 v Hv).
  destruct (set_data_run p (with_value v) s1 n Hn ltac:(done))
    as (s2 & R2 & N2 & P2 & D2 & G2 & O2 & T2). mrun R2.
  destruct (set_data_run p (with_refcount r) s2 _ G2 ltac:(done))
    as (s3 & R3 & N3 & P3 & D3 & G3 & O3 & T3). mrun R3.
  assert (forall x, x ∈ h :: addrs cs -> x <> p) as Hnp.
  { intros x Hx. apply Hne. by eapply dll_nodes. }
  assert (dll s3 h cs) as Hdll3.
  { eapply dll_frame; [|done]. intros x Hx. rewrite N3, P3, D3, N2, P2, D2.
    rewrite !decide_False by auto. done. }
  destruct (list_add_spec s3 h cs p v r Hdll3) as (s4 & R4 & Hdll4 & Hd4 & O4 & T4).
  { rewrite D3, decide_True by done. done. }
  { intros Hx. by apply (Hnp p). }
  exists s4. split_and!; try done.
  - rewrite Hd4, D3, D2, !decide_False by (apply Hnp; set_solver).
    unfold data_of. by rewrite (proj1 (Hsame h ltac:(apply Hnp; set_solver))).
  - by rewrite O4, O3, O2.
  - intros x Hx. rewrite O4, O3, O2. by apply Hsame.
  - apply (touch_alloc _ _ s s1 s4 p); [set_solver|done|done|].
    apply (touches_mono (p :: h :: addrs cs) []); [done|set_solver|].
    eapply touches_trans; [apply T2; set_solver|].
    eapply touches_trans; [apply T3; set_solver|]. done.
Qed.

(** *** Freeing a list *)

Definition agree X s s' : Prop :=
  forall x, x ∈ X -> get_node s' x = get_node s x /\ owned s' x = owned s x.
Definition gone s x : Prop := get_node s x = None /\ owned s x = false.

(** [f v] frees exactly the allocations [X], in every memory which agrees
    with [s] on them. *)
Definition cleans s (f : M S unit) X : Prop :=
  forall s0, agree X s s0 ->
  exists s1, f s0 = (Ret tt, s1) /\ touches X X s0 s1 /\ (forall x, x ∈ X -> gone s1 x).

Lemma touches_agree W D Y s s' :
  touches W D s s' -> (forall x, x ∈ Y -> (x ∉ W) /\ (x ∉ D)) -> agree Y s s'.
Proof.
  intros Ht Hd x Hx. destruct (Hd x Hx).
  split; [eapply touches_get|eapply touches_owned]; eauto.
Qed.

Lemma cleans_agree s s' f X : agree X s s' -> cleans s f X -> cleans s' f X.
Proof.
  intros Ha Hc s0 Ha'. apply Hc. intros x Hx.
  destruct (Ha' x Hx) as [-> ->], (Ha x Hx) as [-> ->]. done.
Qed.

(** The whole footprint of a list: its nodes and what its cleanup frees. *)
Definition footprint (ccs : list (cell * list ptr)) : list ptr :=
  ccs ≫= (fun c => cell_addr c.1 :: c.2).

Lemma footprint_addrs ccs x : x ∈ addrs ccs.*1 -> x ∈ footprint ccs.
Proof.
  induction ccs as [|[c X] ccs IH]; [done|].
  change (x ∈ cell_addr c :: addrs ccs.*1 -> x ∈ cell_addr c :: X ++ footprint ccs).
  set_solver.
Qed.

(** One iteration of the loop of [list_free]. *)
Lemma list_free_step s h f a v r X ccs :
  dll s h ((a, v, r) :: ccs.*1) -> owned s a = true ->
  NoDup (h :: footprint (((a, v, r), X) :: ccs)) -> cleans s (f v) X ->
  exists s', list_remove_free a (Some f) s = (Ret tt, s') /\ dll s' h ccs.*1 /\
    data_of s' h = data_of s h /\
    touches (h :: a :: X ++ addrs ccs.*1) (a :: X) s s' /\
    (forall x, x ∈ a :: X -> gone s' x) /\
    (forall x, x ∈ footprint ccs -> (x ∉ addrs ccs.*1) -> get_node s' x = get_node s x) /\
    (forall x, x ∈ footprint ccs -> owned s' x = owned s x).
Proof.
  intros Hdll Ho Hnd Hc.
  change (footprint (((a, v, r), X) :: ccs)) with (a :: X ++ footprint ccs) in Hnd.
  apply NoDup_cons in Hnd as [Hh Hnd]. apply NoDup_cons in Hnd as [Ha Hnd].
  apply NoDup_app in Hnd as (HX & Hdisj & Hnd).
  destruct (list_remove_free_spec s h [] a v r ccs.*1 Hdll Ho)
    as (s1 & Hdll1 & Hd1 & Ho1 & Ht1 & _ & Hrun).
  change (touches (h :: a :: addrs ccs.*1) [] s s1) in Ht1.
  assert (forall x, x ∈ addrs ccs.*1 -> x ∈ footprint ccs) as Hfp by apply footprint_addrs.
  destruct (Hc s1) as (s2 & Hf & Ht2 & Hg).
  { eapply touches_agree; [done|]. set_solver. }
  assert (owned s2 a = true) as Ho2.
  { rewrite (touches_owned X X s1) by (done || set_solver). by rewrite Ho1. }
  specialize (Hrun f s2 Hf Ho2). exists (drop a s2).
  assert (forall x, x <> a -> (x ∉ X) -> get_node (drop a s2) x = get_node s1 x) as Hg2.
  { intros x Hxa HxX. rewrite get_drop, decide_False by done. by eapply touches_get. }
  split_and!; try done.
  - eapply dll_frame_node; [|exact Hdll1]. intros x Hx. apply Hg2; set_solver.
  - rewrite <-Hd1. unfold data_of. rewrite Hg2; set_solver.
  - eapply touches_trans; [eapply touches_mono; [| |exact Ht1]; set_solver|].
    eapply touches_trans; [eapply touches_mono; [| |exact Ht2]; set_solver|].
    apply (touch_drop _ _ s2 _ a); [set_solver|done|apply touch_none].
  - intros x Hx. unfold gone. rewrite get_drop, owned_drop. case_decide; [done|].
    apply Hg. set_solver.
  - intros x Hx Hna. rewrite Hg2 by set_solver. eapply touches_get; [done|set_solver..].
  - intros x Hx. rewrite owned_drop, decide_False by set_solver.
    rewrite (touches_owned X X s1) by (done || set_solver). done.
Qed.

Lemma footprint_disjoint_addrs l1 c l2 x :
  NoDup (footprint (l1 ++ c :: l2)) -> x ∈ c.2 -> x ∈ addrs (l1 ++ c :: l2).*1 -> False.
Proof.
  unfold footprint. rewrite bind_app, bind_cons.
  intros (_ & Hd1 & Hnd)%NoDup_app Hx Hin. unfold addrs in Hin.
  rewrite !fmap_app, !fmap_cons in Hin.
  apply NoDup_app in Hnd as (Hc & Hd2 & _). apply NoDup_cons in Hc as [Hc _].
  assert (forall l, x ∈ cell_addr <$> l.*1 -> x ∈ footprint l) as Hfp by (intros; by apply footprint_addrs).
  apply elem_of_app in Hin as [Hin|Hin].
  - apply Hfp in Hin. apply (Hd1 x Hin). set_solver.
  - apply elem_of_cons in Hin as [->|Hin]; [done|]. apply Hfp in Hin.
    apply (Hd2 x); [set_solver|done].
Qed.

Lemma list_free_loop_spec f ccs : forall s h fuel,
  dll s h ccs.*1 -> Forall (fun c => owned s (cell_addr c.1) = true) ccs ->
  NoDup (h :: footprint ccs) ->
  Forall (fun c => cleans s (f c.1.1.2) c.2) ccs -> (length ccs < fuel)%nat ->
  exists s', list_free_loop fuel h (Some f) s = (Ret tt, s') /\ dll s' h [] /\
    data_of s' h = data_of s h /\ touches (h :: footprint ccs) (footprint ccs) s s' /\
    (forall x, x ∈ footprint ccs -> gone s' x).
Proof.
  induction ccs as [|[[[a v] r] X] ccs IH]; intros s h fuel Hdll Ho Hnd Hc Hfuel;
    destruct fuel as [|fuel]; simpl in Hfuel; try lia; simpl list_free_loop.
  - mrun (list_empty_run s h [] Hdll). exists s. split_and!; try done; [constructor|set_solver].
  - mrun (list_empty_run s h _ Hdll). rewrite bool_decide_false by done.
    mrun (dll_next_first s h a v r _ Hdll).
    apply Forall_cons in Ho as [Hoa Ho]. apply Forall_cons in Hc as [Hca Hc].
    destruct (list_free_step s h f a v r X ccs Hdll Hoa Hnd Hca)
      as (s1 & R1 & Hdll1 & Hd1 & Ht1 & Hg1 & Hf1 & Ho1). mrun R1.
    change (footprint (((a, v, r), X) :: ccs)) with (a :: X ++ footprint ccs) in *.
    apply NoDup_cons in Hnd as [Hh Hnd]. pose proof Hnd as Hnd0.
    apply NoDup_cons in Hnd as [Ha Hnd]. apply NoDup_app in Hnd as (HX & Hdisj & Hnd).
    assert (forall x, x ∈ addrs ccs.*1 -> x ∈ footprint ccs) as Hfp by apply footprint_addrs.
    destruct (IH s1 h fuel Hdll1) as (s' & R' & Hdll' & Hd' & Ht' & Hg').
    + rewrite Forall_forall in Ho |- *. intros c Hin. rewrite Ho1; [by apply Ho|].
      apply Hfp. unfold addrs. by do 2 apply list_elem_of_fmap_2.
    + apply NoDup_cons. set_solver.
    + rewrite Forall_forall in Hc |- *. intros c Hin.
      eapply cleans_agree; [|by apply Hc].
      apply list_elem_of_split in Hin as (l1 & l2 & ->).
      assert (forall x, x ∈ c.2 -> x ∈ footprint (l1 ++ c :: l2)) as Hcin.
      { intros x Hx. unfold footprint. rewrite bind_app, bind_cons. set_solver. }
      intros x Hx. split; [|by apply Ho1, Hcin].
      apply Hf1; [by apply Hcin|]. intros Hxa.
      eapply footprint_disjoint_addrs; [exact Hnd|exact Hx|done].
    + lia.
    + exists s'. split_and!; try done; [by rewrite Hd'| |].
      * eapply touches_trans; [eapply touches_mono; [| |exact Ht1]; set_solver|].
        eapply touches_mono; [| |exact Ht']; set_solver.
      * intros x Hx. rewrite app_comm_cons in Hx. apply elem_of_app in Hx as [Hx|Hx]; [|by apply Hg'].
        destruct (Hg1 x Hx) as [G1 G2].
        assert (x ∉ h :: footprint ccs) as Hxn by set_solver.
        split; [rewrite (touches_get _ _ _ _ _ Ht')|rewrite (touches_owned _ _ _ _ _ Ht')];
          done || set_solver.
Qed.

(** [list_free] empties the list and frees its nodes and everything its
    cleanup function is responsible for; it terminates. *)
Lemma list_free_spec f ccs s h :
  dll s h ccs.*1 -> Forall (fun c => owned s (cell_addr c.1) = true) ccs ->
  NoDup (h :: footprint ccs) ->
  Forall (fun c => cleans s (f c.1.1.2) c.2) ccs ->
  exists s', list_free h (Some f) s = (Ret h, s') /\ dll s' h [] /\
    data_of s' h = data_of s h /\ touches (h :: footprint ccs) (footprint ccs) s s' /\
    (forall x, x ∈ footprint ccs -> gone s' x).
Proof.
  intros Hdll Ho Hnd Hc. unfold list_free.
  mrun (assert_non_null_node 705 s h (dll_head_node s h _ Hdll)). mprim.
  destruct (list_free_loop_spec f ccs s h (Datatypes.S (node_bound s)) Hdll Ho Hnd Hc)
    as (s' & R & ?).
  { pose proof (dll_fuel s h _ Hdll). rewrite length_fmap in *. lia. }
  exists s'. mrun R. done.
Qed.

(** Assigning a reference count changes that cell only. *)
Lemma set_refcount_spec s h cs1 a v r cs2 r' :
  dll s h (cs1 ++ (a, v, r) :: cs2) ->
  exists s', set_refcount a r' s = (Ret tt, s') /\ dll s' h (cs1 ++ (a, v, r') :: cs2) /\
    (forall x, x <> a -> data_of s' x = data_of s x) /\
    (forall x, owned s' x = owned s x) /\ touches [a] [] s s'.
Proof.
  intros Hdll. pose proof Hdll as (Hnd & Hpath & Hl).
  destruct (dll_cell s h _ a v r Hdll) as [Hda [n Hn]]; [set_solver|].
  unfold data_of in Hda. rewrite Hn in Hda. simplify_eq/=.
  destruct (set_data_run a (with_refcount r') s n Hn ltac:(done))
    as (s' & R & N & P & D & _ & O & T).
  exists s'. split_and!; try done; [|intros x Hx; by rewrite D, decide_False|apply T; set_solver].
  assert (forall r0, addrs (cs1 ++ (a, ln_value n, r0) :: cs2) =
    addrs (cs1 ++ (a, ln_value n, ln_refcount n) :: cs2)) as Haddrs.
  { intros r0. unfold addrs. by rewrite !fmap_app. }
  split_and!; [by rewrite (Haddrs r')| |].
  - apply lpath_app in Hpath as [Hp1 [Hla [_ Hp2]]].
    unfold addrs in Hnd. rewrite fmap_app in Hnd.
    rewrite app_comm_cons in Hnd. apply NoDup_app in Hnd as (Hnd1 & Hd & Hnd2).
    apply lpath_app. split; [|split_and!].
    + apply (lpath_frame s); [done|intros; apply N| |done].
      intros x Hx. rewrite P, D, decide_False; [done|]. intros ->.
      apply (Hd a); [by apply elem_of_cons; right|by left].
    + destruct Hla. split; [by rewrite N|by rewrite P].
    + by rewrite D, decide_True.
    + apply (lpath_frame s); [done|intros; apply N| |done].
      intros x Hx. rewrite P, D, decide_False; [done|]. intros ->.
      by apply NoDup_cons in Hnd2 as [? _].
  - replace (last_addr h (cs1 ++ (a, ln_value n, r') :: cs2))
      with (last_addr h (cs1 ++ (a, ln_value n, ln_refcount n) :: cs2))
      by (unfold last_addr; by rewrite (Haddrs r')).
    destruct Hl. split; [by rewrite N|by rewrite P].
Qed.
End proofs.
