(* ===== verification/CString.v ===== *)
(** * String helpers: replacement in a buffer, wildcard matching

    [c_strreplace], [c_strmatch] and [cmprepare_xml_attribute_string] of
    src/src/cmocka.c.  A buffer is the list of its bytes, so that an access
    beyond it is undefined behaviour; the C string in it ends at the first
    NUL. *)
From S2P Require Import Prelude CMonad.

Abbreviation ascii := Ascii.ascii (only parsing).
Definition NUL : ascii := Ascii.zero.
Definition EINVAL : Z := 22.

Definition chars (s : string) : list ascii := String.list_ascii_of_string s.
Definition text (l : list ascii) : string := String.string_of_list_ascii l.

(** ** The C library on buffers *)

(** The C string at the start of a buffer. *)
Fixpoint cstr (b : list ascii) : option (list ascii) :=
  match b with
  | [] => None
  | c :: b' => if bool_decide (c = NUL) then Some [] else cons c <$> cstr b'
  end.

Fixpoint starts_with (pat s : list ascii) : bool :=
  match pat, s with
  | [], _ => true
  | c :: pat', d :: s' => bool_decide (c = d) && starts_with pat' s'
  | _ :: _, [] => false
  end.

(** The offset of the first occurrence, as found by strstr(). *)
Fixpoint find_sub (pat s : list ascii) : option nat :=
  if starts_with pat s then Some O
  else match s with [] => None | _ :: s' => S <$> find_sub pat s' end.

(** The buffer, the variable [str_replaced] points to (None for NULL), and
    [errno]. *)
Record cstate := mkCstate { src_buf : list ascii; str_replaced : option bool; cs_errno : Z }.

Definition set_src_buf (b : list ascii) (s : cstate) : cstate :=
  mkCstate b (str_replaced s) (cs_errno s).

Definition strlen : M cstate nat := s ← deref (cstr ∘ src_buf); mret (length s).

(** strstr(src + from, pattern) - src *)
Definition strstr (from : nat) (pattern : list ascii) : M cstate (option nat) :=
  s ← deref (fun st => cstr (drop from (src_buf st)));
  mret (Nat.add from <$> find_sub pattern s).

Definition write_at (dst : nat) (data b : list ascii) : list ascii :=
  take dst b ++ data ++ drop (dst + length data) b.

(** memmove(src + dst, src + from, n) *)
Definition memmove (dst from n : nat) : M cstate unit :=
  b ← gets src_buf;
  if (Nat.leb (dst + n) (length b) && Nat.leb (from + n) (length b))%bool
  then modify (set_src_buf (write_at dst (take n (drop from b)) b))
  else undef.

(** memcpy(src + dst, data, strlen(data)) *)
Definition memcpy (dst : nat) (data : list ascii) : M cstate unit :=
  b ← gets src_buf;
  if Nat.leb (dst + length data) (length b)
  then modify (set_src_buf (write_at dst data b))
  else undef.

(** ** c_strreplace *)

(** The [do] loop; [p - src] is [offset]. *)
Fixpoint c_strreplace_loop (fuel src_len : nat) (pattern repl : list ascii) (offset : nat)
    : M cstate bool :=
  match fuel with
  | O => no_fuel
  | S fuel' =>
      let pattern_len := length pattern in
      let repl_len := length repl in
      l ← strlen;
      if Nat.leb src_len (l + Nat.max pattern_len repl_len + 1) then mret false
      else
        (if bool_decide (repl_len <> pattern_len)
         then memmove (offset + repl_len) (offset + pattern_len) (l - offset - pattern_len + 1)
         else mret tt);;
        memcpy offset repl;;
        modify (fun st => mkCstate (src_buf st) ((fun _ => true) <$> str_replaced st) (cs_errno st));;
        p ← strstr (offset + repl_len) pattern;
        match p with
        | Some offset' => c_strreplace_loop fuel' src_len pattern repl offset'
        | None => mret true
        end
  end.

(** [src] is the buffer of the state, and NULL if [src_null]. *)
Definition c_strreplace (src_null : bool) (src_len : nat) (pattern repl : option string)
    : M cstate bool :=
  match src_null, Nat.eqb src_len 0, pattern, repl with
  | false, false, Some pattern, Some repl =>
      p ← strstr 0 (chars pattern);
      match p with
      | None => mret true
      | Some offset => c_strreplace_loop (S src_len) src_len (chars pattern) (chars repl) offset
      end
  | _, _, _, _ =>
      modify (fun st => mkCstate (src_buf st) (str_replaced st) EINVAL);;
      mret false
  end.

(** ** c_strmatch *)

Fixpoint strmatch (pattern str : list ascii) : bool :=
  match pattern with
  | [] => match str with [] => true | _ => false end
  | c :: pattern' =>
      if bool_decide (c = "*"%char) then
        match pattern' with
        | [] => true
        | _ =>
            (fix try_each (str : list ascii) : bool :=
               match str with
               | [] => false
               | _ :: str' => strmatch pattern' str || try_each str'
               end) str
        end
      else
        match str with
        | [] => false
        | d :: str' =>
            if bool_decide (c <> "?"%char) && bool_decide (d <> c) then false
            else strmatch pattern' str'
        end
  end.

Definition c_strmatch (str pattern : option string) : bool :=
  match str, pattern with
  | Some str, Some pattern => strmatch (chars pattern) (chars str)
  | _, _ => false
  end.

(** ** XML attribute values *)

(** snprintf(buf, buf_len, "%s", src) into a buffer of [buf_len] > 0 bytes. *)
Definition snprintf_s (src : string) : M cstate unit :=
  modify (fun st =>
    let s := take (length (src_buf st) - 1) (chars src) in
    set_src_buf (write_at 0 (s ++ [NUL]) (src_buf st)) st).

Definition quote : string := String (Ascii.ascii_of_nat 34) "".

Definition cmprepare_xml_attribute_string (buf_len : nat) (src : string) : M cstate unit :=
  snprintf_s src;;
  c_strreplace false buf_len (Some "&") (Some "&amp;");;
  c_strreplace false buf_len (Some quote) (Some "&quot;");;
  c_strreplace false buf_len (Some "'") (Some "&apos;");;
  c_strreplace false buf_len (Some "<") (Some "&lt;");;
  c_strreplace false buf_len (Some ">") (Some "&gt;");;
  mret tt.
