(* ===== verification/CStringTheorems.v ===== *)
(** * The string helpers implement their specifications

    [c_strreplace] against leftmost non-overlapping replacement, with the
    bounds of the buffer; [c_strmatch] against wildcard matching;
    [cmprepare_xml_attribute_string] against character-wise escaping. *)
From S2P Require Import Prelude CMonad CString.

(** ** Specifications *)

(** The buffer [b] holds the C string [s]. *)
Definition holds (b s : list ascii) : Prop := (NUL ∉ s) /\ exists t, b = s ++ NUL :: t.

(** [l ++ pat ++ r] starts with its first occurrence of [pat] after [l]. *)
Definition leftmost (pat l r : list ascii) : Prop :=
  forall l' r', l ++ pat ++ r = l' ++ pat ++ r' -> (length l <= length l')%nat.

(** [replaced complete pat repl s s']: [s'] is [s] with its occurrences of
    [pat], taken from the left and not overlapping, replaced by [repl]; all of
    them if [complete], else the first ones. *)
Inductive replaced (pat repl : list ascii) : bool -> list ascii -> list ascii -> Prop :=
  | replaced_none s : (forall l r, s <> l ++ pat ++ r) -> replaced pat repl true s s
  | replaced_stop s : replaced pat repl false s s
  | replaced_first complete l r r' : leftmost pat l r -> replaced pat repl complete r r' ->
      replaced pat repl complete (l ++ pat ++ r) (l ++ repl ++ r').

(** Wildcard matching: [*] matches any characters, [?] any one character. *)
Inductive glob : list ascii -> list ascii -> Prop :=
  | glob_nil : glob [] []
  | glob_star p l s : glob p s -> glob ("*"%char :: p) (l ++ s)
  | glob_any p c s : glob p s -> glob ("?"%char :: p) (c :: s)
  | glob_char p c s : c <> "*"%char -> glob p s -> glob (c :: p) (c :: s).

(** No two consecutive stars. *)
Fixpoint single_stars (p : list ascii) : bool :=
  match p with
  | c :: (d :: _) as p' =>
      negb (bool_decide (c = "*"%char) && bool_decide (d = "*"%char)) && single_stars p'
  | _ => true
  end.

(** The escape of one character in an XML attribute value, and its inverse. *)
Definition xml_char (c : ascii) : list ascii :=
  if bool_decide (c = "&"%char) then chars "&amp;"
  else if bool_decide (c = Ascii.ascii_of_nat 34) then chars "&quot;"
  else if bool_decide (c = "'"%char) then chars "&apos;"
  else if bool_decide (c = "<"%char) then chars "&lt;"
  else if bool_decide (c = ">"%char) then chars "&gt;"
  else [c].
Definition xml_escape (s : list ascii) : list ascii := s ≫= xml_char.

Fixpoint xml_unescape (s : list ascii) : list ascii :=
  match s with
  | "&"%char :: "a"%char :: "m"%char :: "p"%char :: ";"%char :: r => "&"%char :: xml_unescape r
  | "&"%char :: "q"%char :: "u"%char :: "o"%char :: "t"%char :: ";"%char :: r =>
      Ascii.ascii_of_nat 34 :: xml_unescape r
  | "&"%char :: "a"%char :: "p"%char :: "o"%char :: "s"%char :: ";"%char :: r => "'"%char :: xml_unescape r
  | "&"%char :: "l"%char :: "t"%char :: ";"%char :: r => "<"%char :: xml_unescape r
  | "&"%char :: "g"%char :: "t"%char :: ";"%char :: r => ">"%char :: xml_unescape r
  | c :: r => c :: xml_unescape r
  | [] => []
  end.

(** ** strstr *)

Lemma starts_with_spec pat s : starts_with pat s = true <-> exists r, s = pat ++ r.
Proof.
  revert s. induction pat as [|c pat IH]; intros [|d s]; simpl.
  - naive_solver.
  - naive_solver.
  - split; [done|]. by intros [].
  - rewrite andb_true_iff, bool_decide_eq_true, IH. naive_solver.
Qed.

Lemma find_sub_some pat s k :
  find_sub pat s = Some k ->
  exists l r, s = l ++ pat ++ r /\ length l = k /\ leftmost pat l r.
Proof.
  revert k. induction s as [|c s IH]; intros k; simpl; (destruct (starts_with _ _) eqn:E; [|]).
  - intros [= <-]. apply starts_with_spec in E as [r Hr]. exists [], r. split_and!; [done..|].
    intros l' r' _; simpl; lia.
  - done.
  - intros [= <-]. apply starts_with_spec in E as [r Hr]. exists [], r. split_and!; [done..|].
    intros l' r' _; simpl; lia.
  - intros [k' [Hk' ->]]%fmap_Some. destruct (IH k' Hk') as (l & r & -> & <- & Hl).
    exists (c :: l), r. split_and!; [done..|]. intros [|c' l'] r' Heq.
    + assert (starts_with pat (c :: l ++ pat ++ r) = true); [|congruence].
      apply starts_with_spec. by exists r'.
    + injection Heq as _ Heq. apply Hl in Heq. simpl. lia.
Qed.

Lemma find_sub_none pat s : find_sub pat s = None -> forall l r, s <> l ++ pat ++ r.
Proof.
  induction s as [|c s IH]; simpl; (destruct (starts_with _ _) eqn:E; [done|]).
  - intros _ l r Heq. destruct l; [|done].
    assert (starts_with pat [] = true); [|congruence]. apply starts_with_spec. by exists r.
  - intros Hn%fmap_None l r Heq. destruct l as [|d l].
    + assert (starts_with pat (c :: s) = true); [|congruence]. apply starts_with_spec. by exists r.
    + injection Heq as -> Heq. by eapply (IH Hn l r).
Qed.

(** ** Buffers *)

Lemma cstr_app s t : NUL ∉ s -> cstr (s ++ NUL :: t) = Some s.
Proof.
  induction s as [|c s IH]; intros Hs; [done|]. simpl.
  rewrite bool_decide_false by (intros ->; apply Hs; by left).
  rewrite IH; [done|]. intros ?; apply Hs; by right.
Qed.

Lemma strlen_run st s : holds (src_buf st) s -> strlen st = (Ret (length s), st).
Proof.
  intros [Hs [t Ht]]. unfold strlen.
  assert (deref (cstr ∘ src_buf) st = (Ret s, st)) as Hd.
  { apply deref_run. unfold compose. by rewrite Ht, cstr_app. }
  by rewrite (bind_run _ _ _ _ _ Hd).
Qed.

Lemma strstr_run st s from pat :
  holds (src_buf st) s -> (from <= length s)%nat ->
  strstr from pat st = (Ret (Nat.add from <$> find_sub pat (drop from s)), st).
Proof.
  intros [Hs [t Ht]] Hf. unfold strstr.
  assert (deref (fun st => cstr (drop from (src_buf st))) st = (Ret (drop from s), st)) as Hd.
  { apply deref_run. rewrite Ht, drop_app_le by done. apply cstr_app.
    intros Hin. apply Hs. rewrite <-(take_drop from s), elem_of_app. by right. }
  by rewrite (bind_run _ _ _ _ _ Hd).
Qed.

Lemma write_at_length dst data b :
  (dst + length data <= length b)%nat -> length (write_at dst data b) = length b.
Proof. intros. unfold write_at. rewrite !length_app, length_take, length_drop. lia. Qed.

Lemma write_at_app pre data old post :
  length old = length data ->
  write_at (length pre) data (pre ++ old ++ post) = pre ++ data ++ post.
Proof.
  intros Hl. unfold write_at. rewrite take_app_length. f_equal. f_equal.
  rewrite app_assoc. rewrite drop_app_length'; [done|]. rewrite length_app. lia.
Qed.

(** ** One replacement *)

(** The stores of one iteration, without the check. *)
Definition replace_at (pattern repl : list ascii) (offset l : nat) : M cstate unit :=
  (if bool_decide (length repl <> length pattern)
   then memmove (offset + length repl) (offset + length pattern) (l - offset - length pattern + 1)
   else mret tt);;
  memcpy offset repl.

Lemma replace_at_run pattern repl st pre post :
  holds (src_buf st) (pre ++ pattern ++ post) -> NUL ∉ repl ->
  (length (pre ++ pattern ++ post) + Nat.max (length pattern) (length repl) + 1
     < length (src_buf st))%nat ->
  exists b, replace_at pattern repl (length pre) (length (pre ++ pattern ++ post)) st
              = (Ret tt, set_src_buf b st) /\
    holds b (pre ++ repl ++ post) /\ length b = length (src_buf st).
Proof.
  intros [Hnul [t Ht]] Hrepl Hlen. unfold replace_at.
  rewrite Ht in Hlen. rewrite !length_app in Hlen. simpl in Hlen.
  assert (NUL ∉ pre ++ repl ++ post) as Hnul'.
  { rewrite !elem_of_app in *. tauto. }
  assert (exists mid t', length mid = length repl /\
    (if bool_decide (length repl <> length pattern)
     then memmove (length pre + length repl) (length pre + length pattern)
            (length (pre ++ pattern ++ post) - length pre - length pattern + 1)
     else mret tt) st = (Ret tt, set_src_buf (pre ++ mid ++ post ++ NUL :: t') st) /\
    length (pre ++ mid ++ post ++ NUL :: t') = length (src_buf st))
    as (mid & t' & Hmid & Hmove & Hb).
  { case_bool_decide as Hne.
    - assert (length (pre ++ pattern ++ post) - length pre - length pattern + 1
                = length (post ++ [NUL]))%nat as -> by (rewrite !length_app; simpl; lia).
      set (b := src_buf st) in *.
      assert (take (length (post ++ [NUL])) (drop (length pre + length pattern) b) = post ++ [NUL])
        as Htake.
      { rewrite Ht, <-!app_assoc, (app_assoc pre pattern), <-length_app, drop_app_length.
        assert (post ++ NUL :: t = (post ++ [NUL]) ++ t) as -> by (by rewrite <-app_assoc).
        by rewrite take_app_length. }
      assert (length b = length pre + length pattern + length post + 1 + length t)%nat as Hlb.
      { rewrite Ht, !length_app. simpl. lia. }
      exists (take (length repl) (drop (length pre) b)),
        (drop (length pre + length repl + length (post ++ [NUL])) b).
      split_and!.
      + rewrite length_take, length_drop. lia.
      + unfold memmove. rewrite (bind_run _ _ _ _ _ (gets_run src_buf st)). fold b.
        rewrite (proj2 (Nat.leb_le _ _)), (proj2 (Nat.leb_le _ _))
          by (rewrite length_app; simpl; lia). simpl.
        unfold modify. do 2 f_equal. fold b. rewrite Htake. unfold write_at.
        rewrite <-take_take_drop, <-!app_assoc. f_equal.
        rewrite Ht, <-!app_assoc. by rewrite take_app_length.
      + rewrite !length_app. simpl. rewrite length_take, !length_drop. lia.
    - exists pattern, t. split_and!; [lia| |].
      + unfold mret, M_ret, set_src_buf. rewrite <-!app_assoc in Ht. rewrite <-Ht. by destruct st.
      + rewrite Ht, <-!app_assoc. done. }
  rewrite (bind_run _ _ _ _ _ Hmove). unfold memcpy.
  rewrite (bind_run _ _ _ _ _ (gets_run src_buf _)). cbn [src_buf set_src_buf].
  rewrite (proj2 (Nat.leb_le _ _)) by (rewrite !length_app; simpl; lia).
  exists (pre ++ repl ++ post ++ NUL :: t'). split_and!.
  - unfold modify. cbn [src_buf set_src_buf]. by rewrite write_at_app.
  - split; [done|]. exists t'. by rewrite <-!app_assoc.
  - rewrite <-Hb, !length_app. lia.
Qed.

(** ** The loop *)

Section replace.
Context (pattern repl : list ascii).
Hypothesis pattern_nonempty : pattern <> [].
Hypothesis repl_nul : NUL ∉ repl.

(** What is left alone: the size of the buffer and [errno]. *)
Definition same_size (st st' : cstate) : Prop :=
  length (src_buf st') = length (src_buf st) /\ cs_errno st' = cs_errno st.

(** The result of [c_strreplace] on the part [s] of the buffer after [done]. *)
Definition replace_result (fixed s : list ascii) (st : cstate) (r : outcome bool * cstate) : Prop :=
  exists ok s' st', r = (Ret ok, st') /\ same_size st st' /\
    replaced pattern repl ok s s' /\ holds (src_buf st') (fixed ++ s') /\
    (ok = false -> (length (src_buf st) <=
       length (fixed ++ s') + Nat.max (length pattern) (length repl) + 1)%nat).

Lemma replace_loop_run fuel fixed l r st :
  holds (src_buf st) (fixed ++ l ++ pattern ++ r) -> leftmost pattern l r ->
  (length (pattern ++ r) <= fuel)%nat ->
  replace_result fixed (l ++ pattern ++ r) st
    (c_strreplace_loop fuel (length (src_buf st)) pattern repl (length fixed + length l) st).
Proof.
  revert fixed l r st. induction fuel as [|fuel IH]; intros fixed l r st Hst Hleft Hfuel.
  { rewrite length_app in Hfuel. destruct pattern; simpl in Hfuel; [done|lia]. }
  cbn [c_strreplace_loop]. rewrite (bind_run _ _ _ _ _ (strlen_run _ _ Hst)).
  destruct (Nat.leb _ _) eqn:Hcheck.
  { apply Nat.leb_le in Hcheck. exists false, (l ++ pattern ++ r), st. split_and!; try done. constructor. }
  apply Nat.leb_gt in Hcheck. rewrite app_assoc in Hst.
  destruct (replace_at_run pattern repl st (fixed ++ l) r Hst repl_nul) as (b & Hrun & Hb & Hlen).
  { rewrite <-app_assoc. lia. }
  rewrite <-app_assoc, length_app in Hrun.
  destruct (bind_ret_inv _ _ _ _ _ Hrun) as ([] & st1 & H1 & H2).
  rewrite (bind_run _ _ _ _ _ H1), (bind_run _ _ _ _ _ H2).
  rewrite (bind_run _ _ _ _ _ (modify_run _ _)). cbn [src_buf set_src_buf].
  set (st2 := mkCstate b _ _).
  assert (holds (src_buf st2) ((fixed ++ l ++ repl) ++ r)) as Hst2 by (rewrite <-!app_assoc in *; done).
  rewrite (bind_run _ _ _ _ _ (strstr_run st2 _ (length fixed + length l + length repl) pattern Hst2
    ltac:(rewrite !length_app; lia))).
  rewrite <-Nat.add_assoc, <-!length_app, drop_app_length.
  destruct (find_sub pattern r) as [k|] eqn:Hfind; cbn [fmap option_fmap option_map].
  - destruct (find_sub_some _ _ _ Hfind) as (l2 & r2 & -> & <- & Hleft2).
    rewrite <-Hlen. change b with (src_buf st2).
    destruct (IH (fixed ++ l ++ repl) l2 r2 st2 Hst2 Hleft2) as (ok & s' & st' & -> & [Hs He] & Hrep & Hh & Hok).
    { rewrite !length_app in *. destruct pattern; simpl in *; [done|lia]. }
    exists ok, (l ++ repl ++ s'), st'. rewrite <-!app_assoc in Hh. rewrite <-!app_assoc in Hok.
    split_and!; try done.
    + split; [by rewrite Hs|by rewrite He].
    + by constructor.
    + cbn [src_buf st2] in Hok. by rewrite Hlen in Hok.
  - exists true, (l ++ repl ++ r), st2. split_and!; try done.
    + constructor; [done|]. constructor. by apply find_sub_none.
    + by rewrite <-!app_assoc in Hst2.
Qed.

Lemma c_strreplace_run s st :
  holds (src_buf st) s -> NUL ∉ pattern ->
  replace_result [] s st
    (c_strreplace false (length (src_buf st)) (Some (text pattern)) (Some (text repl)) st).
Proof.
  intros Hst Hp. unfold c_strreplace, chars, text. rewrite !String.list_ascii_of_string_of_list_ascii.
  destruct (Nat.eqb_spec (length (src_buf st)) 0) as [H0|H0].
  { destruct Hst as [_ [t Ht]]. rewrite Ht, length_app in H0. simpl in H0. lia. }
  rewrite (bind_run _ _ _ _ _ (strstr_run st s 0 pattern Hst ltac:(lia))). rewrite drop_0.
  destruct (find_sub pattern s) as [k|] eqn:Hfind; cbn [fmap option_fmap option_map].
  - destruct (find_sub_some _ _ _ Hfind) as (l & r & -> & <- & Hleft).
    apply (replace_loop_run _ [] l r st Hst Hleft).
    destruct Hst as [_ [t Ht]]. rewrite Ht, !length_app. simpl. lia.
  - exists true, s, st. split_and!; try done. constructor. by apply find_sub_none.
Qed.
End replace.

(** ** Escaping *)

(** The replacement of the character [c] by [repl]. *)
Definition subst_char (c : ascii) (repl : list ascii) (d : ascii) : list ascii :=
  if bool_decide (d = c) then repl else [d].

Lemma subst_char_id c repl s : c ∉ s -> s ≫= subst_char c repl = s.
Proof.
  induction s as [|d s IH]; [done|]. rewrite not_elem_of_cons. intros [Hd Hs].
  cbn. unfold subst_char at 1. rewrite bool_decide_false by done. simpl. f_equal. by apply IH.
Qed.

Lemma leftmost_char c l r : leftmost [c] l r -> c ∉ l.
Proof.
  intros Hl (l1 & l2 & ->)%list_elem_of_split.
  specialize (Hl l1 (l2 ++ [c] ++ r)). rewrite <-app_assoc in Hl. specialize (Hl eq_refl).
  rewrite length_app in Hl. simpl in Hl. lia.
Qed.

Lemma subst_char_first c repl l r :
  c ∉ l -> (l ++ [c] ++ r) ≫= subst_char c repl = l ++ repl ++ (r ≫= subst_char c repl).
Proof.
  intros Hl. rewrite bind_app, (subst_char_id _ _ _ Hl). f_equal. cbn.
  unfold subst_char at 1. by rewrite bool_decide_true.
Qed.

Lemma replaced_char c repl s s' : replaced [c] repl true s s' -> s' = s ≫= subst_char c repl.
Proof.
  remember true as b eqn:Hb. induction 1 as [s Hs| |ok l r r' Hl _ IH]; [|done|].
  - rewrite subst_char_id; [done|]. intros (l & r & ->)%list_elem_of_split. by apply (Hs l r).
  - by rewrite subst_char_first, (IH Hb) by by eapply leftmost_char.
Qed.

Lemma subst_char_length c repl s : repl <> [] -> (length s <= length (s ≫= subst_char c repl))%nat.
Proof.
  intros Hr. induction s as [|d s IH]; [done|]. rewrite bind_cons, length_app. cbn [length].
  assert (1 <= length (subst_char c repl d))%nat; [|lia].
  unfold subst_char. case_bool_decide; [destruct repl; [done|simpl; lia]|done].
Qed.

Lemma replaced_char_length c repl ok s s' :
  repl <> [] -> replaced [c] repl ok s s' -> (length s' <= length (s ≫= subst_char c repl))%nat.
Proof.
  intros Hr. induction 1 as [s Hs| |ok l r r' Hl _ IH]; [by apply subst_char_length..|].
  rewrite subst_char_first by by eapply leftmost_char. rewrite !length_app. lia.
Qed.

(** A replacement of a character in a big enough buffer is complete. *)
Lemma subst_char_run c repl s st :
  holds (src_buf st) s -> NUL ∉ repl -> repl <> [] -> c <> NUL ->
  (length (s ≫= subst_char c repl) + length repl + 1 < length (src_buf st))%nat ->
  exists st', c_strreplace false (length (src_buf st)) (Some (text [c])) (Some (text repl)) st
                = (Ret true, st') /\
    same_size st st' /\ holds (src_buf st') (s ≫= subst_char c repl).
Proof.
  intros Hst Hn Hr Hc Hlen.
  destruct (c_strreplace_run [c] repl ltac:(done) Hn s st Hst) as (ok & s' & st' & -> & Hsz & Hrep & Hh & Hok).
  { rewrite list_elem_of_singleton. congruence. }
  destruct ok.
  - exists st'. split_and!; [done..|]. by rewrite <-(replaced_char c repl s s').
  - pose proof (replaced_char_length _ _ _ _ _ Hr Hrep). specialize (Hok eq_refl).
    destruct repl; simpl in *; [done|lia].
Qed.

Lemma xml_escape_steps s :
  ((((s ≫= subst_char "&"%char (chars "&amp;")) ≫= subst_char (Ascii.ascii_of_nat 34) (chars "&quot;"))
     ≫= subst_char "'"%char (chars "&apos;")) ≫= subst_char "<"%char (chars "&lt;"))
    ≫= subst_char ">"%char (chars "&gt;") = xml_escape s.
Proof.
  unfold xml_escape. induction s as [|c s IH]; [done|].
  rewrite !bind_cons, !bind_app, IH. f_equal. clear. unfold xml_char.
  repeat (case_bool_decide; [by subst; vm_compute|]).
  unfold subst_char. cbn. repeat (rewrite bool_decide_false by done; cbn). done.
Qed.

Lemma xml_escape_nul s : NUL ∉ s -> NUL ∉ xml_escape s.
Proof.
  intros Hs [c [Hc Hin]]%list_elem_of_bind. revert Hc. unfold xml_char.
  repeat (case_bool_decide; [by vm_compute; repeat (rewrite ?elem_of_cons; intros Hc; set_solver)|]).
  rewrite list_elem_of_singleton. by intros <-.
Qed.

Lemma xml_unescape_cons c r : xml_unescape (xml_char c ++ r) = c :: xml_unescape r.
Proof.
  unfold xml_char. repeat (case_bool_decide; [by subst|]). simpl.
  destruct c as [[] [] [] [] [] [] [] []]; try done.
Qed.

Lemma xml_unescape_escape s : xml_unescape (xml_escape s) = s.
Proof.
  induction s as [|c s IH]; [done|]. unfold xml_escape. rewrite bind_cons, xml_unescape_cons.
  by f_equal.
Qed.

(** ** Wildcards *)

Lemma strmatch_star p s :
  p <> [] ->
  strmatch ("*"%char :: p) s = true <->
    exists l c s', s = l ++ c :: s' /\ strmatch p (c :: s') = true.
Proof.
  intros Hp. destruct p as [|d p]; [done|]. induction s as [|c s IH].
  - split; [done|]. intros (l & c & s' & Heq & _). by destruct l.
  - cbn -[strmatch] in IH |- *. change (strmatch ("*"%char :: d :: p) (c :: s))
      with (strmatch (d :: p) (c :: s) || strmatch ("*"%char :: d :: p) s).
    rewrite orb_true_iff, IH. split.
    + intros [Hm|(l & c' & s' & -> & Hm)]; [by exists [], c, s|by exists (c :: l), c', s'].
    + intros ([|c' l] & c0 & s' & Heq & Hm); simplify_eq/=; [by left|right; eauto].
Qed.

Lemma strmatch_char c p s :
  c <> "*"%char ->
  strmatch (c :: p) s = true <->
    exists d s', s = d :: s' /\ (c = "?"%char \/ d = c) /\ strmatch p s' = true.
Proof.
  intros Hc. cbn [strmatch]. rewrite bool_decide_false by done.
  destruct s as [|d s]; [naive_solver|].
  destruct (decide (c = "?"%char)) as [->|Hq].
  - rewrite (bool_decide_false (_ <> _)) by naive_solver. cbn. naive_solver.
  - rewrite (bool_decide_true (_ <> _)) by done. cbn. case_bool_decide as Hd; naive_solver.
Qed.

Lemma glob_nonstar_nil c p : c <> "*"%char -> ~ glob (c :: p) [].
Proof. intros Hc Hg. by inversion Hg. Qed.

Lemma strmatch_sound p s : strmatch p s = true -> glob p s.
Proof.
  revert s. induction p as [|c p IH]; intros s Hm.
  { destruct s; [constructor|done]. }
  destruct (decide (c = "*"%char)) as [->|Hc].
  - destruct p as [|d p].
    + rewrite <-(app_nil_r s). repeat constructor.
    + apply strmatch_star in Hm as (l & c & s' & -> & Hm); [|done]. constructor. by apply IH.
  - apply strmatch_char in Hm as (d & s' & -> & [->| ->] & Hm); [|constructor; auto..|done].
    by constructor; auto.
Qed.

Lemma strmatch_complete p s : single_stars p = true -> glob p s -> strmatch p s = true.
Proof.
  intros Hs Hg. induction Hg as [|p l s Hg IH|p c s Hg IH|p c s Hc Hg IH].
  - done.
  - destruct p as [|d p]; [done|]. cbn in Hs. rewrite andb_true_iff in Hs. destruct Hs as [Hd Hs].
    apply negb_true_iff, andb_false_iff in Hd as [Hd|Hd]; [by rewrite bool_decide_true in Hd|].
    apply bool_decide_eq_false in Hd. apply strmatch_star; [done|].
    destruct s as [|c s]; [by apply glob_nonstar_nil in Hg|]. exists l, c, s. auto.
  - apply strmatch_char; [done|]. exists c, s. split; [done|]. split; [by left|].
    apply IH. destruct p; [done|]. cbn in Hs. by apply andb_true_iff in Hs as [_ Hs].
  - apply strmatch_char; [done|]. exists c, s. split; [done|]. split; [by right|].
    apply IH. destruct p; [done|]. cbn in Hs. by apply andb_true_iff in Hs as [_ Hs].
Qed.

(** ** Properties *)

(** The loop for an empty pattern and an empty replacement. *)
Lemma loop_empty_pattern (fuel : nat) (s : list ascii) (st : cstate) :
  holds (src_buf st) s -> (length s + 1 < length (src_buf st))%nat -> str_replaced st = None ->
  c_strreplace_loop fuel (length (src_buf st)) [] [] 0 st = (NoFuel, st).
Proof.
  intros Hst Hlen Hnull. induction fuel as [|fuel IH]; [done|].
  cbn [c_strreplace_loop length]. rewrite (bind_run _ _ _ _ _ (strlen_run _ _ Hst)).
  rewrite (proj2 (Nat.leb_gt _ _)) by (simpl; lia).
  assert (set_src_buf (write_at 0 [] (src_buf st)) st = st) as Hid.
  { unfold set_src_buf, write_at. cbn. rewrite drop_0. by destruct st. }
  assert (memcpy 0 [] st = (Ret tt, st)) as Hcpy.
  { unfold memcpy. rewrite (bind_run _ _ _ _ _ (gets_run _ _)). cbn. unfold modify. by rewrite Hid. }
  rewrite bool_decide_false by (intros Hx; by apply Hx).
  rewrite (bind_run _ _ _ _ _ (ret_run _ _)), (bind_run _ _ _ _ _ Hcpy).
  rewrite (bind_run _ _ _ _ _ (modify_run _ _)).
  assert (mkCstate (src_buf st) ((fun _ => true) <$> str_replaced st) (cs_errno st) = st) as ->.
  { rewrite Hnull. by destruct st as [b r e]; simpl in *; subst. }
  rewrite (bind_run _ _ _ _ _ (strstr_run st s 0 [] Hst ltac:(lia))). rewrite drop_0.
  by replace (find_sub [] s) with (Some 0%nat) by (by destruct s).
Qed.

(** C13: For a non-empty pattern and a NUL-terminated buffer, [c_strreplace]
    terminates, never accesses memory outside the buffer, and leaves the text
    with the occurrences of the pattern replaced from left to right; it
    returns true if all of them are replaced, and false only if the next
    replacement might not fit, with the first ones replaced.  With an empty
    pattern and an empty replacement it never terminates: no bound on the
    number of iterations is enough. *)
Theorem c_strreplace_spec (pattern repl s : list ascii) (st : cstate) :
  NUL ∉ pattern -> NUL ∉ repl -> holds (src_buf st) s ->
  (pattern <> [] -> exists ok s' st',
    c_strreplace false (length (src_buf st)) (Some (text pattern)) (Some (text repl)) st
      = (Ret ok, st') /\
    replaced pattern repl ok s s' /\ holds (src_buf st') s' /\ same_size st st' /\
    (ok = false -> (length (src_buf st) <=
       length s' + Nat.max (length pattern) (length repl) + 1)%nat)) /\
  (pattern = [] -> repl = [] -> (length s + 1 < length (src_buf st))%nat -> str_replaced st = None ->
    forall fuel, c_strreplace_loop fuel (length (src_buf st)) pattern repl 0 st = (NoFuel, st)).
Proof.
  intros Hpn Hrn Hst. split.
  - intros Hp. destruct (c_strreplace_run pattern repl Hp Hrn s st Hst Hpn) as (ok & s' & st' & ? & ? & ? & ? & ?).
    by exists ok, s', st'.
  - intros -> -> Hlen Hnull fuel. by apply (loop_empty_pattern _ s).
Qed.


(** C29: [c_strmatch] accepts only strings that match the pattern, and all of
    them if the pattern has no two consecutive stars. *)
Theorem c_strmatch_spec (str pattern : string) :
  (c_strmatch (Some str) (Some pattern) = true -> glob (chars pattern) (chars str)) /\
  (single_stars (chars pattern) = true ->
    (c_strmatch (Some str) (Some pattern) = true <-> glob (chars pattern) (chars str))).
Proof.
  cbn. split; [apply strmatch_sound|]. intros Hs.
  split; [apply strmatch_sound|by apply strmatch_complete].
Qed.

(** ** Any string in a buffer *)

(** The buffer holds some C string, and is as long as before. *)
Definition holds_some (n : nat) (st : cstate) : Prop :=
  length (src_buf st) = n /\ exists s, holds (src_buf st) s.

Lemma holds_prefix (l r : list ascii) : exists s, holds (l ++ NUL :: r) s.
Proof.
  induction l as [|c l [s [Hs [t E]]]]; [exists []; split; [by apply not_elem_of_nil|by exists r]|].
  destruct (decide (c = NUL)) as [->|Hc].
  - exists []. split; [by apply not_elem_of_nil|]. by eexists.
  - exists (c :: s). split; [by apply not_elem_of_cons|]. exists t. cbn. by rewrite E.
Qed.

Lemma snprintf_holds n src st : length (src_buf st) = S n ->
  exists st', snprintf_s src st = (Ret tt, st') /\ holds_some (S n) st'.
Proof.
  intros Hn. eexists. split; [reflexivity|]. cbn. set (s := take _ _).
  assert (length s <= n)%nat as Hs by (unfold s; rewrite length_take; lia).
  split; [cbn; rewrite write_at_length; [done|rewrite length_app; simpl; lia]|].
  unfold write_at. cbn. rewrite <-app_assoc. cbn. apply holds_prefix.
Qed.

(** Replacing a non-empty pattern returns and keeps a string in the buffer. *)
Lemma c_strreplace_holds n pattern repl st :
  pattern <> "" -> NUL ∉ chars pattern -> NUL ∉ chars repl -> holds_some n st ->
  exists ok st', c_strreplace false n (Some pattern) (Some repl) st = (Ret ok, st') /\ holds_some n st'.
Proof.
  intros Hp Hpn Hrn [<- [s Hs]].
  assert (chars pattern <> []) as Hc by (by destruct pattern).
  destruct (c_strreplace_run (chars pattern) (chars repl) Hc Hrn s st Hs Hpn) as (ok & s' & st' & R & Hsz & _ & Hh & _).
  unfold text, chars in R. rewrite !String.string_of_list_ascii_of_string in R.
  exists ok, st'. split; [exact R|]. split; [apply Hsz|by exists s'].
Qed.

Lemma cmprepare_holds n src st : length (src_buf st) = S n ->
  exists st', cmprepare_xml_attribute_string (S n) src st = (Ret tt, st') /\ holds_some (S n) st'.
Proof.
  intros Hn. unfold cmprepare_xml_attribute_string.
  destruct (snprintf_holds n src st Hn) as (st0 & R0 & H0). rewrite (bind_run _ _ _ _ _ R0). clear st Hn R0.
  assert (forall c repl st, c <> NUL -> bool_decide (NUL ∉ chars repl) = true -> holds_some (S n) st ->
    exists ok st', c_strreplace false (S n) (Some (text [c])) (Some repl) st = (Ret ok, st') /\ holds_some (S n) st') as Step.
  { intros c repl st Hc Hr Hst. apply c_strreplace_holds; [done| |by apply bool_decide_eq_true in Hr|done].
    unfold chars, text. rewrite String.list_ascii_of_string_of_list_ascii. by rewrite list_elem_of_singleton. }
  destruct (Step "&"%char "&amp;" st0 ltac:(done) eq_refl H0) as (ok1 & st1 & R1 & H1).
  destruct (Step (Ascii.ascii_of_nat 34) "&quot;" st1 ltac:(done) eq_refl H1) as (ok2 & st2 & R2 & H2).
  destruct (Step "'"%char "&apos;" st2 ltac:(done) eq_refl H2) as (ok3 & st3 & R3 & H3).
  destruct (Step "<"%char "&lt;" st3 ltac:(done) eq_refl H3) as (ok4 & st4 & R4 & H4).
  destruct (Step ">"%char "&gt;" st4 ltac:(done) eq_refl H4) as (ok5 & st5 & R5 & H5).
  exists st5. split; [|exact H5].
  by rewrite (bind_run _ _ _ _ _ R1), (bind_run _ _ _ _ _ R2), (bind_run _ _ _ _ _ R3), (bind_run _ _ _ _ _ R4), (bind_run _ _ _ _ _ R5).
Qed.

(** [cmprepare_xml_attribute_string] never accesses memory outside a buffer that
    can hold the escaped text; the buffer then holds the text with the five
    characters escaped. *)
Lemma cmprepare_escapes (src : string) (st : cstate) :
  NUL ∉ chars src -> (length (xml_escape (chars src)) + 7 < length (src_buf st))%nat ->
  exists st', cmprepare_xml_attribute_string (length (src_buf st)) src st = (Ret tt, st') /\
    holds (src_buf st') (xml_escape (chars src)) /\ same_size st st'.
Proof.
  intros Hn Hlen. set (s := chars src) in *. rewrite <-xml_escape_steps in Hlen.
  set (s1 := s ≫= subst_char "&"%char (chars "&amp;")) in *.
  set (s2 := s1 ≫= subst_char (Ascii.ascii_of_nat 34) (chars "&quot;")) in *.
  set (s3 := s2 ≫= subst_char "'"%char (chars "&apos;")) in *.
  set (s4 := s3 ≫= subst_char "<"%char (chars "&lt;")) in *.
  set (s5 := s4 ≫= subst_char ">"%char (chars "&gt;")) in *.
  assert (length s <= length s1 /\ length s1 <= length s2 /\ length s2 <= length s3 /\
          length s3 <= length s4 /\ length s4 <= length s5)%nat as (H1 & H2 & H3 & H4 & H5).
  { split_and!; by apply subst_char_length. }
  unfold cmprepare_xml_attribute_string, snprintf_s. rewrite (bind_run _ _ _ _ _ (modify_run _ _)).
  fold s. rewrite take_ge by lia. set (st0 := set_src_buf _ st).
  assert (length (src_buf st0) = length (src_buf st)) as L0.
  { cbn. apply write_at_length. rewrite length_app. simpl. lia. }
  assert (holds (src_buf st0) s) as Hst0.
  { split; [done|]. eexists. cbn. unfold write_at. cbn. by rewrite <-app_assoc. }
  assert (same_size st st0) as Z0 by done. rewrite <-L0 in *. clearbody st0.
  assert (forall c repl s0 st', holds (src_buf st') s0 -> same_size st0 st' -> NUL ∉ repl ->
    repl <> [] -> c <> NUL -> (length repl <= 6)%nat -> (length (s0 ≫= subst_char c repl) <= length s5)%nat ->
    exists st'', c_strreplace false (length (src_buf st0)) (Some (text [c])) (Some (text repl)) st'
      = (Ret true, st'') /\ same_size st0 st'' /\ holds (src_buf st'') (s0 ≫= subst_char c repl)) as Step.
  { intros c repl s0 st' Hh [Hsz He] Hr Hr0 Hc H6 Hl. rewrite <-Hsz.
    destruct (subst_char_run c repl s0 st' Hh Hr Hr0 Hc) as (st'' & Hrun & [Hsz' He'] & Hh'); [lia|].
    exists st''. split_and!; [done|split; congruence|done]. }
  destruct (Step "&"%char (chars "&amp;") s st0) as (t1 & R1 & Z1 & T1);
    [done|done|by apply (bool_decide_unpack _); vm_compute|done|done|simpl; lia|fold s1; lia|].
  destruct (Step (Ascii.ascii_of_nat 34) (chars "&quot;") s1 t1) as (t2 & R2 & Z2 & T2);
    [done|done|by apply (bool_decide_unpack _); vm_compute|done|done|simpl; lia|fold s2; lia|].
  destruct (Step "'"%char (chars "&apos;") s2 t2) as (t3 & R3 & Z3 & T3);
    [done|done|by apply (bool_decide_unpack _); vm_compute|done|done|simpl; lia|fold s3; lia|].
  destruct (Step "<"%char (chars "&lt;") s3 t3) as (t4 & R4 & Z4 & T4);
    [done|done|by apply (bool_decide_unpack _); vm_compute|done|done|simpl; lia|fold s4; lia|].
  destruct (Step ">"%char (chars "&gt;") s4 t4) as (t5 & R5 & Z5 & T5);
    [done|done|by apply (bool_decide_unpack _); vm_compute|done|done|simpl; lia|done|].
  exists t5. rewrite (bind_run _ _ _ _ _ R1), (bind_run _ _ _ _ _ R2), (bind_run _ _ _ _ _ R3),
    (bind_run _ _ _ _ _ R4), (bind_run _ _ _ _ _ R5). rewrite <-xml_escape_steps.
  split_and!; [done|done|]. destruct Z0, Z5. split; congruence.
Qed.
