(* ===== verification/World.v ===== *)
(** * The state of a cmocka process

    The data types of src/include/cmocka.h and src/src/cmocka.c, the static
    variables of src/src/cmocka.c, the memory and the part of the C library's
    state the code uses, gathered in the record [World].

    Memory is typed: a libc allocation holds one C struct ([Block]) and is
    identified by its base address; [free] removes the whole allocation, and
    every access to a missing one is undefined behaviour.  The blocks handed
    out by [test_malloc] are the exception: their guard bytes and user bytes
    live in [bytes], at their integer addresses, and only their header
    ([MallocBlockInfoData]) is typed. *)
From S2P Require Import Prelude CMonad ListNode.

(** ** Data types *)

(** [struct SourceLocation]; [file] may be NULL. *)
Record SourceLocation := mkSourceLocation { file : option string; line : Z }.

(** [union CMockaValueData]: 64 bits, read through one of the members. *)
Abbreviation CMockaValueData := Z (only parsing).
Definition uint_val (v : CMockaValueData) : Z := to_u64 v.
Definition int_val (v : CMockaValueData) : Z := to_s64 v.
Definition val_ptr (v : CMockaValueData) : ptr := to_u64 v.

(** Pointers to parameter checking functions: those of cmocka.c, and those of
    the program under test, which [Custom] numbers. *)
Inductive CheckParameterValue :=
  | Check_int_in_set | Check_uint_in_set | Check_not_in_set
  | Check_in_range | Check_not_in_range
  | Check_value | Check_not_value
  | Check_string | Check_not_string
  | Check_memory | Check_not_memory
  | Check_any
  | Custom (id : Z).

(** [struct CheckParameterEvent] *)
Record CheckParameterEvent := mkCheckParameterEvent {
  ev_location : SourceLocation;
  ev_parameter_name : string;
  ev_check_value : CheckParameterValue;
  ev_check_value_data : CMockaValueData;
}.

(** [struct SymbolValue]; [sv_name] may be NULL. *)
Record SymbolValue := mkSymbolValue {
  sv_name : option string;
  sv_location : SourceLocation;
  sv_value : CMockaValueData;
}.

(** [struct SymbolMapValue] *)
Record SymbolMapValue := mkSymbolMapValue {
  symbol_name : string;
  symbol_values_list_head : ListNode;
}.

(** [struct FuncOrderingValue] *)
Record FuncOrderingValue := mkFuncOrderingValue {
  fo_location : SourceLocation;
  fo_function : string;
}.

(** [struct CheckIntegerRange]; the struct's first member is the event. *)
Record CheckIntegerRange := mkCheckIntegerRange {
  cr_event : CheckParameterEvent;
  minimum : Z;
  maximum : Z;
}.

(** [struct CheckIntegerSet], [struct check_integer_set] and
    [struct check_unsigned_integer_set], which only differ in the signedness of
    the elements: the event and the array [set], whose storage follows the
    struct in the same allocation. *)
Record CheckIntegerSet := mkCheckIntegerSet {
  cs_event : CheckParameterEvent;
  set_elems : list Z;
  size_of_set : Z;
}.

(** [struct CheckMemoryData], with the copied memory that follows it. *)
Record CheckMemoryData := mkCheckMemoryData {
  cm_event : CheckParameterEvent;
  cm_memory : list Z;
  cm_size : Z;
}.

(** [struct MallocBlockInfoData] *)
Record MallocBlockInfoData := mkMallocBlockInfoData {
  mb_block : ptr;
  mb_allocated_size : Z;
  mb_size : Z;
  mb_location : SourceLocation;
  mb_node : ListNode;
}.

(** The content of a libc allocation or of a static list head. *)
Inductive Block :=
  | BListNode (n : ListNode)
  | BSymbolMapValue (v : SymbolMapValue)
  | BSymbolValue (v : SymbolValue)
  | BFuncOrderingValue (v : FuncOrderingValue)
  | BCheckParameterEvent (v : CheckParameterEvent)
  | BCheckIntegerRange (v : CheckIntegerRange)
  | BCheckIntegerSet (v : CheckIntegerSet)
  | BCheckMemoryData (v : CheckMemoryData).

(** Signal dispositions. *)
Inductive SignalFunction := SIG_DFL | SIG_IGN | Exception_handler | User_handler (id : Z).

(** ** The state *)

Record World := mkWorld {
  blocks : gmap ptr Block;  (* libc allocations and static list heads, by base address *)
  infos : gmap ptr MallocBlockInfoData;  (* headers of test_malloc() blocks, by header address *)
  raw : gmap ptr Z;  (* libc regions of test_malloc() blocks: base -> size *)
  bytes : gmap ptr Z;  (* byte-addressable data memory *)
  cm_error_message_enabled : Z;
  cm_error_message : option string;  (* None is NULL *)
  global_running_test : Z;
  global_expecting_assert : Z;
  global_last_failed_assert : option string;
  global_skip_test : Z;
  global_stop_test : Z;
  global_last_mock_value_location : SourceLocation;
  global_last_parameter_location : SourceLocation;
  global_last_call_ordering_location : SourceLocation;
  global_msg_output : Z;
  global_test_filter_pattern : option string;
  global_skip_filter_pattern : option string;
  env_checked : bool;  (* static of cm_get_output *)
  version_printed : bool;  (* static of cmprintf_group_start_tap *)
  xml_printed : Z;
  file_append : Z;
  signal_handlers : gmap Z SignalFunction;  (* the dispositions set with signal() *)
  default_signal_functions : list SignalFunction;
  stdout_text : string;  (* what was written to stdout *)
  stderr_text : string;  (* what was written to stderr *)
  files : gmap string string;  (* the files cmocka opens, by name *)
  environ : gmap string string;  (* getenv() *)
  state_vars : gmap ptr ptr;  (* the void * variables tests get the address of *)
  clock : nat;  (* number of clock_gettime() calls so far *)
  errno : Z;
}.

(** Assignments to one component of the state. *)
Definition set_blocks (x : gmap ptr Block) (w : World) : World :=
  mkWorld x (infos w) (raw w) (bytes w) (cm_error_message_enabled w) (cm_error_message w)
    (global_running_test w) (global_expecting_assert w) (global_last_failed_assert w)
    (global_skip_test w) (global_stop_test w) (global_last_mock_value_location w)
    (global_last_parameter_location w) (global_last_call_ordering_location w)
    (global_msg_output w) (global_test_filter_pattern w) (global_skip_filter_pattern w)
    (env_checked w) (version_printed w) (xml_printed w) (file_append w) (signal_handlers w)
    (default_signal_functions w) (stdout_text w) (stderr_text w) (files w) (environ w)
    (state_vars w) (clock w) (errno w).
Definition set_infos (x : gmap ptr MallocBlockInfoData) (w : World) : World :=
  mkWorld (blocks w) x (raw w) (bytes w) (cm_error_message_enabled w) (cm_error_message w)
    (global_running_test w) (global_expecting_assert w) (global_last_failed_assert w)
    (global_skip_test w) (global_stop_test w) (global_last_mock_value_location w)
    (global_last_parameter_location w) (global_last_call_ordering_location w)
    (global_msg_output w) (global_test_filter_pattern w) (global_skip_filter_pattern w)
    (env_checked w) (version_printed w) (xml_printed w) (file_append w) (signal_handlers w)
    (default_signal_functions w) (stdout_text w) (stderr_text w) (files w) (environ w)
    (state_vars w) (clock w) (errno w).
Definition set_raw (x : gmap ptr Z) (w : World) : World :=
  mkWorld (blocks w) (infos w) x (bytes w) (cm_error_message_enabled w) (cm_error_message w)
    (global_running_test w) (global_expecting_assert w) (global_last_failed_assert w)
    (global_skip_test w) (global_stop_test w) (global_last_mock_value_location w)
    (global_last_parameter_location w) (global_last_call_ordering_location w)
    (global_msg_output w) (global_test_filter_pattern w) (global_skip_filter_pattern w)
    (env_checked w) (version_printed w) (xml_printed w) (file_append w) (signal_handlers w)
    (default_signal_functions w) (stdout_text w) (stderr_text w) (files w) (environ w)
    (state_vars w) (clock w) (errno w).
Definition set_bytes (x : gmap ptr Z) (w : World) : World :=
  mkWorld (blocks w) (infos w) (raw w) x (cm_error_message_enabled w) (cm_error_message w)
    (global_running_test w) (global_expecting_assert w) (global_last_failed_assert w)
    (global_skip_test w) (global_stop_test w) (global_last_mock_value_location w)
    (global_last_parameter_location w) (global_last_call_ordering_location w)
    (global_msg_output w) (global_test_filter_pattern w) (global_skip_filter_pattern w)
    (env_checked w) (version_printed w) (xml_printed w) (file_append w) (signal_handlers w)
    (default_signal_functions w) (stdout_text w) (stderr_text w) (files w) (environ w)
    (state_vars w) (clock w) (errno w).
Definition set_cm_error_message_enabled (x : Z) (w : World) : World :=
  mkWorld (blocks w) (infos w) (raw w) (bytes w) x (cm_error_message w)
    (global_running_test w) (global_expecting_assert w) (global_last_failed_assert w)
    (global_skip_test w) (global_stop_test w) (global_last_mock_value_location w)
    (global_last_parameter_location w) (global_last_call_ordering_location w)
    (global_msg_output w) (global_test_filter_pattern w) (global_skip_filter_pattern w)
    (env_checked w) (version_printed w) (xml_printed w) (file_append w) (signal_handlers w)
    (default_signal_functions w) (stdout_text w) (stderr_text w) (files w) (environ w)
    (state_vars w) (clock w) (errno w).
Definition set_cm_error_message (x : option string) (w : World) : World :=
  mkWorld (blocks w) (infos w) (raw w) (bytes w) (cm_error_message_enabled w) x
    (global_running_test w) (global_expecting_assert w) (global_last_failed_assert w)
    (global_skip_test w) (global_stop_test w) (global_last_mock_value_location w)
    (global_last_parameter_location w) (global_last_call_ordering_location w)
    (global_msg_output w) (global_test_filter_pattern w) (global_skip_filter_pattern w)
    (env_checked w) (version_printed w) (xml_printed w) (file_append w) (signal_handlers w)
    (default_signal_functions w) (stdout_text w) (stderr_text w) (files w) (environ w)
    (state_vars w) (clock w) (errno w).
Definition set_global_running_test (x : Z) (w : World) : World :=
  mkWorld (blocks w) (infos w) (raw w) (bytes w) (cm_error_message_enabled w)
    (cm_error_message w) x (global_expecting_assert w) (global_last_failed_assert w)
    (global_skip_test w) (global_stop_test w) (global_last_mock_value_location w)
    (global_last_parameter_location w) (global_last_call_ordering_location w)
    (global_msg_output w) (global_test_filter_pattern w) (global_skip_filter_pattern w)
    (env_checked w) (version_printed w) (xml_printed w) (file_append w) (signal_handlers w)
    (default_signal_functions w) (stdout_text w) (stderr_text w) (files w) (environ w)
    (state_vars w) (clock w) (errno w).
Definition set_global_expecting_assert (x : Z) (w : World) : World :=
  mkWorld (blocks w) (infos w) (raw w) (bytes w) (cm_error_message_enabled w)
    (cm_error_message w) (global_running_test w) x (global_last_failed_assert w)
    (global_skip_test w) (global_stop_test w) (global_last_mock_value_location w)
    (global_last_parameter_location w) (global_last_call_ordering_location w)
    (global_msg_output w) (global_test_filter_pattern w) (global_skip_filter_pattern w)
    (env_checked w) (version_printed w) (xml_printed w) (file_append w) (signal_handlers w)
    (default_signal_functions w) (stdout_text w) (stderr_text w) (files w) (environ w)
    (state_vars w) (clock w) (errno w).
Definition set_global_last_failed_assert (x : option string) (w : World) : World :=
  mkWorld (blocks w) (infos w) (raw w) (bytes w) (cm_error_message_enabled w)
    (cm_error_message w) (global_running_test w) (global_expecting_assert w) x
    (global_skip_test w) (global_stop_test w) (global_last_mock_value_location w)
    (global_last_parameter_location w) (global_last_call_ordering_location w)
    (global_msg_output w) (global_test_filter_pattern w) (global_skip_filter_pattern w)
    (env_checked w) (version_printed w) (xml_printed w) (file_append w) (signal_handlers w)
    (default_signal_functions w) (stdout_text w) (stderr_text w) (files w) (environ w)
    (state_vars w) (clock w) (errno w).
Definition set_global_skip_test (x : Z) (w : World) : World :=
  mkWorld (blocks w) (infos w) (raw w) (bytes w) (cm_error_message_enabled w)
    (cm_error_message w) (global_running_test w) (global_expecting_assert w)
    (global_last_failed_assert w) x (global_stop_test w) (global_last_mock_value_location w)
    (global_last_parameter_location w) (global_last_call_ordering_location w)
    (global_msg_output w) (global_test_filter_pattern w) (global_skip_filter_pattern w)
    (env_checked w) (version_printed w) (xml_printed w) (file_append w) (signal_handlers w)
    (default_signal_functions w) (stdout_text w) (stderr_text w) (files w) (environ w)
    (state_vars w) (clock w) (errno w).
Definition set_global_stop_test (x : Z) (w : World) : World :=
  mkWorld (blocks w) (infos w) (raw w) (bytes w) (cm_error_message_enabled w)
    (cm_error_message w) (global_running_test w) (global_expecting_assert w)
    (global_last_failed_assert w) (global_skip_test w) x (global_last_mock_value_location w)
    (global_last_parameter_location w) (global_last_call_ordering_location w)
    (global_msg_output w) (global_test_filter_pattern w) (global_skip_filter_pattern w)
    (env_checked w) (version_printed w) (xml_printed w) (file_append w) (signal_handlers w)
    (default_signal_functions w) (stdout_text w) (stderr_text w) (files w) (environ w)
    (state_vars w) (clock w) (errno w).
Definition set_global_last_mock_value_location (x : SourceLocation) (w : World) : World :=
  mkWorld (blocks w) (infos w) (raw w) (bytes w) (cm_error_message_enabled w)
    (cm_error_message w) (global_running_test w) (global_expecting_assert w)
    (global_last_failed_assert w) (global_skip_test w) (global_stop_test w) x
    (global_last_parameter_location w) (global_last_call_ordering_location w)
    (global_msg_output w) (global_test_filter_pattern w) (global_skip_filter_pattern w)
    (env_checked w) (version_printed w) (xml_printed w) (file_append w) (signal_handlers w)
    (default_signal_functions w) (stdout_text w) (stderr_text w) (files w) (environ w)
    (state_vars w) (clock w) (errno w).
Definition set_global_last_parameter_location (x : SourceLocation) (w : World) : World :=
  mkWorld (blocks w) (infos w) (raw w) (bytes w) (cm_error_message_enabled w)
    (cm_error_message w) (global_running_test w) (global_expecting_assert w)
    (global_last_failed_assert w) (global_skip_test w) (global_stop_test w)
    (global_last_mock_value_location w) x (global_last_call_ordering_location w)
    (global_msg_output w) (global_test_filter_pattern w) (global_skip_filter_pattern w)
    (env_checked w) (version_printed w) (xml_printed w) (file_append w) (signal_handlers w)
    (default_signal_functions w) (stdout_text w) (stderr_text w) (files w) (environ w)
    (state_vars w) (clock w) (errno w).
Definition set_global_last_call_ordering_location (x : SourceLocation) (w : World) : World :=
  mkWorld (blocks w) (infos w) (raw w) (bytes w) (cm_error_message_enabled w)
    (cm_error_message w) (global_running_test w) (global_expecting_assert w)
    (global_last_failed_assert w) (global_skip_test w) (global_stop_test w)
    (global_last_mock_value_location w) (global_last_parameter_location w) x
    (global_msg_output w) (global_test_filter_pattern w) (global_skip_filter_pattern w)
    (env_checked w) (version_printed w) (xml_printed w) (file_append w) (signal_handlers w)
    (default_signal_functions w) (stdout_text w) (stderr_text w) (files w) (environ w)
    (state_vars w) (clock w) (errno w).
Definition set_global_msg_output (x : Z) (w : World) : World :=
  mkWorld (blocks w) (infos w) (raw w) (bytes w) (cm_error_message_enabled w)
    (cm_error_message w) (global_running_test w) (global_expecting_assert w)
    (global_last_failed_assert w) (global_skip_test w) (global_stop_test w)
    (global_last_mock_value_location w) (global_last_parameter_location w)
    (global_last_call_ordering_location w) x (global_test_filter_pattern w)
    (global_skip_filter_pattern w) (env_checked w) (version_printed w) (xml_printed w)
    (file_append w) (signal_handlers w) (default_signal_functions w) (stdout_text w)
    (stderr_text w) (files w) (environ w) (state_vars w) (clock w) (errno w).
Definition set_global_test_filter_pattern (x : option string) (w : World) : World :=
  mkWorld (blocks w) (infos w) (raw w) (bytes w) (cm_error_message_enabled w)
    (cm_error_message w) (global_running_test w) (global_expecting_assert w)
    (global_last_failed_assert w) (global_skip_test w) (global_stop_test w)
    (global_last_mock_value_location w) (global_last_parameter_location w)
    (global_last_call_ordering_location w) (global_msg_output w) x
    (global_skip_filter_pattern w) (env_checked w) (version_printed w) (xml_printed w)
    (file_append w) (signal_handlers w) (default_signal_functions w) (stdout_text w)
    (stderr_text w) (files w) (environ w) (state_vars w) (clock w) (errno w).
Definition set_global_skip_filter_pattern (x : option string) (w : World) : World :=
  mkWorld (blocks w) (infos w) (raw w) (bytes w) (cm_error_message_enabled w)
    (cm_error_message w) (global_running_test w) (global_expecting_assert w)
    (global_last_failed_assert w) (global_skip_test w) (global_stop_test w)
    (global_last_mock_value_location w) (global_last_parameter_location w)
    (global_last_call_ordering_location w) (global_msg_output w)
    (global_test_filter_pattern w) x (env_checked w) (version_printed w) (xml_printed w)
    (file_append w) (signal_handlers w) (default_signal_functions w) (stdout_text w)
    (stderr_text w) (files w) (environ w) (state_vars w) (clock w) (errno w).
Definition set_env_checked (x : bool) (w : World) : World :=
  mkWorld (blocks w) (infos w) (raw w) (bytes w) (cm_error_message_enabled w)
    (cm_error_message w) (global_running_test w) (global_expecting_assert w)
    (global_last_failed_assert w) (global_skip_test w) (global_stop_test w)
    (global_last_mock_value_location w) (global_last_parameter_location w)
    (global_last_call_ordering_location w) (global_msg_output w)
    (global_test_filter_pattern w) (global_skip_filter_pattern w) x (version_printed w)
    (xml_printed w) (file_append w) (signal_handlers w) (default_signal_functions w)
    (stdout_text w) (stderr_text w) (files w) (environ w) (state_vars w) (clock w) (errno w).
Definition set_version_printed (x : bool) (w : World) : World :=
  mkWorld (blocks w) (infos w) (raw w) (bytes w) (cm_error_message_enabled w)
    (cm_error_message w) (global_running_test w) (global_expecting_assert w)
    (global_last_failed_assert w) (global_skip_test w) (global_stop_test w)
    (global_last_mock_value_location w) (global_last_parameter_location w)
    (global_last_call_ordering_location w) (global_msg_output w)
    (global_test_filter_pattern w) (global_skip_filter_pattern w) (env_checked w) x
    (xml_printed w) (file_append w) (signal_handlers w) (default_signal_functions w)
    (stdout_text w) (stderr_text w) (files w) (environ w) (state_vars w) (clock w) (errno w).
Definition set_xml_printed (x : Z) (w : World) : World :=
  mkWorld (blocks w) (infos w) (raw w) (bytes w) (cm_error_message_enabled w)
    (cm_error_message w) (global_running_test w) (global_expecting_assert w)
    (global_last_failed_assert w) (global_skip_test w) (global_stop_test w)
    (global_last_mock_value_location w) (global_last_parameter_location w)
    (global_last_call_ordering_location w) (global_msg_output w)
    (global_test_filter_pattern w) (global_skip_filter_pattern w) (env_checked w)
    (version_printed w) x (file_append w) (signal_handlers w) (default_signal_functions w)
    (stdout_text w) (stderr_text w) (files w) (environ w) (state_vars w) (clock w) (errno w).
Definition set_file_append (x : Z) (w : World) : World :=
  mkWorld (blocks w) (infos w) (raw w) (bytes w) (cm_error_message_enabled w)
    (cm_error_message w) (global_running_test w) (global_expecting_assert w)
    (global_last_failed_assert w) (global_skip_test w) (global_stop_test w)
    (global_last_mock_value_location w) (global_last_parameter_location w)
    (global_last_call_ordering_location w) (global_msg_output w)
    (global_test_filter_pattern w) (global_skip_filter_pattern w) (env_checked w)
    (version_printed w) (xml_printed w) x (signal_handlers w) (default_signal_functions w)
    (stdout_text w) (stderr_text w) (files w) (environ w) (state_vars w) (clock w) (errno w).
Definition set_signal_handlers (x : gmap Z SignalFunction) (w : World) : World :=
  mkWorld (blocks w) (infos w) (raw w) (bytes w) (cm_error_message_enabled w)
    (cm_error_message w) (global_running_test w) (global_expecting_assert w)
    (global_last_failed_assert w) (global_skip_test w) (global_stop_test w)
    (global_last_mock_value_location w) (global_last_parameter_location w)
    (global_last_call_ordering_location w) (global_msg_output w)
    (global_test_filter_pattern w) (global_skip_filter_pattern w) (env_checked w)
    (version_printed w) (xml_printed w) (file_append w) x (default_signal_functions w)
    (stdout_text w) (stderr_text w) (files w) (environ w) (state_vars w) (clock w) (errno w).
Definition set_default_signal_functions (x : list SignalFunction) (w : World) : World :=
  mkWorld (blocks w) (infos w) (raw w) (bytes w) (cm_error_message_enabled w)
    (cm_error_message w) (global_running_test w) (global_expecting_assert w)
    (global_last_failed_assert w) (global_skip_test w) (global_stop_test w)
    (global_last_mock_value_location w) (global_last_parameter_location w)
    (global_last_call_ordering_location w) (global_msg_output w)
    (global_test_filter_pattern w) (global_skip_filter_pattern w) (env_checked w)
    (version_printed w) (xml_printed w) (file_append w) (signal_handlers w) x
    (stdout_text w) (stderr_text w) (files w) (environ w) (state_vars w) (clock w) (errno w).
Definition set_stdout_text (x : string) (w : World) : World :=
  mkWorld (blocks w) (infos w) (raw w) (bytes w) (cm_error_message_enabled w)
    (cm_error_message w) (global_running_test w) (global_expecting_assert w)
    (global_last_failed_assert w) (global_skip_test w) (global_stop_test w)
    (global_last_mock_value_location w) (global_last_parameter_location w)
    (global_last_call_ordering_location w) (global_msg_output w)
    (global_test_filter_pattern w) (global_skip_filter_pattern w) (env_checked w)
    (version_printed w) (xml_printed w) (file_append w) (signal_handlers w)
    (default_signal_functions w) x (stderr_text w) (files w) (environ w) (state_vars w)
    (clock w) (errno w).
Definition set_stderr_text (x : string) (w : World) : World :=
  mkWorld (blocks w) (infos w) (raw w) (bytes w) (cm_error_message_enabled w)
    (cm_error_message w) (global_running_test w) (global_expecting_assert w)
    (global_last_failed_assert w) (global_skip_test w) (global_stop_test w)
    (global_last_mock_value_location w) (global_last_parameter_location w)
    (global_last_call_ordering_location w) (global_msg_output w)
    (global_test_filter_pattern w) (global_skip_filter_pattern w) (env_checked w)
    (version_printed w) (xml_printed w) (file_append w) (signal_handlers w)
    (default_signal_functions w) (stdout_text w) x (files w) (environ w) (state_vars w)
    (clock w) (errno w).
Definition set_files (x : gmap string string) (w : World) : World :=
  mkWorld (blocks w) (infos w) (raw w) (bytes w) (cm_error_message_enabled w)
    (cm_error_message w) (global_running_test w) (global_expecting_assert w)
    (global_last_failed_assert w) (global_skip_test w) (global_stop_test w)
    (global_last_mock_value_location w) (global_last_parameter_location w)
    (global_last_call_ordering_location w) (global_msg_output w)
    (global_test_filter_pattern w) (global_skip_filter_pattern w) (env_checked w)
    (version_printed w) (xml_printed w) (file_append w) (signal_handlers w)
    (default_signal_functions w) (stdout_text w) (stderr_text w) x (environ w)
    (state_vars w) (clock w) (errno w).
Definition set_environ (x : gmap string string) (w : World) : World :=
  mkWorld (blocks w) (infos w) (raw w) (bytes w) (cm_error_message_enabled w)
    (cm_error_message w) (global_running_test w) (global_expecting_assert w)
    (global_last_failed_assert w) (global_skip_test w) (global_stop_test w)
    (global_last_mock_value_location w) (global_last_parameter_location w)
    (global_last_call_ordering_location w) (global_msg_output w)
    (global_test_filter_pattern w) (global_skip_filter_pattern w) (env_checked w)
    (version_printed w) (xml_printed w) (file_append w) (signal_handlers w)
    (default_signal_functions w) (stdout_text w) (stderr_text w) (files w) x (state_vars w)
    (clock w) (errno w).
Definition set_state_vars (x : gmap ptr ptr) (w : World) : World :=
  mkWorld (blocks w) (infos w) (raw w) (bytes w) (cm_error_message_enabled w)
    (cm_error_message w) (global_running_test w) (global_expecting_assert w)
    (global_last_failed_assert w) (global_skip_test w) (global_stop_test w)
    (global_last_mock_value_location w) (global_last_parameter_location w)
    (global_last_call_ordering_location w) (global_msg_output w)
    (global_test_filter_pattern w) (global_skip_filter_pattern w) (env_checked w)
    (version_printed w) (xml_printed w) (file_append w) (signal_handlers w)
    (default_signal_functions w) (stdout_text w) (stderr_text w) (files w) (environ w) x
    (clock w) (errno w).
Definition set_clock (x : nat) (w : World) : World :=
  mkWorld (blocks w) (infos w) (raw w) (bytes w) (cm_error_message_enabled w)
    (cm_error_message w) (global_running_test w) (global_expecting_assert w)
    (global_last_failed_assert w) (global_skip_test w) (global_stop_test w)
    (global_last_mock_value_location w) (global_last_parameter_location w)
    (global_last_call_ordering_location w) (global_msg_output w)
    (global_test_filter_pattern w) (global_skip_filter_pattern w) (env_checked w)
    (version_printed w) (xml_printed w) (file_append w) (signal_handlers w)
    (default_signal_functions w) (stdout_text w) (stderr_text w) (files w) (environ w)
    (state_vars w) x (errno w).
Definition set_errno (x : Z) (w : World) : World :=
  mkWorld (blocks w) (infos w) (raw w) (bytes w) (cm_error_message_enabled w)
    (cm_error_message w) (global_running_test w) (global_expecting_assert w)
    (global_last_failed_assert w) (global_skip_test w) (global_stop_test w)
    (global_last_mock_value_location w) (global_last_parameter_location w)
    (global_last_call_ordering_location w) (global_msg_output w)
    (global_test_filter_pattern w) (global_skip_filter_pattern w) (env_checked w)
    (version_printed w) (xml_printed w) (file_append w) (signal_handlers w)
    (default_signal_functions w) (stdout_text w) (stderr_text w) (files w) (environ w)
    (state_vars w) (clock w) x.

(** ** Static list heads *)

Definition global_function_result_map_head : ptr := 16.
Definition global_function_parameter_map_head : ptr := 48.
Definition global_call_ordering_head : ptr := 80.
Definition global_allocated_blocks : ptr := 112.
(** Every address handed out by malloc() is above the static variables. *)
Definition HEAP_START : Z := 4096.

(** ** The platform

    What the code uses of its platform and the C standard leaves open.  The
    definitions are parametric in it. *)
Class Platform := {
  (** the address malloc(size) returns in a given state, NULL for failure *)
  plat_malloc : World -> Z -> ptr;
  (** whether calloc/realloc/strdup of a message or result buffer succeeds *)
  plat_libc_alloc_ok : World -> Z -> bool;
  (** the low 32 bits of the address of a string literal *)
  plat_literal_low32 : option string -> Z;
  (** strerror() and strsignal() *)
  plat_strerror : Z -> string;
  plat_strsignal : Z -> string;
  (** the text printed for %p *)
  plat_fmt_p : ptr -> string;
  (** the time of the n-th clock_gettime() call: seconds, nanoseconds *)
  plat_clock : nat -> Z * Z;
  (** whether fopen(name, "w") succeeds *)
  plat_fopen_w_ok : World -> string -> bool;
  (** the checking functions of the program under test *)
  plat_custom_check : Z -> CMockaValueData -> CMockaValueData -> M World Z;
}.

(** The region of [n] bytes at [p] is disjoint from everything in memory. *)
Definition fresh_region (w : World) (p n : Z) : Prop :=
  HEAP_START <= p /\
  (forall a, p <= a < p + Z.max 1 n ->
     blocks w !! a = None /\ infos w !! a = None /\ bytes w !! a = None) /\
  (forall b size, raw w !! b = Some size -> p + Z.max 1 n <= b \/ b + Z.max 1 size <= p).

(** The documented behaviour of malloc(): NULL or disjoint storage. *)
Class PlatformLaws `{!Platform} : Prop := {
  plat_malloc_fresh w n : plat_malloc w n <> NULL -> fresh_region w (plat_malloc w n) n;
}.

(** A platform whose malloc() never fails. *)
Class PlatformTotal `{!Platform} : Prop := {
  plat_malloc_total w n : plat_malloc w n <> NULL;
}.

Abbreviation CM := (M World).

(** ** The list memory *)

(** The list node inside a block, at [&block], [&map_value->symbol_values_list_head]
    or [&block_info->node]. *)
Definition block_node (b : Block) : option ListNode :=
  match b with
  | BListNode n => Some n
  | BSymbolMapValue v => Some (symbol_values_list_head v)
  | _ => None
  end.
Definition block_with_node (n : ListNode) (b : Block) : Block :=
  match b with
  | BListNode _ => BListNode n
  | BSymbolMapValue v => BSymbolMapValue (mkSymbolMapValue (symbol_name v) n)
  | b => b
  end.
Definition info_with_node (n : ListNode) (i : MallocBlockInfoData) : MallocBlockInfoData :=
  mkMallocBlockInfoData (mb_block i) (mb_allocated_size i) (mb_size i) (mb_location i) n.

Definition world_get_node (w : World) (p : ptr) : option ListNode :=
  if p =? NULL then None
  else match blocks w !! p with
       | Some b => block_node b
       | None => mb_node <$> infos w !! p
       end.

Definition world_put_node (p : ptr) (n : ListNode) (w : World) : World :=
  match blocks w !! p with
  | Some b => set_blocks (<[p := block_with_node n b]> (blocks w)) w
  | None => set_infos (alter (info_with_node n) p (infos w)) w
  end.

(** A libc allocation: a block that is not a static variable. *)
Definition world_owned (w : World) (p : ptr) : bool :=
  (HEAP_START <=? p) && bool_decide (is_Some (blocks w !! p)).

Definition world_drop (p : ptr) (w : World) : World :=
  set_infos (delete p (infos w)) (set_blocks (delete p (blocks w)) w).

(** malloc(sizeof(b)): the block [b] stands for the (indeterminate) content. *)
Definition alloc_block `{!Platform} (size : Z) (b : Block) (w : World) : ptr * World :=
  let p := plat_malloc w size in
  if p =? NULL then (NULL, w) else (p, set_blocks (<[p := b]> (blocks w)) w).

Definition SIZEOF_LISTNODE : Z := 32.
Definition junk_node : ListNode := mkListNode 0 0 0 0.
