(* ===== verification/TestPlatform.v ===== *)
(** * A concrete platform and the initial state

    [initial_world] is the state of a process before it calls cmocka.
    [test_platform] is one platform that satisfies the assumptions made about
    platforms: an allocator which never reuses addresses, and constant texts.
    The witnesses of the properties run on it. *)
From S2P Require Import Prelude CMonad ListNode World.

(** ** The initial state *)

(** The static variables of src/src/cmocka.c with their initialisers: list
    heads are zero, [cm_error_message_enabled] is 1, the output is standard. *)
Definition initial_world : World := {|
  blocks := <[global_function_result_map_head := BListNode junk_node]>
    (<[global_function_parameter_map_head := BListNode junk_node]>
    (<[global_call_ordering_head := BListNode junk_node]>
    (<[global_allocated_blocks := BListNode junk_node]> ∅)));
  infos := ∅; raw := ∅; bytes := ∅;
  cm_error_message_enabled := 1; cm_error_message := None;
  global_running_test := 0; global_expecting_assert := 0; global_last_failed_assert := None;
  global_skip_test := 0; global_stop_test := 0;
  global_last_mock_value_location := mkSourceLocation None 0;
  global_last_parameter_location := mkSourceLocation None 0;
  global_last_call_ordering_location := mkSourceLocation None 0;
  global_msg_output := 1; global_test_filter_pattern := None; global_skip_filter_pattern := None;
  env_checked := false; version_printed := false; xml_printed := 0; file_append := 0;
  signal_handlers := ∅; default_signal_functions := [];
  stdout_text := ""; stderr_text := ""; files := ∅; environ := ∅; state_vars := ∅;
  clock := 0%nat; errno := 0;
|}.

(** ** The allocator *)

(** The largest key of a map, at least [m]. *)
Definition top {A} (m : Z) (f : gmap Z A) : Z := map_fold (fun k _ acc => Z.max k acc) m f.

Lemma top_spec {A} (f : gmap Z A) m : m <= top m f /\ forall k, is_Some (f !! k) -> k <= top m f.
Proof.
  unfold top. apply (map_fold_weak_ind (fun r f => m <= r /\ forall k, is_Some (f !! k) -> k <= r)).
  - split; [lia|]. intros k [x Hx]. by rewrite lookup_empty in Hx.
  - intros k x f' r _ [Hm IH]. split; [lia|]. intros j Hj. destruct (decide (k = j)) as [->|Hne]; [lia|].
    rewrite lookup_insert_ne in Hj by done. specialize (IH j Hj). lia.
Qed.

(** The end of the last libc region. *)
Definition top_raw (m : Z) (f : gmap Z Z) : Z :=
  map_fold (fun k size acc => Z.max (k + Z.max 1 size) acc) m f.

Lemma top_raw_spec (f : gmap Z Z) m :
  m <= top_raw m f /\ forall k s, f !! k = Some s -> k + Z.max 1 s <= top_raw m f.
Proof.
  unfold top_raw.
  apply (map_fold_weak_ind (fun r f => m <= r /\ forall k s, f !! k = Some s -> k + Z.max 1 s <= r)).
  - split; [lia|]. intros k s Hs. by rewrite lookup_empty in Hs.
  - intros k x f' r _ [Hm IH]. split; [lia|]. intros j s Hj.
    destruct (decide (k = j)) as [->|Hne].
    + rewrite lookup_insert_eq in Hj. simplify_eq. lia.
    + rewrite lookup_insert_ne in Hj by done. specialize (IH j s Hj). lia.
Qed.

(** The first multiple of 16 above everything in memory. *)
Definition bump (w : World) : Z :=
  let m := top (top (top (top_raw HEAP_START (raw w)) (bytes w)) (infos w)) (blocks w) in
  (m / 16 + 1) * 16.

Definition test_platform : Platform := {|
  plat_malloc w _ := bump w;
  plat_libc_alloc_ok _ _ := true;
  plat_literal_low32 s := match s with Some s => Z.of_nat (String.length s) + 4096 | None => 0 end;
  plat_strerror _ := "error";
  plat_strsignal _ := "signal";
  plat_fmt_p p := pretty p;
  plat_clock n := (Z.of_nat n, 0);
  plat_fopen_w_ok _ _ := true;
  plat_custom_check id _ _ := mret id;
|}.

Lemma bump_spec w n : fresh_region w (bump w) n.
Proof.
  unfold bump. set (r := top_raw HEAP_START (raw w)). set (b := top r (bytes w)).
  set (i := top b (infos w)). set (m := top i (blocks w)).
  destruct (top_raw_spec (raw w) HEAP_START) as [Hr Hr'].
  destruct (top_spec (bytes w) r) as [Hb Hb'], (top_spec (infos w) b) as [Hi Hi'],
    (top_spec (blocks w) i) as [Hm Hm'].
  fold r in Hr, Hr'. fold b in Hb, Hb'. fold i in Hi, Hi'. fold m in Hm, Hm'.
  pose proof (Z.mul_succ_div_gt m 16 ltac:(lia)) as Hgt.
  assert (m < (m / 16 + 1) * 16) as Hp by lia. clear Hgt.
  assert (forall A (f : gmap Z A) a, (forall k, is_Some (f !! k) -> k <= m) ->
    (m / 16 + 1) * 16 <= a -> f !! a = None) as Hnone.
  { intros A f a Hk Ha. destruct (f !! a) eqn:E; [|done]. specialize (Hk a ltac:(eauto)). lia. }
  split_and!; [lia| |].
  - intros a [Ha _]. split_and!; (eapply Hnone; [|exact Ha]); intros k Hk.
    + by apply Hm'.
    + specialize (Hi' k Hk). lia.
    + specialize (Hb' k Hk). lia.
  - intros k s Hk. right. specialize (Hr' k s Hk). lia.
Qed.

Lemma test_laws : @PlatformLaws test_platform.
Proof. constructor. intros w n _. apply bump_spec. Qed.

Lemma test_total : @PlatformTotal test_platform.
Proof. constructor. intros w n. destruct (bump_spec w n) as [Hs _]. unfold HEAP_START, NULL in *. simpl. lia. Qed.
