(* ===== verification/Report.v ===== *)
(** * Messages and leaving a test

    [exit_test], [_skip], [_stop], [_fail], the error message buffer
    ([cmocka_print_error], [vcmocka_print_error]), the output selection
    ([cm_get_output]) and cmocka's elementary assertions. *)
From S2P Require Import Prelude CMonad ListNode World.

(** ** printf conversions *)

(** "%d", "%jd" *)
Definition fmt_d (z : Z) : string := pretty z.
(** "%u", "%ju", "%zu" of a non-negative number *)
Definition fmt_u (z : Z) : string := pretty (Z.to_N z).
(** "%s"; a NULL argument prints as "(null)" *)
Definition fmt_s (s : option string) : string := default "(null)" s.

Definition hex_digit (d : Z) : string :=
  if d <? 10 then pretty (Z.to_N d)
  else String (Ascii.ascii_of_N (Z.to_N (87 + d))) "".
Fixpoint fmt_x_loop (fuel : nat) (z : Z) (acc : string) : string :=
  match fuel with
  | O => acc
  | S k => let acc' := hex_digit (z mod 16) +:+ acc in
           if z / 16 =? 0 then acc' else fmt_x_loop k (z / 16) acc'
  end.
(** "%x"; 16 digits are enough for 64 bits. *)
Definition fmt_x (z : Z) : string := fmt_x_loop 16 z "".
(** "%#jx" *)
Definition fmt_alt_x (z : Z) : string := if z =? 0 then "0" else "0x" +:+ fmt_x z.

Fixpoint repeat_string (n : nat) (s : string) : string :=
  match n with O => "" | S k => s +:+ repeat_string k s end.
(** "%0<width>x" *)
Definition fmt_0x (width : nat) (z : Z) : string :=
  let d := fmt_x z in repeat_string (width - String.length d) "0" +:+ d.

(** SOURCE_LOCATION_FORMAT, "%s:%u" *)
Definition fmt_location (file : option string) (line : Z) : string :=
  fmt_s file +:+ ":" +:+ fmt_u (to_u32 line).

(** ** Printing *)

Definition print_message (s : string) : CM unit :=
  modify (fun w => set_stdout_text (stdout_text w +:+ s) w).
Definition print_error (s : string) : CM unit :=
  modify (fun w => set_stderr_text (stderr_text w +:+ s) w).

(** The first [n] characters of a string. *)
Definition str_take (n : nat) (s : string) : string := String.substring 0 n s.

Section platform.
Context `{!Platform}.

(** [sizeof(buffer)] in [vcmocka_print_error] *)
Definition MESSAGE_BUFFER : Z := 256.

(** [s] is the text of the formatted message.  It is appended to
    [cm_error_message] from the stack buffer when it fits there, and by a
    second [vsnprintf] of [len] bytes otherwise: that call writes [len - 1]
    characters and the terminating NUL. *)
Definition vcmocka_print_error (s : string) : CM unit :=
  let len := Z.of_nat (String.length s) in
  old ← gets cm_error_message;
  let msg := default "" old in
  let msg_len := Z.of_nat (String.length msg) in
  let request := match old with None => len + 1 | Some _ => msg_len + len + 1 end in
  ok ← gets (fun w => plat_libc_alloc_ok w request);
  if (ok : bool) then
    let copied := if len <? MESSAGE_BUFFER then s
                  else str_take (String.length s - 1) s in
    modify (set_cm_error_message (Some (msg +:+ copied)))
  else mret tt.

Definition cmocka_print_error (s : string) : CM unit :=
  enabled ← gets cm_error_message_enabled;
  if decide (enabled <> 0) then vcmocka_print_error s else print_error s.

(** ** Leaving a test *)

Definition EXIT_FAILURE : Z := 1.

Definition exit_test (quit_application : bool) : CM unit :=
  env ← gets (fun w => environ w !! "CMOCKA_TEST_ABORT");
  let abort_test := match env with
                    | Some e => bool_decide (e = "1")
                    | None => false
                    end in
  skip ← gets global_skip_test;
  running ← gets global_running_test;
  if (skip =? 0) && abort_test then
    msg ← gets cm_error_message;
    match msg with Some m => print_error m | None => mret tt end;;
    libc_abort
  else if negb (running =? 0) then longjmp
  else if quit_application then libc_exit EXIT_FAILURE
  else mret tt.

Definition _skip (file : option string) (line : Z) : CM unit :=
  cmocka_print_error (fmt_location file line +:+ ": Skipped!" +:+ nl);;
  modify (set_global_skip_test 1);;
  exit_test true;;
  libc_exit EXIT_FAILURE.

Definition _stop : CM unit :=
  modify (set_global_stop_test 1);;
  exit_test true;;
  libc_exit EXIT_FAILURE.

(** ** The output selection *)

Definition CM_OUTPUT_STANDARD : Z := 1.
Definition CM_OUTPUT_SUBUNIT : Z := 2.
Definition CM_OUTPUT_TAP : Z := 4.
Definition CM_OUTPUT_XML : Z := 8.
(** [output & flag] as a condition *)
Definition has_output (output flag : Z) : bool := negb (Z.land output flag =? 0).

(** [strtok_r(str, ",", _)], repeated: the non-empty pieces between commas. *)
Fixpoint strtok_comma (cur : string) (s : string) : list string :=
  match s with
  | "" => if decide (cur = "") then [] else [cur]
  | String c s' =>
      if decide (c = ","%char)
      then if decide (cur = "") then strtok_comma "" s' else cur :: strtok_comma "" s'
      else strtok_comma (cur +:+ String c "") s'
  end.

Definition to_lower (c : Ascii.ascii) : Ascii.ascii :=
  let n := Ascii.nat_of_ascii c in
  if (Nat.leb 65 n && Nat.leb n 90)%bool then Ascii.ascii_of_nat (n + 32) else c.
Fixpoint lowercase (s : string) : string :=
  match s with "" => "" | String c s' => String (to_lower c) (lowercase s') end.
(** [strcasecmp(a, b) == 0] *)
Definition strcaseeq (a b : string) : bool := bool_decide (lowercase a = lowercase b).

(** The bit the loop of [cm_get_output] sets for one token. *)
Definition output_flag (tok : string) : Z :=
  if strcaseeq tok "STANDARD" then CM_OUTPUT_STANDARD
  else if strcaseeq tok "STDOUT" then CM_OUTPUT_STANDARD
  else if strcaseeq tok "SUBUNIT" then CM_OUTPUT_SUBUNIT
  else if strcaseeq tok "TAP" then CM_OUTPUT_TAP
  else if strcaseeq tok "XML" then CM_OUTPUT_XML
  else 0.

Definition parse_output (env : string) : Z :=
  foldl (fun acc tok => Z.lor acc (output_flag tok)) 0 (strtok_comma "" env).

Definition cm_get_output : CM Z := fun w =>
  if env_checked w then (Ret (global_msg_output w), w)
  else match environ w !! "CMOCKA_MESSAGE_OUTPUT" with
       | None => (Ret (global_msg_output w), w)
       | Some env =>
           let len := String.length env in
           if (Nat.eqb len 0 || Nat.ltb 32 len)%bool then (Ret (global_msg_output w), w)
           else if negb (plat_libc_alloc_ok w (Z.of_nat len + 1)) then
             (Ret (global_msg_output w), w)
           else
             let new_output := parse_output env in
             let w1 := if new_output =? 0 then w else set_global_msg_output new_output w in
             let w2 := set_env_checked true w1 in
             (Ret (global_msg_output w2), w2)
       end.

Definition cmocka_set_message_output (output : Z) : CM unit :=
  modify (set_global_msg_output output).
Definition cmocka_set_test_filter (pattern : option string) : CM unit :=
  modify (set_global_test_filter_pattern pattern).
Definition cmocka_set_skip_filter (pattern : option string) : CM unit :=
  modify (set_global_skip_filter_pattern pattern).

Definition any_machine_output (output : Z) : bool :=
  has_output output CM_OUTPUT_SUBUNIT || has_output output CM_OUTPUT_TAP ||
  has_output output CM_OUTPUT_XML.

Definition _additional_msg (msg : string) : CM unit :=
  output ← cm_get_output;
  when (has_output output CM_OUTPUT_STANDARD)
    (cmocka_print_error ("[          ] --- " +:+ msg +:+ nl));;
  when (any_machine_output output) (cmocka_print_error (msg +:+ nl)).

Definition _fail (file : option string) (line : Z) : CM unit :=
  output ← cm_get_output;
  when (has_output output CM_OUTPUT_STANDARD)
    (cmocka_print_error ("[   LINE   ] --- " +:+ fmt_location file line +:+
                         ": error: Failure!"));;
  when (any_machine_output output)
    (cmocka_print_error (fmt_location file line +:+ ": error: Failure!"));;
  exit_test true;;
  libc_exit EXIT_FAILURE.

(** [exception_handler] for signal [sig] *)
Definition exception_handler (sig : Z) : CM unit :=
  cmocka_print_error ("Test failed with exception: " +:+ plat_strsignal sig +:+
                      "(" +:+ fmt_d sig +:+ ")");;
  exit_test true;;
  libc_exit EXIT_FAILURE.

(** ** Elementary assertions *)

Definition _assert_true (result : Z) (expression : string)
    (file : option string) (line : Z) : CM unit :=
  when (result =? 0)
    (cmocka_print_error (expression +:+ " is not true" +:+ nl);; _fail file line).

Definition _assert_false (result : Z) (expression : string)
    (file : option string) (line : Z) : CM unit :=
  when (negb (result =? 0))
    (cmocka_print_error (expression +:+ " is not false" +:+ nl);; _fail file line).

Definition ptr_values_equal_display_error (left right : ptr) : CM bool :=
  let equal := left =? right in
  when (negb equal)
    (cmocka_print_error (plat_fmt_p left +:+ " != " +:+ plat_fmt_p right +:+ nl));;
  mret equal.

Definition ptr_values_not_equal_display_error (left right : ptr) : CM bool :=
  let equal := negb (left =? right) in
  when (negb equal)
    (cmocka_print_error (plat_fmt_p left +:+ " == " +:+ plat_fmt_p right +:+ nl));;
  mret equal.

Definition _assert_ptr_equal_msg (a b : ptr) (file : option string) (line : Z)
    (msg : option string) : CM unit :=
  ok ← ptr_values_equal_display_error a b;
  when (negb ok)
    (match msg with Some m => _additional_msg m | None => mret tt end;; _fail file line).

Definition _assert_ptr_not_equal_msg (a b : ptr) (file : option string) (line : Z)
    (msg : option string) : CM unit :=
  ok ← ptr_values_not_equal_display_error a b;
  when (negb ok)
    (match msg with Some m => _additional_msg m | None => mret tt end;; _fail file line).

(** The assertions cmocka.c makes about itself, by source line. *)
Definition CMOCKA_C : option string := Some "cmocka.c".
Definition assert_non_null (line : Z) (p : ptr) : CM unit :=
  _assert_ptr_not_equal_msg p NULL CMOCKA_C line None.
Definition assert_true (line : Z) (expression : string) (c : bool) : CM unit :=
  _assert_true (Z.b2z c) expression CMOCKA_C line.
End platform.
