(* ===== verification/Memory.v ===== *)
(** * The memory of the process as a list memory

    The instance of the interface of [ListNode.v] for [World], what printing
    leaves unchanged, and the ways of leaving a test.  *)
From S2P Require Import Prelude CMonad ListNode World Report.

#[export] Instance world_heap `{!Platform} : HeapOps World := {
  get_node := world_get_node;
  put_node := world_put_node;
  owned := world_owned;
  drop := world_drop;
  alloc_node := alloc_block SIZEOF_LISTNODE (BListNode junk_node);
  assert_non_null_at := assert_non_null;
  node_bound w := (size (blocks w) + size (infos w))%nat;
}.

Section laws.
Context `{!Platform}.
Implicit Types (w : World) (p q : ptr).

Lemma world_get_put w p n q :
  is_Some (world_get_node w p) ->
  world_get_node (world_put_node p n w) q =
    if decide (q = p) then Some n else world_get_node w q.
Proof.
  unfold world_get_node, world_put_node, NULL. intros Hs.
  destruct (p =? 0) eqn:Hp; [by destruct Hs|]. zbool.
  destruct (blocks w !! p) as [b|] eqn:Hb; simpl; case_decide as Hq; subst.
  - rewrite (proj2 (Z.eqb_neq p 0)) by done. rewrite lookup_insert_eq.
    by destruct b, Hs.
  - by rewrite lookup_insert_ne.
  - rewrite (proj2 (Z.eqb_neq p 0)) by done. rewrite Hb, lookup_alter_eq.
    destruct (infos w !! p); simpl; [done|by destruct Hs].
  - by rewrite lookup_alter_ne.
Qed.

Lemma world_owned_put w p n q : world_owned (world_put_node p n w) q = world_owned w q.
Proof.
  unfold world_owned, world_put_node. destruct (blocks w !! p) eqn:Hb; [simpl|done].
  f_equal. apply bool_decide_ext. destruct (decide (q = p)) as [->|].
  - rewrite lookup_insert_eq, Hb. split; eauto.
  - by rewrite lookup_insert_ne.
Qed.

Lemma world_get_drop w p q :
  world_get_node (world_drop p w) q = if decide (q = p) then None else world_get_node w q.
Proof.
  unfold world_get_node, world_drop; simpl. destruct (q =? NULL) eqn:Hq.
  - by case_decide.
  - case_decide; subst; [by rewrite !lookup_delete_eq|by rewrite !lookup_delete_ne].
Qed.

Lemma world_owned_drop w p q :
  world_owned (world_drop p w) q = if decide (q = p) then false else world_owned w q.
Proof.
  unfold world_owned, world_drop; simpl. case_decide; subst.
  - rewrite lookup_delete_eq, bool_decide_false, andb_false_r; [done|]. by intros [].
  - by rewrite lookup_delete_ne.
Qed.

Lemma fresh_region_base w p n :
  fresh_region w p n ->
  HEAP_START <= p /\ blocks w !! p = None /\ infos w !! p = None /\ bytes w !! p = None.
Proof. intros (Hp & Hf & _). split; [done|]. apply Hf. lia. Qed.

(** A successful allocation of a typed block. *)
Lemma alloc_block_fresh `{!PlatformLaws} size b w p w' :
  alloc_block size b w = (p, w') -> p <> NULL ->
  HEAP_START <= p /\ blocks w !! p = None /\ infos w !! p = None /\
  w' = set_blocks (<[p := b]> (blocks w)) w.
Proof.
  unfold alloc_block. intros Ha Hp. destruct (plat_malloc w size =? NULL) eqn:Hn; [congruence|].
  zbool. injection Ha as <- <-.
  pose proof (fresh_region_base _ _ _ (plat_malloc_fresh w size Hn)). naive_solver.
Qed.

Lemma alloc_block_total `{!PlatformTotal} size b w :
  exists p, alloc_block size b w = (p, set_blocks (<[p := b]> (blocks w)) w) /\ p <> NULL.
Proof.
  unfold alloc_block. pose proof (plat_malloc_total w size) as Hn.
  rewrite (proj2 (Z.eqb_neq _ _) Hn). eauto.
Qed.

Lemma world_alloc_fresh `{!PlatformLaws} w w' p :
  alloc_block SIZEOF_LISTNODE (BListNode junk_node) w = (p, w') -> p <> NULL ->
  world_get_node w p = None /\ world_owned w p = false /\
  is_Some (world_get_node w' p) /\ world_owned w' p = true /\
  (forall q, q <> p -> world_get_node w' q = world_get_node w q /\
                       world_owned w' q = world_owned w q).
Proof.
  intros Ha Hp. destruct (alloc_block_fresh _ _ _ _ _ Ha Hp) as (Hstart & Hb & Hi & ->).
  unfold world_get_node, world_owned; simpl. rewrite (proj2 (Z.eqb_neq p NULL)) by done.
  rewrite Hb, Hi, lookup_insert_eq, (proj2 (Z.leb_le _ _)) by done. split_and!; try done.
  intros q Hq. by rewrite lookup_insert_ne.
Qed.

Lemma world_node_bound w (ps : list ptr) :
  NoDup ps -> (forall p, p ∈ ps -> is_Some (world_get_node w p)) ->
  (length ps <= size (blocks w) + size (infos w))%nat.
Proof.
  intros Hnd Hps. rewrite <-!size_dom.
  transitivity (size (dom (blocks w) ∪ dom (infos w))).
  - rewrite <-(size_list_to_set (C:=gset Z) ps Hnd). apply subseteq_size.
    intros p Hp%elem_of_list_to_set. apply Hps in Hp. unfold world_get_node in Hp.
    rewrite elem_of_union, !elem_of_dom.
    destruct (p =? NULL); [by destruct Hp|].
    destruct (blocks w !! p); [eauto|]. destruct (infos w !! p); [eauto|by destruct Hp].
  - rewrite size_union_alt. etrans; [apply Nat.add_le_mono_l, subseteq_size|done]. set_solver.
Qed.

Lemma assert_non_null_ok w line p : p <> NULL -> assert_non_null line p w = (Ret tt, w).
Proof.
  intros Hp. unfold assert_non_null, _assert_ptr_not_equal_msg,
    ptr_values_not_equal_display_error.
  by rewrite (proj2 (Z.eqb_neq _ _) Hp).
Qed.

Lemma assert_true_ok w line e : assert_true line e true w = (Ret tt, w).
Proof. done. Qed.

#[export] Instance world_heap_laws `{!PlatformLaws} : HeapLaws World.
Proof.
  split.
  - done.
  - apply world_get_put.
  - apply world_owned_put.
  - apply world_get_drop.
  - apply world_owned_drop.
  - intros w w' p. apply world_alloc_fresh.
  - intros w line p. apply assert_non_null_ok.
  - apply world_node_bound.
Qed.
End laws.

(** ** List operations and the rest of the world *)

(** The block at a non-NULL address. *)
Definition lookup_block (w : World) (p : ptr) : option Block :=
  if p =? NULL then None else blocks w !! p.

(** The [symbol_name] of the [SymbolMapValue] at [p]. *)
Definition name_of (w : World) (p : ptr) : option string :=
  match lookup_block w p with
  | Some (BSymbolMapValue v) => Some (symbol_name v)
  | _ => None
  end.

Section touched.
Context `{!Platform, !PlatformLaws}.
Implicit Types (w : World) (W D : list ptr).

(** Only the typed memory changes. *)
Lemma touches_world W D w w' :
  touches W D w w' -> exists b i, w' = set_blocks b (set_infos i w).
Proof.
  induction 1 as [w|w w' p n Hp Hn _ (b & i & ->)|w w' p Hp _ _ (b & i & ->)
                 |w w1 w' p Hp Hnz Ha _ (b & i & ->)].
  - exists (blocks w), (infos w). by destruct w.
  - exists b, i. simpl. unfold world_put_node. by destruct (blocks w !! p), w.
  - exists b, i. by destruct w.
  - exists b, i. simpl in Ha. apply alloc_block_fresh in Ha as (_ & _ & _ & ->); [|done].
    by destruct w.
Qed.

Lemma touches_block W D w w' q :
  touches W D w w' -> (q ∉ W) -> (q ∉ D) ->
  blocks w' !! q = blocks w !! q /\ infos w' !! q = infos w !! q.
Proof.
  induction 1 as [w|w w' p n Hp Hn _ IH|w w' p Hp _ _ IH|w w1 w' p Hp Hnz Ha _ IH];
    intros Hq Hq'; [done| | |]; destruct (IH Hq Hq') as [-> ->]; simpl.
  - unfold world_put_node. destruct (blocks w !! p); simpl;
      [rewrite lookup_insert_ne|rewrite lookup_alter_ne]; try done; by intros ->.
  - rewrite !lookup_delete_ne; try done; by intros ->.
  - simpl in Ha. apply alloc_block_fresh in Ha as (_ & _ & _ & ->); [|done]. simpl.
    rewrite lookup_insert_ne; [done|]. by intros ->.
Qed.

(** The list nodes among the static variables remain. *)
Definition static_kept w w' : Prop :=
  forall x, x < HEAP_START -> is_Some (blocks w !! x ≫= block_node) -> is_Some (blocks w' !! x ≫= block_node).

#[export] Instance static_kept_preorder : PreOrder static_kept.
Proof. split; [by intros w x|]. intros w1 w2 w3 H12 H23 x Hx Hs. by apply H23, H12. Qed.

Lemma static_kept_insert w p b : HEAP_START <= p -> static_kept w (set_blocks (<[p := b]> (blocks w)) w).
Proof. intros Hp x Hx Hs. cbn. rewrite lookup_insert_ne; [done|lia]. Qed.

Lemma touches_static W D w w' : touches W D w w' -> static_kept w w'.
Proof.
  induction 1 as [w|w w' p n Hp Hn _ IH|w w' p Hp Ho _ IH|w w1 w' p Hp Hnz Ha _ IH]; [done|etrans; [|exact IH]..].
  - intros x Hx Hs. cbn. unfold world_put_node. destruct (blocks w !! p) as [b|] eqn:Hb; [cbn|done].
    destruct (decide (p = x)) as [->|]; [|by rewrite lookup_insert_ne].
    rewrite Hb in Hs. rewrite lookup_insert_eq. cbn in *. by destruct b.
  - intros x Hx Hs. cbn in *. unfold world_owned in Ho. apply andb_true_iff in Ho as [Ho%Z.leb_le _].
    rewrite lookup_delete_ne; [done|lia].
  - simpl in Ha. apply alloc_block_fresh in Ha as (Hs & _ & _ & ->); [|done]. by apply static_kept_insert.
Qed.

(** Blocks which are not list nodes are only changed by freeing them. *)
Lemma touches_data W D w w' q b :
  touches W D w w' -> (q ∉ D) -> blocks w !! q = Some b -> block_node b = None ->
  blocks w' !! q = Some b.
Proof.
  induction 1 as [w|w w' p n Hp Hn _ IH|w w' p Hp _ _ IH|w w1 w' p Hp Hnz Ha _ IH];
    intros Hq Hb Hnode; [done| | |]; apply IH; try done; simpl.
  - unfold world_put_node. destruct (blocks w !! p) as [b'|] eqn:Hb'; simpl; [|done].
    rewrite lookup_insert_ne; [done|]. intros ->. destruct Hn as [n' Hn].
    simpl in Hn. unfold world_get_node in Hn. destruct (q =? NULL); simplify_eq.
    rewrite Hb in Hn. congruence.
  - rewrite lookup_delete_ne; [done|]. by intros ->.
  - simpl in Ha. apply alloc_block_fresh in Ha as (_ & _ & _ & ->); [|done]. simpl.
    rewrite lookup_insert_ne; [done|]. by intros ->.
Qed.

Lemma touches_name W D w w' q : touches W D w w' -> (q ∉ D) -> name_of w' q = name_of w q.
Proof.
  induction 1 as [w|w w' p n Hp Hn _ IH|w w' p Hp _ _ IH|w w1 w' p Hp Hnz Ha _ IH];
    intros Hq; [done| | |]; rewrite IH by done; unfold name_of, lookup_block; simpl;
    destruct (q =? NULL); try done.
  - unfold world_put_node. destruct (blocks w !! p) as [b|] eqn:Hb; simpl; [|done].
    destruct (decide (q = p)) as [->|]; [|by rewrite lookup_insert_ne].
    rewrite lookup_insert_eq, Hb. by destruct b.
  - rewrite lookup_delete_ne; [done|]. by intros ->.
  - simpl in Ha. apply alloc_block_fresh in Ha as (_ & _ & _ & ->); [|done]. simpl.
    rewrite lookup_insert_ne; [done|]. by intros ->.
Qed.

Lemma owned_heap w p : owned w p = true -> p <> NULL /\ is_Some (blocks w !! p).
Proof.
  simpl. unfold world_owned, HEAP_START, NULL. rewrite andb_true_iff, bool_decide_eq_true.
  intros [Hp Hb]. zbool. split; [lia|done].
Qed.
End touched.

(** ** What printing changes *)

(** [w'] is [w] but for the message buffer, stderr and the cached output
    selection. *)
Definition quiet (w w' : World) : Prop :=
  exists m e o c,
    w' = set_cm_error_message m (set_stderr_text e (set_global_msg_output o (set_env_checked c w))).

#[export] Instance quiet_preorder : PreOrder quiet.
Proof.
  split.
  - intros w. exists (cm_error_message w), (stderr_text w), (global_msg_output w), (env_checked w).
    by destruct w.
  - intros w1 w2 w3 (m1 & e1 & o1 & c1 & ->) (m2 & e2 & o2 & c2 & ->).
    exists m2, e2, o2, c2. by destruct w1.
Qed.

(** Rewrite the components of the later world that printing does not change. *)
Ltac quiet_simpl := repeat match goal with
  | H : quiet ?w ?w' |- _ => destruct H as (? & ? & ? & ? & ->); simpl in *
  end.

Section printing.
Context `{!Platform}.
Implicit Types w : World.

Lemma quiet_message w m : quiet w (set_cm_error_message m w).
Proof.
  exists m, (stderr_text w), (global_msg_output w), (env_checked w). by destruct w.
Qed.
Lemma quiet_stderr w e : quiet w (set_stderr_text e w).
Proof.
  exists (cm_error_message w), e, (global_msg_output w), (env_checked w). by destruct w.
Qed.
Lemma quiet_output w o c : quiet w (set_env_checked c (set_global_msg_output o w)).
Proof. exists (cm_error_message w), (stderr_text w), o, c. by destruct w. Qed.
Lemma quiet_env_checked w c : quiet w (set_env_checked c w).
Proof.
  exists (cm_error_message w), (stderr_text w), (global_msg_output w), c. by destruct w.
Qed.

(** A computation that only prints: it returns and is [quiet]. *)
Definition prints (m : CM unit) : Prop := forall w, exists w', m w = (Ret tt, w') /\ quiet w w'.

Lemma prints_ret : prints (mret tt).
Proof. intros w. by exists w. Qed.
Lemma prints_seq (m k : CM unit) : prints m -> prints k -> prints (m;; k).
Proof.
  intros Hm Hk w. destruct (Hm w) as (w1 & R1 & Q1), (Hk w1) as (w2 & R2 & Q2).
  exists w2. mrun R1. split; [done|]. by etrans.
Qed.
Lemma prints_when b m : prints m -> prints (when b m).
Proof. destruct b; [done|]. intros _. apply prints_ret. Qed.
Lemma prints_gets {A} (f : World -> A) (k : A -> CM unit) :
  (forall a, prints (k a)) -> prints (a ← gets f; k a).
Proof. intros Hk w. destruct (Hk (f w) w) as (w' & R & Q). by exists w'. Qed.

Lemma prints_print_error s : prints (print_error s).
Proof. intros w. eexists. split; [done|]. apply quiet_stderr. Qed.

Lemma prints_vcmocka_print_error s : prints (vcmocka_print_error s).
Proof.
  intros w. unfold vcmocka_print_error. do 2 mprim.
  destruct (plat_libc_alloc_ok w _); [|by exists w].
  eexists. split; [done|]. apply quiet_message.
Qed.

Lemma prints_cmocka_print_error s : prints (cmocka_print_error s).
Proof.
  unfold cmocka_print_error. apply prints_gets. intros e.
  case_decide; [apply prints_vcmocka_print_error|apply prints_print_error].
Qed.

Lemma cm_get_output_quiet w : exists o w', cm_get_output w = (Ret o, w') /\ quiet w w'.
Proof.
  unfold cm_get_output. repeat split_match; do 2 eexists; split; try done.
  - apply quiet_env_checked.
  - apply quiet_output.
Qed.

Lemma prints_output (k : Z -> CM unit) :
  (forall o, prints (k o)) -> prints (o ← cm_get_output; k o).
Proof.
  intros Hk w. destruct (cm_get_output_quiet w) as (o & w1 & R1 & Q1).
  destruct (Hk o w1) as (w2 & R2 & Q2). exists w2. mrun R1. split; [done|]. by etrans.
Qed.

Lemma prints_additional_msg s : prints (_additional_msg s).
Proof.
  apply prints_output. intros o.
  apply prints_seq; apply prints_when, prints_cmocka_print_error.
Qed.

Lemma prints_foldr {A} (f : A -> CM unit) l k :
  (forall a, prints (f a)) -> prints k -> prints (foldr (fun a m => f a;; m) k l).
Proof. intros Hf Hk. induction l; simpl; [done|]. by apply prints_seq. Qed.
End printing.

#[export] Hint Resolve prints_ret prints_seq prints_when prints_gets prints_print_error
  prints_cmocka_print_error prints_output prints_additional_msg : cmocka.

(** ** Leaving a test *)

Section leaving.
Context `{!Platform}.
Implicit Types w : World.

Definition abort_requested w : bool :=
  (global_skip_test w =? 0) && bool_decide (environ w !! "CMOCKA_TEST_ABORT" = Some "1").

(** How [exit_test(true)] ends. *)
Definition exit_outcome {A} w : outcome A :=
  if abort_requested w then Aborted
  else if negb (global_running_test w =? 0) then LongJmp else Exit EXIT_FAILURE.

Lemma exit_outcome_bind {A B} (m : CM A) (k : A -> CM B) w0 w w' :
  m w = (exit_outcome w0, w') -> (m ≫= k) w = (exit_outcome w0, w').
Proof. intros R. rewrite bind_eq, R. unfold exit_outcome. by repeat split_match. Qed.

Lemma exit_test_run w :
  exists w', exit_test true w = (exit_outcome w, w') /\ quiet w w'.
Proof.
  unfold exit_test, exit_outcome, abort_requested. do 3 mprim.
  assert (match environ w !! "CMOCKA_TEST_ABORT" with
          | Some e => bool_decide (e = "1") | None => false end =
          bool_decide (environ w !! "CMOCKA_TEST_ABORT" = Some "1")) as ->.
  { destruct (environ w !! _); apply bool_decide_ext || done; naive_solver. }
  destruct (_ && _).
  - mprim. destruct (cm_error_message w) as [m|].
    + destruct (prints_print_error m w) as (w' & R & Q). exists w'. by mrun R.
    + by exists w.
  - destruct (negb _); by exists w.
Qed.

(** Neither [quiet] changes nor code after [exit_test(true)] matter. *)
Lemma exit_outcome_quiet {A} w w' : quiet w w' -> @exit_outcome A w' = exit_outcome w.
Proof. by intros (m & e & o & c & ->). Qed.

Lemma exit_test_then {A} (k : CM A) w :
  exists w', (exit_test true;; k) w = (exit_outcome w, w') /\ quiet w w'.
Proof.
  destruct (exit_test_run w) as (w' & R & Q). exists w'. split; [|done].
  rewrite bind_eq, R. unfold exit_outcome. by repeat split_match.
Qed.

Lemma prints_then_exit {A} (m : CM unit) (k : CM A) w :
  prints m -> exists w', (m;; exit_test true;; k) w = (exit_outcome w, w') /\ quiet w w'.
Proof.
  intros Hm. destruct (Hm w) as (w1 & R1 & Q1). destruct (exit_test_then k w1) as (w2 & R2 & Q2).
  exists w2. mrun R1. rewrite R2. split; [|by etrans]. by rewrite (exit_outcome_quiet w w1).
Qed.

(** [_fail] does not return: it ends like [exit_test(true)]. *)
Lemma fail_run file line w :
  exists w', _fail file line w = (exit_outcome w, w') /\ quiet w w'.
Proof.
  unfold _fail. destruct (cm_get_output_quiet w) as (o & w1 & R1 & Q1). mrun R1.
  rewrite <-(exit_outcome_quiet w w1 Q1), <-bind_assoc_run.
  edestruct (prints_then_exit (A:=unit)) as (w2 & R2 & Q2); [|exists w2; split; [exact R2|by etrans]].
  apply prints_seq; apply prints_when, prints_cmocka_print_error.
Qed.

Lemma prints_then_fail (m : CM unit) file line w :
  prints m -> exists w', (m;; _fail file line) w = (exit_outcome w, w') /\ quiet w w'.
Proof.
  intros Hm. destruct (Hm w) as (w1 & R1 & Q1). destruct (fail_run file line w1) as (w2 & R2 & Q2).
  exists w2. mrun R1. rewrite R2. split; [|by etrans]. by rewrite (exit_outcome_quiet w w1).
Qed.

Lemma exit_outcome_not_ret {A} w (a : A) : exit_outcome w <> Ret a.
Proof. unfold exit_outcome. by repeat split_match. Qed.
End leaving.

(** Keep the interface folded in proofs of its clients. *)
#[global] Arguments get_node : simpl never.
#[global] Arguments put_node : simpl never.
#[global] Arguments owned : simpl never.
#[global] Arguments drop : simpl never.
#[global] Arguments node_bound : simpl never.
#[global] Arguments name_of : simpl never.
#[global] Arguments lookup_block : simpl never.
