(* ===== verification/FloatCompare.v ===== *)
(** * Comparison of floating-point numbers

    [float_compare] and [double_compare] of src/src/cmocka.c, on the IEEE 754
    binary32 and binary64 numbers of the Standard Library's [SpecFloat]
    (round to nearest even, operations evaluated in the type of their
    operands), the conversion "%f", and what the comparison guarantees. *)
From Stdlib Require Import Floats.SpecFloat.
From S2P Require Import Prelude Report.

Abbreviation fpnum := spec_float (only parsing).

(** ** The code *)

Section compare.
Context (prec emax : Z).

(** FLT_EPSILON = 2^-23 *)
Definition FLT_EPSILON : fpnum := binary_normalize prec emax 1 (-23) false.
Definition fp_zero : fpnum := S754_zero false.

(** [(x >= 0.f) ? x : -x] *)
Definition c_abs (x : fpnum) : fpnum := if SFleb fp_zero x then x else SFopp x.

Definition fp_compare (left right epsilon : fpnum) : bool :=
  let diff := c_abs (SFsub prec emax left right) in
  if SFleb diff epsilon then true
  else
    let absLeft := c_abs left in
    let absRight := c_abs right in
    let largest := if SFltb absLeft absRight then absRight else absLeft in
    let relDiff := SFmul prec emax largest FLT_EPSILON in
    if SFltb relDiff diff then false else true.
End compare.

Definition float_compare : fpnum -> fpnum -> fpnum -> bool := fp_compare 24 128.
Definition double_compare : fpnum -> fpnum -> fpnum -> bool := fp_compare 53 1024.

(** ** "%f" *)

(** The integer nearest to [n / d], ties to even. *)
Definition round_half_even (n d : Z) : Z :=
  let q := n / d in
  match 2 * (n mod d) ?= d with
  | Lt => q
  | Gt => q + 1
  | Eq => if Z.even q then q else q + 1
  end.

(** "%.<prec>f" *)
Definition fmt_fixed (decimals : nat) (x : fpnum) : string :=
  let sign (s : bool) := if s then "-" else "" in
  let unit_ := 10 ^ Z.of_nat decimals in
  let digits (n : Z) :=
    let frac := fmt_u (n mod unit_) in
    fmt_u (n / unit_) +:+ "." +:+ repeat_string (decimals - String.length frac) "0" +:+ frac in
  match x with
  | S754_nan => "nan"
  | S754_infinity s => sign s +:+ "inf"
  | S754_zero s => sign s +:+ digits 0
  | S754_finite s m e =>
      sign s +:+ digits (if 0 <=? e then Z.pos m * 2 ^ e * unit_
                         else round_half_even (Z.pos m * unit_) (2 ^ (- e)))
  end.
(** "%f" *)
Definition fmt_f : fpnum -> string := fmt_fixed 6.

(** ** Signs *)

(** Equality up to the sign of a zero. *)
Definition same_value (x y : fpnum) : Prop :=
  match x, y with S754_zero _, S754_zero _ => True | _, _ => x = y end.

#[local] Instance same_value_equiv : Equivalence same_value.
Proof.
  split.
  - by intros [].
  - by intros [] []; simpl.
  - intros [] [] []; simpl; congruence.
Qed.

#[local] Instance SFcompare_proper : Proper (same_value ==> same_value ==> eq) SFcompare.
Proof. intros [] [] Hx [] [] Hy; simpl in *; by simplify_eq. Qed.
#[local] Instance SFleb_proper : Proper (same_value ==> same_value ==> eq) SFleb.
Proof. intros x x' Hx y y' Hy. unfold SFleb. by rewrite Hx, Hy. Qed.
#[local] Instance SFltb_proper : Proper (same_value ==> same_value ==> eq) SFltb.
Proof. intros x x' Hx y y' Hy. unfold SFltb. by rewrite Hx, Hy. Qed.
#[local] Instance SFmul_proper prec emax :
  Proper (same_value ==> same_value ==> same_value) (SFmul prec emax).
Proof. intros [] [] Hx [] [] Hy; simpl in *; simplify_eq; done. Qed.

(** The magnitude of a number does not depend on its sign. *)
Definition with_sign (s : bool) (x : fpnum) : fpnum :=
  match x with
  | S754_zero _ => S754_zero s
  | S754_infinity _ => S754_infinity s
  | S754_nan => S754_nan
  | S754_finite _ m e => S754_finite s m e
  end.

Lemma c_abs_with_sign s x : same_value (c_abs (with_sign s x)) (with_sign false x).
Proof. by destruct x, s. Qed.

Lemma c_abs_sign x : same_value (c_abs x) (with_sign false x).
Proof. by destruct x as [[]|[]| |[]]. Qed.

Section laws.
Context (prec emax : Z).

Lemma binary_round_sign s m e :
  binary_round prec emax s m e = with_sign s (binary_round prec emax false m e).
Proof.
  unfold binary_round, binary_round_aux. by repeat split_match.
Qed.

Lemma binary_normalize_opp z e :
  same_value (c_abs (binary_normalize prec emax (- z) e false))
    (c_abs (binary_normalize prec emax z e false)).
Proof.
  destruct z as [|p|p]; [done|change (- Z.pos p) with (Z.neg p)|change (- Z.neg p) with (Z.pos p)];
    cbn [binary_normalize]; rewrite (binary_round_sign true), c_abs_with_sign, c_abs_sign; done.
Qed.

Lemma SFsub_abs_comm x y :
  same_value (c_abs (SFsub prec emax x y)) (c_abs (SFsub prec emax y x)).
Proof.
  destruct x as [[]|[]| |sx mx ex], y as [[]|[]| |sy my ey]; try done;
    try (by destruct sy); try (by destruct sx).
  unfold SFsub. rewrite (Z.min_comm ey ex). set (a := cond_Zopp sx _). set (b := cond_Zopp sy _).
  rewrite <-binary_normalize_opp. by replace (- (a - b)) with (b - a) by lia.
Qed.

Lemma SFcompare_eq_abs x y :
  SFcompare (with_sign false x) (with_sign false y) = Some Eq ->
  same_value (with_sign false x) (with_sign false y).
Proof.
  destruct x as [| | |sx mx ex], y as [| | |sy my ey]; simpl; try done.
  destruct (ex ?= ey) eqn:He; try done. intros [= Hm]. apply Z.compare_eq in He as ->.
  by apply Pos.compare_eq in Hm as ->.
Qed.

Lemma SFcompare_antisym x y : SFcompare y x = CompOpp <$> SFcompare x y.
Proof.
  destruct x as [|[]| |[] mx ex], y as [|[]| |[] my ey]; try done; simpl;
    rewrite (Z.compare_antisym ex ey); destruct (ex ?= ey); simpl; try done; do 2 f_equal;
    change (Pos.compare_cont Eq) with Pos.compare; by rewrite (Pos.compare_antisym mx my), ?CompOpp_involutive.
Qed.

(** The larger one of two magnitudes. *)
Definition larger (x y : fpnum) : fpnum := if SFltb (c_abs x) (c_abs y) then c_abs y else c_abs x.

Lemma larger_comm x y : x <> S754_nan -> y <> S754_nan -> same_value (larger x y) (larger y x).
Proof.
  intros Hx Hy. unfold larger, SFltb. rewrite (SFcompare_antisym (c_abs x) (c_abs y)).
  destruct (SFcompare (c_abs x) (c_abs y)) as [[]|] eqn:E; simpl; try done.
  - rewrite !c_abs_sign in E |- *. by apply SFcompare_eq_abs.
  - rewrite !c_abs_sign in E. by destruct x, y.
Qed.

Lemma SFsub_nan x y : x = S754_nan \/ y = S754_nan -> SFsub prec emax x y = S754_nan.
Proof. intros [-> | ->]; [done|]. by destruct x. Qed.

Lemma fp_compare_nan_diff x y e :
  c_abs (SFsub prec emax x y) = S754_nan -> fp_compare prec emax x y e = true.
Proof. unfold fp_compare. intros ->. simpl. unfold SFltb. by destruct (SFmul _ _ _ _). Qed.

Lemma fp_compare_comm x y e : fp_compare prec emax x y e = fp_compare prec emax y x e.
Proof.
  assert (x = S754_nan \/ y = S754_nan \/ (x <> S754_nan /\ y <> S754_nan)) as Hn.
  { destruct x, y; auto; right; right; done. }
  destruct Hn as [Hn|[Hn|[Hx Hy]]].
  1, 2: rewrite !fp_compare_nan_diff; [done|rewrite SFsub_nan by auto; done..].
  unfold fp_compare. fold (larger x y) (larger y x).
  by rewrite !(SFsub_abs_comm x y), (larger_comm x y).
Qed.

(** *** A number equals itself *)

Lemma binary_round_aux_sign s m e l :
  binary_round_aux prec emax s m e l = with_sign s (binary_round_aux prec emax s m e l).
Proof. unfold binary_round_aux. by repeat split_match. Qed.

Lemma FLT_EPSILON_sign : FLT_EPSILON prec emax = with_sign false (FLT_EPSILON prec emax).
Proof. unfold FLT_EPSILON. cbn [binary_normalize]. apply (binary_round_sign false). Qed.

Lemma SFmul_sign x y :
  SFmul prec emax (with_sign false x) (with_sign false y)
    = with_sign false (SFmul prec emax (with_sign false x) (with_sign false y)).
Proof. destruct x, y; try done. cbn [with_sign SFmul xorb]. apply binary_round_aux_sign. Qed.

Lemma SFltb_sign_zero x : SFltb (with_sign false x) fp_zero = false.
Proof. by destruct x. Qed.

Lemma SFsub_self x :
  SFsub prec emax x x = S754_nan \/ same_value (SFsub prec emax x x) fp_zero.
Proof.
  destruct x as [[]|[]| |s m e]; [by right|by right|by left..|].
  right. unfold SFsub. by rewrite Z.sub_diag.
Qed.

Lemma fp_compare_refl x e : fp_compare prec emax x x e = true.
Proof.
  destruct (SFsub_self x) as [Hn|Hz]; [apply fp_compare_nan_diff; by rewrite Hn|].
  unfold fp_compare. fold (larger x x).
  assert (same_value (larger x x) (with_sign false x)) as Hl.
  { unfold larger. destruct (SFltb _ _); apply c_abs_sign. }
  assert (same_value (c_abs (SFsub prec emax x x)) fp_zero) as Hd.
  { rewrite c_abs_sign. by destruct (SFsub prec emax x x). }
  destruct (SFleb _ e); [done|].
  by rewrite Hd, Hl, FLT_EPSILON_sign, SFmul_sign, SFltb_sign_zero.
Qed.
End laws.

(** ** Properties *)

(** Symmetry, reflexivity and what is equal to everything. *)
Lemma float_compare_laws (x y epsilon : fpnum) (s : bool) :
  (float_compare x y epsilon = float_compare y x epsilon /\
   double_compare x y epsilon = double_compare y x epsilon) /\
  (float_compare x x epsilon = true /\ double_compare x x epsilon = true) /\
  (float_compare S754_nan x epsilon = true /\ double_compare S754_nan x epsilon = true) /\
  (float_compare (S754_infinity s) x epsilon = true /\
   double_compare (S754_infinity s) x epsilon = true).
Proof.
  split_and!; try first [apply fp_compare_comm | apply fp_compare_refl].
  1-2: apply fp_compare_nan_diff; by destruct x.
  all: by destruct s, x as [[]|[]| |[]], epsilon as [|[]| |].
Qed.
