(* ===== verification/FloatTheorems.v ===== *)
(** * What the comparison of floating-point numbers decides

    Numbers are multiples of the least positive one, 2^emin; on numbers with
    few enough digits the operations of [fp_compare] are exact, and it decides
    an inequality between integers. *)
From Stdlib Require Import Floats.SpecFloat.
From S2P Require Import Prelude FloatCompare.

(** ** Digits *)

Lemma digits2_pos_bounds m : 2 ^ (Z.pos (digits2_pos m) - 1) <= Z.pos m < 2 ^ Z.pos (digits2_pos m).
Proof.
  induction m as [m IH|m IH|]; cbn [digits2_pos]; [| |done].
  all: rewrite Pos2Z.inj_succ; replace (Z.succ (Z.pos (digits2_pos m)) - 1) with
         (Z.succ (Z.pos (digits2_pos m) - 1)) by lia.
  all: rewrite !Z.pow_succ_r by lia; lia.
Qed.

Lemma digits2_unique m d : 2 ^ (d - 1) <= Z.pos m < 2 ^ d -> Z.pos (digits2_pos m) = d.
Proof.
  intros [H1 H2]. pose proof (digits2_pos_bounds m) as [H3 H4].
  assert (d - 1 < Z.pos (digits2_pos m)) by (apply (Z.pow_lt_mono_r_iff 2); lia).
  assert (Z.pos (digits2_pos m) - 1 < d); [|lia]. apply (Z.pow_lt_mono_r_iff 2); [lia| |lia].
  destruct (Z.leb_spec 0 d); [done|]. rewrite (Z.pow_neg_r 2 d) in H2 by done. lia.
Qed.

Lemma digits2_shift m m' j : 0 <= j -> Z.pos m' = Z.pos m * 2 ^ j -> Z.pos (digits2_pos m') = Z.pos (digits2_pos m) + j.
Proof.
  intros Hj E. pose proof (digits2_pos_bounds m). apply digits2_unique. rewrite E.
  replace (Z.pos (digits2_pos m) + j - 1) with (Z.pos (digits2_pos m) - 1 + j) by lia.
  rewrite !Z.pow_add_r by lia. pose proof (Z.pow_pos_nonneg 2 j). nia.
Qed.

Lemma iter_xO m d : Z.pos (Pos.iter xO m d) = Z.pos m * 2 ^ Z.pos d.
Proof.
  revert m. induction d as [|d IH] using Pos.peano_ind; intros m; [cbn; lia|].
  rewrite Pos.iter_succ, Pos2Z.inj_succ, Z.pow_succ_r, Pos2Z.inj_xO, IH by lia. lia.
Qed.

(** Shifting an exact multiple to the right. *)
Definition exact_record (m : Z) : shr_record := {| shr_m := m; shr_r := false; shr_s := false |}.

Lemma shr_1_double p : shr_1 (exact_record (Z.pos p * 2)) = exact_record (Z.pos p).
Proof. by replace (Z.pos p * 2) with (Z.pos p~0) by lia. Qed.

Lemma iter_shr p : forall m, SpecFloat.iter_pos shr_1 p (exact_record (Z.pos m * 2 ^ Z.pos p)) = exact_record (Z.pos m).
Proof.
  assert (forall q (m : positive), exists r, Z.pos m * 2 ^ Z.pos q = Z.pos r) as Hpos.
  { intros q m. exists (Pos.iter xO m q). by rewrite iter_xO. }
  induction p as [p IH|p IH|]; intros m; cbn [SpecFloat.iter_pos].
  - replace (Z.pos m * 2 ^ Z.pos p~1) with (Z.pos m * 2 ^ Z.pos p * 2 ^ Z.pos p * 2)
      by (change (Z.pos p~1) with (2 * Z.pos p + 1); rewrite Z.pow_add_r, Z.pow_twice_r by lia; lia).
    destruct (Hpos p m) as [r E]. rewrite E. destruct (Hpos p r) as [r' E']. rewrite E', shr_1_double, <-E', IH, <-E. apply IH.
  - replace (Z.pos m * 2 ^ Z.pos p~0) with (Z.pos m * 2 ^ Z.pos p * 2 ^ Z.pos p)
      by (change (Z.pos p~0) with (2 * Z.pos p); rewrite Z.pow_twice_r by lia; lia).
    destruct (Hpos p m) as [r E]. rewrite E, IH, <-E. apply IH.
  - apply shr_1_double.
Qed.

Section exact.
Context (prec emax : Z).
Hypotheses (prec_big : 1 < prec) (prec_emax : 23 + 2 * prec < emax).

#[local] Abbreviation emin := (emin prec emax).
#[local] Abbreviation fexp := (fexp prec emax).

(** ** Values *)

(** The number as a multiple of 2^emin. *)
Definition units (x : fpnum) : Z :=
  match x with S754_finite s m e => cond_Zopp s (Z.pos m) * 2 ^ (e - emin) | _ => 0 end.

(** A finite number in its normal form, of value [u]. *)
Definition number (x : fpnum) (u : Z) : Prop :=
  match x with
  | S754_zero _ => u = 0
  | S754_finite s m e => fexp (Z.pos (digits2_pos m) + e) = e /\ u = units x
  | _ => False
  end.

(** [n] 2^[j] units with [n] of at most [prec] digits, not too big. *)
Definition fits (u n j : Z) : Prop := u = n * 2 ^ j /\ Z.abs n < 2 ^ prec /\ 0 <= j <= emax - prec - emin.

Lemma fexp_eq d : fexp d = Z.max (d - prec) emin.
Proof. done. Qed.

Lemma shr_exact (M m : positive) e E :
  E = fexp (Z.pos (digits2_pos M) + e) -> e <= E -> Z.pos M = Z.pos m * 2 ^ (E - e) ->
  shr_fexp prec emax (Z.pos M) e loc_Exact = (exact_record (Z.pos m), E).
Proof.
  intros HE Hle HM. unfold shr_fexp. cbn [Zdigits2 shr_record_of_loc]. rewrite <-HE. change (Build_shr_record _ _ _) with (exact_record (Z.pos M)).
  destruct (E - e) as [|t|t] eqn:Ht; cbn [shr]; [|rewrite HM, iter_shr; f_equal; lia|lia].
  replace E with e by lia. by replace (Z.pos m) with (Z.pos M) by (rewrite HM; lia).
Qed.

(** [b] is a scale below that of the units. *)
Lemma normal_round s (M : positive) e n j b :
  Z.pos M * 2 ^ (e - b) = n * 2 ^ (j + (emin - b)) -> Z.abs n < 2 ^ prec -> 0 <= j <= emax - prec - emin ->
  b <= e -> b <= emin -> e <= fexp (Z.pos (digits2_pos M) + e) ->
  exists m E, binary_round_aux prec emax s (Z.pos M) e loc_Exact = S754_finite s m E /\
    fexp (Z.pos (digits2_pos m) + E) = E /\ Z.pos m * 2 ^ (E - b) = Z.pos M * 2 ^ (e - b).
Proof.
  intros Hu Hn Hj He Hb HE. remember (fexp (Z.pos (digits2_pos M) + e)) as E eqn:EE. pose proof EE as EE'. rewrite fexp_eq in EE'.
  pose proof (digits2_pos_bounds M) as [Hlow _]. set (d := Z.pos (digits2_pos M)) in *. set (i := j + (emin - b)) in *.
  assert (0 < 2 ^ (e - b) /\ 0 < 2 ^ i) as [P1 P2] by (split; apply Z.pow_pos_nonneg; lia).
  assert (E - b <= i) as HEj.
  { assert (d - 1 + (e - b) < prec + i); [|lia]. apply (Z.pow_lt_mono_r_iff 2); [lia..|]. rewrite !Z.pow_add_r by lia. nia. }
  assert (0 < n) as Hpos by nia.
  destruct (n * 2 ^ (i - (E - b))) as [|m|m] eqn:Hm;
    [pose proof (Z.pow_pos_nonneg 2 (i - (E - b))); nia| |pose proof (Z.pow_pos_nonneg 2 (i - (E - b))); nia].
  assert (Z.pos m * 2 ^ (E - b) = Z.pos M * 2 ^ (e - b)) as Hval.
  { rewrite Hu, <-Hm, <-Z.mul_assoc, <-Z.pow_add_r by lia. do 2 f_equal. lia. }
  assert (Z.pos M = Z.pos m * 2 ^ (E - e)) as HM.
  { apply (Z.mul_reg_r _ _ (2 ^ (e - b))); [lia|]. rewrite <-Hval, <-Z.mul_assoc, <-Z.pow_add_r by lia. do 2 f_equal. lia. }
  assert (fexp (Z.pos (digits2_pos m) + E) = E) as Hfix.
  { rewrite EE at 2. f_equal. pose proof (digits2_shift m M (E - e) ltac:(lia) HM) as Hd. fold d in Hd. lia. }
  exists m, E. split; [|done]. unfold binary_round_aux. rewrite (shr_exact M m e E EE HE HM). cbn [exact_record shr_m loc_of_shr_record round_nearest_even].
  rewrite (shr_exact m m E E) by (rewrite ?Hfix, ?Z.sub_diag; lia). cbn [exact_record shr_m].
  by rewrite (proj2 (Z.leb_le _ _)) by lia.
Qed.

(** Rounding a number that fits. *)
Lemma number_normalize z e n j :
  fits (z * 2 ^ (e - emin)) n j -> emin <= e -> number (binary_normalize prec emax z e false) (z * 2 ^ (e - emin)).
Proof.
  intros Hf He. assert (forall (M : positive) s n, fits (Z.pos M * 2 ^ (e - emin)) n j ->
    exists m E, binary_round prec emax s M e = S754_finite s m E /\
    fexp (Z.pos (digits2_pos m) + E) = E /\ Z.pos m * 2 ^ (E - emin) = Z.pos M * 2 ^ (e - emin)) as Hround.
  { clear z n Hf. intros M s n Hf. unfold binary_round, shl_align. set (E := fexp (Z.pos (digits2_pos M) + e)).
    assert (emin <= E) as HE by (unfold E; rewrite fexp_eq; lia).
    assert (forall (M' : positive) e', emin <= e' -> e' <= fexp (Z.pos (digits2_pos M') + e') -> fits (Z.pos M' * 2 ^ (e' - emin)) n j ->
      exists m E, binary_round_aux prec emax s (Z.pos M') e' loc_Exact = S754_finite s m E /\
      fexp (Z.pos (digits2_pos m) + E) = E /\ Z.pos m * 2 ^ (E - emin) = Z.pos M' * 2 ^ (e' - emin)) as Hr.
    { intros M' e' He' HE' (Hu & Hn & Hj). apply (normal_round s M' e' n j emin); [|done..]. by rewrite Z.sub_diag, Z.add_0_r. }
    destruct (E - e) as [|t|t] eqn:Ht; [apply Hr; [done|fold E; lia|done]..|].
    assert (Z.pos (Pos.iter xO M t) * 2 ^ (E - emin) = Z.pos M * 2 ^ (e - emin)) as Hval.
    { rewrite iter_xO, <-Z.mul_assoc, <-Z.pow_add_r by lia. do 2 f_equal. lia. }
    rewrite <-Hval in Hf |- *. apply Hr; [done| |done].
    rewrite (digits2_shift M _ (Z.pos t)) by (done || apply iter_xO).
    replace (Z.pos (digits2_pos M) + Z.pos t + E) with (Z.pos (digits2_pos M) + e) by lia. by fold E. }
  destruct z as [|M|M]; [done|..]; cbn [binary_normalize].
  - destruct (Hround M false n Hf) as (m & E & -> & Hc & Hv). split; [done|]. cbn. by rewrite Hv.
  - destruct (Hround M true (- n)) as (m & E & -> & Hc & Hv).
    { destruct Hf as (Hu & Hn & Hj). split; [|split; [by rewrite Z.abs_opp|done] ]. lia. }
    split; [done|]. cbn. lia.
Qed.

(** ** Operations *)

Lemma normal_exponent d e : fexp (d + e) = e -> emin <= e /\ 0 < 2 ^ (e - emin).
Proof. rewrite fexp_eq. intros Hc. split; [lia|]. apply Z.pow_pos_nonneg; lia. Qed.

(** Magnitudes in normal form are ordered by exponent, then by mantissa. *)
Lemma magnitude_lt (m m' : positive) e e' :
  fexp (Z.pos (digits2_pos m) + e) = e -> fexp (Z.pos (digits2_pos m') + e') = e' -> e < e' ->
  Z.pos m * 2 ^ (e - emin) < Z.pos m' * 2 ^ (e' - emin).
Proof.
  rewrite !fexp_eq. intros Hc Hc' Hlt. pose proof (digits2_pos_bounds m) as [_ H1]. pose proof (digits2_pos_bounds m') as [H2 _].
  set (d := Z.pos (digits2_pos m)) in *. set (d' := Z.pos (digits2_pos m')) in *.
  assert (2 ^ (d + (e - emin)) <= 2 ^ (d' - 1 + (e' - emin))) as Hle by (apply Z.pow_le_mono_r; lia).
  rewrite !Z.pow_add_r in Hle by lia. pose proof (Z.pow_pos_nonneg 2 (e - emin)). pose proof (Z.pow_pos_nonneg 2 (e' - emin)). nia.
Qed.

Lemma magnitude_compare (m m' : positive) e e' :
  fexp (Z.pos (digits2_pos m) + e) = e -> fexp (Z.pos (digits2_pos m') + e') = e' ->
  match e ?= e' with Lt => Lt | Gt => Gt | Eq => (m ?= m')%positive end = (Z.pos m * 2 ^ (e - emin) ?= Z.pos m' * 2 ^ (e' - emin)).
Proof.
  intros Hc Hc'. destruct (Z.compare_spec e e') as [<-|Hlt|Hlt]; symmetry.
  - rewrite <-Zmult_compare_compat_r; [done|]. apply Z.lt_gt. by eapply normal_exponent.
  - by apply Z.compare_lt_iff, magnitude_lt.
  - by apply Z.compare_gt_iff, magnitude_lt.
Qed.

Lemma number_compare x y u v : number x u -> number y v -> SFcompare x y = Some (u ?= v).
Proof.
  intros Hx Hy. destruct x as [s|s| |s m e], y as [s'|s'| |s' m' e']; try done.
  - cbn in *. by subst.
  - destruct Hy as [Hc ->]. cbn in Hx. subst. cbn [units SFcompare]. assert (0 < 2 ^ (e' - emin)) by (by eapply normal_exponent).
    f_equal. symmetry. destruct s'; cbn [cond_Zopp]; [apply Z.compare_gt_iff|apply Z.compare_lt_iff]; nia.
  - destruct Hx as [Hc ->]. cbn in Hy. subst. cbn [units SFcompare]. assert (0 < 2 ^ (e - emin)) by (by eapply normal_exponent).
    f_equal. symmetry. destruct s; cbn [cond_Zopp]; [apply Z.compare_lt_iff|apply Z.compare_gt_iff]; nia.
  - destruct Hx as [Hc ->], Hy as [Hc' ->]. pose proof (magnitude_compare m m' e e' Hc Hc') as Hm. cbn [units SFcompare]. change (Pos.compare_cont Eq) with Pos.compare.
    assert (0 < 2 ^ (e - emin)) as P by (by eapply normal_exponent).
    assert (0 < 2 ^ (e' - emin)) as P' by (by eapply normal_exponent).
    f_equal. destruct s, s'; cbn [cond_Zopp].
    + rewrite !Z.mul_opp_l, Z.compare_opp, (Z.compare_antisym (Z.pos m * _)), <-Hm. by destruct (e ?= e').
    + symmetry. apply Z.compare_lt_iff. nia.
    + symmetry. apply Z.compare_gt_iff. nia.
    + exact Hm.
Qed.

Lemma number_opp x u : number x u -> number (SFopp x) (- u).
Proof. destruct x as [s|s| |s m e]; try done; cbn; [lia|]. intros [Hc ->]. split; [done|]. destruct s; cbn; lia. Qed.

Lemma number_abs x u : number x u -> number (c_abs x) (Z.abs u).
Proof.
  intros Hx. unfold c_abs, SFleb. rewrite (number_compare fp_zero x 0 u) by done.
  destruct (Z.compare_spec 0 u) as [<-|H|H]; [done|by rewrite Z.abs_eq by lia|rewrite Z.abs_neq by lia; by apply number_opp].
Qed.

Lemma shl_value m e ez : ez <= e -> Z.pos (shl_align m e ez).1 = Z.pos m * 2 ^ (e - ez).
Proof.
  intros Hle. unfold shl_align. destruct (ez - e) as [|t|t] eqn:Ht; [|lia|].
  - replace (e - ez) with 0 by lia. cbn. lia.
  - cbn [fst]. rewrite iter_xO. do 2 f_equal. lia.
Qed.

Lemma number_sub x y u v n j : number x u -> number y v -> fits (u - v) n j -> number (SFsub prec emax x y) (u - v).
Proof.
  intros Hx Hy Hf. destruct x as [s|s| |s m e], y as [s'|s'| |s' m' e']; try done.
  - cbn in Hx, Hy. subst. by destruct s, s'.
  - cbn in Hx. subst. exact (number_opp _ _ Hy).
  - cbn in Hy. subst. by rewrite Z.sub_0_r.
  - destruct Hx as [Hc Hu], Hy as [Hc' Hv]. cbn [SFsub]. set (ez := Z.min e e').
    assert (emin <= e /\ emin <= e') as [He He'] by (split; by eapply normal_exponent).
    rewrite !shl_value by (unfold ez; lia).
    assert (u - v = (cond_Zopp s (Z.pos m * 2 ^ (e - ez)) - cond_Zopp s' (Z.pos m' * 2 ^ (e' - ez))) * 2 ^ (ez - emin)) as E.
    { assert (forall (b : bool) z, cond_Zopp b z = (if b then -1 else 1) * z) as Hz by (intros [] z; cbn; lia).
      assert (2 ^ (e - emin) = 2 ^ (e - ez) * 2 ^ (ez - emin)) as E1 by (rewrite <-Z.pow_add_r by (unfold ez; lia); f_equal; lia).
      assert (2 ^ (e' - emin) = 2 ^ (e' - ez) * 2 ^ (ez - emin)) as E2 by (rewrite <-Z.pow_add_r by (unfold ez; lia); f_equal; lia).
      rewrite Hu, Hv. cbn [units]. rewrite !Hz, E1, E2. ring. }
    rewrite E in Hf |- *. apply (number_normalize _ _ n j Hf). unfold ez. lia.
Qed.

(** FLT_EPSILON in normal form. *)
Hypothesis epsilon_form : exists m, FLT_EPSILON prec emax = S754_finite false m (-22 - prec) /\ Z.pos m = 2 ^ (prec - 1).

Lemma number_scale x u n j : number x u -> fits u n j -> 23 <= j -> number (SFmul prec emax x (FLT_EPSILON prec emax)) (n * 2 ^ (j - 23)).
Proof.
  intros Hx (Hu & Hn & Hj) Hj'. destruct epsilon_form as (mE & -> & HmE).
  assert (0 < 2 ^ j) as Pj by (apply Z.pow_pos_nonneg; lia).
  destruct x as [s|s| |s m e]; try done.
  { cbn in Hx. subst. assert (n = 0) as -> by nia. done. }
  destruct Hx as [Hc Hv]. assert (emin <= e) as He by (by eapply normal_exponent). cbn [SFmul]. rewrite xorb_false_r.
  assert (Z.pos (m * mE) = Z.pos m * 2 ^ (prec - 1)) as HM by (by rewrite Pos2Z.inj_mul, HmE).
  set (b := emin + (-22 - prec)). set (z := if s then - n else n).
  assert (Z.pos m * 2 ^ (e - emin) = z * 2 ^ j) as Hz by (unfold z; rewrite Hu in Hv; cbn in Hv; destruct s; cbn in Hv; lia).
  destruct (normal_round s (m * mE) (e + (-22 - prec)) z (j - 23) b) as (m' & E & -> & HcE & Hval).
  - rewrite HM. replace (e + (-22 - prec) - b) with (e - emin) by (unfold b; lia).
    replace (j - 23 + (emin - b)) with (j + (prec - 1)) by (unfold b; lia). rewrite Z.pow_add_r by lia.
    rewrite <-Z.mul_assoc, (Z.mul_comm (2 ^ (prec - 1))), Z.mul_assoc, Hz. lia.
  - unfold z. destruct s; lia.
  - lia.
  - unfold b. lia.
  - unfold b. lia.
  - rewrite (digits2_shift m _ (prec - 1)) by (done || lia). rewrite fexp_eq. lia.
  - split; [done|]. cbn [units]. assert (emin <= E) as HE by (by eapply normal_exponent).
    rewrite HM in Hval. replace (e + (-22 - prec) - b) with (e - emin) in Hval by (unfold b; lia).
    replace (E - b) with (E - emin + (22 + prec)) in Hval by (unfold b; lia). rewrite Z.pow_add_r in Hval by lia.
    replace (Z.pos m * 2 ^ (prec - 1) * 2 ^ (e - emin)) with (z * 2 ^ j * 2 ^ (prec - 1)) in Hval by (rewrite <-Hz; lia).
    assert (Z.pos m' * 2 ^ (E - emin) = z * 2 ^ (j - 23)) as Hm'.
    { apply (Z.mul_reg_r _ _ (2 ^ (22 + prec))); [pose proof (Z.pow_pos_nonneg 2 (22 + prec)); lia|].
      rewrite <-Z.mul_assoc, <-Z.pow_add_r by lia. rewrite <-!Z.mul_assoc, <-Z.pow_add_r in Hval by lia.
      rewrite <-!Z.mul_assoc, <-?Z.pow_add_r by lia. rewrite <-Z.pow_add_r in Hval by lia.
      replace (j - 23 + (22 + prec)) with (j + (prec - 1)) by lia. exact Hval. }
    unfold z in Hm'. destruct s; cbn; lia.
Qed.
(** ** The comparison *)

(** The number [n] 2^[k], rounded. *)
Definition fp_of (n k : Z) : fpnum := binary_normalize prec emax n k false.

Lemma number_of n k : Z.abs n < 2 ^ prec -> emin <= k <= emax - prec -> number (fp_of n k) (n * 2 ^ (k - emin)).
Proof. intros Hn Hk. apply (number_normalize n k n (k - emin)); [|lia]. split; [done|lia]. Qed.

Lemma fp_compare_decides a b e k :
  Z.abs a < 2 ^ prec -> Z.abs b < 2 ^ prec -> Z.abs (a - b) < 2 ^ prec -> Z.abs e < 2 ^ prec -> emin + 23 <= k <= emax - prec ->
  fp_compare prec emax (fp_of a k) (fp_of b k) (fp_of e k) =
    bool_decide (Z.abs (a - b) <= e \/ Z.abs (a - b) * 2 ^ 23 <= Z.max (Z.abs a) (Z.abs b)).
Proof.
  intros Ha Hb Hab He Hk. set (j := k - emin). assert (0 < 2 ^ j) as Pj by (apply Z.pow_pos_nonneg; lia).
  pose proof (number_of a k Ha ltac:(lia)) as Na. pose proof (number_of b k Hb ltac:(lia)) as Nb.
  pose proof (number_of e k He ltac:(lia)) as Ne. fold j in Na, Nb, Ne. assert (23 <= j <= emax - prec - emin) as Hj by (unfold j; lia). clearbody j.
  assert (number (c_abs (SFsub prec emax (fp_of a k) (fp_of b k))) (Z.abs (a - b) * 2 ^ j)) as Nd.
  { replace (Z.abs (a - b) * 2 ^ j) with (Z.abs (a * 2 ^ j - b * 2 ^ j)) by (rewrite <-Z.mul_sub_distr_r, Z.abs_mul, (Z.abs_eq (2 ^ j)); lia). apply number_abs.
    apply (number_sub _ _ _ _ (a - b) j Na Nb). split; [lia|]. split; [done|lia]. }
  assert (number (larger (fp_of a k) (fp_of b k)) (Z.max (Z.abs a) (Z.abs b) * 2 ^ j)) as Nl.
  { unfold larger, SFltb. pose proof (number_abs _ _ Na) as Na'. pose proof (number_abs _ _ Nb) as Nb'.
    rewrite Z.abs_mul, (Z.abs_eq (2 ^ j)) in Na', Nb' by lia. rewrite (number_compare _ _ _ _ Na' Nb').
    destruct (Z.compare_spec (Z.abs a * 2 ^ j) (Z.abs b * 2 ^ j)).
    - by replace (Z.max (Z.abs a) (Z.abs b)) with (Z.abs a) by nia.
    - by replace (Z.max (Z.abs a) (Z.abs b)) with (Z.abs b) by nia.
    - by replace (Z.max (Z.abs a) (Z.abs b)) with (Z.abs a) by nia. }
  pose proof (number_scale _ _ (Z.max (Z.abs a) (Z.abs b)) j Nl ltac:(split; [done|lia]) ltac:(lia)) as Nr.
  unfold fp_compare. fold (larger (fp_of a k) (fp_of b k)). unfold SFleb, SFltb.
  rewrite (number_compare _ _ _ _ Nd Ne), (number_compare _ _ _ _ Nr Nd).
  replace (2 ^ j) with (2 ^ 23 * 2 ^ (j - 23)) in * by (rewrite <-Z.pow_add_r by lia; f_equal; lia).
  assert (0 < 2 ^ (j - 23)) as P by (apply Z.pow_pos_nonneg; lia). set (q := 2 ^ (j - 23)) in *.
  destruct (Z.compare_spec (Z.abs (a - b) * (2 ^ 23 * q)) (e * (2 ^ 23 * q)));
    [rewrite bool_decide_true; [done|]; left; nia..|].
  destruct (Z.compare_spec (Z.max (Z.abs a) (Z.abs b) * q) (Z.abs (a - b) * (2 ^ 23 * q)));
    [rewrite bool_decide_true; [done|]; right; nia|rewrite bool_decide_false; [done|]; nia|rewrite bool_decide_true; [done|]; right; nia].
Qed.

Lemma fp_compare_close a b e k :
  Z.abs (a - b) <= e < 2 ^ prec -> Z.abs a < 2 ^ prec -> Z.abs b < 2 ^ prec -> emin + 23 <= k <= emax - prec ->
  fp_compare prec emax (fp_of a k) (fp_of b k) (fp_of e k) = true.
Proof. intros He Ha Hb Hk. rewrite fp_compare_decides by (done || lia). apply bool_decide_true. lia. Qed.

Lemma fp_of_different a b k :
  a <> b -> Z.abs a < 2 ^ prec -> Z.abs b < 2 ^ prec -> emin <= k <= emax - prec -> SFeqb (fp_of a k) (fp_of b k) = false.
Proof.
  intros Hne Ha Hb Hk. unfold SFeqb. rewrite (number_compare _ _ _ _ (number_of a k Ha Hk) (number_of b k Hb Hk)).
  pose proof (Z.pow_pos_nonneg 2 (k - emin)). destruct (Z.compare_spec (a * 2 ^ (k - emin)) (b * 2 ^ (k - emin))); [nia|done..].
Qed.
End exact.

(** ** Properties *)

Abbreviation float_of := (fp_of 24 128) (only parsing).
Abbreviation double_of := (fp_of 53 1024) (only parsing).

(** C37: What [float_compare] and [double_compare] decide.  For floats a 2^k and
    b 2^k and the epsilon e 2^k, with integers a, b, a - b and e of at most 24
    bits and any exponent k for which nothing underflows or overflows, they
    are equal exactly if |a - b| <= e or |a - b| <= max(|a|, |b|) 2^-23; so it
    is for doubles, with integers of 53 bits and the same relative tolerance,
    FLT_EPSILON.  The comparison is symmetric and finds every number equal to
    itself, for every epsilon.  A NaN compares equal to every number, and so
    does an infinity, even to the opposite infinity, whatever the epsilon. *)
Theorem float_compare_spec :
  (forall a b e k, Z.abs a < 2 ^ 24 -> Z.abs b < 2 ^ 24 -> Z.abs (a - b) < 2 ^ 24 -> Z.abs e < 2 ^ 24 -> -126 <= k <= 104 ->
     float_compare (float_of a k) (float_of b k) (float_of e k) =
       bool_decide (Z.abs (a - b) <= e \/ Z.abs (a - b) * 2 ^ 23 <= Z.max (Z.abs a) (Z.abs b))) /\
  (forall a b e k, Z.abs a < 2 ^ 53 -> Z.abs b < 2 ^ 53 -> Z.abs (a - b) < 2 ^ 53 -> Z.abs e < 2 ^ 53 -> -1051 <= k <= 971 ->
     double_compare (double_of a k) (double_of b k) (double_of e k) =
       bool_decide (Z.abs (a - b) <= e \/ Z.abs (a - b) * 2 ^ 23 <= Z.max (Z.abs a) (Z.abs b))) /\
  (forall x y epsilon s,
    (float_compare x y epsilon = float_compare y x epsilon /\ double_compare x y epsilon = double_compare y x epsilon) /\
    (float_compare x x epsilon = true /\ double_compare x x epsilon = true) /\
    (float_compare S754_nan x epsilon = true /\ double_compare S754_nan x epsilon = true) /\
    (float_compare (S754_infinity s) x epsilon = true /\ double_compare (S754_infinity s) x epsilon = true)).
Proof.
  split; [|split; [|exact float_compare_laws] ].
  - intros a b e k Ha Hb Hab He Hk. apply (fp_compare_decides 24 128); [lia|lia|by eexists|done..|unfold emin; lia].
  - intros a b e k Ha Hb Hab He Hk. apply (fp_compare_decides 53 1024); [lia|lia|by eexists|done..|unfold emin; lia].
Qed.
