(* ===== verification/Compare.v ===== *)
(** * Comparisons that report their failure

    The [*_display_error] functions of src/src/cmocka.c, which return whether
    a comparison holds and print why it does not, and the hexadecimal dump of
    differing memory. *)
From S2P Require Import Prelude CMonad ListNode World Report FloatCompare.

(** ** Reading data memory *)

Definition byte_char (b : Z) : Ascii.ascii := Ascii.ascii_of_N (Z.to_N (b mod 256)).

Fixpoint read_bytes (mem : gmap ptr Z) (p : ptr) (n : nat) : option (list Z) :=
  match n with
  | O => Some []
  | S k => b ← mem !! p; cons b <$> read_bytes mem (p + 1) k
  end.

(** The C string at an address; [fuel] bounds its length. *)
Fixpoint read_cstr (fuel : nat) (mem : gmap ptr Z) (p : ptr) : option string :=
  match fuel with
  | O => None
  | S k => b ← mem !! p;
           if b =? 0 then Some "" else String (byte_char b) <$> read_cstr k mem (p + 1)
  end.

Definition load_bytes (p : ptr) (n : Z) : CM (list Z) :=
  deref (fun w => read_bytes (bytes w) p (Z.to_nat n)).
(** A string has at most as many bytes as there are in memory. *)
Definition load_cstr (p : ptr) : CM string :=
  deref (fun w => read_cstr (S (size (bytes w))) (bytes w) p).

(** memcmp(a, b, n) == 0 on the [n] bytes of the lists *)
Definition memcmp_eq (a b : list Z) : bool := bool_decide (a = b).

Section code.
Context `{!Platform}.

(** Report and return whether [ok]. *)
Definition report_unless (ok : bool) (message : string) : CM bool :=
  when (negb ok) (cmocka_print_error message);; mret ok.

(** ** Numbers *)

Definition float_values_equal_display_error (left right epsilon : fpnum) : CM bool :=
  report_unless (float_compare left right epsilon)
    (fmt_f left +:+ " != " +:+ fmt_f right +:+ nl).
Definition float_values_not_equal_display_error (left right epsilon : fpnum) : CM bool :=
  report_unless (negb (float_compare left right epsilon))
    (fmt_f left +:+ " == " +:+ fmt_f right +:+ nl).
Definition double_values_equal_display_error (left right epsilon : fpnum) : CM bool :=
  report_unless (double_compare left right epsilon)
    (fmt_f left +:+ " != " +:+ fmt_f right +:+ nl).
Definition double_values_not_equal_display_error (left right epsilon : fpnum) : CM bool :=
  report_unless (negb (double_compare left right epsilon))
    (fmt_f left +:+ " == " +:+ fmt_f right +:+ nl).

(** "%ju (%#jx)" *)
Definition fmt_uint (v : Z) : string := fmt_u v +:+ " (" +:+ fmt_alt_x v +:+ ")".

Definition uint_values_equal_display_error (left right : Z) : CM bool :=
  report_unless (left =? right) (fmt_uint left +:+ " != " +:+ fmt_uint right +:+ nl).
Definition int_values_equal_display_error (left right : Z) : CM bool :=
  report_unless (left =? right) (fmt_d left +:+ " != " +:+ fmt_d right +:+ nl).
Definition uint_values_not_equal_display_error (left right : Z) : CM bool :=
  report_unless (negb (left =? right)) (fmt_uint left +:+ " == " +:+ fmt_uint right +:+ nl).
Definition int_values_not_equal_display_error (left right : Z) : CM bool :=
  report_unless (negb (left =? right)) (fmt_d left +:+ " == " +:+ fmt_d right +:+ nl).

(** ** Ranges *)

Definition fmt_range (fmt : Z -> string) (value : Z) (verb : string) (range_min range_max : Z)
    : string :=
  fmt value +:+ " is " +:+ verb +:+ " the range [" +:+ fmt range_min +:+ ", " +:+
  fmt range_max +:+ "]" +:+ nl.

Definition uint_in_range_display_error (value range_min range_max : Z) : CM bool :=
  report_unless ((range_min <=? value) && (value <=? range_max))
    (fmt_range fmt_u value "not within" range_min range_max).
Definition int_in_range_display_error (value range_min range_max : Z) : CM bool :=
  report_unless ((range_min <=? value) && (value <=? range_max))
    (fmt_range fmt_d value "not within" range_min range_max).
Definition int_not_in_range_display_error (value range_min range_max : Z) : CM bool :=
  report_unless ((value <? range_min) || (range_max <? value))
    (fmt_range fmt_d value "within" range_min range_max).
Definition uint_not_in_range_display_error (value range_min range_max : Z) : CM bool :=
  report_unless ((value <? range_min) || (range_max <? value))
    (fmt_range fmt_u value "within" range_min range_max).
Definition integer_not_in_range_display_error (value range_min range_max : Z) : CM bool :=
  report_unless ((value <? range_min) || (range_max <? value))
    (fmt_u value +:+ " is within the range " +:+ fmt_u range_min +:+ "-" +:+
     fmt_u range_max +:+ nl).

(** ** Sets

    [check] is the address of the structure, [load] reads its members [set]
    and [size_of_set]; an element beyond the array is undefined behaviour. *)

(** The search: [count] elements from index [i] on. *)
Fixpoint set_contains (count i : nat) (set : list Z) (value : Z) : CM bool :=
  match count with
  | O => mret false
  | S k => e ← deref (fun _ => set !! i);
           if e =? value then mret true else set_contains k (S i) set value
  end.

(** The printing loop; [fmt i e] is what is printed for element [e] at [i]. *)
Fixpoint print_set (count i : nat) (set : list Z) (fmt : nat -> Z -> string) : CM unit :=
  match count with
  | O => mret tt
  | S k => e ← deref (fun _ => set !! i);
           cmocka_print_error (fmt i e);; print_set k (S i) set fmt
  end.

Definition in_set_display_error (line_ : Z) (fmt : Z -> string) (fmt_elem : nat -> nat -> Z -> string)
    (value : Z) (check : ptr) (load : CM (list Z * Z)) (invert : bool) : CM bool :=
  assert_non_null line_ check;;
  set_size ← load;
  let '(set, size_of_set) := set_size in
  let n := Z.to_nat size_of_set in
  found ← set_contains n 0 set value;
  let succeeded := if (found : bool) then negb invert else invert in
  if succeeded then mret true
  else
    cmocka_print_error (fmt value +:+ " is " +:+ (if invert then "" else "not ") +:+ "in the set (");;
    print_set n 0 set (fmt_elem n);;
    cmocka_print_error (")" +:+ nl);;
    mret false.

(** The separator after element [i] of [n]. *)
Definition fmt_comma (n i : nat) : string := if Nat.eqb i (n - 1) then "" else ", ".

Definition value_in_set_display_error : Z -> ptr -> CM (list Z * Z) -> bool -> CM bool :=
  in_set_display_error 1419 fmt_u (fun _ _ e => fmt_alt_x e +:+ ", ").
Definition int_value_in_set_display_error : Z -> ptr -> CM (list Z * Z) -> bool -> CM bool :=
  in_set_display_error 1452 fmt_d (fun n i e => fmt_d e +:+ fmt_comma n i).
Definition uint_value_in_set_display_error : Z -> ptr -> CM (list Z * Z) -> bool -> CM bool :=
  in_set_display_error 1493 fmt_u (fun n i e => fmt_u e +:+ fmt_comma n i).

(** ** Strings *)

Definition quoted (s : string) : string :=
  let q := String (Ascii.ascii_of_nat 34) "" in q +:+ s +:+ q.

Definition string_equal_display_error (left right : ptr) : CM bool :=
  l ← load_cstr left;
  r ← load_cstr right;
  report_unless (bool_decide (l = r)) (quoted l +:+ " != " +:+ quoted r +:+ nl).
Definition string_not_equal_display_error (left right : ptr) : CM bool :=
  l ← load_cstr left;
  r ← load_cstr right;
  report_unless (negb (bool_decide (l = r))) (quoted l +:+ " == " +:+ quoted r +:+ nl).

(** ** Memory *)

(** [buf] is None for NULL, else the [len] bytes at it. *)
Definition all_zero (buf : option (list Z)) (len : nat) : bool :=
  match buf with
  | None => true
  | Some b =>
      if Nat.eqb len 0 then true
      else bool_decide (b !! 0%nat = Some 0) &&
           memcmp_eq (take (len - 1) b) (take (len - 1) (skipn 1 b))
  end.

(** isprint() in the C locale *)
Definition isprint (b : Z) : bool := (32 <=? b) && (b <=? 126).

Fixpoint cmocka_print_ascii (buf : list Z) : CM unit :=
  match buf with
  | [] => mret tt
  | b :: buf' =>
      cmocka_print_error (String (byte_char (if isprint b then b else 46)) "");;
      cmocka_print_ascii buf'
  end.

(** The first loop of [print_data_block16]: [count] more columns from [i] on. *)
Fixpoint print_hex_columns (count i : nat) (buf : list Z) : CM unit :=
  match count with
  | O => mret tt
  | S k =>
      when (Nat.eqb i 8) (cmocka_print_error "  ");;
      match buf !! i with
      | Some b => cmocka_print_error (" " +:+ fmt_0x 2 b)
      | None => cmocka_print_error "   "
      end;;
      print_hex_columns k (S i) buf
  end.

(** The second loop: the characters of [buf] from index [i] on. *)
Fixpoint print_ascii_columns (i : nat) (buf : list Z) : CM unit :=
  match buf with
  | [] => mret tt
  | b :: buf' =>
      when (Nat.eqb i 8) (cmocka_print_error " ");;
      cmocka_print_ascii [b];;
      print_ascii_columns (S i) buf'
  end.

(** [buf] holds the [len] bytes of the block. *)
Definition print_data_block16 (prefix : string) (idx : nat) (buf : list Z) : CM unit :=
  assert_true 1672 "len <= 16" (Nat.leb (length buf) 16);;
  cmocka_print_error (prefix +:+ "[" +:+ fmt_0x 8 (Z.of_nat idx) +:+ "]");;
  print_hex_columns 16 0 buf;;
  cmocka_print_error "   ";;
  if Nat.eqb (length buf) 0 then cmocka_print_error ("EMPTY   BLOCK" +:+ nl)
  else
    print_ascii_columns 0 buf;;
    cmocka_print_error nl.

(** The block of a buffer at index [i]: [this_buf] and [this_len] bytes. *)
Definition this_block (i : nat) (buf : list Z) : option (list Z) :=
  if Nat.ltb i (length buf) then Some (take 16 (skipn i buf)) else None.
Definition block_bytes (b : option (list Z)) : list Z := default [] b.

(** The loop of [print_data_diff] at index [i]. *)
Fixpoint print_data_diff_loop (fuel i : nat) (buf1 buf2 : list Z) (omit_zero_bytes skipped : bool)
    : CM unit :=
  match fuel with
  | O => no_fuel
  | S k =>
      let len := Nat.max (length buf1) (length buf2) in
      if Nat.leb len i then mret tt
      else
        let this_buf1 := this_block i buf1 in
        let this_buf2 := this_block i buf2 in
        let this_len1 := length (block_bytes this_buf1) in
        let this_len2 := length (block_bytes this_buf2) in
        if omit_zero_bytes && Nat.ltb 0 i && Nat.ltb 16 (len - i) &&
           Nat.eqb this_len1 16 && all_zero this_buf1 16 &&
           Nat.eqb this_len2 16 && all_zero this_buf2 16
        then
          when (negb skipped) (cmocka_print_error ("SKIPPING ZERO BUFFER BYTES" +:+ nl));;
          print_data_diff_loop k (i + 16) buf1 buf2 omit_zero_bytes true
        else
          (if Nat.eqb this_len1 this_len2 && memcmp_eq (block_bytes this_buf1) (block_bytes this_buf2)
           then print_data_block16 "  " i (block_bytes this_buf1)
           else
             print_data_block16 "- " i (block_bytes this_buf1);;
             print_data_block16 "+ " i (block_bytes this_buf2));;
          print_data_diff_loop k (i + 16) buf1 buf2 omit_zero_bytes false
  end.

(** Each iteration advances by 16 bytes. *)
Definition print_data_diff (buf1 buf2 : list Z) (omit_zero_bytes : bool) : CM unit :=
  print_data_diff_loop (S (Nat.max (length buf1) (length buf2))) 0 buf1 buf2 omit_zero_bytes false.

(** [a] and [b] are the [size] bytes at the two addresses. *)
Definition memory_equal_display_error (a b : list Z) : CM bool :=
  if memcmp_eq a b then mret true
  else
    cmocka_print_error ("Memory is not equal:" +:+ nl +:+ nl);;
    print_data_diff a b true;;
    cmocka_print_error nl;;
    mret false.

(** The number of equal bytes. *)
Fixpoint count_same (a b : list Z) : nat :=
  match a, b with
  | l :: a', r :: b' => (if l =? r then 1 else 0) + count_same a' b'
  | _, _ => 0
  end.

(** [pa] and [pb] are the two addresses, which are printed. *)
Definition memory_not_equal_display_error (pa pb : ptr) (a b : list Z) : CM bool :=
  let same := count_same a b in
  if Nat.eqb same (length a) then
    cmocka_print_error (fmt_d (Z.of_nat same) +:+ "bytes of " +:+ plat_fmt_p pa +:+ " and " +:+
                        plat_fmt_p pb +:+ " the same" +:+ nl);;
    mret false
  else mret true.
End code.
