(* ===== verification/SymbolMap.v ===== *)
(** * Symbol maps

    The two-level maps from symbol names to queues of values which hold the
    return values of mock functions (one level: function) and the expected
    parameters (two levels: function, parameter): [add_symbol_value],
    [get_symbol_value], the clean-up and the leftover checks of
    src/src/cmocka.c, on the pointer structures of [ListNode.v]. *)
From S2P Require Import Prelude CMonad ListNode World Report Memory.

Definition WILL_RETURN_ALWAYS : Z := -1.
Definition WILL_RETURN_ONCE : Z := -2.
Definition EXPECT_ALWAYS : Z := -1.
Definition EXPECT_MAYBE : Z := -2.
Definition INT_MIN : Z := - 2 ^ 31.

Section code.
Context `{!Platform}.

Definition load_block (p : ptr) : CM Block := deref (fun w => lookup_block w p).
Definition load_smv (p : ptr) : CM SymbolMapValue :=
  deref (fun w => match lookup_block w p with Some (BSymbolMapValue v) => Some v | _ => None end).
Definition store_block (p : ptr) (b : Block) : CM unit :=
  modify (fun w => set_blocks (<[p := b]> (blocks w)) w).
(** malloc() of a typed block; [b] is its indeterminate content. *)
Definition malloc_block (size : Z) (b : Block) : CM ptr :=
  fun w => let '(p, w') := alloc_block size b w in (Ret p, w').

Definition SIZEOF_SYMBOLMAPVALUE : Z := 40.

(** [x - 1] on [int] *)
Definition int_pred (x : Z) : CM Z := if x <=? INT_MIN then undef else mret (x - 1).

(** *** Deallocation *)

Definition free_value (value : ptr) : CM unit :=
  assert_non_null 753 value;;
  free value.

(** [children] is the number behind [cleanup_value_data]. *)
Fixpoint free_symbol_map_value (children : nat) (value : ptr) {struct children} : CM unit :=
  assert_non_null 763 value;;
  match children with
  | O => list_free value (Some free_value)
  | S k => list_free value (Some (free_symbol_map_value k))
  end;;
  free value.

(** *** Adding and getting values *)

Definition symbol_names_match (symbol : string) (map_value : ptr) : CM bool :=
  v ← load_smv map_value;
  mret (bool_decide (symbol_name v = symbol)).

(** A new [SymbolMapValue] for [name], linked into the map. *)
Definition new_symbol_map_value (symbol_map_head : ptr) (name : string) : CM ptr :=
  p ← malloc_block SIZEOF_SYMBOLMAPVALUE (BSymbolMapValue (mkSymbolMapValue "" junk_node));
  v ← load_smv p;
  store_block p (BSymbolMapValue (mkSymbolMapValue name (symbol_values_list_head v)));;
  list_initialize p;;
  list_add_value symbol_map_head p 1.

(** [symbol_names] stands for the array and its length
    [number_of_symbol_names]. *)
Fixpoint add_symbol_value (symbol_map_head : ptr) (symbol_names : list string)
    (value : ptr) (refcount : Z) {struct symbol_names} : CM unit :=
  assert_non_null 799 symbol_map_head;;
  assert_true 801 "number_of_symbol_names" (negb (Nat.eqb (length symbol_names) 0));;
  match symbol_names with
  | [] => undef
  | name :: rest =>
      found ← list_find symbol_map_head (symbol_names_match name);
      target_node ← match found with
                    | Some n => mret n
                    | None => new_symbol_map_value symbol_map_head name
                    end;
      target_map_value ← get_value target_node;
      match rest with
      | [] => list_add_value target_map_value value refcount;; mret tt
      | _ => add_symbol_value target_map_value rest value refcount
      end
  end.

(** The first value of [child_list], with its old reference count; the value
    is unlinked when the count drops to 0.  [None] is the [goto out]. *)
Definition take_value (child_list : ptr) : CM (option (Z * ptr)) :=
  first ← list_first child_list;
  assert_true 857 "return_value" (match first with Some _ => true | None => false end);;
  match first with
  | None => mret None
  | Some value_node =>
      output ← get_value value_node;
      return_value ← get_refcount value_node;
      pred ← int_pred return_value;
      (if pred =? 0 then list_remove_free value_node None
       else if WILL_RETURN_ONCE <? return_value then set_refcount value_node pred
       else mret tt);;
      mret (Some (return_value, output))
  end.

(** The result is the returned [int] and, when [*output] was assigned, its
    value. *)
Fixpoint get_symbol_value (head : ptr) (symbol_names : list string)
    {struct symbol_names} : CM (Z * option ptr) :=
  assert_non_null 837 head;;
  assert_true 839 "number_of_symbol_names" (negb (Nat.eqb (length symbol_names) 0));;
  match symbol_names with
  | [] => undef
  | name :: rest =>
      let out := cmocka_print_error ("No entries for symbol " +:+ name +:+ "." +:+ nl);;
                 mret (0, None) in
      found ← list_find head (symbol_names_match name);
      match found with
      | None => out
      | Some target_node =>
          assert_non_null 847 target_node;;
          map_value ← get_value target_node;
          assert_non_null 848 map_value;;
          let child_list := map_value in
          res ← match rest with
                | [] => r ← take_value child_list;
                        mret ((fun '(rc, v) => (rc, Some v)) <$> r)
                | _ => r ← get_symbol_value child_list rest; mret (Some r)
                end;
          match res with
          | None => out
          | Some r =>
              e ← list_empty child_list;
              (if (e : bool) then list_remove_free target_node (Some (free_symbol_map_value 0))
               else mret tt);;
              mret r
          end
      end
  end.

(** *** Removing values that need not be used up *)

Fixpoint remove_always_return_values_from_list_loop (fuel : nat) (map_head current next : ptr)
    : CM unit :=
  match fuel with
  | O => no_fuel
  | S k =>
      if decide (current = map_head) then mret tt
      else
        r ← get_refcount current;
        (if r <? -1 then list_remove_free current (Some free_value) else mret tt);;
        next' ← get_next next;
        remove_always_return_values_from_list_loop k map_head next next'
  end.

Definition remove_always_return_values_from_list (map_head : ptr) : CM unit :=
  assert_non_null 896 map_head;;
  current ← get_next map_head;
  next ← get_next current;
  fuel ← gets node_bound;
  remove_always_return_values_from_list_loop (S fuel) map_head current next.

(** The [while] loop of [remove_always_return_values]; [rec] is the recursive
    call on the child list, [leaf] is [number_of_symbol_names == 1]. *)
Fixpoint remove_always_loop (rec : ptr -> CM unit) (leaf : bool) (fuel : nat)
    (map_head current : ptr) : CM unit :=
  match fuel with
  | O => no_fuel
  | S k =>
      if decide (current = map_head) then mret tt
      else
        value ← get_value current;
        next ← get_next current;
        assert_non_null 922 value;;
        let child_list := value in
        e ← list_empty child_list;
        (if negb e then
           if leaf then
             child_node ← get_next child_list;
             r ← get_refcount child_node;
             if r <? -1 then list_remove_free child_node (Some free_value) else mret tt
           else rec child_list
         else mret tt);;
        e' ← list_empty child_list;
        (if (e' : bool) then list_remove_free current (Some free_value) else mret tt);;
        remove_always_loop rec leaf k map_head next
  end.

Fixpoint remove_always_return_values (map_head : ptr) (number_of_symbol_names : nat)
    {struct number_of_symbol_names} : CM unit :=
  assert_non_null 915 map_head;;
  assert_true 916 "number_of_symbol_names" (negb (Nat.eqb number_of_symbol_names 0));;
  match number_of_symbol_names with
  | O => undef
  | S n =>
      current ← get_next map_head;
      fuel ← gets node_bound;
      remove_always_loop (fun child => remove_always_return_values child n) (Nat.eqb n 0)
        (S fuel) map_head current
  end.

(** *** Reporting leftover values *)

(** A value read as a [SourceLocation], as the code does through a cast.  The
    first member of a [SymbolValue] is its name: there the cast reads the
    name as the file and the low half of the file pointer as the line. *)
Definition as_source_location (b : Block) : option SourceLocation :=
  match b with
  | BSymbolValue v =>
      Some (mkSourceLocation (sv_name v) (to_s32 (plat_literal_low32 (file (sv_location v)))))
  | BFuncOrderingValue v => Some (fo_location v)
  | BCheckParameterEvent v => Some (ev_location v)
  | BCheckIntegerRange v => Some (ev_location (cr_event v))
  | BCheckIntegerSet v => Some (ev_location (cs_event v))
  | BCheckMemoryData v => Some (ev_location (cm_event v))
  | BListNode _ | BSymbolMapValue _ => None
  end.

Definition declared_here (l : SourceLocation) : string :=
  fmt_location (file l) (line l) +:+ ": note: remaining item was declared here" +:+ nl.

Fixpoint leftover_list_loop (fuel : nat) (head child_node : ptr) (error_message : string)
    (leftover_count : Z) : CM Z :=
  match fuel with
  | O => no_fuel
  | S k =>
      if decide (child_node = head) then mret leftover_count
      else
        v ← get_value child_node;
        o ← deref (fun w => match lookup_block w v with
                            | Some (BFuncOrderingValue o) => Some o | _ => None end);
        cmocka_print_error (error_message +:+ ": " +:+ fo_function o +:+ nl);;
        cmocka_print_error (declared_here (fo_location o));;
        next ← get_next child_node;
        leftover_list_loop k head next error_message (leftover_count + 1)
  end.

Definition check_for_leftover_values_list (head : ptr) (error_message : string) : CM Z :=
  e ← list_empty head;
  if negb e then
    child_node ← get_next head;
    fuel ← gets node_bound;
    leftover_list_loop (S fuel) head child_node error_message 0
  else mret 0.

(** The inner [for] loop of [check_for_leftover_values]. *)
Fixpoint leftover_values_loop (fuel : nat) (child_list child_node : ptr) : CM unit :=
  match fuel with
  | O => no_fuel
  | S k =>
      if decide (child_node = child_list) then mret tt
      else
        v ← get_value child_node;
        l ← deref (fun w => lookup_block w v ≫= as_source_location);
        cmocka_print_error (declared_here l);;
        next ← get_next child_node;
        leftover_values_loop k child_list next
  end.

Fixpoint check_leftover_loop (rec : ptr -> CM Z) (leaf : bool) (fuel : nat)
    (map_head current : ptr) (error_message : string) (symbols_with_leftover_values : Z) : CM Z :=
  match fuel with
  | O => no_fuel
  | S k =>
      if decide (current = map_head) then mret symbols_with_leftover_values
      else
        value ← get_value current;
        assert_non_null 982 value;;
        v ← load_smv value;
        let child_list := value in
        e ← list_empty child_list;
        count ← (if negb e then
                   (if leaf then
                      cmocka_print_error (error_message +:+ ": " +:+ symbol_name v +:+ nl);;
                      child_node ← get_next child_list;
                      fuel' ← gets node_bound;
                      leftover_values_loop (S fuel') child_list child_node
                    else
                      cmocka_print_error (symbol_name v +:+ ": ");;
                      rec child_list;;
                      mret tt);;
                   mret (symbols_with_leftover_values + 1)
                 else mret symbols_with_leftover_values);
        next ← get_next current;
        check_leftover_loop rec leaf k map_head next error_message count
  end.

Fixpoint check_for_leftover_values (map_head : ptr) (error_message : string)
    (number_of_symbol_names : nat) {struct number_of_symbol_names} : CM Z :=
  assert_non_null 974 map_head;;
  assert_true 975 "number_of_symbol_names" (negb (Nat.eqb number_of_symbol_names 0));;
  match number_of_symbol_names with
  | O => undef
  | S n =>
      current ← get_next map_head;
      fuel ← gets node_bound;
      check_leftover_loop (fun child => check_for_leftover_values child error_message n)
        (Nat.eqb n 0) (S fuel) map_head current error_message 0
  end.
End code.
