(* ===== verification/Tree.v ===== *)
(** * Trees of queues

    The abstract contract of [SymbolMap.v]: a symbol map of depth [n] is a
    tree of depth [n] whose leaves are queues of (value, reference count).
    The trees are parametric in the type of the values: addresses in the
    representation proofs, the contents of the memory there in [MockSpec.v];
    [tree_rel] relates the two. *)
From S2P Require Import Prelude CMonad ListNode World Report Memory SymbolMap.

Fixpoint tree (A : Type) (n : nat) : Type :=
  match n with O => list (A * Z) | S k => list (string * tree A k) end.

(** Update the first entry called [nm], or append one made from [d]. *)
Fixpoint update_entry {T} (nm : string) (d : T) (f : T -> T) (l : list (string * T))
    : list (string * T) :=
  match l with
  | [] => [(nm, f d)]
  | (m, t) :: l' => if decide (m = nm) then (m, f t) :: l' else (m, t) :: update_entry nm d f l'
  end.

Section trees.
Context {A : Type}.

Definition tree_nil (n : nat) : tree A n := match n with O => [] | S _ => [] end.
Definition tree_is_nil {n : nat} : tree A n -> bool :=
  match n with
  | O => fun t => match t with [] => true | _ => false end
  | S _ => fun t => match t with [] => true | _ => false end
  end.

Fixpoint tree_add (n : nat) (names : list string) (v : A) (rc : Z) : tree A n -> tree A n :=
  match n with
  | O => fun t => t ++ [(v, rc)]
  | S k => fun t => update_entry (hd "" names) (tree_nil k) (tree_add k (tl names) v rc) t
  end.

(** The queue after its first value was used once. *)
Definition use_first (q : list (A * Z)) : list (A * Z) :=
  match q with
  | [] => []
  | (v, rc) :: q' =>
      if rc - 1 =? 0 then q'
      else if WILL_RETURN_ONCE <? rc then (v, rc - 1) :: q' else (v, rc) :: q'
  end.

(** Get from the first entry called [nm]; an entry that becomes nil goes. *)
Fixpoint get_entry {T} (is_nil : T -> bool) (get : T -> option (Z * A * T)) (nm : string)
    (l : list (string * T)) : option (Z * A * list (string * T)) :=
  match l with
  | [] => None
  | (m, sub) :: l' =>
      if decide (m = nm) then
        match get sub with
        | Some (rc, v, sub') => Some (rc, v, if is_nil sub' then l' else (m, sub') :: l')
        | None => None
        end
      else
        match get_entry is_nil get nm l' with
        | Some (rc, v, l'') => Some (rc, v, (m, sub) :: l'')
        | None => None
        end
  end.

Fixpoint tree_get (n : nat) (names : list string) : tree A n -> option (Z * A * tree A n) :=
  match n with
  | O => fun t => match t with [] => None | (v, rc) :: _ => Some (rc, v, use_first t) end
  | S k => fun t => get_entry tree_is_nil (tree_get k (tl names)) (hd "" names) t
  end.

(** All values of a tree. *)
Fixpoint leaves (n : nat) : tree A n -> list A :=
  match n with O => fun t => t.*1 | S k => fun t => t ≫= fun e => leaves k e.2 end.

(** A value that was not used for the last time is still there. *)
Lemma tree_get_keeps n : forall names u rc v u',
  tree_get n names u = Some (rc, v, u') -> rc <> 1 -> v ∈ leaves n u'.
Proof.
  induction n as [|k IH]; intros names u rc v u'.
  - destruct u as [|[v0 c0] q]; [done|]. intros [= -> -> <-] Hrc. cbn [use_first].
    rewrite (proj2 (Z.eqb_neq _ _)) by lia. destruct (WILL_RETURN_ONCE <? rc); by left.
  - intros Hg Hrc. cbn [tree_get] in Hg. revert u' Hg. induction u as [|[m sub] u IHu]; intros u'; cbn [get_entry]; [done|].
    case_decide.
    + destruct (tree_get k (tl names) sub) as [ [ [rc1 v1] sub']|] eqn:E; [|done]. intros [= -> -> <-].
      pose proof (IH _ _ _ _ _ E Hrc) as Hin. replace (tree_is_nil sub') with false.
      * cbn [leaves]. rewrite bind_cons. apply elem_of_app. by left.
      * by destruct k, sub'; try (by apply elem_of_nil in Hin).
    + destruct (get_entry _ _ _ u) as [ [ [rc1 v1] u1]|] eqn:E; [|done]. intros [= -> -> <-].
      cbn [leaves]. rewrite bind_cons. apply elem_of_app. right. by apply IHu.
Qed.

(** The queue without a first value that has been used often enough. *)
Definition drop_always (q : list (A * Z)) : list (A * Z) :=
  match q with
  | (v, rc) :: q' => if rc <? -1 then q' else q
  | [] => []
  end.

Fixpoint tree_remove_always (n : nat) : tree A n -> tree A n :=
  match n with
  | O => drop_always
  | S k => fun t =>
      List.filter (fun e => negb (tree_is_nil e.2))
        ((fun e => (e.1, tree_remove_always k e.2)) <$> t)
  end.

(** The reference counts of a tree can be decremented. *)
Fixpoint refcounts_ok (n : nat) : tree A n -> Prop :=
  match n with
  | O => fun t => Forall (fun e => INT_MIN < e.2) t
  | S k => fun t => Forall (fun e => refcounts_ok k e.2) t
  end.
End trees.

(** ** Relating the values of trees *)

Section rel.
Context {A B : Type} (R : A -> B -> Prop).

Fixpoint tree_rel (n : nat) : tree A n -> tree B n -> Prop :=
  match n with
  | O => Forall2 (fun e f => R e.1 f.1 /\ e.2 = f.2)
  | S k => Forall2 (fun e f => e.1 = f.1 /\ tree_rel k e.2 f.2)
  end.

Lemma tree_rel_nil n : tree_rel n (tree_nil n) (tree_nil n).
Proof. destruct n; constructor. Qed.

Lemma tree_rel_is_nil n t u : tree_rel n t u -> tree_is_nil t = tree_is_nil u.
Proof. destruct n; by destruct 1. Qed.

Lemma tree_rel_add n : forall names v v' rc t u,
  R v v' -> tree_rel n t u -> tree_rel n (tree_add n names v rc t) (tree_add n names v' rc u).
Proof.
  induction n as [|k IH]; intros names v v' rc t u Hv Ht; simpl.
  - apply Forall2_app; [done|]. by repeat constructor.
  - induction Ht as [|[m a] [m' b] t u [Hm Hab] Ht IHt]; simpl in *.
    + constructor; [|constructor]. split; [done|]. apply IH; [done|]. apply tree_rel_nil.
    + subst m'. case_decide; constructor; try done. split; [done|]. by apply IH.
Qed.

(** The results of two gets. *)
Definition get_rel {S T} (RT : S -> T -> Prop) (r : option (Z * A * S)) (r' : option (Z * B * T)) : Prop :=
  match r, r' with
  | Some (rc, v, t), Some (rc', v', t') => rc = rc' /\ R v v' /\ RT t t'
  | None, None => True
  | _, _ => False
  end.

Lemma tree_rel_get n : forall names t u,
  tree_rel n t u -> get_rel (tree_rel n) (tree_get n names t) (tree_get n names u).
Proof.
  induction n as [|k IH]; intros names t u Ht; simpl.
  - destruct Ht as [|[v rc] [v' rc'] t u [Hv Hrc] Ht]; [done|]. simpl in *. subst rc'.
    split_and!; [done|done|]. destruct (rc - 1 =? 0); [done|].
    destruct (WILL_RETURN_ONCE <? rc); by constructor.
  - induction Ht as [|[m a] [m' b] t u [Hm Hab] Ht IHt]; [done|]. simpl in *. subst m'.
    case_decide.
    + pose proof (IH (tl names) a b Hab) as Hg. unfold get_rel in Hg |- *.
      destruct (tree_get k (tl names) a) as [ [ [rc v] a']|],
        (tree_get k (tl names) b) as [ [ [rc' v'] b']|]; try done.
      destruct Hg as (-> & Hv & Hab'). split_and!; [done|done|].
      rewrite (tree_rel_is_nil k a' b' Hab'). destruct (tree_is_nil b'); [done|]. by constructor.
    + unfold get_rel in IHt |- *.
      destruct (get_entry tree_is_nil _ _ t) as [ [ [rc v] l]|],
        (get_entry tree_is_nil _ _ u) as [ [ [rc' v'] l']|]; try done.
      destruct IHt as (-> & Hv & Hl). split_and!; [done|done|]. by constructor.
Qed.

Lemma tree_rel_remove_always n : forall t u,
  tree_rel n t u -> tree_rel n (tree_remove_always n t) (tree_remove_always n u).
Proof.
  induction n as [|k IH]; intros t u Ht; simpl.
  - destruct Ht as [|[v rc] [v' rc'] t u [Hv Hrc] Ht]; [constructor|]. simpl in *. subst rc'.
    destruct (rc <? -1); [done|]. by constructor.
  - induction Ht as [|[m a] [m' b] t u [Hm Hab] Ht IHt]; [constructor|]. simpl in *. subst m'.
    pose proof (IH a b Hab) as Hab'. rewrite (tree_rel_is_nil k _ _ Hab').
    destruct (tree_is_nil (tree_remove_always k b)); [done|]. by constructor.
Qed.

Lemma tree_rel_refcounts n : forall t u, tree_rel n t u -> refcounts_ok n u -> refcounts_ok n t.
Proof.
  induction n as [|k IH]; intros t u Ht; simpl;
    induction Ht as [|[m a] [m' b] t u [Hm Hab] Ht IHt]; intros Hu; try constructor;
    apply Forall_cons in Hu as [Hb Hu]; simpl in *; subst; eauto.
Qed.
End rel.

(** Relations on values can be weakened. *)
Lemma tree_rel_impl {A B} (R R' : A -> B -> Prop) n : forall t u,
  (forall a b, R a b -> R' a b) -> tree_rel R n t u -> tree_rel R' n t u.
Proof.
  induction n as [|k IH]; intros t u HR Ht; simpl in *; eapply Forall2_impl; try exact Ht;
    intros e f [? ?]; split; eauto.
Qed.

(** ** Queues by name *)

Section queues.
Context {A : Type}.
Implicit Types (u : tree A 1) (q : list (A * Z)) (f g : string).

(** The queue of [f]. *)
Fixpoint pending f (u : list (string * list (A * Z))) : list (A * Z) :=
  match u with
  | [] => []
  | (m, q) :: u' => if decide (m = f) then q else pending f u'
  end.

(** Names are declared once, and their queues are not empty. *)
Definition queues_ok u : Prop := NoDup (fst <$> u) /\ Forall (fun e => e.2 <> []) u.

Lemma pending_absent f u : (f ∉ fst <$> u) -> pending f u = [].
Proof.
  induction u as [|[m q] u IH]; [done|]. rewrite fmap_cons, not_elem_of_cons. intros [Hm Hu].
  simpl. rewrite decide_False by (simpl in Hm; congruence). by apply IH.
Qed.

Lemma pending_add f g v c u :
  pending g (tree_add 1 [f] v c u) = if decide (f = g) then pending f u ++ [(v, c)] else pending g u.
Proof.
  simpl. induction u as [|[m q] u IH]; simpl.
  - by case_decide.
  - destruct (decide (m = f)) as [->|]; simpl; [by repeat case_decide|].
    rewrite IH. repeat case_decide; congruence.
Qed.

Lemma names_update {T} f (d : T) (k : T -> T) (u : list (string * T)) :
  (update_entry f d k u).*1 = u.*1 ++ (if decide (f ∈ u.*1) then [] else [f]).
Proof.
  induction u as [|[m q] u IH]; [done|]. cbn [update_entry].
  destruct (decide (m = f)) as [->|Hm]; rewrite !fmap_cons; cbn [fst].
  - rewrite decide_True by by left. symmetry. apply app_nil_r.
  - rewrite IH. simpl. repeat case_decide; set_solver.
Qed.

Lemma names_add f v c u :
  (tree_add 1 [f] v c u).*1 = u.*1 ++ (if decide (f ∈ u.*1) then [] else [f]).
Proof. apply (names_update f). Qed.

Lemma queues_ok_add f v c u : queues_ok u -> queues_ok (tree_add 1 [f] v c u).
Proof.
  intros [Hnd Hne]. split.
  - rewrite names_add. case_decide as Hf; [by rewrite app_nil_r|].
    apply NoDup_app. split_and!; [done| |apply NoDup_singleton].
    by intros x Hx ->%list_elem_of_singleton.
  - simpl. clear Hnd. induction Hne as [|[m q] u Hq Hne IH]; simpl.
    + by repeat constructor.
    + case_decide; constructor; try done. simpl in *. by destruct q.
Qed.

Lemma get_entry_names {T} is_nil (get : T -> option (Z * A * T)) nm (l : list (string * T)) rc v l' m :
  get_entry is_nil get nm l = Some (rc, v, l') -> m ∈ l'.*1 -> m ∈ l.*1.
Proof.
  revert l'. induction l as [|[m' q] l IH]; intros l'; [done|]. cbn [get_entry].
  destruct (decide (m' = nm)).
  - destruct (get q) as [ [ [? ?] q'']|]; [|done]. intros Heq. simplify_eq.
    destruct (is_nil q''); rewrite !fmap_cons; cbn [fst]; [by right|done].
  - destruct (get_entry is_nil get nm l) as [ [ [? ?] l'']|]; [|done]. intros Heq. simplify_eq.
    rewrite !fmap_cons; cbn [fst]. intros [->|Hin]%elem_of_cons; [by left|right]. by eapply IH.
Qed.

(** Getting from a queue that has a value. *)
Lemma get_pending f v c q u :
  queues_ok u -> pending f u = (v, c) :: q ->
  exists u', tree_get 1 [f] u = Some (c, v, u') /\ queues_ok u' /\
    forall g, pending g u' = if decide (f = g) then use_first ((v, c) :: q) else pending g u.
Proof.
  intros [Hnd Hne] Hp. unfold queues_ok. simpl tree_get.
  induction u as [|[m q0] u IH]; [done|].
  rewrite fmap_cons in Hnd. cbn [fst] in Hnd. apply NoDup_cons in Hnd as [Hm Hnd].
  apply Forall_cons in Hne as [Hq0 Hne]. cbn [pending get_entry] in Hp |- *.
  destruct (decide (m = f)) as [->|Hmf].
  - subst q0. cbn [tree_get]. destruct (use_first ((v, c) :: q)) as [|e q'] eqn:Hu; cbn [tree_is_nil];
      (eexists; split_and!; [reflexivity|try done..]).
    + intros g. destruct (decide (f = g)) as [<-|]; [|done]. by rewrite pending_absent.
    + by constructor.
    + by constructor.
    + intros g. cbn [pending]. by destruct (decide (f = g)) as [<-|].
  - destruct (IH Hnd Hne Hp) as (u' & Hg & [Hnd' Hne'] & Hpend). cbn [hd] in Hg.
    cbn [hd]. rewrite Hg. eexists. split_and!; [done| | |].
    + rewrite fmap_cons. constructor; [|done]. cbn [fst]. intros Hin. apply Hm.
      by eapply get_entry_names.
    + by constructor.
    + intros g. cbn [pending]. rewrite Hpend. repeat case_decide; congruence.
Qed.

Lemma get_nothing_pending f u : queues_ok u -> pending f u = [] -> tree_get 1 [f] u = None.
Proof.
  intros [_ Hne]. simpl. induction Hne as [|[m q] u Hq Hne IH]; [done|]. cbn [pending get_entry].
  destruct (decide (m = f)); [by intros ->|]. intros Hp. by rewrite IH.
Qed.
End queues.

Section more_queues.
Context {A : Type}.
Implicit Types (u : tree A 1) (q : list (A * Z)) (f g : string).

(** Reference counts that can be decremented, queue by queue. *)
Definition counts_ok q : Prop := Forall (fun e => INT_MIN < e.2) q.

Lemma refcounts_pending u :
  NoDup (u.*1) -> refcounts_ok 1 u <-> forall f, counts_ok (pending f u).
Proof.
  unfold counts_ok. intros Hnd. split.
  - intros Hu f. clear Hnd. simpl in Hu. induction Hu as [|[m q] u Hq Hu IH]; [by constructor|].
    cbn [pending]. by case_decide.
  - simpl. induction u as [|[m q] u IH]; intros Hf; [by constructor|].
    rewrite fmap_cons in Hnd. apply NoDup_cons in Hnd as [Hm Hnd]. cbn [fst] in Hm.
    constructor.
    + specialize (Hf m). cbn [pending] in Hf. by rewrite decide_True in Hf.
    + apply IH; [done|]. intros f. specialize (Hf f). cbn [pending] in Hf.
      case_decide as Heq; [|done]. subst. rewrite pending_absent by done. constructor.
Qed.

Lemma counts_ok_use_first q : counts_ok q -> counts_ok (use_first q).
Proof.
  unfold counts_ok. destruct 1 as [|[v c] q Hc Hq]; [constructor|]. cbn [use_first].
  destruct (c - 1 =? 0); [done|]. destruct (WILL_RETURN_ONCE <? c) eqn:E; [|by constructor].
  constructor; [|done]. unfold WILL_RETURN_ONCE, INT_MIN in *. cbn [snd]. zbool. lia.
Qed.

Lemma pending_remove_always f u :
  NoDup (u.*1) -> pending f (tree_remove_always 1 u) = drop_always (pending f u).
Proof.
  simpl. induction u as [|[m q] u IH]; [done|]. rewrite fmap_cons. intros [Hm Hnd]%NoDup_cons.
  cbn [fst] in Hm. rewrite fmap_cons. cbn [List.filter fst snd pending].
  destruct (decide (m = f)) as [->|Hmf].
  - destruct (drop_always q) as [|e q'] eqn:Hq; cbn [negb].
    + rewrite IH, pending_absent by done. done.
    + cbn [pending]. by rewrite decide_True.
  - destruct (drop_always q) as [|e q'] eqn:Hq; cbn [negb]; [by apply IH|].
    cbn [pending]. rewrite decide_False by done. by apply IH.
Qed.
End more_queues.

(** ** Counts that can be used *)

Section counts.
Context {A : Type}.

(** Every reference count can be decremented, and none is 0. *)
Fixpoint counts_valid (n : nat) : tree A n -> Prop :=
  match n with
  | O => fun t => Forall (fun e => INT_MIN < e.2 /\ e.2 <> 0) t
  | S k => fun t => Forall (fun e => counts_valid k e.2) t
  end.

Lemma counts_valid_nil n : counts_valid n (tree_nil n).
Proof. destruct n; constructor. Qed.

Lemma counts_valid_refcounts n : forall t, counts_valid n t -> refcounts_ok n t.
Proof.
  induction n as [|k IH]; intros t Ht; simpl in *; (eapply Forall_impl; [exact Ht|]); [by intros e [? _]|].
  intros e. apply IH.
Qed.

Lemma counts_valid_add n names v rc : INT_MIN < rc -> rc <> 0 ->
  forall t, counts_valid n t -> counts_valid n (tree_add n names v rc t).
Proof.
  intros Hmin Hz. revert names. induction n as [|k IH]; intros names t Ht; simpl in *.
  - apply Forall_app. split; [done|]. by repeat constructor.
  - induction Ht as [|[m u] t Hu Ht IHt]; simpl.
    + constructor; [|constructor]. apply IH, counts_valid_nil.
    + case_decide; constructor; try done. simpl. by apply IH.
Qed.

Lemma counts_valid_get n : forall names t rc v u, counts_valid n t -> tree_get n names t = Some (rc, v, u) ->
  rc <> 0 /\ counts_valid n u.
Proof.
  induction n as [|k IH]; intros names t rc v u Ht; simpl in *.
  - destruct Ht as [|[v0 c0] t [Hmin Hz] Ht]; [done|]. intros [= -> -> <-]. cbn [snd] in *. split; [done|].
    unfold WILL_RETURN_ONCE, INT_MIN in *. destruct (rc - 1 =? 0) eqn:E1; [done|]. destruct (-2 <? rc) eqn:E2; zbool;
      constructor; try done; cbn [snd]; lia.
  - revert u. induction Ht as [|[m s] t Hs Ht IHt]; intros u; [done|]. cbn [get_entry]. case_decide.
    + destruct (tree_get k (tl names) s) as [ [ [rc' v'] s']|] eqn:E; [|done]. intros [= -> -> <-].
      destruct (IH _ _ _ _ _ Hs E) as [Hz Hs']. split; [done|]. destruct (tree_is_nil s'); [done|]. by constructor.
    + destruct (get_entry _ _ _ t) as [ [ [rc' v'] l]|]; [|done]. intros [= -> -> <-].
      destruct (IHt l eq_refl) as [Hz Hl]. split; [done|]. by constructor.
Qed.
End counts.
