(* ===== verification/SymbolTree.v ===== *)
(** * Symbol maps as trees

    The representation of the trees of [Tree.v] in memory: [good n w h t]
    relates the pointer structure at head [h] of memory [w] to
    a [shape], a tree which still carries the addresses; [erase] forgets them. *)
From S2P Require Import Prelude CMonad ListNode World Report Memory SymbolMap Tree.

(** ** Shapes: trees with addresses *)

Record Entry (T : Type) := mkEntry {
  e_node : ptr;      (* the ListNode *)
  e_map : ptr;       (* the SymbolMapValue, and the head of its list *)
  e_name : string;
  e_sub : T;
}.
Arguments mkEntry {T}.
Arguments e_node {T}.
Arguments e_map {T}.
Arguments e_name {T}.
Arguments e_sub {T}.

Definition entry_cell {T} (e : Entry T) : cell := (e_node e, e_map e, 1).
Definition cell_value (c : cell) : ptr := c.1.2.
Definition cell_refcount (c : cell) : Z := c.2.

Fixpoint shape (n : nat) : Type :=
  match n with O => list cell | S k => list (Entry (shape k)) end.

#[global] Arguments shape !n : simpl nomatch.

Definition shape_nil (n : nat) : shape n := match n with O => [] | S _ => [] end.

(** The cells of the top list of a shape. *)
Definition cells {n : nat} : shape n -> list cell :=
  match n with O => fun t => t | S _ => fun t => entry_cell <$> t end.

Fixpoint erase (n : nat) : shape n -> tree ptr n :=
  match n with
  | O => fun t => (fun c => (cell_value c, cell_refcount c)) <$> t
  | S k => fun t => (fun e => (e_name e, erase k (e_sub e))) <$> t
  end.

(** The allocations of a shape, the head excepted. *)
Fixpoint fp (n : nat) : shape n -> list ptr :=
  match n with
  | O => fun t => t ≫= fun c => [cell_addr c; cell_value c]
  | S k => fun t => t ≫= fun e => e_node e :: e_map e :: fp k (e_sub e)
  end.

(** Its two parts: the addresses of the lists, and the values. *)
Fixpoint spine (n : nat) : shape n -> list ptr :=
  match n with
  | O => fun t => cell_addr <$> t
  | S k => fun t => t ≫= fun e => e_node e :: e_map e :: spine k (e_sub e)
  end.
Fixpoint values (n : nat) : shape n -> list ptr :=
  match n with
  | O => fun t => cell_value <$> t
  | S k => fun t => t ≫= fun e => values k (e_sub e)
  end.

Lemma fp_spine_values n : forall t : shape n, fp n t ≡ₚ spine n t ++ values n t.
Proof.
  induction n as [|k IH]; intros t; induction t as [|c t IHt]; try done.
  - change (cell_addr c :: cell_value c :: fp 0 t ≡ₚ
      (cell_addr c :: spine 0 t) ++ cell_value c :: values 0 t).
    rewrite IHt. solve_Permutation.
  - change (e_node c :: e_map c :: fp k (e_sub c) ++ fp (S k) t ≡ₚ
      (e_node c :: e_map c :: spine k (e_sub c) ++ spine (S k) t) ++
      values k (e_sub c) ++ values (S k) t).
    rewrite IHt, IH. solve_Permutation.
Qed.

Lemma values_leaves n : forall t : shape n, values n t = leaves n (erase n t).
Proof.
  induction n as [|k IH]; intros t; cbn [values leaves erase].
  - by rewrite <-list_fmap_compose.
  - induction t as [|e t IHt]; [done|]. rewrite fmap_cons, !bind_cons, IHt. cbn [snd]. by rewrite IH.
Qed.

Lemma values_fp n (t : shape n) x : x ∈ values n t -> x ∈ fp n t.
Proof. intros Hx. rewrite fp_spine_values, elem_of_app. by right. Qed.
Lemma spine_fp n (t : shape n) x : x ∈ spine n t -> x ∈ fp n t.
Proof. intros Hx. rewrite fp_spine_values, elem_of_app. by left. Qed.

Lemma values_not_spine n h (t : shape n) x :
  NoDup (h :: fp n t) -> x ∈ values n t -> x ∉ h :: spine n t.
Proof.
  rewrite fp_spine_values. intros [Hh Hnd]%NoDup_cons Hx [->|Hs]%elem_of_cons.
  - apply Hh, elem_of_app. by right.
  - apply NoDup_app in Hnd as (_ & Hd & _). by apply (Hd x).
Qed.

Lemma cells_spine n (t : shape n) x : x ∈ addrs (cells t) -> x ∈ spine n t.
Proof.
  unfold addrs. intros (c & -> & Hc)%list_elem_of_fmap. destruct n; simpl in *.
  - by apply list_elem_of_fmap_2.
  - apply list_elem_of_fmap in Hc as (e & -> & He). apply list_elem_of_bind.
    exists e. split; [by left|done].
Qed.

Section spine_lemmas.
Context {k : nat}.
Implicit Types (e : Entry (shape k)) (t : list (Entry (shape k))).

Lemma values_app t1 t2 :
  values (S k) (t1 ++ t2 : list (Entry (shape k))) = values (S k) t1 ++ values (S k) t2.
Proof. apply bind_app. Qed.
Lemma values_cons e t :
  values (S k) (e :: t : list (Entry (shape k))) = values k (e_sub e) ++ values (S k) t.
Proof. done. Qed.
Lemma spine_app t1 t2 :
  spine (S k) (t1 ++ t2 : list (Entry (shape k))) = spine (S k) t1 ++ spine (S k) t2.
Proof. apply bind_app. Qed.
Lemma spine_cons e t :
  spine (S k) (e :: t : list (Entry (shape k))) =
  e_node e :: e_map e :: spine k (e_sub e) ++ spine (S k) t.
Proof. done. Qed.
End spine_lemmas.

Section rep.
Context `{!Platform}.
Implicit Types (w : World) (h : ptr).

(** The nodes and the ownership of the shape [t] under head [h]. *)
Fixpoint rep (n : nat) w h : shape n -> Prop :=
  match n with
  | O => fun t =>
      dll w h t /\ Forall (fun c => owned w (cell_addr c) = true /\ owned w (cell_value c) = true) t
  | S k => fun t =>
      dll w h (entry_cell <$> t) /\
      Forall (fun e => owned w (e_node e) = true /\ owned w (e_map e) = true /\
                       rep k w (e_map e) (e_sub e)) t
  end.

(** The symbol names stored in the [SymbolMapValue]s. *)
Fixpoint names_ok (n : nat) w : shape n -> Prop :=
  match n with
  | O => fun _ => True
  | S k => fun t =>
      Forall (fun e => name_of w (e_map e) = Some (e_name e) /\ names_ok k w (e_sub e)) t
  end.

(** Every symbol has a value: an emptied child list is removed. *)
Fixpoint filled (n : nat) : shape n -> Prop :=
  match n with
  | O => fun _ => True
  | S k => fun t => Forall (fun e => tree_is_nil (erase k (e_sub e)) = false /\ filled k (e_sub e)) t
  end.

(** The head [h] represents the shape [t]; [good] shapes are also filled. *)
Definition good0 (n : nat) w h (t : shape n) : Prop :=
  rep n w h t /\ names_ok n w t /\ NoDup (h :: fp n t).
Definition good (n : nat) w h (t : shape n) : Prop := good0 n w h t /\ filled n t.

(** Memory changes only at the addresses [X], where the static list nodes remain; the rest of
    the world not at all. *)
Definition mem_frame (X : list ptr) w w' : Prop :=
  ((exists b i, w' = set_blocks b (set_infos i w)) /\ static_kept w w') /\
  forall x, x ∉ X -> blocks w' !! x = blocks w !! x /\ infos w' !! x = infos w !! x.
End rep.

Section lemmas.
Context `{!Platform, !PlatformLaws}.
Implicit Types (w : World) (h p v : ptr).

Lemma mem_frame_refl X w : mem_frame X w w.
Proof. split; [|done]. split; [|done]. exists (blocks w), (infos w). by destruct w. Qed.

Lemma mem_frame_trans X w1 w2 w3 : mem_frame X w1 w2 -> mem_frame X w2 w3 -> mem_frame X w1 w3.
Proof.
  intros [ [ (b1 & i1 & ->) S1] H1] [ [ (b2 & i2 & ->) S2] H2]. split.
  - split; [exists b2, i2; by destruct w1|by etrans].
  - intros x Hx. destruct (H2 x Hx) as [-> ->]. by apply H1.
Qed.

Lemma mem_frame_mono X Y w w' : X ⊆ Y -> mem_frame X w w' -> mem_frame Y w w'.
Proof. intros HXY [Hw Hx]. split; [done|]. intros x Hnx. apply Hx. set_solver. Qed.

Lemma touches_frame W D w w' : touches W D w w' -> mem_frame (W ++ D) w w'.
Proof.
  intros Ht. split; [by split; [eapply touches_world|eapply touches_static]|]. intros x Hx.
  eapply touches_block; [done|set_solver..].
Qed.

Lemma frame_obs w w' x :
  blocks w' !! x = blocks w !! x -> infos w' !! x = infos w !! x ->
  get_node w' x = get_node w x /\ owned w' x = owned w x /\ name_of w' x = name_of w x.
Proof.
  intros Hb Hi. unfold get_node, owned, world_heap, world_get_node, world_owned, name_of,
    lookup_block. by rewrite Hb, Hi.
Qed.

Lemma mem_frame_obs X w w' x :
  mem_frame X w w' -> (x ∉ X) ->
  get_node w' x = get_node w x /\ owned w' x = owned w x /\ name_of w' x = name_of w x.
Proof. intros [_ Hf] [Hb Hi]%Hf. by apply frame_obs. Qed.

Lemma rep_cells n w h t : rep n w h t -> dll w h (cells t).
Proof. destruct n; by intros [? _]. Qed.

Lemma cells_fp n (t : shape n) x : x ∈ addrs (cells t) -> x ∈ fp n t.
Proof.
  unfold addrs. intros (c & -> & Hc)%list_elem_of_fmap. destruct n; simpl in *.
  - apply list_elem_of_bind. exists c. split; [|done]. by left.
  - apply list_elem_of_fmap in Hc as (e & -> & He). apply list_elem_of_bind.
    exists e. split; [|done]. by left.
Qed.

Lemma fp_sub k (t : shape (S k)) e x :
  e ∈ (t : list (Entry (shape k))) -> x ∈ e_map e :: fp k (e_sub e) -> x ∈ fp (S k) t.
Proof. intros He Hx. apply list_elem_of_bind. exists e. split; [by right|done]. Qed.

(** The representation depends on the nodes and the ownership of its own
    allocations. *)
Lemma rep_agree n : forall w w' h t,
  agree (h :: fp n t) w w' -> rep n w h t -> rep n w' h t.
Proof.
  induction n as [|k IH]; intros w w' h t Ha [Hd Ho]; (split; [
    eapply dll_frame_node; [|exact Hd]; intros x [->|Hx]%elem_of_cons; apply Ha; [by left|];
    right; apply (cells_fp _ t); exact Hx|]); apply Forall_forall;
    rewrite Forall_forall in Ho.
  - intros c Hc. destruct (Ho c Hc) as [Ho1 Ho2].
    assert (forall x, x ∈ [cell_addr c; cell_value c] -> owned w' x = owned w x) as Hx.
    { intros x Hx. apply Ha. right. apply list_elem_of_bind. by exists c. }
    rewrite !Hx by set_solver. done.
  - intros e He. destruct (Ho e He) as (Ho1 & Ho2 & Hr).
    assert (forall x, x ∈ e_node e :: e_map e :: fp k (e_sub e) ->
      get_node w' x = get_node w x /\ owned w' x = owned w x) as Hx.
    { intros x Hx. apply Ha. right. apply list_elem_of_bind. by exists e. }
    destruct (Hx (e_node e)) as [_ ->]; [by left|].
    destruct (Hx (e_map e)) as [_ ->]; [by right; left|]. split_and!; try done.
    eapply IH; [|done]. intros x Hx'. apply Hx. by right.
Qed.

Lemma names_frame n : forall w w' t,
  (forall x, x ∈ fp n t -> name_of w' x = name_of w x) -> names_ok n w t -> names_ok n w' t.
Proof.
  induction n as [|k IH]; intros w w' t Hx Hn; [done|]. simpl in *.
  rewrite Forall_forall in Hn |- *. intros e He. destruct (Hn e He) as [He1 He2].
  assert (forall x, x ∈ e_node e :: e_map e :: fp k (e_sub e) -> name_of w' x = name_of w x) as Hy.
  { intros x Hxe. apply Hx, list_elem_of_bind. by exists e. }
  split; [rewrite Hy; [done|by right; left]|].
  eapply IH; [|done]. intros x Hxe. apply Hy. by do 2 right.
Qed.

Lemma good0_frame n w w' h t X :
  mem_frame X w w' -> (forall x, x ∈ h :: fp n t -> x ∉ X) -> good0 n w h t -> good0 n w' h t.
Proof.
  intros Hf Hd (Hr & Hn & Hnd). split_and!; try done.
  - eapply rep_agree; [|done]. intros x Hx.
    destruct (mem_frame_obs X w w' x) as (-> & -> & _); auto.
  - eapply names_frame; [|done]. intros x Hx.
    destruct (mem_frame_obs X w w' x) as (_ & _ & ->); [done| |done]. apply Hd. by right.
Qed.

Lemma rep_owned n : forall w h t x, rep n w h t -> x ∈ fp n t -> owned w x = true.
Proof.
  induction n as [|k IH]; intros w h t x [_ Ho] (e & Hx & He)%list_elem_of_bind;
    rewrite Forall_forall in Ho.
  - destruct (Ho e He) as [Ho1 Ho2]. set_solver.
  - destruct (Ho e He) as (Ho1 & Ho2 & Hr).
    apply elem_of_cons in Hx as [->|Hx]; [done|].
    apply elem_of_cons in Hx as [->|Hx]; [done|]. by eapply IH.
Qed.

(** *** Freeing *)

(** The cleanup function that fits the cells of a shape of depth [n]. *)
Definition cleanup (n : nat) : ptr -> CM unit :=
  match n with O => free_value | S k => free_symbol_map_value k end.

Lemma free_value_cleans w v : owned w v = true -> cleans w (free_value v) [v].
Proof.
  intros Ho w0 Ha. destruct (Ha v) as [_ Ho0]; [by left|]. rewrite Ho in Ho0.
  destruct (owned_heap w0 v Ho0) as [Hv _]. unfold free_value.
  exists (drop v w0). mrun (assert_non_null_ok w0 753 v Hv). split_and!.
  - by apply free_run.
  - apply (touch_drop _ _ w0 _ v); [by left|done|constructor].
  - intros x ->%list_elem_of_singleton. split.
    + by rewrite get_drop, decide_True.
    + by rewrite owned_drop, decide_True.
Qed.

(** The cells of a shape with what their cleanup frees. *)
Definition cell_footprints {n : nat} : shape n -> list (cell * list ptr) :=
  match n with
  | O => fun t => (fun c => (c, [cell_value c])) <$> t
  | S k => fun t => (fun e => (entry_cell e, e_map e :: fp k (e_sub e))) <$> t
  end.

Lemma cell_footprints_cells n (t : shape n) : (cell_footprints t).*1 = cells t.
Proof. destruct n; simpl; rewrite <-list_fmap_compose; [apply list_fmap_id|done]. Qed.

Lemma cell_footprints_fp n (t : shape n) : footprint (cell_footprints t) = fp n t.
Proof.
  unfold footprint. destruct n as [|k]; simpl in t; induction t as [|c t IH]; try done.
  - exact (f_equal (fun l => cell_addr c :: cell_value c :: l) IH).
  - exact (f_equal (fun l => e_node c :: e_map c :: fp k (e_sub c) ++ l) IH).
Qed.

Lemma NoDup_fp_sub k (t : shape (S k)) e :
  NoDup (fp (S k) t) -> e ∈ (t : list (Entry (shape k))) ->
  NoDup (e_node e :: e_map e :: fp k (e_sub e)).
Proof.
  intros Hnd (t1 & t2 & ->)%list_elem_of_split. simpl in Hnd.
  rewrite bind_app, bind_cons in Hnd.
  apply NoDup_app in Hnd as (_ & _ & Hnd).
  by apply NoDup_app in Hnd as (? & _).
Qed.

(** Freeing a map value frees its whole shape, in any memory that agrees on
    it, provided that freeing lists of the same depth works. *)
Lemma free_smv_cleans k w p t :
  (forall w0, rep k w0 p t ->
     exists w', list_free p (Some (cleanup k)) w0 = (Ret p, w') /\
       touches (p :: fp k t) (fp k t) w0 w' /\ (forall x, x ∈ fp k t -> gone w' x)) ->
  rep k w p t -> owned w p = true -> (p ∉ fp k t) ->
  cleans w (free_symbol_map_value k p) (p :: fp k t).
Proof.
  intros Hfree Hr Ho Hp w0 Ha.
  destruct (Hfree w0) as (w1 & R1 & T1 & G1); [by eapply rep_agree|].
  destruct (Ha p) as [_ Ho0]; [by left|]. rewrite Ho in Ho0.
  destruct (owned_heap w0 p Ho0) as [Hpz _].
  assert (owned w1 p = true) as Ho1 by (by rewrite (touches_owned _ _ _ _ _ T1)).
  exists (drop p w1).
  assert (free_symbol_map_value k p w0 =
    (assert_non_null 763 p;; list_free p (Some (cleanup k));; free p) w0) as -> by by destruct k.
  mrun (assert_non_null_ok w0 763 p Hpz). mrun R1. split_and!.
  - by apply free_run.
  - eapply touches_trans; [eapply touches_mono; [| |exact T1]; set_solver|].
    apply (touch_drop _ _ w1 _ p); [by left|done|constructor].
  - intros x [->|Hx]%elem_of_cons; split.
    + by rewrite get_drop, decide_True.
    + by rewrite owned_drop, decide_True.
    + rewrite get_drop. case_decide; [done|]. by apply G1.
    + rewrite owned_drop. case_decide; [done|]. by apply G1.
Qed.

(** [list_free] with the cleanup of its depth frees exactly the allocations
    of the shape and leaves an empty list. *)
Lemma free_shape_spec n : forall w h t,
  rep n w h t -> NoDup (h :: fp n t) ->
  exists w', list_free h (Some (cleanup n)) w = (Ret h, w') /\ dll w' h [] /\
    data_of w' h = data_of w h /\ touches (h :: fp n t) (fp n t) w w' /\
    (forall x, x ∈ fp n t -> gone w' x).
Proof.
  induction n as [|k IH]; intros w h t Hr Hnd; rewrite <-cell_footprints_fp in Hnd |- *;
    apply list_free_spec; try done; try (rewrite cell_footprints_cells; by eapply rep_cells);
    destruct Hr as [_ Ho]; rewrite Forall_forall in Ho; apply Forall_forall;
    intros x (c & -> & Hc)%list_elem_of_fmap; simpl.
  - by apply Ho.
  - apply free_value_cleans. by apply Ho.
  - by apply Ho.
  - destruct (Ho c Hc) as (Ho1 & Ho2 & Hrc).
    rewrite cell_footprints_fp in Hnd. apply NoDup_cons in Hnd as [_ Hnd].
    pose proof (NoDup_fp_sub _ _ _ Hnd Hc) as [_ Hnd2]%NoDup_cons.
    apply free_smv_cleans; try done; [|by apply NoDup_cons in Hnd2 as [? _]].
    intros w0 Hr0. destruct (IH w0 (e_map c) (e_sub c) Hr0 Hnd2) as (w' & ? & _ & _ & ? & ?).
    by exists w'.
Qed.

(** *** Replacing one child *)

Definition with_sub {T} (e : Entry T) (sub : T) : Entry T :=
  mkEntry (e_node e) (e_map e) (e_name e) sub.

Lemma fp_app k (t1 t2 : list (Entry (shape k))) :
  fp (S k) (t1 ++ t2 : list (Entry (shape k))) = fp (S k) t1 ++ fp (S k) t2.
Proof. apply bind_app. Qed.
Lemma fp_cons k (e : Entry (shape k)) (t : list (Entry (shape k))) :
  fp (S k) (e :: t : list (Entry (shape k))) = e_node e :: e_map e :: fp k (e_sub e) ++ fp (S k) t.
Proof. done. Qed.

(** What a shape says about each of its entries. *)
Definition entry_rep k w (e : Entry (shape k)) : Prop :=
  owned w (e_node e) = true /\ owned w (e_map e) = true /\ rep k w (e_map e) (e_sub e) /\
  name_of w (e_map e) = Some (e_name e) /\ names_ok k w (e_sub e).

Lemma entry_rep_frame k w w' e :
  (forall x, x ∈ e_map e :: fp k (e_sub e) -> get_node w' x = get_node w x) ->
  (forall x, x ∈ e_node e :: e_map e :: fp k (e_sub e) ->
     owned w' x = owned w x /\ name_of w' x = name_of w x) ->
  entry_rep k w e -> entry_rep k w' e.
Proof.
  intros Hg Hx (H1 & H2 & H3 & H4 & H5).
  destruct (Hx (e_node e)) as (Ho1 & _); [by left|].
  destruct (Hx (e_map e)) as (Ho2 & Hn2); [by right; left|].
  split_and!; [by rewrite Ho1|by rewrite Ho2| |by rewrite Hn2|].
  - eapply rep_agree; [|done]. intros x Hin. split; [by apply Hg|]. apply Hx. by right.
  - eapply names_frame; [|done]. intros x Hin. apply Hx. by do 2 right.
Qed.

Lemma good0_entries k w h (t : shape (S k)) :
  good0 (S k) w h t <->
  dll w h (cells t) /\ Forall (entry_rep k w) t /\ NoDup (h :: fp (S k) t).
Proof.
  unfold good0, entry_rep. simpl. rewrite !Forall_forall. naive_solver.
Qed.

Lemma fp_entry k (t : shape (S k)) e x :
  e ∈ (t : list _) -> x ∈ e_node e :: e_map e :: fp k (e_sub e) -> x ∈ fp (S k) t.
Proof. intros He Hx. apply list_elem_of_bind. by exists e. Qed.

Lemma cells_cons k (e : Entry (shape k)) (t : shape (S k)) :
  cells (e :: t : shape (S k)) = entry_cell e :: cells t.
Proof. done. Qed.
Lemma cells_app k (t1 t2 : shape (S k)) :
  cells (t1 ++ t2 : shape (S k)) = cells t1 ++ cells t2.
Proof. apply fmap_app. Qed.

(** The addresses in the top list of a shape are not used below it. *)
Lemma top_not_below k (t : shape (S k)) e x :
  NoDup (fp (S k) t) -> e ∈ (t : list _) -> x ∈ e_map e :: fp k (e_sub e) ->
  x ∉ addrs (cells t).
Proof.
  intros Hnd (l1 & l2 & ->)%list_elem_of_split Hx.
  rewrite cells_app, cells_cons. unfold addrs. rewrite fmap_app, fmap_cons.
  pose proof (cells_fp (S k) l1 x) as H1. pose proof (cells_fp (S k) l2 x) as H2.
  rewrite fp_app, fp_cons in Hnd.
  apply NoDup_app in Hnd as (_ & Hd1 & [Hn Hnd]%NoDup_cons).
  change (e_map e :: fp k (e_sub e) ++ fp (S k) l2)
    with ((e_map e :: fp k (e_sub e)) ++ fp (S k) l2) in *.
  apply NoDup_app in Hnd as (_ & Hd2 & _).
  intros [Hin|[Hin|Hin]%elem_of_cons]%elem_of_app.
  - apply (Hd1 x); [by apply H1|]. right. apply elem_of_app. by left.
  - apply Hn. apply elem_of_app. left. unfold cell_addr, entry_cell in Hin. simpl in Hin. by subst.
  - apply (Hd2 x); [done|]. by apply H2.
Qed.

(** A child operation that stays within its own shape and fresh memory. *)
Lemma good0_replace k w w1 h t1 e t2 sub' X :
  let t : shape (S k) := t1 ++ e :: t2 in
  good0 (S k) w h t ->
  good0 k w1 (e_map e) sub' -> mem_frame X w w1 ->
  (forall x, x ∈ X -> x ∈ e_map e :: fp k (e_sub e) \/ (x ∉ h :: fp (S k) t)) ->
  (forall x, x ∈ fp k sub' -> x ∈ fp k (e_sub e) \/ (x ∉ h :: fp (S k) t)) ->
  name_of w1 (e_map e) = name_of w (e_map e) -> owned w1 (e_map e) = true ->
  good0 (S k) w1 h (t1 ++ with_sub e sub' :: t2 : list _).
Proof.
  intros t (Hdll & He & Hnd)%good0_entries (Hr' & Hn' & Hnd') Hf HX Hfp Hname Hown.
  apply good0_entries. unfold t in *.
  rewrite fp_app, fp_cons in Hnd, HX, Hfp |- *. simpl e_node. simpl e_map. simpl e_sub.
  pose proof (footprint_outside _ _ _ _ _ _ X Hnd HX) as Hout.
  assert (forall x, x ∈ h :: fp (S k) t1 ++ e_node e :: fp (S k) t2 ->
    get_node w1 x = get_node w x /\ owned w1 x = owned w x /\ name_of w1 x = name_of w x) as Hobs.
  { intros x Hx. eapply mem_frame_obs; [done|]. by apply Hout. }
  assert (forall e', e' ∈ t1 \/ e' ∈ t2 -> entry_rep k w e' -> entry_rep k w1 e') as Hmove.
  { intros e' He'.
    assert (forall x, x ∈ e_node e' :: e_map e' :: fp k (e_sub e') ->
      x ∈ h :: fp (S k) t1 ++ e_node e :: fp (S k) t2) as Hin.
    { intros x Hx. apply elem_of_cons; right. apply elem_of_app.
      destruct He'; [left|right; right]; by eapply fp_entry. }
    apply entry_rep_frame; intros x Hx; apply Hobs, Hin; [by right|done]. }
  apply Forall_app in He as [He1 [Hee He2]%Forall_cons].
  rewrite cells_app, cells_cons in Hdll |- *. split_and!.
  - eapply dll_frame_node; [|exact Hdll]. intros x Hx. apply Hobs.
    unfold addrs in Hx. rewrite fmap_app, fmap_cons in Hx.
    pose proof (cells_fp (S k) t1 x). pose proof (cells_fp (S k) t2 x).
    rewrite elem_of_cons, elem_of_app, elem_of_cons in Hx |- *. naive_solver.
  - apply Forall_app; split; [|apply Forall_cons; split].
    + rewrite Forall_forall in He1 |- *. intros e' He'. apply Hmove; auto.
    + destruct Hee as (Ho & _ & _ & Hnm & _).
      destruct (Hobs (e_node e)) as (_ & Ho' & _); [by right; apply elem_of_app; right; left|].
      split_and!; [exact (eq_trans Ho' Ho)|exact Hown|exact Hr'|exact (eq_trans Hname Hnm)|exact Hn'].
    + rewrite Forall_forall in He2 |- *. intros e' He'. apply Hmove; auto.
  - by eapply footprint_replace.
Qed.
End lemmas.
