(* ===== verification/SymbolGet.v ===== *)
(** * Getting values from a symbol map

    [get_symbol_value] implements [tree_get]: it returns the first value of the
    queue of the given symbols with its old reference count, uses the value
    up, and removes the entries that become empty, freeing exactly their
    memory. *)
From S2P Require Import Prelude CMonad ListNode World Report Memory SymbolMap Tree SymbolTree.

Section get.
Context `{!Platform, !PlatformLaws}.
Implicit Types (w : World) (h p v : ptr) (nm : string).

(** *** Looking a symbol up *)

Lemma symbol_names_match_run w nm v nm' :
  name_of w v = Some nm' ->
  symbol_names_match nm v w = (Ret (bool_decide (nm' = nm)), w).
Proof.
  intros Hn. unfold symbol_names_match, load_smv. unfold name_of in Hn.
  destruct (lookup_block w v) as [[]|] eqn:Hb; simplify_eq.
  erewrite bind_run by (apply deref_run; by rewrite Hb). done.
Qed.

(** [symbol_names_match] picks the first entry with the name, if any. *)
Lemma find_entry k w h (t : list (Entry (shape k))) nm :
  good0 (S k) w h t ->
  (exists t1 e t2, t = t1 ++ e :: t2 /\ e_name e = nm /\
     Forall (fun e' => e_name e' <> nm) t1 /\
     list_find h (symbol_names_match nm) w = (Ret (Some (e_node e)), w)) \/
  (Forall (fun e' => e_name e' <> nm) t /\
     list_find h (symbol_names_match nm) w = (Ret None, w)).
Proof.
  intros (Hdll & He & _)%good0_entries.
  rewrite (list_find_run w h _ (fun v => bool_decide (name_of w v = Some nm)) _ Hdll).
  - clear Hdll. match goal with |- context [List.find ?g _] => set (f := g) end.
    induction t as [|e t IH]; [by right|].
    apply Forall_cons in He as [(_ & _ & _ & Hn & _) He].
    assert (f (entry_cell e) = bool_decide (e_name e = nm)) as Hfe.
    { unfold f. change ((entry_cell e).1.2) with (e_map e). rewrite Hn.
      apply bool_decide_ext. naive_solver. }
    rewrite cells_cons. cbn [List.find]. rewrite Hfe.
    destruct (decide (e_name e = nm)) as [Heq|Hne].
    + left. exists [], e, t. by rewrite bool_decide_true.
    + rewrite bool_decide_false by done.
      destruct (IH He) as [(t1 & e' & t2 & -> & Hn' & Ht1 & Hf)|[Ht Hf]]; [left|right].
      * exists (e :: t1), e', t2. split_and!; [done|done|by constructor|done].
      * split; [by constructor|done].
  - intros a v r (e & Heq & Hin)%list_elem_of_fmap. unfold entry_cell in Heq. simplify_eq.
    rewrite Forall_forall in He. destruct (He e Hin) as (_ & _ & _ & Hn & _).
    rewrite (symbol_names_match_run _ _ _ _ Hn). repeat f_equal.
    apply bool_decide_ext. split; [intros <-; exact Hn|].
    intros Heq. pose proof (eq_trans (eq_sym Hn) Heq). by simplify_eq.
Qed.

(** *** The abstract side *)

Lemma get_entry_skip {T} is_nil (get : T -> option (Z * ptr * T)) nm (l1 l2 : list (string * T)) :
  Forall (fun e => e.1 <> nm) l1 ->
  get_entry is_nil get nm (l1 ++ l2) =
    match get_entry is_nil get nm l2 with
    | Some (rc, v, l') => Some (rc, v, l1 ++ l')
    | None => None
    end.
Proof.
  induction 1 as [|[m sub] l1 He _ IH]; simpl in *.
  - by destruct (get_entry _ _ _ l2) as [[[]]|].
  - rewrite decide_False, IH by done. by destruct (get_entry _ _ _ l2) as [[[]]|].
Qed.

Lemma erase_app k (t1 t2 : shape (S k)) :
  erase (S k) (t1 ++ t2 : list _) = erase (S k) t1 ++ erase (S k) t2.
Proof. apply fmap_app. Qed.

Lemma tree_is_nil_cells n (t : shape n) :
  tree_is_nil (erase n t) = bool_decide (cells t = []).
Proof. destruct n, t; done. Qed.

(** *** What a successful get achieves *)

Record get_post (n : nat) (names : list string) w h (t : shape n) (rc : Z) (v : ptr)
    w' (t' : shape n) : Prop := {
  gp_good : good0 n w' h t';
  gp_filled : filled n t';
  gp_tree : tree_get n names (erase n t) = Some (rc, v, erase n t');
  (* what left the shape is the value, if it was used up, and freed memory *)
  gp_perm : exists freed,
    fp n t ≡ₚ (if rc - 1 =? 0 then [v] else []) ++ freed ++ fp n t' /\
    (forall x, x ∈ freed -> gone w' x);
  gp_frame : mem_frame (h :: spine n t) w w';
  gp_value : v ∈ values n t;
  gp_values : values n t' ⊆ values n t;
  gp_head : name_of w' h = name_of w h /\ owned w' h = owned w h;
}.

Lemma int_pred_run x w : INT_MIN < x -> int_pred x w = (Ret (x - 1), w).
Proof. intros Hx. unfold int_pred. by rewrite (proj2 (Z.leb_gt _ _)). Qed.

(** The value stays in the queue, perhaps with another reference count. *)
Lemma keep_value_post w w' h a v rc rc' (cs : list cell) :
  good0 0 w h ((a, v, rc) :: cs : list cell) -> (rc - 1 =? 0) = false ->
  rc' = (if WILL_RETURN_ONCE <? rc then rc - 1 else rc) ->
  dll w' h ((a, v, rc') :: cs) -> (forall x, owned w' x = owned w x) -> touches [a] [] w w' ->
  get_post 0 [] w h ((a, v, rc) :: cs : list cell) rc v w' ((a, v, rc') :: cs : list cell).
Proof.
  intros ((Hdll & Hown) & _ & Hnd) Hone Hrc' Hdll' Ho Ht.
  change (NoDup (h :: a :: v :: fp 0 cs)) in Hnd. split; try done.
  - split_and!; [split| |]; [done| |done|exact Hnd].
    eapply Forall_cons in Hown as [Hc Hown]. apply Forall_cons. split; [by rewrite !Ho|].
    eapply Forall_impl; [exact Hown|]. intros c. by rewrite !Ho.
  - simpl. unfold cell_value, cell_refcount; simpl. rewrite Hone, Hrc'.
    by destruct (WILL_RETURN_ONCE <? rc).
  - exists []. rewrite Hone. by split; [|intros x ?%not_elem_of_nil].
  - eapply mem_frame_mono; [|apply (touches_frame _ _ _ _ Ht)].
    intros x ->%list_elem_of_singleton. by right; left.
  - change (v ∈ v :: values 0 cs). by left.
  - split; [eapply touches_name|eapply touches_owned]; try done; apply not_elem_of_nil.
Qed.

(** The value is used up: its node goes, the value is handed to the caller. *)
Lemma remove_value_post w w1 h a v rc (cs : list cell) :
  good0 0 w h ((a, v, rc) :: cs : list cell) -> (rc - 1 =? 0) = true ->
  dll w1 h cs -> touches (h :: a :: addrs cs) [] w w1 ->
  get_post 0 [] w h ((a, v, rc) :: cs : list cell) rc v (drop a w1) (cs : shape 0).
Proof.
  intros ((Hdll & Hown) & _ & Hnd) Hone Hdll1 Ht1.
  change (NoDup (h :: a :: v :: fp 0 cs)) in Hnd.
  pose proof Hnd as [Hh [Ha [Hv Hcs]%NoDup_cons]%NoDup_cons]%NoDup_cons.
  apply Forall_cons in Hown as [[Hoa Hov] Hown]. simpl in Hoa, Hov.
  assert (touches (h :: a :: addrs cs) [a] w (drop a w1)) as Ht.
  { eapply touches_trans; [eapply touches_mono; [done| |exact Ht1]; set_solver|].
    apply (touch_drop _ _ w1 _ a); [by left| |constructor]. by rewrite (touches_owned _ _ _ _ _ Ht1) by apply not_elem_of_nil. }
  assert (forall x, x ∈ h :: fp 0 cs -> x <> a) as Hne by (intros x Hx ->; set_solver).
  split; try done.
  - split_and!; [split| |].
    + eapply dll_frame_node; [|exact Hdll1]. intros x Hx. rewrite get_drop, decide_False; [done|].
      apply Hne. apply elem_of_cons in Hx as [->|Hx]; [by left|right]. by apply (cells_fp 0 cs).
    + rewrite Forall_forall in Hown |- *. intros c Hc. destruct (Hown c Hc) as [Hc1 Hc2].
      assert (forall x, x ∈ fp 0 cs -> owned (drop a w1) x = owned w x) as Hox.
      { intros x Hx. eapply touches_owned; [done|]. intros ->%list_elem_of_singleton.
        by apply (Hne a); [right|]. }
      rewrite !Hox; [done|..]; apply list_elem_of_bind; exists c; set_solver.
    + done.
    + apply NoDup_cons. set_solver.
  - simpl. unfold cell_value, cell_refcount; simpl. by rewrite Hone.
  - exists [a]. rewrite Hone. split; [simpl; apply perm_swap|].
    intros x ->%list_elem_of_singleton. split.
    + by rewrite get_drop, decide_True.
    + by rewrite owned_drop, decide_True.
  - eapply mem_frame_mono; [|apply (touches_frame _ _ _ _ Ht)].
    change (h :: spine 0 ((a, v, rc) :: cs)) with (h :: a :: addrs cs). clear. set_solver.
  - change (v ∈ v :: values 0 cs). by left.
  - intros x Hx. change (x ∈ v :: values 0 cs). by right.
  - split; [eapply touches_name|eapply touches_owned]; try done; set_solver.
Qed.

(** Taking the first value of a queue. *)
Lemma take_value_post w h a v rc (cs : list cell) :
  good0 0 w h ((a, v, rc) :: cs : list cell) -> INT_MIN < rc ->
  exists w' t', take_value h w = (Ret (Some (rc, v)), w') /\
    get_post 0 [] w h ((a, v, rc) :: cs : list cell) rc v w' t'.
Proof.
  intros Hgood Hrc. pose proof Hgood as ((Hdll & Hown) & _ & Hnd). unfold take_value.
  mrun (list_first_run w h _ Hdll).
  change (head (addrs ((a, v, rc) :: cs))) with (Some a). cbn iota.
  mrun (assert_true_ok w 857 "return_value").
  destruct (dll_cell w h _ a v rc Hdll ltac:(by left)) as [Hd _].
  mrun (get_value_run w a v rc Hd). mrun (get_refcount_run w a v rc Hd).
  mrun (int_pred_run rc w Hrc).
  apply Forall_cons in Hown as [[Hoa Hov] _]. simpl in Hoa, Hov.
  destruct (rc - 1 =? 0) eqn:Hone.
  - destruct (list_remove_free_spec w h [] a v rc cs Hdll Hoa)
      as (w1 & Hdll1 & Hd1 & Ho1 & Ht1 & Rr & _). simpl app in *. mrun Rr.
    exists (drop a w1), cs. split; [done|]. by apply remove_value_post.
  - destruct (WILL_RETURN_ONCE <? rc) eqn:Honce.
    + destruct (set_refcount_spec w h [] a v rc cs (rc - 1) Hdll)
        as (w1 & R1 & Hdll1 & _ & Ho1 & Ht1). mrun R1.
      exists w1, ((a, v, rc - 1) :: cs). split; [done|].
      apply keep_value_post; try done. by rewrite Honce.
    + mprim. exists w, ((a, v, rc) :: cs). split; [done|].
      apply keep_value_post; try done; [by rewrite Honce|constructor].
Qed.

(** *** Removing an entry *)

(** Unlinking an entry and freeing its memory leaves the other entries. *)
Lemma good0_shrink k w w' h (t1 t2 : list (Entry (shape k))) e W D :
  good0 (S k) w h (t1 ++ e :: t2 : list _) ->
  dll w' h (cells (n:=S k) t1 ++ cells (n:=S k) t2) ->
  touches W D w w' ->
  W ⊆ h :: addrs (cells (n:=S k) (t1 ++ e :: t2)) ++ e_map e :: fp k (e_sub e) ->
  D ⊆ e_node e :: e_map e :: fp k (e_sub e) ->
  good0 (S k) w' h (t1 ++ t2 : list _).
Proof.
  intros Hgood Hdll Ht HW HD. apply good0_entries in Hgood as (_ & He & Hnd).
  pose proof Hnd as [Hh Hnd0]%NoDup_cons.
  assert (forall e', e' ∈ t1 ++ t2 -> forall x, x ∈ e_node e' :: e_map e' :: fp k (e_sub e') ->
    x ∉ e_node e :: e_map e :: fp k (e_sub e)) as Hother.
  { intros e' He' x Hx Hx'. rewrite fp_app, fp_cons in Hnd0.
    change (e_node e :: e_map e :: fp k (e_sub e) ++ fp (S k) t2)
      with ((e_node e :: e_map e :: fp k (e_sub e)) ++ fp (S k) t2) in Hnd0.
    apply NoDup_app in Hnd0 as (_ & Hd1 & (_ & Hd2 & _)%NoDup_app).
    apply elem_of_app in He' as [He'|He'].
    - apply (Hd1 x); [by eapply fp_entry|]. apply elem_of_app. by left.
    - apply (Hd2 x); [done|]. by eapply fp_entry. }
  assert (forall e', e' ∈ t1 ++ t2 -> e' ∈ t1 ++ e :: t2) as Hin
    by (intros e'; rewrite !elem_of_app, elem_of_cons; tauto).
  apply good0_entries. rewrite cells_app. split_and!; [done| |].
  - rewrite Forall_forall in He |- *. intros e' He'.
    eapply entry_rep_frame; [| |by apply He, Hin].
    + intros x Hx. eapply touches_get; [exact Ht| |].
      * intros Hx'%HW. pose proof (top_not_below k (t1 ++ e :: t2) e' x Hnd0 (Hin e' He') Hx).
        pose proof (Hother e' He' x ltac:(by right)) as Hno.
        apply elem_of_cons in Hx' as [->|[?|Hx']%elem_of_app]; [|done|apply Hno; by right].
        apply Hh. eapply fp_sub; [by apply Hin|done].
      * intros Hx'%HD. by apply (Hother e' He' x ltac:(by right)).
    + intros x Hx. split; [eapply touches_owned|eapply touches_name]; try exact Ht;
        intros Hx'%HD; by apply (Hother e' He' x Hx).
  - rewrite fp_app. eapply sublist_NoDup; [exact Hnd|]. rewrite fp_app.
    apply sublist_skip, sublist_app; [done|]. rewrite fp_cons.
    do 2 apply sublist_cons. by apply sublist_inserts_l.
Qed.

(** [list_remove_free] of an entry's node with a cleanup that frees its
    [SymbolMapValue] and what is below it. *)
Lemma remove_entry k w h (t1 t2 : list (Entry (shape k))) e f :
  good0 (S k) w h (t1 ++ e :: t2 : list _) ->
  cleans w (f (e_map e)) (e_map e :: fp k (e_sub e)) ->
  exists w', list_remove_free (e_node e) (Some f) w = (Ret tt, w') /\
    good0 (S k) w' h (t1 ++ t2 : list _) /\
    (forall x, x ∈ e_node e :: e_map e :: fp k (e_sub e) -> gone w' x) /\
    touches (h :: addrs (cells (n:=S k) (t1 ++ e :: t2)) ++ e_map e :: fp k (e_sub e))
      (e_node e :: e_map e :: fp k (e_sub e)) w w'.
Proof.
  intros Hgood Hclean. pose proof Hgood as (Hdll & He & Hnd)%good0_entries.
  pose proof Hdll as Hdll0. rewrite cells_app, cells_cons in Hdll.
  assert (e ∈ t1 ++ e :: t2) as Hein by (apply elem_of_app; right; by left).
  rewrite Forall_forall in He. destruct (He e Hein) as (Hon & _).
  destruct (list_remove_free_spec w h (cells (n:=S k) t1) _ _ _ (cells (n:=S k) t2) Hdll Hon)
    as (w1 & Hdll1 & Hd1 & Ho1 & Ht1 & _ & Hrun).
  set (X := e_map e :: fp k (e_sub e)) in *.
  pose proof Hnd as [Hh Hnd0]%NoDup_cons.
  change (touches (h :: addrs (cells (n:=S k) t1 ++ entry_cell e :: cells (n:=S k) t2)) [] w w1) in Ht1.
  rewrite <-(cells_cons k e t2), <-cells_app in Ht1.
  set (T := addrs (cells (n:=S k) (t1 ++ e :: t2))) in *.
  assert (forall x, x ∈ X -> x ∉ h :: T) as HXT.
  { intros x Hx [->|Hin]%elem_of_cons.
    - apply Hh. eapply fp_sub; [exact Hein|exact Hx].
    - by eapply (top_not_below k (t1 ++ e :: t2) e x). }
  assert (e_node e ∈ T) as HnT.
  { unfold T, addrs. rewrite cells_app, cells_cons, fmap_app. apply elem_of_app; right; by left. }
  assert (e_node e ∉ X) as HnX by (intros Hx; apply (HXT _ Hx); by right).
  destruct (Hclean w1) as (w2 & Hf & Ht2 & Hg2).
  { eapply touches_agree; [exact Ht1|]. intros x Hx. split; [by apply HXT|apply not_elem_of_nil]. }
  assert (owned w2 (e_node e) = true) as Ho2.
  { rewrite (touches_owned _ _ _ _ _ Ht2) by done. by rewrite Ho1. }
  specialize (Hrun f w2 Hf Ho2). exists (drop (e_node e) w2).
  assert (touches (h :: T ++ X) (e_node e :: X) w (drop (e_node e) w2)) as Ht.
  { eapply touches_trans; [eapply touches_mono; [| |exact Ht1]; clear; set_solver|].
    eapply touches_trans; [eapply touches_mono; [| |exact Ht2]; clear; set_solver|].
    apply (touch_drop _ _ w2 _ (e_node e)); [by left|done|constructor]. }
  assert (forall x, x ∈ h :: addrs (cells (n:=S k) t1 ++ cells (n:=S k) t2) -> x ∈ h :: T) as Hsub.
  { intros x. unfold T, addrs. rewrite cells_app, cells_cons, !fmap_app, !elem_of_cons,
      !elem_of_app, fmap_cons, elem_of_cons. tauto. }
  split_and!; [done| | |done].
  - eapply good0_shrink; [exact Hgood| |exact Ht|done|done].
    eapply dll_frame_node; [|exact Hdll1]. intros x Hx.
    pose proof Hdll1 as (Hnd1 & _). rewrite get_drop, decide_False.
    + eapply touches_get; [exact Ht2|intros Hx'; by apply (HXT x Hx'), Hsub..].
    + intros ->. revert Hx. clear - Hdll Hnd. destruct Hdll as (Hnd' & _).
      unfold addrs in *. rewrite fmap_app, fmap_cons in Hnd'. rewrite fmap_app.
      apply NoDup_cons in Hnd' as [Hh' Hnd']. apply NoDup_app_cons_middle in Hnd' as (Ha & Hb & _).
      change (cell_addr (entry_cell e)) with (e_node e) in *.
      intros [Heq|[?|?]%elem_of_app]%elem_of_cons; [|done|done].
      apply Hh', elem_of_app. right. rewrite <-Heq. by left.
  - intros x [->|Hx]%elem_of_cons; split; rewrite ?get_drop, ?owned_drop; case_decide; try done;
      by apply Hg2.
Qed.

(** *** Refinement *)

Lemma good0_quiet n w w' h t : quiet w w' -> good0 n w h t -> good0 n w' h t.
Proof.
  intros (m & e & o & c & ->) (Hr & Hn & Hnd). split_and!; [|by apply (names_frame n w)|done].
  eapply rep_agree; [|exact Hr]. done.
Qed.

Lemma good0_entry k w h (t : list (Entry (shape k))) e :
  good0 (S k) w h t -> e ∈ t -> good0 k w (e_map e) (e_sub e).
Proof.
  intros (_ & He & Hnd)%good0_entries Hin. rewrite Forall_forall in He.
  destruct (He e Hin) as (_ & _ & Hr & _ & Hn). split_and!; [done..|].
  apply NoDup_cons in Hnd as [_ Hnd].
  by pose proof (NoDup_fp_sub _ _ _ Hnd Hin) as [_ ?]%NoDup_cons.
Qed.

Lemma tree_get_entry k nm rest (t1 t2 : list (Entry (shape k))) e :
  Forall (fun e' => e_name e' <> nm) t1 -> e_name e = nm ->
  tree_get (S k) (nm :: rest) (erase (S k) (t1 ++ e :: t2)) =
    match tree_get k rest (erase k (e_sub e)) with
    | Some (rc, v, sub') =>
        Some (rc, v, erase (S k) t1 ++ (if tree_is_nil sub' then erase (S k) t2
                                        else (e_name e, sub') :: erase (S k) t2))
    | None => None
    end.
Proof.
  intros Ht1 Hnm. rewrite erase_app. simpl tree_get. rewrite get_entry_skip.
  - simpl. rewrite decide_True by done.
    destruct (tree_get k rest _) as [[[rc v] sub']|]; [|done]. by destruct (tree_is_nil sub').
  - apply Forall_fmap. eapply Forall_impl; [exact Ht1|]. done.
Qed.

Lemma sub_spine k (t1 t2 : list (Entry (shape k))) e x :
  x ∈ e_map e :: spine k (e_sub e) -> x ∈ spine (S k) (t1 ++ e :: t2 : list (Entry (shape k))).
Proof.
  intros Hx. rewrite spine_app, spine_cons. apply elem_of_app. right. right.
  rewrite app_comm_cons. apply elem_of_app. by left.
Qed.
Lemma sub_values k (t1 t2 : list (Entry (shape k))) e x :
  x ∈ values k (e_sub e) -> x ∈ values (S k) (t1 ++ e :: t2 : list (Entry (shape k))).
Proof. intros Hx. rewrite values_app, values_cons, !elem_of_app. auto. Qed.
Lemma sub_spine_fp k (e : Entry (shape k)) x :
  x ∈ e_map e :: spine k (e_sub e) -> x ∈ e_map e :: fp k (e_sub e).
Proof. intros [->|Hx]%elem_of_cons; [by left|right; by apply spine_fp]. Qed.

(** The child list still has values: only its entry changes. *)
Lemma get_post_replace k w w1 h (t1 t2 : list (Entry (shape k))) e nm rest rc v sub' :
  good0 (S k) w h (t1 ++ e :: t2 : list _) -> filled (S k) (t1 ++ e :: t2 : list _) ->
  Forall (fun e' => e_name e' <> nm) t1 -> e_name e = nm ->
  get_post k rest w (e_map e) (e_sub e) rc v w1 sub' -> cells sub' <> [] ->
  get_post (S k) (nm :: rest) w h (t1 ++ e :: t2 : list _) rc v w1
    (t1 ++ with_sub e sub' :: t2 : list _).
Proof.
  intros Hgood Hfill Ht1 Hnm [Hg Hf Htr (freed & Hperm & Hgone) HfX Hv Hvs [Hn Ho] ] Hne.
  assert (e ∈ t1 ++ e :: t2) as Hein by (apply elem_of_app; right; by left).
  pose proof Hgood as (_ & He & Hnd)%good0_entries. rewrite Forall_forall in He.
  destruct (He e Hein) as (_ & Hoe & _). pose proof Hnd as [Hh Hnd0]%NoDup_cons.
  set (X := e_map e :: spine k (e_sub e)) in HfX.
  assert (forall x, x ∈ X -> x ∈ e_map e :: fp k (e_sub e)) as HX by apply sub_spine_fp.
  assert (h ∉ X) as HhX.
  { intros HinX. apply Hh. eapply fp_sub; [exact Hein|by apply HX]. }
  split.
  - eapply good0_replace; [exact Hgood|exact Hg|exact HfX| | |exact Hn|exact (eq_trans Ho Hoe)].
    + intros x Hx. left. by apply HX.
    + intros x Hx. left. rewrite Hperm, !elem_of_app. by right; right.
  - apply Forall_app in Hfill as [Hf1 [_ Hf2]%Forall_cons].
    apply Forall_app; split; [done|]. apply Forall_cons; split; [|done]. simpl.
    rewrite tree_is_nil_cells, bool_decide_false by done. done.
  - rewrite (tree_get_entry k nm rest t1 t2 e Ht1 Hnm), Htr, erase_app.
    by rewrite tree_is_nil_cells, bool_decide_false.
  - exists freed. split; [|done]. rewrite !fp_app, !fp_cons. simpl e_node. simpl e_map.
    simpl e_sub. rewrite Hperm. solve_Permutation.
  - eapply mem_frame_mono; [|exact HfX]. intros x Hx. right. by apply (sub_spine k t1 t2 e).
  - by apply (sub_values k t1 t2 e).
  - rewrite !values_app, !values_cons. simpl e_sub. revert Hvs. clear. set_solver.
  - destruct (mem_frame_obs X w w1 h HfX HhX) as (_ & -> & ->). done.
Qed.

Lemma free_empty_smv_cleans w p :
  dll w p [] -> owned w p = true -> cleans w (free_symbol_map_value 0 p) [p].
Proof.
  intros Hdll Ho. apply (free_smv_cleans 0 w p ([] : list cell)).
  - intros w0 Hr. destruct (free_shape_spec 0 w0 p ([] : list cell) Hr) as (w' & R & _ & _ & T & G);
      [apply NoDup_singleton|]. by exists w'.
  - split; [exact Hdll|constructor].
  - exact Ho.
  - apply not_elem_of_nil.
Qed.

(** The addresses below an entry are neither its own nor those above it. *)
Lemma below_entry k h (t : list (Entry (shape k))) e :
  NoDup (h :: fp (S k) t) -> e ∈ t -> forall x, x ∈ fp k (e_sub e) ->
  (x ∉ h :: addrs (cells (n:=S k) t) ++ [e_map e]) /\ (x ∉ [e_node e; e_map e]).
Proof.
  intros [Hh Hnd]%NoDup_cons Hein x Hx.
  pose proof (NoDup_fp_sub _ _ _ Hnd Hein) as [Hnode [Hmap _]%NoDup_cons]%NoDup_cons.
  assert (x <> e_map e) by (intros ->; done).
  assert (x <> e_node e) by (intros ->; apply Hnode; by right).
  assert (x <> h) by (intros ->; apply Hh; eapply fp_sub; [exact Hein|by right]).
  assert (x ∉ addrs (cells (n:=S k) t)) by (eapply top_not_below; [exact Hnd|exact Hein|by right]).
  set_solver.
Qed.

(** What removing an entry touches is in the spine of the map. *)
Lemma entry_in_spine k h (t1 t2 : list (Entry (shape k))) e :
  (h :: addrs (cells (n:=S k) (t1 ++ e :: t2)) ++ [e_map e]) ++ [e_node e; e_map e] ⊆
  h :: spine (S k) (t1 ++ e :: t2 : list _).
Proof.
  assert (e_node e ∈ spine (S k) (t1 ++ e :: t2 : list _)) as Hn1.
  { rewrite spine_app, spine_cons. apply elem_of_app. right. by left. }
  assert (e_map e ∈ spine (S k) (t1 ++ e :: t2 : list _)) as Hn2 by (apply sub_spine; by left).
  intros x [ [->|[Hx|Hx]%elem_of_app]%elem_of_cons|Hx]%elem_of_app; [by left|right..].
  - by apply (cells_spine (S k)).
  - by apply list_elem_of_singleton in Hx as ->.
  - by apply elem_of_cons in Hx as [->| ->%list_elem_of_singleton].
Qed.

(** The child list is empty: its [SymbolMapValue] and node are freed. *)
Lemma get_post_remove k w w1 h (t1 t2 : list (Entry (shape k))) e nm rest rc v sub' :
  good0 (S k) w h (t1 ++ e :: t2 : list _) -> filled (S k) (t1 ++ e :: t2 : list _) ->
  Forall (fun e' => e_name e' <> nm) t1 -> e_name e = nm ->
  get_post k rest w (e_map e) (e_sub e) rc v w1 sub' -> cells sub' = [] ->
  exists w2,
    list_remove_free (e_node e) (Some (free_symbol_map_value 0)) w1 = (Ret tt, w2) /\
    get_post (S k) (nm :: rest) w h (t1 ++ e :: t2 : list _) rc v w2 (t1 ++ t2 : list _).
Proof.
  intros Hgood Hfill Ht1 Hnm [Hg Hf Htr (freed & Hperm & Hgone) HfX Hv Hvs [Hn Ho] ] Hnil.
  assert (e ∈ t1 ++ e :: t2) as Hein by (apply elem_of_app; right; by left).
  pose proof Hgood as (_ & He & Hnd)%good0_entries. rewrite Forall_forall in He.
  destruct (He e Hein) as (_ & Hoe & _). pose proof Hnd as [Hh Hnd0]%NoDup_cons.
  set (X := e_map e :: spine k (e_sub e)) in HfX.
  assert (forall x, x ∈ X -> x ∈ e_map e :: fp k (e_sub e)) as HX by apply sub_spine_fp.
  assert (fp k sub' = []) as Hfp by (destruct k; [by simpl in *; subst|by destruct sub']).
  assert (good0 (S k) w1 h (t1 ++ with_sub e sub' :: t2 : list _)) as Hgood1.
  { eapply good0_replace; [exact Hgood|exact Hg|exact HfX| | |exact Hn|exact (eq_trans Ho Hoe)].
    - intros x Hx. left. by apply HX.
    - intros x Hx. rewrite Hfp in Hx. by apply not_elem_of_nil in Hx. }
  destruct (remove_entry k w1 h t1 t2 (with_sub e sub') (free_symbol_map_value 0) Hgood1)
    as (w2 & R2 & Hg2 & Hgone2 & Ht2).
  { simpl e_map. simpl e_sub. rewrite Hfp. apply free_empty_smv_cleans; [|by rewrite Ho].
    destruct Hg as [Hrg _]. rewrite <-Hnil. exact (rep_cells k w1 (e_map e) sub' Hrg). }
  simpl e_node in *. simpl e_map in *. simpl e_sub in *. rewrite Hfp in *.
  assert (addrs (cells (n:=S k) (t1 ++ with_sub e sub' :: t2)) =
          addrs (cells (n:=S k) (t1 ++ e :: t2))) as Haddrs
    by (by rewrite !cells_app, !cells_cons).
  rewrite Haddrs in Ht2. clear Haddrs. set (T := addrs _) in Ht2.
  pose proof (below_entry k h _ e Hnd Hein) as Hout. fold T in Hout.
  exists w2. split; [exact R2|]. split.
  - exact Hg2.
  - apply Forall_app in Hfill as [Hf1 [_ Hf2]%Forall_cons]. by apply Forall_app.
  - rewrite (tree_get_entry k nm rest t1 t2 e Ht1 Hnm), Htr, erase_app.
    by rewrite tree_is_nil_cells, bool_decide_true.
  - exists (e_node e :: e_map e :: freed). split.
    + rewrite !fp_app, !fp_cons, Hperm. solve_Permutation.
    + intros x [->|[->|Hx]%elem_of_cons]%elem_of_cons; [apply Hgone2; by left|apply Hgone2; by right; left|].
      destruct (Hout x) as [Hx1 Hx2]; [rewrite Hperm, !elem_of_app; by right; left|].
      destruct (Hgone x Hx) as [G1 G2].
      split; [by rewrite (touches_get _ _ _ _ _ Ht2)|by rewrite (touches_owned _ _ _ _ _ Ht2)].
  - eapply mem_frame_trans; [eapply mem_frame_mono; [|exact HfX]|
      eapply mem_frame_mono; [|apply (touches_frame _ _ _ _ Ht2)] ].
    + intros x Hx. right. by apply (sub_spine k t1 t2 e).
    + apply entry_in_spine.
  - by apply (sub_values k t1 t2 e).
  - rewrite !values_app, !values_cons. clear. set_solver.
  - assert (h ∉ X) as HhX.
    { intros HinX. apply Hh. eapply fp_sub; [exact Hein|by apply HX]. }
    assert (h ∉ [e_node e; e_map e]) as Hh2.
    { intros Hin. apply Hh. eapply fp_entry; [exact Hein|]. set_solver. }
    destruct (mem_frame_obs X w w1 h HfX HhX) as (_ & <- & <-).
    split; [by apply (touches_name _ _ _ _ _ Ht2)|by apply (touches_owned _ _ _ _ _ Ht2)].
Qed.

(** How the call for the child list ends: with a value, or it reports that
    there is none for the remaining names. *)
Definition get_result (n : nat) (names : list string) w h (t : shape n)
    (r : outcome (Z * option ptr) * World) : Prop :=
  match tree_get n names (erase n t) with
  | Some (rc, v, _) => exists w' t', r = (Ret (rc, Some v), w') /\ get_post n names w h t rc v w' t'
  | None => exists w', r = (Ret (0, None), w') /\ quiet w w'
  end.

Lemma get_missing {A} (a : A) msg w :
  exists w', (cmocka_print_error msg;; mret a) w = (Ret a, w') /\ quiet w w'.
Proof. destruct (prints_cmocka_print_error msg w) as (w' & R & Q). exists w'. by mrun R. Qed.

(** One level of [get_symbol_value], given the call for the child list. *)
Lemma get_step k w h (t : list (Entry (shape k))) nm rest (child : ptr -> CM (option (Z * option ptr))) :
  good (S k) w h t ->
  (forall e, e ∈ t -> e_name e = nm -> exists r w1, child (e_map e) w = (Ret (Some r), w1) /\
     get_result k rest w (e_map e) (e_sub e) (Ret r, w1)) ->
  get_result (S k) (nm :: rest) w h t
    ((found ← list_find h (symbol_names_match nm);
      match found with
      | None => cmocka_print_error ("No entries for symbol " +:+ nm +:+ "." +:+ nl);; mret (0, None)
      | Some target_node =>
          assert_non_null 847 target_node;;
          map_value ← get_value target_node;
          assert_non_null 848 map_value;;
          let child_list := map_value in
          res ← child child_list;
          match res with
          | None =>
              cmocka_print_error ("No entries for symbol " +:+ nm +:+ "." +:+ nl);; mret (0, None)
          | Some r =>
              e ← list_empty child_list;
              (if (e : bool) then list_remove_free target_node (Some (free_symbol_map_value 0))
               else mret tt);;
              mret r
          end
      end) w).
Proof.
  intros [Hgood Hfill] Hchild.
  destruct (find_entry k w h t nm Hgood) as [(t1 & e & t2 & -> & Hnm & Ht1 & Rf)|[Hno Rf]]; mrun Rf.
  - assert (e ∈ t1 ++ e :: t2) as Hein by (apply elem_of_app; right; by left).
    pose proof Hgood as (Hdll & He & _)%good0_entries. rewrite Forall_forall in He.
    destruct (He e Hein) as (Hon & Hom & _).
    destruct (owned_heap w _ Hon) as [Hn0 _], (owned_heap w _ Hom) as [Hm0 _].
    destruct (dll_cell w h _ (e_node e) (e_map e) 1 Hdll) as [Hd _].
    { change (entry_cell e ∈ cells (n:=S k) (t1 ++ e :: t2)). by apply list_elem_of_fmap_2. }
    mrun (assert_non_null_ok w 847 _ Hn0). mrun (get_value_run w _ _ _ Hd).
    mrun (assert_non_null_ok w 848 _ Hm0).
    destruct (Hchild e Hein Hnm) as (r & w1 & R1 & Hres). cbn zeta. mrun R1.
    unfold get_result in *. rewrite (tree_get_entry k nm rest t1 t2 e Ht1 Hnm).
    destruct (tree_get k rest (erase k (e_sub e))) as [[[rc v] tr]|] eqn:Htr.
    + destruct Hres as (w1' & sub' & Heq & Hpost). injection Heq as -> ->.
      mrun (list_empty_run w1' (e_map e) _ (rep_cells _ _ _ _ (proj1 (gp_good _ _ _ _ _ _ _ _ _ Hpost)))).
      destruct (decide (cells sub' = [])) as [Hnil|Hne].
      * rewrite bool_decide_true by (destruct (cells sub'); done).
        destruct (get_post_remove k w w1' h t1 t2 e nm rest rc v sub' Hgood Hfill Ht1 Hnm Hpost Hnil)
          as (w2 & R2 & Hpost2). mrun R2. by exists w2, (t1 ++ t2).
      * rewrite bool_decide_false by (destruct (cells sub'); done). mprim.
        exists w1', (t1 ++ with_sub e sub' :: t2). split; [done|]. by apply get_post_replace.
    + destruct Hres as (w1' & Heq & Hq). injection Heq as -> ->.
      pose proof (good0_quiet _ _ _ _ _ Hq (good0_entry k w h _ e Hgood Hein)) as (Hr & _).
      mrun (list_empty_run w1' (e_map e) _ (rep_cells _ _ _ _ Hr)).
      apply Forall_app in Hfill as [_ [ [Hnil _] _]%Forall_cons].
      rewrite tree_is_nil_cells in Hnil. apply bool_decide_eq_false in Hnil.
      rewrite bool_decide_false by (destruct (cells (e_sub e)); done). mprim. by exists w1'.
  - unfold get_result. replace (tree_get (S k) (nm :: rest) (erase (S k) t))
      with (@None (Z * ptr * tree ptr (S k))); [apply get_missing|].
    simpl. rewrite <-(app_nil_r (_ <$> t)), get_entry_skip; [done|]. by apply Forall_fmap.
Qed.

Lemma refcounts_ok_entry k (t : list (Entry (shape k))) e :
  refcounts_ok (S k) (erase (S k) t) -> e ∈ t -> refcounts_ok k (erase k (e_sub e)).
Proof.
  intros Hrc Hin. simpl in Hrc. rewrite Forall_fmap, Forall_forall in Hrc. by apply (Hrc e).
Qed.

Lemma get_refines k : forall names w h (t : list (Entry (shape k))),
  good (S k) w h t -> length names = S k -> refcounts_ok (S k) (erase (S k) t) ->
  get_result (S k) names w h t (get_symbol_value h names w).
Proof.
  induction k as [|k IH]; intros [|nm rest] w h t Hgood Hlen Hrc; try done;
    pose proof (dll_head_node w h _ (rep_cells _ _ _ _ (proj1 (proj1 Hgood)))) as Hh;
    cbn [get_symbol_value];
    mrun (assert_non_null_node 837 w h Hh); mrun (assert_true_ok w 839 "number_of_symbol_names").
  - destruct rest; [|done].
    refine (get_step 0 w h t nm [] (fun child_list => r ← take_value child_list;
      mret ((fun '(rc, v) => (rc, Some v)) <$> r)) Hgood _).
    intros e Hin _. pose proof (good0_entry 0 w h t e (proj1 Hgood) Hin) as Hg0.
    pose proof (refcounts_ok_entry 0 t e Hrc Hin) as Hrc0.
    destruct Hgood as [_ Hfill]. simpl in Hfill. rewrite Forall_forall in Hfill.
    destruct (Hfill e Hin) as [Hnil _]. simpl in Hrc0.
    destruct e as [en em enm sub]. cbn [e_map e_sub] in *. simpl in sub.
    destruct sub as [|[ [a v] rc] cs]; [discriminate Hnil|]. apply Forall_cons in Hrc0 as [Hrc0 _].
    destruct (take_value_post w em a v rc cs Hg0 Hrc0) as (w1 & t1 & R1 & Hpost).
    exists (rc, Some v), w1. mrun R1. split; [done|]. by exists w1, t1.
  - destruct rest as [|nm' rest]; [done|].
    refine (get_step (S k) w h t nm (nm' :: rest) (fun child_list =>
      r ← get_symbol_value child_list (nm' :: rest); mret (Some r)) Hgood _).
    intros e Hin _.
    assert (good (S k) w (e_map e) (e_sub e)) as Hg1.
    { split; [exact (good0_entry (S k) w h t e (proj1 Hgood) Hin)|].
      destruct Hgood as [_ Hfill]. simpl in Hfill. rewrite Forall_forall in Hfill.
      exact (proj2 (Hfill e Hin)). }
    pose proof (IH (nm' :: rest) w (e_map e) (e_sub e) Hg1 ltac:(simpl in *; lia)
      (refcounts_ok_entry (S k) t e Hrc Hin)) as Hres.
    unfold get_result in Hres |- *.
    destruct (tree_get (S k) (nm' :: rest) (erase (S k) (e_sub e))) as [ [ [rc v] tr]|].
    + destruct Hres as (w1 & t1 & R1 & Hpost). exists (rc, Some v), w1. mrun R1.
      split; [done|]. by exists w1, t1.
    + destruct Hres as (w1 & R1 & Hq). exists (0, None), w1. mrun R1. split; [done|]. by exists w1.
Qed.
End get.
