(* ===== verification/SymbolAdd.v ===== *)
(** * Adding a value to a symbol map

    [add_symbol_value] implements [tree_add]: the value is appended to the
    queue of its symbols, and the symbols it is the first value of get a new
    entry.  malloc() is assumed to succeed here ([PlatformTotal]); cmocka does
    not check it, and a failing one is undefined behaviour. *)
From S2P Require Import Prelude CMonad ListNode World Report Memory SymbolMap Tree SymbolTree SymbolGet.

(** Memory nobody uses, as returned by malloc(). *)
Definition fresh_block (w : World) (p : ptr) : Prop :=
  HEAP_START <= p /\ blocks w !! p = None /\ infos w !! p = None.

Section add.
Context `{!Platform, !PlatformLaws, !PlatformTotal}.
Implicit Types (w : World) (h p v : ptr) (nm : string).

Lemma fresh_obs w p : fresh_block w p -> get_node w p = None /\ owned w p = false /\ p <> NULL.
Proof.
  intros (Hp & Hb & Hi). unfold get_node, owned, world_heap, world_get_node, world_owned.
  rewrite Hb, Hi. unfold HEAP_START, NULL in *. rewrite bool_decide_false by (by intros []).
  rewrite andb_false_r. destruct (p =? 0) eqn:E; zbool; split_and!; (done || lia).
Qed.

Lemma alloc_run size b w :
  exists p, alloc_block size b w = (p, set_blocks (<[p := b]> (blocks w)) w) /\
    fresh_block w p.
Proof.
  destruct (alloc_block_total size b w) as (p & Ha & Hp). exists p. split; [done|].
  destruct (alloc_block_fresh size b w _ _ Ha Hp) as (? & ? & ? & _). done.
Qed.

Lemma set_block_frame w p b : HEAP_START <= p -> mem_frame [p] w (set_blocks (<[p := b]> (blocks w)) w).
Proof.
  intros Hp. split; [split; [exists (<[p := b]> (blocks w)), (infos w); by destruct w|by apply static_kept_insert]|].
  intros x Hx. simpl. rewrite lookup_insert_ne; [done|]. intros ->. by apply Hx; left.
Qed.

Lemma shape_not_fresh n w h (t : shape n) x :
  good0 n w h t -> x ∈ h :: fp n t -> ~ fresh_block w x.
Proof.
  intros (Hr & _) Hx (Hnone & Hown & _)%fresh_obs. apply elem_of_cons in Hx as [->|Hx].
  - destruct (dll_head_node w h _ (rep_cells _ _ _ _ Hr)). congruence.
  - pose proof (rep_owned n w h t x Hr Hx). congruence.
Qed.

(** What adding a value achieves. *)
Record add_post (n : nat) (names : list string) w h (t : shape n) (v : ptr) (rc : Z)
    w' (t' : shape n) : Prop := {
  ap_good : good0 n w' h t';
  ap_filled : filled n t -> filled n t';
  ap_nonempty : cells t' <> [];
  ap_tree : erase n t' = tree_add n names v rc (erase n t);
  ap_perm : exists new, fp n t' ≡ₚ v :: new ++ fp n t /\ (forall x, x ∈ new -> fresh_block w x);
  ap_frame : exists X, (forall x, x ∈ X -> x ∈ h :: spine n t \/ fresh_block w x) /\
    mem_frame X w w';
  ap_values : values n t' ⊆ v :: values n t;
  ap_head : name_of w' h = name_of w h /\ owned w' h = owned w h;
}.

(** Appending to a queue. *)
Lemma list_add_value_post w h (t : list cell) v rc :
  good0 0 w h t -> owned w v = true -> (v ∉ h :: fp 0 t) ->
  exists w' t' q, list_add_value h v rc w = (Ret q, w') /\ add_post 0 [] w h t v rc w' t'.
Proof.
  intros Hgood Hov Hv. pose proof Hgood as ((Hdll & Ho) & _ & Hnd).
  destruct (owned_heap w v Hov) as [Hvn _].
  destruct (alloc_run SIZEOF_LISTNODE (BListNode junk_node) w) as (q & Ha & Hfresh).
  pose proof (fresh_obs w q Hfresh) as (Hgq & Hoq & Hqn).
  destruct (list_add_value_spec w h t v rc q _ Hdll Hvn Ha Hqn)
    as (w' & R & Hdll' & _ & Hoq' & Ho' & Ht).
  assert (forall x, x ∈ h :: fp 0 t -> x <> q) as Hne.
  { intros x Hx ->. by apply (shape_not_fresh 0 w h t q Hgood Hx). }
  assert (v <> q) as Hvq by (intros ->; congruence).
  exists w', (t ++ [(q, v, rc)]), q. split; [done|].
  assert (fp 0 (t ++ [(q, v, rc)] : list cell) = fp 0 t ++ [q; v]) as Hfp
    by exact (bind_app (fun c : cell => [cell_addr c; cell_value c]) t [(q, v, rc)]).
  split.
  - split_and!; [split; [exact Hdll'|]|done|].
    + apply Forall_app. split; [|by apply Forall_singleton; split; [|simpl; rewrite Ho']].
      rewrite Forall_forall in Ho |- *. intros c Hc. destruct (Ho c Hc) as [Ho1 Ho2].
      assert (forall x, x ∈ [cell_addr c; cell_value c] -> owned w' x = owned w x) as Hx.
      { intros x Hx. apply Ho', Hne. right. apply list_elem_of_bind. by exists c. }
      rewrite !Hx; [done|by right; left|by left].
    + rewrite Hfp, app_comm_cons. apply NoDup_app. split_and!; [done| |].
      * intros x Hx [->| ->%list_elem_of_singleton]%elem_of_cons; [by apply (Hne q)|done].
      * repeat constructor; set_solver.
  - done.
  - by destruct t.
  - simpl. by rewrite fmap_app.
  - exists [q]. rewrite Hfp. split; [solve_Permutation|]. by intros x ->%list_elem_of_singleton.
  - exists (q :: h :: addrs t ++ [q]). split; [|apply (touches_frame _ _ _ _ Ht)].
    intros x [->|[->|[Hx| ->%list_elem_of_singleton]%elem_of_app]%elem_of_cons]%elem_of_cons;
      [by right|left; by left| |by right]. left. by right.
  - change (values 0 (t ++ [(q, v, rc)])) with (cell_value <$> (t ++ [(q, v, rc)])).
    rewrite fmap_app. change (values 0 t) with (cell_value <$> t). clear.
    intros x [Hx| ->%list_elem_of_singleton]%elem_of_app; [by right|by left].
  - split; [eapply touches_name; [exact Ht|]|apply Ho', Hne; by left].
    intros ->%list_elem_of_singleton. by apply (Hne q); [left|].
Qed.

Lemma smv_node w p nm n :
  p <> NULL -> blocks w !! p = Some (BSymbolMapValue (mkSymbolMapValue nm n)) ->
  get_node w p = Some n /\ name_of w p = Some nm.
Proof.
  intros Hp Hb. unfold get_node, world_heap, world_get_node, name_of, lookup_block.
  by rewrite (proj2 (Z.eqb_neq _ _) Hp), Hb.
Qed.

(** The allocation and initialisation of the [SymbolMapValue]. *)
Lemma smv_alloc_spec w nm :
  exists p w', (forall k : ptr -> CM ptr,
      (p ← malloc_block SIZEOF_SYMBOLMAPVALUE (BSymbolMapValue (mkSymbolMapValue "" junk_node));
       v ← load_smv p;
       store_block p (BSymbolMapValue (mkSymbolMapValue nm (symbol_values_list_head v)));;
       list_initialize p;; k p) w = k p w') /\
    fresh_block w p /\ dll w' p [] /\ owned w' p = true /\ name_of w' p = Some nm /\
    mem_frame [p] w w'.
Proof.
  unfold malloc_block.
  destruct (alloc_run SIZEOF_SYMBOLMAPVALUE (BSymbolMapValue (mkSymbolMapValue "" junk_node)) w)
    as (p & Ha & Hfresh).
  destruct (fresh_obs w p Hfresh) as (_ & _ & Hp). exists p.
  set (w1 := set_blocks _ w) in Ha.
  set (b := BSymbolMapValue (mkSymbolMapValue nm junk_node)).
  set (w2 := set_blocks (<[p := b]> (blocks w1)) w1).
  assert (blocks w2 !! p = Some b) as Hb2 by apply lookup_insert_eq.
  destruct (smv_node w2 p nm junk_node Hp Hb2) as [Hn2 Hnm2].
  destruct (list_initialize_spec w2 p ltac:(eauto)) as (w3 & R3 & Hdll & _ & Ho3 & Ht3).
  exists w3. split_and!; [|done|done| | |].
  - intros k.
    assert ((let '(p, w') := alloc_block SIZEOF_SYMBOLMAPVALUE
      (BSymbolMapValue (mkSymbolMapValue "" junk_node)) w in (Ret p, w')) = (Ret p, w1)) as R1
      by (by rewrite Ha).
    mrun R1.
    assert (load_smv p w1 = (Ret (mkSymbolMapValue "" junk_node), w1)) as Rl.
    { apply deref_run. unfold lookup_block. rewrite (proj2 (Z.eqb_neq _ _) Hp).
      unfold w1. simpl. by rewrite lookup_insert_eq. }
    mrun Rl. assert (store_block p b w1 = (Ret tt, w2)) as Rs by done. mrun Rs.
    by mrun R3.
  - rewrite Ho3. unfold owned, world_heap, world_owned. rewrite Hb2.
    destruct Hfresh as [Hp' _]. apply Z.leb_le in Hp'. by rewrite Hp'.
  - rewrite (touches_name _ _ _ _ _ Ht3); [done|apply not_elem_of_nil].
  - eapply mem_frame_trans; [apply (set_block_frame w p (BSymbolMapValue (mkSymbolMapValue "" junk_node)) (proj1 Hfresh))|].
    eapply mem_frame_trans; [apply (set_block_frame w1 p b (proj1 Hfresh))|].
    eapply mem_frame_mono; [|apply (touches_frame _ _ _ _ Ht3)]. clear; set_solver.
Qed.

(** Appending an entry: a node [n] with an empty map [m], both outside the map. *)
Lemma good0_snoc k w w2 h (t : list (Entry (shape k))) n m nm :
  good0 (S k) w h t -> dll w2 h (cells (n:=S k) t ++ [(n, m, 1)]) ->
  touches (h :: n :: addrs (cells (n:=S k) t)) [n] w w2 ->
  (forall x, x <> n -> owned w2 x = owned w x) -> owned w2 n = true ->
  (forall x, x ∈ h :: fp (S k) t -> x <> n) -> (forall x, x ∈ h :: fp (S k) t -> x ∉ [m]) -> m <> n ->
  dll w m [] -> owned w m = true -> name_of w m = Some nm ->
  good0 (S k) w2 h (t ++ [mkEntry n m nm (shape_nil k)] : list _).
Proof.
  intros Hgood Hdll2 Ht2 Ho2 Hon2 Hnen Hnem Hmn Hdllm Hom Hnm.
  pose proof Hgood as (_ & He1 & Hnd)%good0_entries. pose proof Hnd as [Hh Hnd0]%NoDup_cons.
  assert (forall x, x <> n -> get_node w2 x = get_node w x \/ x ∈ h :: addrs (cells (n:=S k) t)) as Hget.
  { intros x Hx. destruct (decide (x ∈ h :: addrs (cells (n:=S k) t))) as [Hin|Hin]; [by right|left].
    apply (touches_get _ _ _ _ _ Ht2); [|by intros ->%list_elem_of_singleton].
    intros [->|[->|Hx']%elem_of_cons]%elem_of_cons; [apply Hin; by left|done|apply Hin; by right]. }
  assert (forall x, x <> n -> name_of w2 x = name_of w x) as Hname.
  { intros x Hx. apply (touches_name _ _ _ _ _ Ht2). by intros ->%list_elem_of_singleton. }
  apply good0_entries. rewrite cells_app, fp_app. split_and!; [exact Hdll2| |].
  - apply Forall_app. split; [|apply Forall_singleton].
    + rewrite Forall_forall in He1 |- *. intros e Hin. eapply entry_rep_frame; [| |by apply He1]; intros x Hx.
      * destruct (Hget x) as [Hg|[->|Hg]%elem_of_cons]; [apply Hnen; right; by eapply fp_sub|done|..].
        -- destruct Hh. by eapply fp_sub.
        -- by destruct (top_not_below k t e x Hnd0 Hin Hx).
      * assert (x <> n) as Hxn by (apply Hnen; right; by eapply fp_entry). split; [by apply Ho2|by apply Hname].
    + split_and!; [done|by rewrite Ho2| |rewrite Hname; [exact Hnm|exact Hmn]|by destruct k; constructor].
      assert (dll w2 m []) as Hdllm2; [|by destruct k; (split; [exact Hdllm2|constructor])].
      eapply dll_frame_node; [|exact Hdllm]. intros x ->%list_elem_of_singleton. simpl.
      destruct (Hget m Hmn) as [Hg|Hg]; [done|]. destruct (Hnem m); [|by left].
      apply elem_of_cons in Hg as [->|Hg]; [by left|right]. by apply (cells_fp (S k) t).
  - rewrite app_comm_cons. assert (fp k (shape_nil k) = []) as Hnil by by destruct k.
    apply NoDup_app. split_and!; [done| |].
    + intros x Hx. rewrite fp_cons. simpl. rewrite Hnil. intros [->|[->|Hx']%elem_of_cons]%elem_of_cons.
      * by apply (Hnen n).
      * by apply (Hnem m Hx); left.
      * by apply not_elem_of_nil in Hx'.
    + rewrite fp_cons. simpl. rewrite Hnil. repeat constructor; clear - Hmn; set_solver.
Qed.

(** A new entry: an empty child list at the end. *)
Lemma new_symbol_map_value_spec k w h (t : list (Entry (shape k))) nm :
  good0 (S k) w h t ->
  exists w' n m, new_symbol_map_value h nm w = (Ret n, w') /\
    good0 (S k) w' h (t ++ [mkEntry n m nm (shape_nil k)] : list _) /\
    fresh_block w n /\ fresh_block w m /\
    mem_frame (h :: n :: m :: addrs (cells (n:=S k) t)) w w' /\
    name_of w' h = name_of w h /\ owned w' h = owned w h.
Proof.
  intros Hgood. destruct (smv_alloc_spec w nm) as (m & w1 & R1 & Hm & Hdllm & Hom & Hnm & Hf1).
  assert (forall x, x ∈ h :: fp (S k) t -> x ∉ [m]) as Hnem.
  { intros x Hx ->%list_elem_of_singleton. by apply (shape_not_fresh (S k) w h t m Hgood Hx). }
  pose proof (good0_frame (S k) w w1 h t [m] Hf1 Hnem Hgood) as Hgood1.
  pose proof Hgood1 as (Hdll1 & _)%good0_entries.
  destruct (alloc_run SIZEOF_LISTNODE (BListNode junk_node) w1) as (n & Ha & Hn).
  pose proof (fresh_obs w1 n Hn) as (Hgn & Hon & Hnn). destruct (owned_heap w1 m Hom) as [Hmn _].
  destruct (list_add_value_spec w1 h (cells (n:=S k) t) m 1 n _ Hdll1 Hmn Ha Hnn)
    as (w2 & R2 & Hdll2 & _ & Hon2 & Ho2 & Ht2).
  assert (forall x, x ∈ h :: fp (S k) t -> x <> n) as Hnen.
  { intros x Hx ->. by apply (shape_not_fresh (S k) w1 h t n Hgood1 Hx). }
  assert (m <> n) as Hmn' by (intros ->; congruence).
  assert (fresh_block w n) as Hn0.
  { destruct Hn as (Hstart & Hb & Hi). destruct Hf1 as [_ Hf1].
    destruct (Hf1 n) as [Hb' Hi']; [by intros ->%list_elem_of_singleton|].
    split_and!; [done|by rewrite <-Hb'|by rewrite <-Hi']. }
  exists w2, n, m. split_and!; [| |done..| | |].
  - unfold new_symbol_map_value. rewrite R1. exact R2.
  - eapply (good0_snoc k w1); try done. eapply touches_mono; [| |exact Ht2]; clear; set_solver.
  - eapply mem_frame_trans; [eapply mem_frame_mono; [|exact Hf1]|
      eapply mem_frame_mono; [|apply (touches_frame _ _ _ _ Ht2)]]; clear; set_solver.
  - rewrite (touches_name _ _ _ _ _ Ht2).
    + apply (mem_frame_obs _ _ _ _ Hf1), Hnem. by left.
    + intros ->%list_elem_of_singleton. by apply (Hnen n); [left|].
  - rewrite (touches_owned _ _ _ _ _ Ht2).
    + apply (mem_frame_obs _ _ _ _ Hf1), Hnem. by left.
    + intros ->%list_elem_of_singleton. by apply (Hnen n); [left|].
Qed.

(** *** One level *)

Lemma update_entry_skip {T} nm (d : T) f (l1 l2 : list (string * T)) :
  Forall (fun e => e.1 <> nm) l1 -> update_entry nm d f (l1 ++ l2) = l1 ++ update_entry nm d f l2.
Proof.
  induction 1 as [|[m sub] l1 He _ IH]; [done|]. simpl in *. by rewrite decide_False, IH.
Qed.

Lemma erase_skip k (t1 : list (Entry (shape k))) nm :
  Forall (fun e' => e_name e' <> nm) t1 -> Forall (fun e => e.1 <> nm) (erase (S k) t1).
Proof. intros Ht1. by apply Forall_fmap. Qed.

Lemma filled_with_sub k (t1 t2 : list (Entry (shape k))) e sub' :
  filled (S k) t1 -> filled (S k) t2 -> filled k sub' -> cells sub' <> [] ->
  filled (S k) (t1 ++ with_sub e sub' :: t2 : list _).
Proof.
  intros Hf1 Hf2 Hs Hne. apply Forall_app; split; [done|]. apply Forall_cons; split; [|done].
  simpl. rewrite tree_is_nil_cells, bool_decide_false by done. done.
Qed.

(** The value is added to an entry that is there. *)
Lemma add_post_replace k w w1 h (t1 t2 : list (Entry (shape k))) e nm rest v rc sub' :
  good0 (S k) w h (t1 ++ e :: t2 : list _) -> (v ∉ h :: fp (S k) (t1 ++ e :: t2)) ->
  Forall (fun e' => e_name e' <> nm) t1 -> e_name e = nm ->
  add_post k rest w (e_map e) (e_sub e) v rc w1 sub' ->
  add_post (S k) (nm :: rest) w h (t1 ++ e :: t2 : list _) v rc w1
    (t1 ++ with_sub e sub' :: t2 : list _).
Proof.
  intros Hgood Hv Ht1 Hnm [Hg Hf Hne Htr (new & Hperm & Hnew) (X & HX & HfX) Hvs [Hn Ho] ].
  assert (e ∈ t1 ++ e :: t2) as Hein by (apply elem_of_app; right; by left).
  pose proof Hgood as (_ & He & Hnd)%good0_entries. rewrite Forall_forall in He.
  destruct (He e Hein) as (_ & Hoe & _). pose proof Hnd as [Hh Hnd0]%NoDup_cons.
  assert (forall x, fresh_block w x -> x ∉ h :: fp (S k) (t1 ++ e :: t2)) as Hfresh.
  { intros x Hx Hin. by apply (shape_not_fresh (S k) w h _ x Hgood Hin). }
  assert (h ∉ X) as HhX.
  { intros [Hin%sub_spine_fp|Hin]%HX; [apply Hh; by eapply fp_sub|]. apply (Hfresh h Hin). by left. }
  split.
  - eapply good0_replace; [exact Hgood|exact Hg|exact HfX| | |exact Hn|exact (eq_trans Ho Hoe)].
    + intros x [Hx%sub_spine_fp|Hx]%HX; [by left|right; by apply Hfresh].
    + intros x. rewrite Hperm. intros [->|[Hx|Hx]%elem_of_app]%elem_of_cons; [by right| |by left].
      right. by apply Hfresh, Hnew.
  - intros Hfill. apply Forall_app in Hfill as [Hf1 [ [_ Hfe] Hf2]%Forall_cons].
    apply filled_with_sub; auto.
  - by destruct t1.
  - rewrite !erase_app. simpl tree_add. rewrite update_entry_skip by by apply erase_skip.
    simpl. by rewrite decide_True, Htr.
  - exists new. split; [|done]. rewrite !fp_app, !fp_cons. simpl e_node. simpl e_map.
    simpl e_sub. rewrite Hperm. solve_Permutation.
  - exists X. split; [|done]. intros x [Hx|Hx]%HX; [left; right|by right].
    by apply (sub_spine k t1 t2 e).
  - rewrite !values_app, !values_cons. simpl e_sub. revert Hvs. clear. set_solver.
  - destruct (mem_frame_obs X w w1 h HfX HhX) as (_ & -> & ->). done.
Qed.

(** The value is the first one of a new entry. *)
Lemma add_post_new k w w1 w2 h (t : list (Entry (shape k))) n m nm rest v rc sub' :
  let e := mkEntry n m nm (shape_nil k) in
  good0 (S k) w h t -> good0 (S k) w1 h (t ++ [e] : list _) ->
  Forall (fun e' => e_name e' <> nm) t -> (v ∉ h :: fp (S k) (t ++ [e] : list _)) ->
  fresh_block w n -> fresh_block w m ->
  mem_frame (h :: n :: m :: addrs (cells (n:=S k) t)) w w1 ->
  name_of w1 h = name_of w h -> owned w1 h = owned w h ->
  add_post k rest w1 m (shape_nil k) v rc w2 sub' ->
  add_post (S k) (nm :: rest) w h t v rc w2 (t ++ [with_sub e sub'] : list _).
Proof.
  intros e Hgood Hgood1 Ht Hv Hnw Hmw Hf1 Hn1 Ho1 Hchild.
  pose proof (add_post_replace k w1 w2 h t [] e nm rest v rc sub' Hgood1 Hv Ht eq_refl Hchild)
    as [Hg _ Hne Htr (new & Hperm & Hnew) (X & HX & HfX) Hvs [Hn Ho] ].
  destruct Hchild as [_ Hfc Hnec Htrc _ _ _ _].
  assert (fp k (shape_nil k) = []) as Hnil by by destruct k.
  assert (forall x, fresh_block w1 x -> fresh_block w x) as Hback.
  { intros x Hx. destruct (decide (x ∈ h :: n :: m :: addrs (cells (n:=S k) t))) as [Hin|Hni].
    - exfalso. apply (shape_not_fresh (S k) w1 h _ x Hgood1); [|done].
      rewrite fp_app, fp_cons. simpl. pose proof (cells_fp (S k) t x) as Hc.
      revert Hin Hc. clear. set_solver.
    - destruct Hf1 as [_ Hf1]. destruct (Hf1 x Hni) as [Hb Hi]. destruct Hx as (? & ? & ?).
      split_and!; [done|by rewrite <-Hb|by rewrite <-Hi]. }
  split; [done| |done| | | | |].
  - intros Hfill. apply filled_with_sub; [done|constructor| |done]. apply Hfc.
    destruct k; constructor.
  - rewrite erase_app. simpl tree_add.
    rewrite <-(app_nil_r (_ <$> t)), update_entry_skip by by apply Forall_fmap.
    simpl. rewrite Htrc. by destruct k.
  - exists (n :: m :: new). split.
    + rewrite Hperm, fp_app, fp_cons. simpl. rewrite Hnil. solve_Permutation.
    + intros x [->|[->|Hx]%elem_of_cons]%elem_of_cons; auto.
  - exists (h :: n :: m :: addrs (cells (n:=S k) t) ++ X). split.
    + assert (forall x, x ∈ h :: n :: m :: addrs (cells (n:=S k) t) -> x ∈ h :: spine (S k) t \/ fresh_block w x) as Htop.
      { intros x [->|[->|[->|Hx]%elem_of_cons]%elem_of_cons]%elem_of_cons; [|by right..|].
        - left. by left.
        - left. right. by apply (cells_spine (S k) t). }
      intros x [Hx|Hx]%(elem_of_app (_ :: _ :: _ :: _)); [by apply Htop|].
      destruct (HX x Hx) as [Hin|Hin]; [|by right; apply Hback].
      rewrite spine_app, spine_cons in Hin. simpl in Hin.
      assert (spine k (shape_nil k) = []) as Hsn by by destruct k.
      rewrite Hsn in Hin.
      apply elem_of_cons in Hin as [->|[Hin|[->|[->|Hin]%elem_of_cons]%elem_of_cons]%elem_of_app].
      * left; by left.
      * left; by right.
      * by right.
      * by right.
      * by apply not_elem_of_nil in Hin.
    + eapply mem_frame_trans; [eapply mem_frame_mono; [|exact Hf1]|
        eapply mem_frame_mono; [|exact HfX]]; clear; set_solver.
  - assert (values k (shape_nil k) = []) as Hvn by by destruct k.
    rewrite !values_app, !values_cons in Hvs. simpl e_sub in Hvs.
    rewrite values_app, values_cons. simpl e_sub. rewrite Hvn in Hvs.
    intros x Hx%Hvs. revert Hx. clear.
    change (values (S k) []) with (@nil ptr). rewrite !app_nil_r. done.
  - by rewrite Hn, Ho.
Qed.

(** *** Refinement *)

Definition add_result (n : nat) (names : list string) w h (t : shape n) v rc
    (r : outcome unit * World) : Prop :=
  exists w' t', r = (Ret tt, w') /\ add_post n names w h t v rc w' t'.

(** One level of [add_symbol_value], given the call for the child list. *)
Lemma add_step k w h (t : list (Entry (shape k))) nm rest v rc (child : ptr -> CM unit) :
  good0 (S k) w h t -> owned w v = true -> (v ∉ h :: fp (S k) t) ->
  (forall w1 p sub, good0 k w1 p sub -> owned w1 v = true -> (v ∉ p :: fp k sub) ->
     add_result k rest w1 p sub v rc (child p w1)) ->
  add_result (S k) (nm :: rest) w h t v rc
    ((found ← list_find h (symbol_names_match nm);
      target_node ← match found with
                    | Some n => mret n
                    | None => new_symbol_map_value h nm
                    end;
      target_map_value ← get_value target_node;
      child target_map_value) w).
Proof.
  intros Hgood Hov Hv Hchild.
  assert (forall w1 (t' : list (Entry (shape k))) e, good0 (S k) w1 h t' -> e ∈ t' ->
    get_value (e_node e) w1 = (Ret (e_map e), w1)) as Hget.
  { intros w1 t' e (Hdll & _)%good0_entries Hin.
    eapply get_value_run, proj1, (dll_cell w1 h _ (e_node e) (e_map e) 1 Hdll).
    change (entry_cell e ∈ cells (n:=S k) t'). by apply list_elem_of_fmap_2. }
  destruct (find_entry k w h t nm Hgood) as [(t1 & e & t2 & -> & Hnm & Ht1 & Rf)|[Hno Rf]]; mrun Rf.
  - assert (e ∈ t1 ++ e :: t2) as Hein by (apply elem_of_app; right; by left).
    mprim. mrun (Hget w _ e Hgood Hein).
    destruct (Hchild w (e_map e) (e_sub e)) as (w1 & sub' & R1 & Hpost).
    + exact (good0_entry k w h _ e Hgood Hein).
    + done.
    + intros Hin. apply Hv. right. by eapply fp_sub.
    + exists w1, (t1 ++ with_sub e sub' :: t2). split; [done|]. by apply add_post_replace.
  - destruct (new_symbol_map_value_spec k w h t nm Hgood)
      as (w1 & n & m & R1 & Hgood1 & Hn & Hm & Hf1 & Hn1 & Ho1). mrun R1.
    set (e := mkEntry n m nm (shape_nil k)) in *.
    assert (e ∈ t ++ [e]) as Hein by (apply elem_of_app; right; by left).
    mrun (Hget w1 _ e Hgood1 Hein).
    destruct (fresh_obs w n Hn) as (_ & Hnv & _), (fresh_obs w m Hm) as (_ & Hmv & _).
    assert (v ∉ h :: fp (S k) (t ++ [e])) as Hv1.
    { rewrite fp_app, fp_cons. simpl. assert (fp k (shape_nil k) = []) as -> by by destruct k.
      assert (v <> n) by (intros ->; congruence). assert (v <> m) by (intros ->; congruence).
      revert Hv. clear - H2 H3. set_solver. }
    assert (owned w1 v = true) as Hov1.
    { destruct (mem_frame_obs _ _ _ v Hf1) as (_ & -> & _); [|done].
      rewrite fp_app, fp_cons in Hv1. simpl in Hv1. pose proof (cells_fp (S k) t v) as Hc.
      revert Hv1 Hc. clear. set_solver. }
    destruct (Hchild w1 m (shape_nil k)) as (w2 & sub' & R2 & Hpost); [|done| |].
    + exact (good0_entry k w1 h _ e Hgood1 Hein).
    + intros Hin. apply Hv1. right. by apply (fp_sub k (t ++ [e]) e).
    + exists w2, (t ++ [with_sub e sub']). split; [done|]. by apply (add_post_new k w w1 w2 h t n m).
Qed.

Lemma add_refines k : forall names w h (t : list (Entry (shape k))) v rc,
  good0 (S k) w h t -> length names = S k -> owned w v = true -> (v ∉ h :: fp (S k) t) ->
  add_result (S k) names w h t v rc (add_symbol_value h names v rc w).
Proof.
  induction k as [|k IH]; intros [|nm rest] w h t v rc Hgood Hlen Hov Hv; try done;
    pose proof (dll_head_node w h _ (rep_cells _ _ _ _ (proj1 Hgood))) as Hh;
    cbn [add_symbol_value];
    mrun (assert_non_null_node 799 w h Hh); mrun (assert_true_ok w 801 "number_of_symbol_names").
  - destruct rest; [|done].
    refine (add_step 0 w h t nm [] v rc (fun p => list_add_value p v rc;; mret tt) Hgood Hov Hv _).
    intros w1 p sub Hg1 Ho1 Hv1.
    destruct (list_add_value_post w1 p sub v rc Hg1 Ho1 Hv1) as (w2 & t' & q & R & Hpost).
    exists w2, t'. by mrun R.
  - destruct rest as [|nm' rest]; [done|].
    refine (add_step (S k) w h t nm (nm' :: rest) v rc
      (fun p => add_symbol_value p (nm' :: rest) v rc) Hgood Hov Hv _).
    intros w1 p sub Hg1 Ho1 Hv1. apply IH; try done. simpl in *. lia.
Qed.
End add.
