(* ===== verification/SymbolRemove.v ===== *)
(** * Removing values from symbol maps, and tearing maps down

    The functions that shrink a symbol map: [remove_always_return_values]
    implements [tree_remove_always], and [list_free] with the cleanup of its
    depth frees the whole map. *)
From S2P Require Import Prelude CMonad ListNode World Report Memory SymbolMap Tree SymbolTree SymbolGet.

(** The node after the head, or after the cells before [cs]. *)
Definition first_addr (h : ptr) (cs : list cell) : ptr := default h (head (addrs cs)).

Section remove.
Context `{!Platform, !PlatformLaws}.
Implicit Types (w : World) (h p v : ptr) (nm : string).

Lemma next_first w h cs1 cs2 :
  dll w h (cs1 ++ cs2) -> next_of w (last_addr h cs1) = Some (first_addr h cs2).
Proof.
  intros (_ & Hp & Hl). apply lpath_app in Hp as [_ Hp].
  destruct cs2 as [|[ [a v] r] cs2]; [rewrite app_nil_r in Hl; by destruct Hl|].
  by destruct Hp as [ [? _] _].
Qed.

Lemma next_cell w h cs1 c cs2 :
  dll w h (cs1 ++ c :: cs2) -> get_next (cell_addr c) w = (Ret (first_addr h cs2), w).
Proof.
  intros Hdll. apply get_next_run. rewrite cons_middle, app_assoc in Hdll.
  apply next_first in Hdll. by rewrite last_addr_app in Hdll.
Qed.

Lemma next_head w h cs : dll w h cs -> get_next h w = (Ret (first_addr h cs), w).
Proof. intros Hdll. apply get_next_run. exact (next_first w h [] cs Hdll). Qed.

(** ** Shrinking a shape *)

(** What left the shape was freed; nothing outside the shape changed. *)
Record shrinks (n : nat) h w (t : shape n) w' (t' : shape n) : Prop := {
  sh_good : good0 n w' h t';
  sh_perm : exists freed, fp n t ≡ₚ freed ++ fp n t' /\ (forall x, x ∈ freed -> gone w' x);
  sh_frame : mem_frame (h :: fp n t) w w';
  sh_values : forall x, x ∈ values n t' -> x ∈ values n t /\ blocks w' !! x = blocks w !! x;
  sh_head : name_of w' h = name_of w h /\ owned w' h = owned w h;
}.

Lemma shrinks_refl n h w (t : shape n) : good0 n w h t -> shrinks n h w t w t.
Proof.
  intros Hg. split; [done| |apply mem_frame_refl|done|done].
  exists []. split; [done|]. by intros x ?%not_elem_of_nil.
Qed.

Lemma gone_frame X w w' x : mem_frame X w w' -> (x ∉ X) -> gone w x -> gone w' x.
Proof.
  intros Hf Hx [Hg Ho]. destruct (mem_frame_obs X w w' x Hf Hx) as (Hg' & Ho' & _).
  split; congruence.
Qed.

Lemma shrinks_trans n h w1 t1 w2 t2 w3 t3 :
  NoDup (h :: fp n t1) ->
  shrinks n h w1 t1 w2 t2 -> shrinks n h w2 t2 w3 t3 -> shrinks n h w1 t1 w3 t3.
Proof.
  intros Hnd [_ (f1 & P1 & G1) F1 V1 [N1 O1] ] [Hg (f2 & P2 & G2) F2 V2 [N2 O2] ].
  split; [done| | | |by rewrite N2, O2].
  - exists (f1 ++ f2). rewrite P1, P2, app_assoc. split; [done|].
    intros x [Hx|Hx]%elem_of_app; [|by apply G2].
    apply (gone_frame (h :: fp n t2) w2); [done| |by apply G1].
    rewrite P1 in Hnd. apply NoDup_cons in Hnd as [Hh Hnd].
    apply NoDup_app in Hnd as (_ & Hd & _). intros [->|Hx']%elem_of_cons.
    + apply Hh, elem_of_app. by left.
    + by apply (Hd x).
  - eapply mem_frame_trans; [done|]. eapply mem_frame_mono; [|done].
    intros x. rewrite P1, !elem_of_cons, elem_of_app. tauto.
  - intros x Hx. destruct (V2 x Hx) as [Hx2 Hb2], (V1 x Hx2) as [Hx1 Hb1].
    split; [done|congruence].
Qed.

Lemma shrinks_good0 n h w t w' t' : shrinks n h w t w' t' -> NoDup (h :: fp n t').
Proof. by intros [ (_ & _ & ?) _ _ _ _]. Qed.

(** The footprint of a queue with a cell in the middle. *)
Lemma fp_cells (cs1 cs2 : list cell) : fp 0 (cs1 ++ cs2 : list cell) = fp 0 cs1 ++ fp 0 cs2.
Proof. apply (bind_app (fun c : cell => [cell_addr c; cell_value c])). Qed.

Lemma fp_around (cs1 cs2 : list cell) h a v r :
  h :: fp 0 (cs1 ++ (a, v, r) :: cs2 : list cell) ≡ₚ a :: v :: h :: fp 0 (cs1 ++ cs2 : list cell).
Proof. rewrite !fp_cells. change (fp 0 ((a, v, r) :: cs2)) with (a :: v :: fp 0 cs2). solve_Permutation. Qed.

(** Unlinking a cell and freeing its value and its node. *)
Lemma remove_cell_run w h a v r (cs1 cs2 : list cell) :
  good0 0 w h (cs1 ++ (a, v, r) :: cs2 : list cell) ->
  exists w', list_remove_free a (Some free_value) w = (Ret tt, w') /\ dll w' h (cs1 ++ cs2) /\
    touches (h :: addrs (cs1 ++ (a, v, r) :: cs2) ++ [v]) [v; a] w w' /\
    (forall x, x ∈ [a; v] -> get_node w' x = None /\ owned w' x = false).
Proof.
  intros ((Hdll & Ho) & _ & Hnd). simpl shape in *.
  pose proof Ho as [_ [ [Hoa Hov] _]%Forall_cons]%Forall_app. cbn in Hoa, Hov.
  destruct (list_remove_free_spec w h cs1 a v r cs2 Hdll Hoa) as (w1 & Hdll1 & _ & Ho1 & Ht1 & _ & Hrun).
  destruct (free_value_cleans w1 v ltac:(by rewrite Ho1) w1) as (w2 & R2 & Ht2 & Hg2); [done|].
  rewrite fp_around in Hnd. apply NoDup_cons in Hnd as [Ha Hnd]. apply NoDup_cons in Hnd as [Hv _].
  assert (a <> v) as Hav by (intros ->; apply Ha; by left).
  assert (owned w2 a = true) as Ho2.
  { rewrite (touches_owned _ _ _ _ _ Ht2), Ho1; [done|]. by intros ->%list_elem_of_singleton. }
  exists (drop a w2). split_and!; [exact (Hrun free_value w2 R2 Ho2)|..].
  - eapply dll_frame_node; [|exact Hdll1]. intros x Hx.
    assert (x ∉ [v; a]) as Hxn.
    { assert (x ∈ h :: fp 0 (cs1 ++ cs2 : list cell)) as Hin; [|clear - Hin Ha Hv; set_solver].
      apply elem_of_cons in Hx as [->|Hx]; [by left|right]. by apply (cells_fp 0 (cs1 ++ cs2)). }
    rewrite get_drop, decide_False by (clear - Hxn; set_solver).
    apply (touches_get _ _ _ _ _ Ht2); clear - Hxn; set_solver.
  - eapply touches_trans; [eapply touches_mono; [| |exact Ht1]; clear; set_solver|].
    eapply touches_trans; [eapply touches_mono; [| |exact Ht2]; clear; set_solver|].
    apply (touch_drop _ _ w2 _ a); [by right; left|done|constructor].
  - intros x [->| ->%list_elem_of_singleton]%elem_of_cons; split;
      rewrite ?get_drop, ?owned_drop; case_decide; try done; apply Hg2; by left.
Qed.

(** Removing a queue's cell with its value. *)
Lemma remove_cell w h a v r (cs1 cs2 : list cell) :
  good0 0 w h (cs1 ++ (a, v, r) :: cs2 : list cell) ->
  exists w', list_remove_free a (Some free_value) w = (Ret tt, w') /\
    shrinks 0 h w (cs1 ++ (a, v, r) :: cs2 : list cell) w' (cs1 ++ cs2 : list cell).
Proof.
  intros Hgood. destruct (remove_cell_run w h a v r cs1 cs2 Hgood) as (w' & R & Hdll & Ht & Hgone).
  destruct Hgood as ((_ & Ho) & _ & Hnd). simpl shape in *. pose proof Hnd as Hnd0.
  rewrite fp_around in Hnd. apply NoDup_cons in Hnd as [Ha Hnd]. pose proof Hnd as [Hv Hnd']%NoDup_cons.
  assert (forall x, x ∈ h :: fp 0 (cs1 ++ cs2 : list cell) -> x ∉ [v; a]) as Hout.
  { intros x Hx. clear - Hx Ha Hv. set_solver. }
  exists w'. split; [exact R|]. split.
  - split_and!; [split; [done|]|done|done].
    assert (forall c, c ∈ cs1 ++ cs2 -> forall x, x ∈ [cell_addr c; cell_value c] -> owned w' x = owned w x) as Hox.
    { intros c Hc x Hx. apply (touches_owned _ _ _ _ _ Ht), Hout. right. apply list_elem_of_bind. by exists c. }
    apply Forall_app in Ho as [Ho1' [_ Ho2']%Forall_cons]. rewrite Forall_forall in Ho1', Ho2' |- *. intros c Hc.
    rewrite !(Hox c Hc) by (clear; set_solver). apply elem_of_app in Hc as [Hc|Hc]; auto.
  - exists [a; v]. split; [|exact Hgone]. apply (Permutation_cons_inv (a:=h)). rewrite fp_around. solve_Permutation.
  - eapply mem_frame_mono; [|apply (touches_frame _ _ _ _ Ht)].
    intros x Hx. rewrite fp_around.
    assert (x ∈ addrs (cs1 ++ cs2) -> x ∈ fp 0 (cs1 ++ cs2 : list cell)) as Hax by apply (cells_fp 0 (cs1 ++ cs2)).
    unfold addrs in Hx, Hax.
    rewrite fmap_app, fmap_cons in Hx. rewrite fmap_app in Hax. clear - Hx Hax. cbn in Hx. set_solver.
  - intros x Hx. change (x ∈ cell_value <$> (cs1 ++ cs2)) in Hx.
    assert (x ∈ values 0 (cs1 ++ (a, v, r) :: cs2)) as Hxv.
    { change (x ∈ cell_value <$> (cs1 ++ (a, v, r) :: cs2)).
      rewrite fmap_app in Hx. rewrite fmap_app, fmap_cons, elem_of_app, elem_of_cons.
      apply elem_of_app in Hx as [Hx|Hx]; auto. }
    split; [done|]. pose proof (values_not_spine 0 h (cs1 ++ (a, v, r) :: cs2) x Hnd0 Hxv) as Hxs.
    assert (x ∉ [v; a]) as Hxn by (apply Hout; right; by apply (values_fp 0)).
    apply (touches_block _ _ _ _ _ Ht); [|done]. intros [->|[Hin|Hin]%elem_of_app]%elem_of_cons.
    + apply Hxs. by left.
    + apply Hxs. by right.
    + apply Hxn. apply list_elem_of_singleton in Hin as ->. by left.
  - split; [apply (touches_name _ _ _ _ _ Ht)|apply (touches_owned _ _ _ _ _ Ht)]; apply Hout; by left.
Qed.

Lemma other_entry k (t1 t2 : list (Entry (shape k))) e e' x :
  e' ∈ t1 \/ e' ∈ t2 -> x ∈ values k (e_sub e') -> x ∈ e_map e :: fp k (e_sub e) ->
  NoDup (fp (S k) (t1 ++ e :: t2 : list (Entry (shape k)))) -> False.
Proof.
  intros He' Hx%values_fp Hin Hnd. rewrite fp_app, fp_cons in Hnd.
  assert (x ∈ fp (S k) t1 \/ x ∈ fp (S k) t2) as Hx'.
  { destruct He'; [left|right]; eapply fp_sub; try done; by right. }
  change (e_node e :: e_map e :: fp k (e_sub e) ++ fp (S k) t2)
    with ([e_node e] ++ (e_map e :: fp k (e_sub e)) ++ fp (S k) t2) in Hnd.
  apply NoDup_app in Hnd as (_ & Hd1 & (_ & _ & (_ & Hd2 & _)%NoDup_app)%NoDup_app).
  destruct Hx' as [Hx'|Hx'].
  - apply (Hd1 x Hx'). rewrite !elem_of_app. auto.
  - by apply (Hd2 x Hin).
Qed.

(** A child list shrinks. *)
Lemma shrinks_replace k w w1 h (t1 t2 : list (Entry (shape k))) e sub' :
  good0 (S k) w h (t1 ++ e :: t2 : list _) ->
  shrinks k (e_map e) w (e_sub e) w1 sub' ->
  shrinks (S k) h w (t1 ++ e :: t2 : list _) w1 (t1 ++ with_sub e sub' :: t2 : list _).
Proof.
  intros Hgood [Hg (freed & Hperm & Hgone) Hf Hvs [Hn Ho] ].
  assert (e ∈ t1 ++ e :: t2) as Hein by (apply elem_of_app; right; by left).
  pose proof Hgood as (_ & He & Hnd)%good0_entries. rewrite Forall_forall in He.
  destruct (He e Hein) as (_ & Hoe & _). pose proof Hnd as [Hh Hnd0]%NoDup_cons.
  split.
  - eapply good0_replace; [exact Hgood|exact Hg|exact Hf| | |exact Hn|exact (eq_trans Ho Hoe)].
    + intros x Hx. by left.
    + intros x Hx. left. rewrite Hperm, !elem_of_app. by right.
  - exists freed. split; [|done]. rewrite !fp_app, !fp_cons. simpl e_node. simpl e_map.
    simpl e_sub. rewrite Hperm. solve_Permutation.
  - eapply mem_frame_mono; [|exact Hf]. intros x Hx. right. by eapply fp_sub.
  - intros x. rewrite !values_app, !values_cons, !elem_of_app. simpl e_sub.
    assert (forall e', e' ∈ t1 \/ e' ∈ t2 -> x ∈ values k (e_sub e') -> blocks w1 !! x = blocks w !! x) as Hother.
    { intros e' He' Hx. apply Hf. intros Hin. revert He' Hx Hin Hnd0. apply other_entry. }
    intros [Hx|[Hx|Hx] ].
    + split; [by left|]. apply list_elem_of_bind in Hx as (e' & Hx & He'). eauto.
    + destruct (Hvs x Hx). auto.
    + split; [by do 2 right|]. apply list_elem_of_bind in Hx as (e' & Hx & He'). eauto.
  - assert (h ∉ e_map e :: fp k (e_sub e)) as Hhx.
    { intros Hin. apply Hh. by eapply fp_sub. }
    destruct (mem_frame_obs _ w w1 h Hf Hhx) as (_ & -> & ->). done.
Qed.

(** An entry whose child list is empty goes. *)
Lemma shrinks_entry k w h (t1 t2 : list (Entry (shape k))) e :
  good0 (S k) w h (t1 ++ e :: t2 : list _) -> cells (e_sub e) = [] ->
  exists w', list_remove_free (e_node e) (Some free_value) w = (Ret tt, w') /\
    shrinks (S k) h w (t1 ++ e :: t2 : list _) w' (t1 ++ t2 : list _).
Proof.
  intros Hgood Hnil. assert (fp k (e_sub e) = []) as Hfp.
  { destruct k; [by simpl in *; rewrite Hnil|by destruct (e_sub e)]. }
  assert (e ∈ t1 ++ e :: t2) as Hein by (apply elem_of_app; right; by left).
  pose proof Hgood as (_ & He & Hnd)%good0_entries. rewrite Forall_forall in He.
  destruct (He e Hein) as (_ & Hoe & _). pose proof Hnd as [Hh _]%NoDup_cons.
  destruct (remove_entry k w h t1 t2 e free_value Hgood) as (w' & R & Hg & Hgone & Ht).
  { rewrite Hfp. by apply free_value_cleans. }
  exists w'. split; [exact R|]. split; [done| | | |].
  - exists [e_node e; e_map e]. rewrite Hfp in Hgone. split; [|exact Hgone].
    rewrite !fp_app, !fp_cons, Hfp. solve_Permutation.
  - eapply mem_frame_mono; [|apply (touches_frame _ _ _ _ Ht)].
    assert (forall x, x ∈ e_node e :: e_map e :: fp k (e_sub e) -> x ∈ h :: fp (S k) (t1 ++ e :: t2)) as Hin.
    { intros x Hx. right. by eapply fp_entry. }
    assert (forall x, x ∈ addrs (cells (n:=S k) (t1 ++ e :: t2)) -> x ∈ h :: fp (S k) (t1 ++ e :: t2)) as Hin2.
    { intros x Hx. right. by apply (cells_fp (S k)). }
    intros x [ [->|[Hx|Hx]%elem_of_app]%elem_of_cons|Hx]%elem_of_app; [by left|by apply Hin2| |by apply Hin].
    apply Hin. by right.
  - intros x Hx.
    assert (x ∈ values (S k) (t1 ++ e :: t2)) as Hxv.
    { revert Hx. rewrite !values_app, values_cons, !elem_of_app. tauto. }
    split; [done|].
    pose proof (values_not_spine (S k) h (t1 ++ e :: t2) x Hnd Hxv) as Hxs.
    assert (x ∉ [e_node e; e_map e]) as Hxn.
    { intros Hin. apply Hxs. right. rewrite spine_app, spine_cons. apply elem_of_app. right.
      apply elem_of_cons in Hin as [->| ->%list_elem_of_singleton]; [by left|by right; left]. }
    rewrite Hfp in Ht. apply (touches_block _ _ _ _ _ Ht); [|done].
    intros [ ->|[Hin|Hin]%elem_of_app]%elem_of_cons.
    + apply Hxs. by left.
    + apply Hxs. right. by apply (cells_spine (S k)).
    + apply Hxn. apply list_elem_of_singleton in Hin as ->. by right; left.
  - assert (h ∉ e_node e :: e_map e :: fp k (e_sub e)) as Hhx.
    { intros Hin. apply Hh. by eapply fp_entry. }
    split; [by apply (touches_name _ _ _ _ _ Ht)|by apply (touches_owned _ _ _ _ _ Ht)].
Qed.

(** ** remove_always_return_values *)

(** What the call for a child list achieves. *)
Definition removes (n : nat) (f : tree ptr n -> tree ptr n) h w (t : shape n) w' : Prop :=
  exists t', shrinks n h w t w' t' /\ erase n t' = f (erase n t) /\ (filled n t -> filled n t').

(** The first value of a queue, unless it must be used. *)
Lemma remove_first_always w h (cs : list cell) :
  good0 0 w h cs ->
  exists w', (if negb (bool_decide (cs = [])) then
      child_node ← get_next h;
      r ← get_refcount child_node;
      if r <? -1 then list_remove_free child_node (Some free_value) else mret tt
    else mret tt) w = (Ret tt, w') /\ removes 0 drop_always h w cs w'.
Proof.
  intros Hg. pose proof Hg as ((Hdll & _) & _). destruct cs as [|[ [a v] r] cs].
  - exists w. split; [done|]. exists ([] : list cell). split; [by apply shrinks_refl|done].
  - rewrite bool_decide_false by done. cbn [negb].
    mrun (dll_next_first w h a v r cs Hdll).
    destruct (dll_cell w h _ a v r Hdll ltac:(by left)) as [Hd _].
    mrun (get_refcount_run w a v r Hd). destruct (r <? -1) eqn:Hr.
    + destruct (remove_cell w h a v r [] cs Hg) as (w' & R & Hs).
      exists w'. split; [done|]. exists cs. split_and!; [done| |done].
      simpl. unfold cell_refcount; simpl. by rewrite Hr.
    + exists w. split; [done|]. exists ((a, v, r) :: cs). split_and!; [by apply shrinks_refl| |done].
      simpl. unfold cell_refcount; simpl. by rewrite Hr.
Qed.

(** The abstract loop over the entries. *)
Definition keep_entries {k} (f : tree ptr k -> tree ptr k) (l : list (string * tree ptr k)) : list (string * tree ptr k) :=
  List.filter (fun e => negb (tree_is_nil e.2)) ((fun e => (e.1, f e.2)) <$> l).

Definition entry_addr {k} h (t : list (Entry (shape k))) : ptr :=
  first_addr h (cells (n:=S k) t).

(** One iteration: the child list shrinks, and its entry goes if nothing is
    left.  [child] is the body's first conditional. *)
Lemma remove_entry_step k (f : tree ptr k -> tree ptr k) w h (t1 t2 : list (Entry (shape k))) e
    (child : ptr -> bool -> CM unit) :
  good0 (S k) w h (t1 ++ e :: t2 : list _) ->
  (exists w', child (e_map e) (bool_decide (cells (e_sub e) = [])) w = (Ret tt, w') /\
              removes k f (e_map e) w (e_sub e) w') ->
  exists w' t', (forall K : ptr -> CM unit, (value ← get_value (e_node e);
      next ← get_next (e_node e);
      assert_non_null 922 value;;
      let child_list := value in
      b ← list_empty child_list;
      child child_list b;;
      b' ← list_empty child_list;
      (if (b' : bool) then list_remove_free (e_node e) (Some free_value) else mret tt);;
      K next) w = K (entry_addr h t2) w') /\
    shrinks (S k) h w (t1 ++ e :: t2 : list _) w' (t1 ++ t' ++ t2 : list _) /\
    erase (S k) t' = keep_entries f (erase (S k) [e]) /\
    (filled (S k) [e] -> filled (S k) t').
Proof.
  intros Hgood (w1 & R1 & sub' & Hsh & Her & Hfl).
  assert (e ∈ t1 ++ e :: t2) as Hein by (apply elem_of_app; right; by left).
  pose proof Hgood as (Hdll & He & Hnd)%good0_entries. rewrite Forall_forall in He.
  destruct (He e Hein) as (_ & Hom & Hre & _). destruct (owned_heap w _ Hom) as [Hm0 _].
  destruct (dll_cell w h _ (e_node e) (e_map e) 1 Hdll) as [Hd _].
  { change (entry_cell e ∈ cells (n:=S k) (t1 ++ e :: t2)). by apply list_elem_of_fmap_2. }
  pose proof Hdll as Hnext. rewrite cells_app, cells_cons in Hnext. apply next_cell in Hnext.
  change (cell_addr (entry_cell e)) with (e_node e) in Hnext.
  pose proof (shrinks_replace k w w1 h t1 t2 e sub' Hgood Hsh) as Hsh1.
  pose proof (rep_cells _ _ _ _ (proj1 (sh_good _ _ _ _ _ _ Hsh))) as Hdll1.
  assert (keep_entries f (erase (S k) [e]) =
    if decide (cells sub' = []) then [] else [(e_name e, erase k sub')]) as Hkeep.
  { unfold keep_entries. simpl. rewrite <-Her, tree_is_nil_cells.
    by case_decide; [rewrite bool_decide_true by done|rewrite bool_decide_false by done]. }
  rewrite Hkeep. destruct (decide (cells sub' = [])) as [Hnil|Hne].
  - destruct (shrinks_entry k w1 h t1 t2 (with_sub e sub') (sh_good _ _ _ _ _ _ Hsh1) Hnil)
      as (w2 & R2 & Hsh2).
    exists w2, [].
    split_and!; [|by eapply shrinks_trans|done|by constructor].
    intros K.
    mrun (get_value_run w _ _ _ Hd). mrun Hnext. mrun (assert_non_null_ok w 922 _ Hm0). cbn zeta.
    mrun (list_empty_run w _ _ (rep_cells _ _ _ _ Hre)). mrun R1.
    mrun (list_empty_run w1 _ _ Hdll1). rewrite bool_decide_true by done. by mrun R2.
  - exists w1, [with_sub e sub'].
    split_and!; [|done|done|].
    + intros K. mrun (get_value_run w _ _ _ Hd). mrun Hnext. mrun (assert_non_null_ok w 922 _ Hm0). cbn zeta.
      mrun (list_empty_run w _ _ (rep_cells _ _ _ _ Hre)). mrun R1.
      mrun (list_empty_run w1 _ _ Hdll1). by rewrite bool_decide_false.
    + intros [ [_ Hf] _]%Forall_cons. apply Forall_singleton. simpl.
      rewrite tree_is_nil_cells, bool_decide_false by done. split; [done|exact (Hfl Hf)].
Qed.

Lemma keep_entries_app k (f : tree ptr k -> tree ptr k) l1 l2 :
  keep_entries f (l1 ++ l2) = keep_entries f l1 ++ keep_entries f l2.
Proof. unfold keep_entries. rewrite fmap_app. apply List.filter_app. Qed.

(** The first conditional of the loop's body; [b] is whether the child list
    is empty. *)
Definition shrink_child (rec : ptr -> CM unit) (leaf : bool) (child_list : ptr) (b : bool)
    : CM unit :=
  if negb b then
    if leaf then
      child_node ← get_next child_list;
      r ← get_refcount child_node;
      if r <? -1 then list_remove_free child_node (Some free_value) else mret tt
    else rec child_list
  else mret tt.

Lemma remove_always_loop_run k (f : tree ptr k -> tree ptr k) (rec : ptr -> CM unit) (leaf : bool) h :
  (forall w1 p (sub : shape k), good0 k w1 p sub -> exists w2,
     shrink_child rec leaf p (bool_decide (cells sub = [])) w1 = (Ret tt, w2) /\ removes k f p w1 sub w2) ->
  forall t2 t1 w fuel, good0 (S k) w h (t1 ++ t2 : list (Entry (shape k))) ->
  (length t2 < fuel)%nat ->
  exists w' t2', remove_always_loop rec leaf fuel h (entry_addr h t2) w = (Ret tt, w') /\
    shrinks (S k) h w (t1 ++ t2 : list (Entry (shape k))) w' (t1 ++ t2' : list (Entry (shape k))) /\
    erase (S k) t2' = keep_entries f (erase (S k) t2) /\
    (filled (S k) t2 -> filled (S k) t2').
Proof.
  intros Hchild. induction t2 as [|e t2 IH]; intros t1 w [|fuel] Hgood Hfuel; simpl in Hfuel;
    try lia; cbn [remove_always_loop].
  - exists w, []. rewrite decide_True by done. split_and!; [done|by apply shrinks_refl|done|done].
  - change (entry_addr h (e :: t2)) with (e_node e).
    pose proof Hgood as (_ & _ & Hnd)%good0_entries. pose proof Hnd as [Hh _]%NoDup_cons.
    rewrite decide_False.
    2:{ intros Heq. apply Hh. rewrite <-Heq. eapply fp_entry; [|by left].
        apply elem_of_app. right. by left. }
    destruct (remove_entry_step k f w h t1 t2 e (shrink_child rec leaf) Hgood (Hchild w _ _ (good0_entry k w h _ e Hgood
      ltac:(apply elem_of_app; right; by left)))) as (w1 & t' & R1 & Hsh1 & Her1 & Hf1).
    destruct (IH (t1 ++ t') w1 fuel) as (w2 & t2' & R2 & Hsh2 & Her2 & Hf2);
      [rewrite <-app_assoc; exact (sh_good _ _ _ _ _ _ Hsh1)|lia|].
    exists w2, (t' ++ t2'). specialize (R1 (remove_always_loop rec leaf fuel h)).
    rewrite R2 in R1. rewrite <-!app_assoc in Hsh2. split_and!; [exact R1| | |].
    + by eapply shrinks_trans.
    + rewrite erase_app, Her1, Her2, <-keep_entries_app. by rewrite <-erase_app.
    + intros [Hfe Hft]%Forall_cons. apply Forall_app. split; [|by apply Hf2].
      apply Hf1. by apply Forall_singleton.
Qed.

Lemma length_cells k (t : list (Entry (shape k))) : length (cells (n:=S k) t) = length t.
Proof. apply length_fmap. Qed.

Lemma tree_remove_always_S k (t : tree ptr (S k)) :
  tree_remove_always (S k) t = keep_entries (tree_remove_always k) t.
Proof. done. Qed.

(** [remove_always_return_values] implements [tree_remove_always]. *)
Lemma remove_always_refines k : forall w h (t : list (Entry (shape k))),
  good0 (S k) w h t ->
  exists w', remove_always_return_values h (S k) w = (Ret tt, w') /\
    removes (S k) (tree_remove_always (S k)) h w t w'.
Proof.
  induction k as [|k IH]; intros w h t Hgood;
    pose proof (rep_cells _ _ _ _ (proj1 Hgood)) as Hdll;
    assert (length t < S (node_bound w))%nat as Hfuel
      by (pose proof (dll_fuel w h _ Hdll) as Hb; rewrite length_cells in Hb; lia);
    cbn [remove_always_return_values];
    mrun (assert_non_null_node 915 w h (dll_head_node w h _ Hdll));
    mrun (assert_true_ok w 916 "number_of_symbol_names");
    mrun (next_head w h _ Hdll); mprim.
  - destruct (remove_always_loop_run 0 (tree_remove_always 0)
      (fun child => remove_always_return_values child 0) true h) with (t2 := t) (t1 := [] : list (Entry (shape 0))) (w := w)
      (fuel := S (node_bound w)) as (w' & t' & R & Hsh & Her & Hf); [|done|done|].
    + intros w1 p sub Hg. apply (remove_first_always w1 p sub Hg).
    + exists w'. split; [exact R|]. by exists t'.
  - destruct (remove_always_loop_run (S k) (tree_remove_always (S k))
      (fun child => remove_always_return_values child (S k)) false h) with (t2 := t)
      (t1 := [] : list (Entry (shape (S k)))) (w := w)
      (fuel := S (node_bound w)) as (w' & t' & R & Hsh & Her & Hf); [|done|done|].
    + intros w1 p sub Hg. destruct (decide (cells sub = [])) as [Hnil|Hne].
      * rewrite bool_decide_true by done. exists w1. split; [done|].
        destruct sub; [|done]. exists []. split_and!; [by apply shrinks_refl|done|done].
      * rewrite bool_decide_false by done. apply (IH w1 p sub Hg).
    + exists w'. split; [exact R|]. by exists t'.
Qed.

(** ** remove_always_return_values_from_list *)

Definition must_be_used (c : cell) : bool := negb (cell_refcount c <? -1).

Lemma remove_from_list_loop_run h cs2 : forall cs1 w fuel next,
  good0 0 w h (cs1 ++ cs2 : list cell) -> (length cs2 < fuel)%nat ->
  (cs2 = [] \/ next = first_addr h (tl cs2)) ->
  exists w', remove_always_return_values_from_list_loop fuel h (first_addr h cs2) next w =
      (Ret tt, w') /\
    shrinks 0 h w (cs1 ++ cs2 : list cell) w' (cs1 ++ List.filter must_be_used cs2 : list cell).
Proof.
  induction cs2 as [|[ [a v] r] cs2 IH]; intros cs1 w [|fuel] next Hgood Hfuel Hnext;
    simpl in Hfuel; try lia; cbn [remove_always_return_values_from_list_loop].
  - exists w. rewrite decide_True by done. split; [done|by apply shrinks_refl].
  - destruct Hnext as [?| ->]; [done|]. change (first_addr h ((a, v, r) :: cs2)) with a.
    pose proof Hgood as ((Hdll & _) & _ & _). pose proof Hdll as ([Hh _]%NoDup_cons & _).
    rewrite decide_False.
    2:{ intros ->. apply Hh. unfold addrs. rewrite fmap_app, elem_of_app. right. by left. }
    destruct (dll_cell w h _ a v r Hdll) as [Hd _]; [apply elem_of_app; right; by left|].
    mrun (get_refcount_run w a v r Hd). cbn [tl].
    assert (forall w1 cs1', good0 0 w1 h (cs1' ++ cs2 : list cell) -> exists next',
      get_next (first_addr h cs2) w1 = (Ret next', w1) /\
      (cs2 = [] \/ next' = first_addr h (tl cs2))) as Hnn.
    { intros w1 cs1' ((Hdll1 & _) & _). destruct cs2 as [|c cs2].
      - exists (first_addr h cs1'). split; [|by left]. rewrite app_nil_r in Hdll1.
        by apply (next_head w1 h cs1').
      - exists (first_addr h cs2). split; [|by right].
        destruct c as [ [a' v'] r']. by apply (next_cell w1 h cs1' (a', v', r') cs2). }
    cbn [List.filter]. unfold must_be_used at 1, cell_refcount; cbn [snd].
    destruct (r <? -1) eqn:Hr; cbn [negb].
    + destruct (remove_cell w h a v r cs1 cs2 Hgood) as (w1 & R1 & Hsh1). mrun R1.
      destruct (Hnn w1 cs1 (sh_good _ _ _ _ _ _ Hsh1)) as (next' & Rn & Hn'). mrun Rn.
      destruct (IH cs1 w1 fuel next' (sh_good _ _ _ _ _ _ Hsh1) ltac:(lia) Hn')
        as (w2 & R2 & Hsh2).
      exists w2. split; [done|]. eapply shrinks_trans; [|exact Hsh1|exact Hsh2]. apply Hgood.
    + mprim. rewrite cons_middle, app_assoc in Hgood.
      destruct (Hnn w _ Hgood) as (next' & Rn & Hn'). mrun Rn.
      destruct (IH (cs1 ++ [(a, v, r)]) w fuel next' Hgood ltac:(lia) Hn') as (w2 & R2 & Hsh2).
      exists w2. split; [done|]. by rewrite <-!app_assoc in Hsh2.
Qed.

(** The list keeps exactly the values that must be used. *)
Lemma remove_from_list_run w h (cs : list cell) :
  good0 0 w h cs ->
  exists w', remove_always_return_values_from_list h w = (Ret tt, w') /\
    shrinks 0 h w cs w' (List.filter must_be_used cs : list cell).
Proof.
  intros Hgood. pose proof Hgood as ((Hdll & _) & _). unfold remove_always_return_values_from_list.
  mrun (assert_non_null_node 896 w h (dll_head_node w h _ Hdll)).
  mrun (next_head w h _ Hdll).
  assert (exists next, get_next (first_addr h cs) w = (Ret next, w) /\
    (cs = [] \/ next = first_addr h (tl cs))) as (next & Rn & Hn).
  { destruct cs as [|[ [a v] r] cs].
    - exists h. split; [|by left]. by apply (next_head w h []).
    - eexists. split; [|by right]. apply (next_cell w h [] (a, v, r) cs Hdll). }
  mrun Rn. mprim. apply (remove_from_list_loop_run h cs [] w); try done.
  pose proof (dll_fuel w h cs Hdll). lia.
Qed.
End remove.
