(* ===== verification/SymbolLeftover.v ===== *)
(** * Leftover values

    [check_for_leftover_values] and [check_for_leftover_values_list] count the
    symbols, or the values, that are left; they print and change nothing. *)
From S2P Require Import Prelude CMonad ListNode World Report Memory SymbolMap Tree SymbolTree SymbolGet SymbolRemove.

Section leftover.
Context `{!Platform, !PlatformLaws}.
Implicit Types (w : World) (h p v : ptr) (nm : string).

Lemma quiet_node w w' p : quiet w w' -> get_node w' p = get_node w p.
Proof. by intros (m & e & o & c & ->). Qed.
Lemma quiet_bound w w' : quiet w w' -> node_bound w' = node_bound w.
Proof. by intros (m & e & o & c & ->). Qed.
Lemma quiet_lookup w w' p : quiet w w' -> lookup_block w' p = lookup_block w p.
Proof. by intros (m & e & o & c & ->). Qed.

Lemma quiet_dll w w' h cs : quiet w w' -> dll w h cs -> dll w' h cs.
Proof. intros Hq. apply dll_frame_node. intros x _. by apply quiet_node. Qed.

(** The values of a shape satisfy [P]. *)
Fixpoint values_ok (P : World -> ptr -> Prop) (n : nat) w : shape n -> Prop :=
  match n with
  | O => fun t => Forall (fun c => P w (cell_value c)) t
  | S k => fun t => Forall (fun e => values_ok P k w (e_sub e)) t
  end.

(** The value can be read as a source location. *)
Definition located w v : Prop := is_Some (lookup_block w v ≫= as_source_location).
Definition is_ordering w v : Prop := exists o, lookup_block w v = Some (BFuncOrderingValue o).

Lemma values_ok_quiet P n : (forall w w' v, quiet w w' -> P w v -> P w' v) ->
  forall w w' t, quiet w w' -> values_ok P n w t -> values_ok P n w' t.
Proof.
  intros HP. induction n as [|k IH]; intros w w' t Hq Ht; eapply Forall_impl; try exact Ht;
    simpl; intros x Hx; [by eapply HP|by eapply IH].
Qed.

Lemma located_quiet w w' v : quiet w w' -> located w v -> located w' v.
Proof. intros Hq. unfold located. by rewrite (quiet_lookup w w' v Hq). Qed.

(** ** Queues of call orderings *)

Lemma leftover_list_loop_run h msg cs2 : forall cs1 w fuel n,
  dll w h (cs1 ++ cs2) -> Forall (fun c => is_ordering w (cell_value c)) cs2 ->
  (length cs2 < fuel)%nat ->
  exists w', leftover_list_loop fuel h (first_addr h cs2) msg n w =
      (Ret (n + Z.of_nat (length cs2)), w') /\ quiet w w'.
Proof.
  induction cs2 as [|[ [a v] r] cs2 IH]; intros cs1 w [|fuel] n Hdll Hval Hfuel;
    simpl in Hfuel; try lia; cbn [leftover_list_loop].
  - exists w. rewrite decide_True by done. split; [|done]. by rewrite Z.add_0_r.
  - change (first_addr h ((a, v, r) :: cs2)) with a.
    pose proof Hdll as ([Hh _]%NoDup_cons & _). rewrite decide_False.
    2:{ intros ->. apply Hh. unfold addrs. rewrite fmap_app, elem_of_app. right. by left. }
    destruct (dll_cell w h _ a v r Hdll) as [Hd _]; [apply elem_of_app; right; by left|].
    mrun (get_value_run w a v r Hd). apply Forall_cons in Hval as [ [o Ho] Hval].
    change (cell_value (a, v, r)) with v in Ho.
    erewrite bind_run by (apply deref_run; by rewrite Ho).
    destruct (prints_cmocka_print_error (msg +:+ ": " +:+ fo_function o +:+ nl) w) as (w1 & R1 & Q1).
    mrun R1.
    destruct (prints_cmocka_print_error (declared_here (fo_location o)) w1) as (w2 & R2 & Q2).
    mrun R2. pose proof (transitivity Q1 Q2) as Hq.
    pose proof (quiet_dll w w2 h _ Hq Hdll) as Hdll2.
    mrun (next_cell w2 h cs1 (a, v, r) cs2 Hdll2).
    destruct (IH (cs1 ++ [(a, v, r)]) w2 fuel (n + 1)) as (w3 & R3 & Q3); [| |lia|].
    + by rewrite <-app_assoc.
    + eapply Forall_impl; [exact Hval|]. intros c [o' Ho']. exists o'.
      by rewrite (quiet_lookup w w2).
    + exists w3. split; [|by etrans]. rewrite R3, length_cons.
      by replace (n + Z.of_nat (S (length cs2))) with (n + 1 + Z.of_nat (length cs2)) by lia.
Qed.

Lemma check_for_leftover_values_list_run w h cs msg :
  dll w h cs -> Forall (fun c => is_ordering w (cell_value c)) cs ->
  exists w', check_for_leftover_values_list h msg w = (Ret (Z.of_nat (length cs)), w') /\ quiet w w'.
Proof.
  intros Hdll Hval. unfold check_for_leftover_values_list. mrun (list_empty_run w h _ Hdll).
  destruct cs as [|c cs]; [by exists w|]. rewrite bool_decide_false by done. cbn [negb].
  mrun (next_head w h _ Hdll). mprim.
  apply (leftover_list_loop_run h msg (c :: cs) [] w _ 0 Hdll Hval).
  pose proof (dll_fuel w h _ Hdll). lia.
Qed.

(** ** Symbol maps *)

Lemma leftover_values_loop_run h cs2 : forall cs1 w fuel,
  dll w h (cs1 ++ cs2) -> Forall (fun c => located w (cell_value c)) cs2 ->
  (length cs2 < fuel)%nat ->
  exists w', leftover_values_loop fuel h (first_addr h cs2) w = (Ret tt, w') /\ quiet w w'.
Proof.
  induction cs2 as [|[ [a v] r] cs2 IH]; intros cs1 w [|fuel] Hdll Hval Hfuel;
    simpl in Hfuel; try lia; cbn [leftover_values_loop].
  - exists w. by rewrite decide_True.
  - change (first_addr h ((a, v, r) :: cs2)) with a.
    pose proof Hdll as ([Hh _]%NoDup_cons & _). rewrite decide_False.
    2:{ intros ->. apply Hh. unfold addrs. rewrite fmap_app, elem_of_app. right. by left. }
    destruct (dll_cell w h _ a v r Hdll) as [Hd _]; [apply elem_of_app; right; by left|].
    mrun (get_value_run w a v r Hd). apply Forall_cons in Hval as [ [l Hl] Hval].
    change (cell_value (a, v, r)) with v in Hl.
    erewrite bind_run by (apply deref_run; exact Hl).
    destruct (prints_cmocka_print_error (declared_here l) w) as (w1 & R1 & Q1). mrun R1.
    pose proof (quiet_dll w w1 h _ Q1 Hdll) as Hdll1.
    mrun (next_cell w1 h cs1 (a, v, r) cs2 Hdll1).
    destruct (IH (cs1 ++ [(a, v, r)]) w1 fuel) as (w2 & R2 & Q2); [| |lia|].
    + by rewrite <-app_assoc.
    + eapply Forall_impl; [exact Hval|]. intros c. by apply located_quiet.
    + exists w2. split; [done|]. by etrans.
Qed.

(** The message and the recursion for one child list; its number of values
    is not used. *)
Lemma check_leftover_loop_run k (rec : ptr -> CM Z) leaf h msg :
  (forall w p (sub : shape k), good k w p sub -> values_ok located k w sub -> cells sub <> [] ->
     forall nm, exists w',
     (if leaf : bool then
        cmocka_print_error (msg +:+ ": " +:+ nm +:+ nl);;
        child_node ← get_next p;
        fuel' ← gets node_bound;
        leftover_values_loop (S fuel') p child_node
      else cmocka_print_error (nm +:+ ": ");; rec p;; mret tt) w = (Ret tt, w') /\ quiet w w') ->
  forall t2 t1 w fuel n,
  good (S k) w h (t1 ++ t2 : list (Entry (shape k))) ->
  values_ok located (S k) w (t1 ++ t2 : list (Entry (shape k))) ->
  (length t2 < fuel)%nat ->
  exists w', check_leftover_loop rec leaf fuel h (entry_addr h t2) msg n w =
      (Ret (n + Z.of_nat (length t2)), w') /\ quiet w w'.
Proof.
  intros Hchild. induction t2 as [|e t2 IH]; intros t1 w [|fuel] n [Hgood Hfill] Hval Hfuel;
    simpl in Hfuel; try lia; cbn [check_leftover_loop].
  - exists w. rewrite decide_True by done. by rewrite Z.add_0_r.
  - change (entry_addr h (e :: t2)) with (e_node e).
    pose proof Hgood as (Hdll & He & Hnd)%good0_entries. pose proof Hnd as [Hh _]%NoDup_cons.
    assert (e ∈ t1 ++ e :: t2) as Hein by (apply elem_of_app; right; by left).
    rewrite decide_False.
    2:{ intros Heq. apply Hh. rewrite <-Heq. eapply fp_entry; [exact Hein|by left]. }
    destruct (dll_cell w h _ (e_node e) (e_map e) 1 Hdll) as [Hd _].
    { change (entry_cell e ∈ cells (n:=S k) (t1 ++ e :: t2)). by apply list_elem_of_fmap_2. }
    rewrite Forall_forall in He. destruct (He e Hein) as (_ & Hom & _ & Hnm & _).
    destruct (owned_heap w _ Hom) as [Hm0 _].
    mrun (get_value_run w _ _ _ Hd). mrun (assert_non_null_ok w 982 _ Hm0).
    unfold name_of in Hnm. destruct (lookup_block w (e_map e)) as [b|] eqn:Hb; [|done].
    destruct b as [|v| | | | | |]; try done. injection Hnm as Hnm.
    assert (load_smv (e_map e) w = (Ret v, w)) as Rl by (apply deref_run; by rewrite Hb).
    mrun Rl. cbn zeta.
    pose proof (good0_entry k w h _ e Hgood Hein) as Hg0.
    mrun (list_empty_run w _ _ (rep_cells _ _ _ _ (proj1 Hg0))).
    pose proof Hfill as Hfill0. apply Forall_app in Hfill0 as [_ [ [Hne Hfe] _]%Forall_cons].
    rewrite tree_is_nil_cells in Hne. apply bool_decide_eq_false in Hne.
    rewrite bool_decide_false by done. cbn [negb].
    pose proof Hval as Hval0. apply Forall_app in Hval0 as [_ [Hve _]%Forall_cons].
    destruct (Hchild w (e_map e) (e_sub e) (conj Hg0 Hfe) Hve Hne (symbol_name v))
      as (w1 & R1 & Q1).
    rewrite bind_assoc_run. mrun R1. mprim.
    pose proof (quiet_dll w w1 h _ Q1 Hdll) as Hdll1. rewrite cells_app, cells_cons in Hdll1.
    pose proof (next_cell w1 h _ _ _ Hdll1) as Hnext.
    change (cell_addr (entry_cell e)) with (e_node e) in Hnext. mrun Hnext.
    destruct (IH (t1 ++ [e]) w1 fuel (n + 1)) as (w2 & R2 & Q2); [| |lia|].
    + rewrite <-app_assoc. split; [exact (good0_quiet (S k) w w1 h _ Q1 Hgood)|done].
    + rewrite <-app_assoc. exact (values_ok_quiet located (S k) located_quiet w w1 _ Q1 Hval).
    + exists w2. split; [|by etrans]. unfold entry_addr in R2. rewrite R2, length_cons.
      by replace (n + Z.of_nat (S (length t2))) with (n + 1 + Z.of_nat (length t2)) by lia.
Qed.

(** [check_for_leftover_values] returns the number of symbols with values. *)
Lemma check_for_leftover_values_run msg k : forall w h (t : list (Entry (shape k))),
  good (S k) w h t -> values_ok located (S k) w t ->
  exists w', check_for_leftover_values h msg (S k) w = (Ret (Z.of_nat (length t)), w') /\ quiet w w'.
Proof.
  induction k as [|k IH]; intros w h t Hgood Hval;
    pose proof (rep_cells _ _ _ _ (proj1 (proj1 Hgood))) as Hdll;
    assert (length t < S (node_bound w))%nat as Hfuel
      by (pose proof (dll_fuel w h _ Hdll) as Hb; rewrite length_cells in Hb; lia);
    cbn [check_for_leftover_values];
    mrun (assert_non_null_node 974 w h (dll_head_node w h _ Hdll));
    mrun (assert_true_ok w 975 "number_of_symbol_names");
    mrun (next_head w h _ Hdll); mprim.
  - refine (check_leftover_loop_run 0 _ true h msg _ t [] w _ 0 Hgood Hval Hfuel).
    intros w1 p sub [Hg _] Hv _ nm.
    destruct (prints_cmocka_print_error (msg +:+ ": " +:+ nm +:+ nl) w1) as (w2 & R2 & Q2).
    mrun R2. pose proof Hg as ((Hdll1 & _) & _). pose proof (quiet_dll w1 w2 p _ Q2 Hdll1) as Hdll2.
    mrun (next_head w2 p _ Hdll2). mprim.
    destruct (leftover_values_loop_run p sub [] w2 (S (node_bound w2)) Hdll2) as (w3 & R3 & Q3).
    + exact (values_ok_quiet located 0 located_quiet w1 w2 sub Q2 Hv).
    + pose proof (dll_fuel w2 p sub Hdll2). lia.
    + exists w3. split; [done|by etrans].
  - refine (check_leftover_loop_run (S k) _ false h msg _ t [] w _ 0 Hgood Hval Hfuel).
    intros w1 p sub Hg Hv _ nm.
    destruct (prints_cmocka_print_error (nm +:+ ": ") w1) as (w2 & R2 & Q2). mrun R2.
    destruct (IH w2 p sub) as (w3 & R3 & Q3).
    + destruct Hg as [Hg Hf]. split; [exact (good0_quiet _ w1 w2 p _ Q2 Hg)|done].
    + exact (values_ok_quiet located (S k) located_quiet w1 w2 sub Q2 Hv).
    + exists w3. mrun R3. split; [done|by etrans].
Qed.
End leftover.
