(* ===== verification/SymbolTheorems.v ===== *)
(** * Lists and symbol maps: what they implement

    The contracts of the doubly linked list and of the symbol maps, from the
    refinement lemmas of the previous files. *)
From S2P Require Import Prelude CMonad ListNode World TestPlatform Report Memory SymbolMap Tree SymbolTree SymbolGet SymbolAdd SymbolRemove SymbolLeftover.

Section list.
Context {S : Type} `{!HeapOps S, !HeapLaws S}.

(** Removing a node frees it and nothing else. *)
Lemma list_remove_frees (s : S) h cs1 a v r cs2 :
  dll s h (cs1 ++ (a, v, r) :: cs2) -> owned s a = true ->
  exists s', list_remove_free a None s = (Ret tt, s') /\ dll s' h (cs1 ++ cs2) /\ gone s' a /\
    touches (h :: addrs (cs1 ++ (a, v, r) :: cs2)) [a] s s'.
Proof.
  intros Hdll Ho. destruct (list_remove_free_spec s h cs1 a v r cs2 Hdll Ho) as (s' & Hd & _ & _ & Ht & R & _).
  exists (drop a s'). split_and!; [exact R| | |].
  - eapply dll_frame_node; [|exact Hd]. intros x Hx. rewrite get_drop, decide_False; [done|].
    intros ->. destruct Hdll as ([Hh Hnd]%NoDup_cons & _). unfold addrs in *.
    rewrite fmap_app, fmap_cons in Hh, Hnd. rewrite fmap_app in Hx.
    apply NoDup_app_cons_middle in Hnd as (Hn1 & Hn2 & _).
    apply elem_of_cons in Hx as [->|[Hx|Hx]%elem_of_app]; [|by apply Hn1|by apply Hn2].
    apply Hh, elem_of_app. right. by left.
  - split; [by rewrite get_drop, decide_True|by rewrite owned_drop, decide_True].
  - eapply touches_trans; [eapply touches_mono; [done| |exact Ht]; set_solver|].
    apply (touch_drop _ _ s' _ a); [by left| |constructor].
    by rewrite (touches_owned _ _ _ _ _ Ht) by apply not_elem_of_nil.
Qed.

(** C18: The circular doubly linked list implements finite sequences, for any
    memory with the laws [HeapLaws].  [list_initialize] makes a node the head
    of the empty list.  On a list of any cells, none included, appending adds
    a cell at the end; removing a node unlinks that cell only and frees its
    node; [list_find] returns the first cell that satisfies the predicate, if
    any, [list_first] the first cell, if any, and [list_empty] whether there is
    none; [list_free] ends, leaves the empty list and has freed every node and
    what the cleanup frees of every value.  The links in both directions are
    right afterwards ([dll]), and nothing but the nodes of the list and what
    is freed is written. *)
Theorem list_implements_sequence (s : S) (h : ptr) :
  (is_Some (get_node s h) ->
     exists s', list_initialize h s = (Ret h, s') /\ dll s' h [] /\ touches [h] [] s s') /\
  (forall cs, dll s h cs ->
    (forall v r p s1, v <> NULL -> alloc_node s = (p, s1) -> p <> NULL ->
       exists s', list_add_value h v r s = (Ret p, s') /\ dll s' h (cs ++ [(p, v, r)]) /\
         touches (p :: h :: addrs cs) [p] s s') /\
    (forall cs1 a v r cs2, cs = cs1 ++ (a, v, r) :: cs2 -> owned s a = true ->
       exists s', list_remove_free a None s = (Ret tt, s') /\ dll s' h (cs1 ++ cs2) /\ gone s' a /\
         touches (h :: addrs cs) [a] s s') /\
    (forall (f : ptr -> M S bool) (g : ptr -> bool), (forall x, x ∈ cs -> f x.1.2 s = (Ret (g x.1.2), s)) ->
       list_find h f s = (Ret (cell_addr <$> List.find (fun c => g c.1.2) cs), s)) /\
    list_first h s = (Ret (head (addrs cs)), s) /\
    list_empty h s = (Ret (bool_decide (cs = [])), s) /\
    (forall f ccs, cs = ccs.*1 -> Forall (fun c => owned s (cell_addr c.1) = true) ccs ->
       NoDup (h :: footprint ccs) -> Forall (fun c => cleans s (f c.1.1.2) c.2) ccs ->
       exists s', list_free h (Some f) s = (Ret h, s') /\ dll s' h [] /\
         touches (h :: footprint ccs) (footprint ccs) s s' /\ (forall x, x ∈ footprint ccs -> gone s' x))).
Proof.
  split; [intros Hn; destruct (list_initialize_spec s h Hn) as (s' & R & Hd & _ & _ & Ht); by exists s'|]. intros cs Hdll. split_and!.
  - intros v r p s1 Hv Ha Hp.
    destruct (list_add_value_spec s h cs v r p s1 Hdll Hv Ha Hp) as (s' & R & Hd & _ & _ & _ & Ht).
    by exists s'.
  - intros cs1 a v r cs2 -> Ho. by apply list_remove_frees.
  - intros f g Hf. apply (list_find_run s h f g cs Hdll). intros a v r Hin. apply (Hf (a, v, r) Hin).
  - by apply list_first_run.
  - by apply list_empty_run.
  - intros f ccs -> Ho Hnd Hc. destruct (list_free_spec f ccs s h Hdll Ho Hnd Hc) as (s' & R & Hd & _ & Ht & Hg). by exists s'.
Qed.
End list.

Section maps.
Context `{!Platform, !PlatformLaws}.
Implicit Types (w : World) (h : ptr) (names : list string).

(** C8: [get_symbol_value] implements [tree_get] on symbol maps of any depth.
    It returns the first value of the queue the names lead to, with its
    reference count; the count goes down by one unless it is -2 or less, and
    a value used for the last time is unlinked, with the entries that become
    empty.  Exactly the unlinked nodes and entries are freed, the value
    itself is left to the caller, and without a value only messages change. *)
Theorem get_symbol_value_refines k names w h (t : shape (S k)) :
  good (S k) w h t -> length names = S k -> refcounts_ok (S k) (erase (S k) t) ->
  match tree_get (S k) names (erase (S k) t) with
  | Some (rc, v, tr) => exists w' (t' : shape (S k)),
      get_symbol_value h names w = (Ret (rc, Some v), w') /\ good (S k) w' h t' /\
      erase (S k) t' = tr /\ v ∈ values (S k) t /\ mem_frame (h :: spine (S k) t) w w' /\
      exists freed, fp (S k) t ≡ₚ (if rc - 1 =? 0 then [v] else []) ++ freed ++ fp (S k) t' /\
        (forall x, x ∈ freed -> gone w' x)
  | None => exists w', get_symbol_value h names w = (Ret (0, None), w') /\ quiet w w'
  end.
Proof.
  intros Hg Hl Hr. pose proof (get_refines k names w h t Hg Hl Hr) as Hres. unfold get_result in Hres.
  destruct (tree_get (S k) names (erase (S k) t)) as [ [ [rc v] tr]|] eqn:Htr; [|done].
  destruct Hres as (w' & t' & R & [Hg' Hf' Htree Hperm Hfr Hv Hvs Hh]). exists w', t'.
  split_and!; try done. congruence.
Qed.

(** C17: [add_symbol_value] implements [tree_add] on symbol maps of any depth:
    the value is appended to its queue, below entries that are made when they
    are missing.  All memory of the map is kept, what is new was fresh, and
    nothing outside the map and the fresh memory changes. *)
Theorem add_symbol_value_refines `{!PlatformTotal} k names w h (t : shape (S k)) v rc :
  good (S k) w h t -> length names = S k -> owned w v = true -> (v ∉ h :: fp (S k) t) ->
  exists w' (t' : shape (S k)), add_symbol_value h names v rc w = (Ret tt, w') /\
    good (S k) w' h t' /\ erase (S k) t' = tree_add (S k) names v rc (erase (S k) t) /\
    (exists new, fp (S k) t' ≡ₚ v :: new ++ fp (S k) t /\ forall x, x ∈ new -> fresh_block w x) /\
    (exists X, (forall x, x ∈ X -> x ∈ h :: spine (S k) t \/ fresh_block w x) /\ mem_frame X w w').
Proof.
  intros [Hg Hf] Hl Ho Hv.
  destruct (add_refines k names w h t v rc Hg Hl Ho Hv) as (w' & t' & R & [Hg' Hf' _ Htr Hp Hfr _ _]).
  exists w', t'. split_and!; try done. split; [done|by apply Hf'].
Qed.

(** [remove_always_return_values] implements [tree_remove_always] on maps
    of any depth and terminates: of each queue the first value is dropped if
    its count is below -1 (only the first: a second such value stays), and
    symbols without values go.  What goes is freed, the rest is intact. *)
Theorem remove_always_return_values_refines k w h (t : shape (S k)) :
  good (S k) w h t ->
  exists w' (t' : shape (S k)), remove_always_return_values h (S k) w = (Ret tt, w') /\
    good (S k) w' h t' /\ erase (S k) t' = tree_remove_always (S k) (erase (S k) t) /\
    mem_frame (h :: fp (S k) t) w w' /\
    exists freed, fp (S k) t ≡ₚ freed ++ fp (S k) t' /\ (forall x, x ∈ freed -> gone w' x).
Proof.
  intros [Hg Hf]. destruct (remove_always_refines k w h t Hg) as (w' & R & t' & [Hg' Hp Hfr _ _] & Her & Hf').
  exists w', t'. split_and!; try done. split; [done|by apply Hf'].
Qed.

(** C36: [check_for_leftover_values] returns the number of symbols that still
    have values and only prints; it terminates. *)
Theorem check_for_leftover_values_counts k w h (t : shape (S k)) msg :
  good (S k) w h t -> values_ok located (S k) w t ->
  exists w', check_for_leftover_values h msg (S k) w =
    (Ret (Z.of_nat (length (cells t))), w') /\ quiet w w'.
Proof.
  intros Hg Hv. destruct (check_for_leftover_values_run msg k w h t Hg Hv) as (w' & R & Q).
  exists w'. split; [|done]. rewrite R. by rewrite (length_cells k t).
Qed.
End maps.
