(* ===== verification/Mock.v ===== *)
(** * Mock values, expected calls and expected assertions

    The operations of src/src/cmocka.c on the three expectation stores: the
    return values of mock functions ([_will_return], [_mock]), the expected
    parameters ([_expect_check]), the expected order of calls
    ([_expect_function_call], [_function_called]); their life cycle
    ([initialize_testing], [fail_if_leftover_values], [teardown_testing]); and
    [mock_assert] with [expect_assert_failure] of src/include/cmocka.h. *)
From S2P Require Import Prelude CMonad ListNode World Report Memory SymbolMap.

(** ** Source locations *)

Definition unset_location : SourceLocation := mkSourceLocation None 0.

(** [location] is the address of a variable or of a member, so that the
    function's [assert_non_null] passes; it is given by its assignment. *)
Definition initialize_source_location (location : SourceLocation -> World -> World) : CM unit :=
  modify (location unset_location).

Definition source_location_is_set (l : SourceLocation) : bool :=
  match file l with Some _ => negb (line l =? 0) | None => false end.

Section code.
Context `{!Platform}.

(** ** Life cycle *)

Definition initialize_testing : CM unit :=
  list_initialize global_function_result_map_head;;
  initialize_source_location set_global_last_mock_value_location;;
  list_initialize global_function_parameter_map_head;;
  initialize_source_location set_global_last_parameter_location;;
  list_initialize global_call_ordering_head;;
  initialize_source_location set_global_last_parameter_location.

Definition has_leftover_values : CM bool :=
  remove_always_return_values global_function_result_map_head 1;;
  n1 ← check_for_leftover_values global_function_result_map_head
         "Has remaining non-returned values" 1;
  remove_always_return_values global_function_parameter_map_head 2;;
  n2 ← check_for_leftover_values global_function_parameter_map_head
         "Parameter still has values that haven't been checked" 2;
  remove_always_return_values_from_list global_call_ordering_head;;
  n3 ← check_for_leftover_values_list global_call_ordering_head
         "Function was expected to be called but was not";
  mret (negb (n1 =? 0) || negb (n2 =? 0) || negb (n3 =? 0)).

Definition fail_if_leftover_values : CM unit :=
  b ← has_leftover_values;
  if (b : bool) then exit_test true else mret tt.

Definition teardown_testing : CM unit :=
  list_free global_function_result_map_head (Some (free_symbol_map_value 0));;
  initialize_source_location set_global_last_mock_value_location;;
  list_free global_function_parameter_map_head (Some (free_symbol_map_value 1));;
  initialize_source_location set_global_last_parameter_location;;
  list_free global_call_ordering_head (Some free_value);;
  initialize_source_location set_global_last_call_ordering_location.

(** ** Mock return values *)

Definition load_symbol_value (p : ptr) : CM SymbolValue :=
  deref (fun w => match lookup_block w p with Some (BSymbolValue v) => Some v | _ => None end).

Definition note_location (prefix : string) (l : SourceLocation) (suffix : string) : CM unit :=
  cmocka_print_error (prefix +:+ fmt_location (file l) (line l) +:+ suffix).

(** The reports of [_mock]. *)
Definition mock_type_mismatch (symbol : SymbolValue) (file_ : option string) (line_ : Z)
    (name function : string) : CM unit :=
  cmocka_print_error (fmt_location file_ line_ +:+ ": error: Type mismatch: name[" +:+
    default "NULL" (sv_name symbol) +:+ "] expected[" +:+ name +:+ "]in " +:+ function +:+ nl);;
  l ← gets global_last_mock_value_location;
  when (source_location_is_set l)
    (note_location "NOTE: The value to be returned by mock declared here: " l nl).

Definition mock_no_value (function : string) (file_ : option string) (line_ : Z) : CM unit :=
  cmocka_print_error (fmt_location file_ line_ +:+
    ": error: Could not get value to mock function " +:+ function +:+ nl);;
  l ← gets global_last_mock_value_location;
  if source_location_is_set l
  then note_location "" l (": note: Previously returned mock value was declared here" +:+ nl)
  else cmocka_print_error ("There were no previously returned mock values for this test." +:+ nl).

Definition _mock (function : string) (file_ : option string) (line_ : Z) (name : option string)
    : CM CMockaValueData :=
  rc_result ← get_symbol_value global_function_result_map_head [function];
  let '(rc, result) := rc_result in
  if negb (rc =? 0) then
    symbol ← deref (fun _ => result);
    v ← load_symbol_value symbol;
    match name with
    | None => mret tt
    | Some n =>
        if bool_decide (sv_name v = Some n) then mret tt
        else
          mock_type_mismatch v file_ line_ n function;;
          free symbol;;
          exit_test true
    end;;
    v' ← load_symbol_value symbol;
    let value := sv_value v' in
    modify (set_global_last_mock_value_location (sv_location v'));;
    (if rc =? 1 then free symbol else mret tt);;
    mret value
  else
    mock_no_value function file_ line_;;
    exit_test true;;
    mret NULL.

Definition SIZEOF_SYMBOLVALUE : Z := 32.

(** [calloc] gives a zeroed block, which holds NULLs. *)
Definition _will_return (function_name : string) (file_ : option string) (line_ : Z)
    (name : option string) (value : CMockaValueData) (count : Z) : CM unit :=
  return_value ← malloc_block SIZEOF_SYMBOLVALUE (BSymbolValue (mkSymbolValue None unset_location 0));
  assert_non_null 1140 return_value;;
  assert_true 1141 "count != 0" (negb (count =? 0));;
  v ← load_symbol_value return_value;
  store_block return_value
    (BSymbolValue (mkSymbolValue (match name with Some n => Some n | None => sv_name v end)
                     (mkSourceLocation file_ line_) value));;
  add_symbol_value global_function_result_map_head [function_name] return_value count.

(** ** Expected parameters *)

(** The block whose event is [e]: every check structure starts with its
    event. *)
Definition with_event (e : CheckParameterEvent) (b : Block) : option Block :=
  match b with
  | BCheckParameterEvent _ => Some (BCheckParameterEvent e)
  | BCheckIntegerRange r => Some (BCheckIntegerRange (mkCheckIntegerRange e (minimum r) (maximum r)))
  | BCheckIntegerSet s => Some (BCheckIntegerSet (mkCheckIntegerSet e (set_elems s) (size_of_set s)))
  | BCheckMemoryData m => Some (BCheckMemoryData (mkCheckMemoryData e (cm_memory m) (cm_size m)))
  | _ => None
  end.

Definition SIZEOF_CHECKPARAMETEREVENT : Z := 40.
Definition junk_event : CheckParameterEvent :=
  mkCheckParameterEvent unset_location "" Check_any 0.

Definition _expect_check (function parameter : string) (file_ : option string) (line_ : Z)
    (check_function : CheckParameterValue) (check_data : CMockaValueData) (event : ptr)
    (count : Z) : CM unit :=
  check ← (if negb (event =? NULL) then mret event
           else malloc_block SIZEOF_CHECKPARAMETEREVENT (BCheckParameterEvent junk_event));
  assert_non_null 1169 check;;
  b ← load_block check;
  b' ← deref (fun _ => with_event (mkCheckParameterEvent (mkSourceLocation file_ line_) parameter
                                     check_function check_data) b);
  store_block check b';;
  add_symbol_value global_function_parameter_map_head [function; parameter] check count.

(** ** Call ordering *)

Definition SIZEOF_FUNCORDERINGVALUE : Z := 24.

(** [assert_non_null] of a string, which may be NULL; the value of a pointer
    that is not does not matter. *)
Definition assert_non_null_string (line_ : Z) (s : option string) : CM unit :=
  assert_non_null line_ (match s with Some _ => 1 | None => NULL end).

Definition _expect_function_call (function_name file_ : option string) (line_ : Z) (count : Z)
    : CM unit :=
  assert_non_null_string 1192 function_name;;
  assert_non_null_string 1193 file_;;
  assert_true 1194 "count != 0" (negb (count =? 0));;
  ordering ← malloc_block SIZEOF_FUNCORDERINGVALUE
               (BFuncOrderingValue (mkFuncOrderingValue unset_location ""));
  load_block ordering;;
  store_block ordering
    (BFuncOrderingValue (mkFuncOrderingValue (mkSourceLocation file_ line_) (default "" function_name)));;
  list_add_value global_call_ordering_head ordering count;;
  mret tt.

Definition load_ordering (p : ptr) : CM FuncOrderingValue :=
  deref (fun w => match lookup_block w p with Some (BFuncOrderingValue v) => Some v | _ => None end).

(** The [do] loop of [_function_called]: the node it stops at, its
    [expected_call] and whether the function was found.  [current->next] is
    never NULL in a circular list; the code's test for it is kept. *)
Fixpoint function_called_loop (fuel : nat) (head current : ptr) (function : string)
    : CM (ptr * ptr * bool) :=
  match fuel with
  | O => no_fuel
  | S k =>
      expected_call ← get_value current;
      found ← (if negb (expected_call =? NULL) then
                 o ← load_ordering expected_call;
                 mret (bool_decide (fo_function o = function))
               else mret false);
      r ← get_refcount current;
      if (found : bool) || (-2 <? r) then mret (current, expected_call, found)
      else
        next ← get_next current;
        if negb (next =? NULL) && negb (next =? head)
        then function_called_loop k head next function
        else mret (next, expected_call, found)
  end.

Definition _function_called (function : string) (file_ : option string) (line_ : Z) : CM unit :=
  e ← list_empty global_call_ordering_head;
  if (e : bool) then
    cmocka_print_error (fmt_location file_ line_ +:+
      ": error: No mock calls expected but called() was invoked in " +:+ function +:+ nl);;
    exit_test true
  else
    let head := global_call_ordering_head in
    first ← get_next head;
    fuel ← gets node_bound;
    res ← function_called_loop (S fuel) head first function;
    let '(current, expected_call, found) := res in
    (if (expected_call =? NULL) || (current =? head) then
       cmocka_print_error (fmt_location file_ line_ +:+
         ": error: No expected mock calls matching called() invocation in " +:+ function +:+ nl);;
       exit_test true
     else mret tt);;
    if (found : bool) then
      r ← get_refcount current;
      if -2 <? r then
        set_refcount current (r - 1);;
        r' ← get_refcount current;
        if r' =? 0 then list_remove_free current (Some free_value) else mret tt
      else mret tt
    else
      name ← (if negb (expected_call =? NULL) then o ← load_ordering expected_call; mret (fo_function o)
              else mret "(null)");
      cmocka_print_error (fmt_location file_ line_ +:+ ": error: Expected call to " +:+ name +:+
        " but received called() in " +:+ function +:+ nl);;
      exit_test true.

(** ** Assertions of the code under test *)

Definition mock_assert (result : Z) (expression : string) (file_ : option string) (line_ : Z)
    : CM unit :=
  when (result =? 0)
    (expecting ← gets global_expecting_assert;
     if negb (expecting =? 0) then
       modify (set_global_last_failed_assert (Some expression));;
       assert_longjmp
     else
       cmocka_print_error ("ASSERT: " +:+ expression +:+ nl);;
       _fail file_ line_).

(** The macro; [function_call] is the call, [text] its text.  The longjmp of
    [mock_assert] lands here. *)
Definition expect_assert_failure (function_call : CM unit) (text : string) (file_ : option string)
    (line_ : Z) : CM unit := fun w =>
  match function_call (set_global_expecting_assert 1 w) with
  | (AssertJmp, w') =>
      (print_message ("Expected assertion " +:+ fmt_s (global_last_failed_assert w') +:+
         " occurred" +:+ nl);;
       modify (set_global_expecting_assert 0)) w'
  | (Ret _, w') =>
      (modify (set_global_expecting_assert 0);;
       print_error ("Expected assert in " +:+ text +:+ nl);;
       _fail file_ line_) w'
  | (LongJmp, w') => (LongJmp, w')
  | (Exit c, w') => (Exit c, w')
  | (Aborted, w') => (Aborted, w')
  | (Undef, w') => (Undef, w')
  | (NoFuel, w') => (NoFuel, w')
  end.
End code.
