(* ===== verification/Checks.v ===== *)
(** * Expected parameters

    The checking functions of src/src/cmocka.c ([check_int_in_set] to
    [check_any]), the functions that declare expected parameters ([expect_set],
    [_expect_value], [_expect_memory] and the others), and [_check_expected],
    which applies the next declared check to a parameter. *)
From S2P Require Import Prelude CMonad ListNode World Report Memory SymbolMap Mock Compare.

(** The event at the start of a check structure. *)
Definition block_event (b : Block) : option CheckParameterEvent :=
  match b with
  | BCheckParameterEvent e => Some e
  | BCheckIntegerRange r => Some (cr_event r)
  | BCheckIntegerSet s => Some (cs_event s)
  | BCheckMemoryData m => Some (cm_event m)
  | _ => None
  end.

Definition load_event (p : ptr) : CM CheckParameterEvent :=
  deref (fun w => lookup_block w p ≫= block_event).
Definition load_set (p : ptr) : CM (list Z * Z) :=
  deref (fun w => match lookup_block w p with
                  | Some (BCheckIntegerSet s) => Some (set_elems s, size_of_set s)
                  | _ => None end).
Definition load_range (p : ptr) : CM (Z * Z) :=
  deref (fun w => match lookup_block w p with
                  | Some (BCheckIntegerRange r) => Some (minimum r, maximum r)
                  | _ => None end).
Definition load_memory (p : ptr) : CM (list Z * Z) :=
  deref (fun w => match lookup_block w p with
                  | Some (BCheckMemoryData m) => Some (cm_memory m, cm_size m)
                  | _ => None end).

(** Sizes of the structures (LP64). *)
Definition SIZEOF_CHECKINTEGERSET : Z := 56.
Definition SIZEOF_CHECKINTEGERRANGE : Z := 56.
Definition SIZEOF_CHECKMEMORYDATA : Z := 56.
Definition SIZEOF_UINTMAX : Z := 8.

Section code.
Context `{!Platform}.

(** ** The checking functions *)

(** bool to int *)
Definition int_of (m : CM bool) : CM Z := b ← m; mret (Z.b2z b).

Definition check_int_in_set (value check_value_data : CMockaValueData) : CM Z :=
  int_of (int_value_in_set_display_error (int_val value) (val_ptr check_value_data)
            (load_set (val_ptr check_value_data)) false).
Definition check_uint_in_set (value check_value_data : CMockaValueData) : CM Z :=
  int_of (uint_value_in_set_display_error (uint_val value) (val_ptr check_value_data)
            (load_set (val_ptr check_value_data)) false).
Definition check_not_in_set (value check_value_data : CMockaValueData) : CM Z :=
  int_of (value_in_set_display_error (uint_val value) (val_ptr check_value_data)
            (load_set (val_ptr check_value_data)) true).

Definition check_in_range (value check_value_data : CMockaValueData) : CM Z :=
  let check_integer_range := val_ptr check_value_data in
  assert_non_null 1981 check_integer_range;;
  r ← load_range check_integer_range;
  int_of (uint_in_range_display_error (uint_val value) r.1 r.2).
Definition check_not_in_range (value check_value_data : CMockaValueData) : CM Z :=
  let check_integer_range := val_ptr check_value_data in
  assert_non_null 1995 check_integer_range;;
  r ← load_range check_integer_range;
  int_of (integer_not_in_range_display_error (uint_val value) r.1 r.2).

Definition check_value (value check_value_data : CMockaValueData) : CM Z :=
  int_of (uint_values_equal_display_error (uint_val value) (uint_val check_value_data)).
Definition check_not_value (value check_value_data : CMockaValueData) : CM Z :=
  int_of (uint_values_not_equal_display_error (uint_val value) (uint_val check_value_data)).

Definition check_string (value check_value_data : CMockaValueData) : CM Z :=
  int_of (string_equal_display_error (val_ptr value) (val_ptr check_value_data)).
Definition check_not_string (value check_value_data : CMockaValueData) : CM Z :=
  int_of (string_not_equal_display_error (val_ptr value) (val_ptr check_value_data)).

Definition check_memory (value check_value_data : CMockaValueData) : CM Z :=
  let check := val_ptr check_value_data in
  assert_non_null 2125 check;;
  ms ← load_memory check;
  a ← load_bytes (val_ptr value) ms.2;
  int_of (memory_equal_display_error a ms.1).
Definition check_not_memory (value check_value_data : CMockaValueData) : CM Z :=
  let check := val_ptr check_value_data in
  assert_non_null 2169 check;;
  ms ← load_memory check;
  a ← load_bytes (val_ptr value) ms.2;
  int_of (memory_not_equal_display_error (val_ptr value) (check + SIZEOF_CHECKMEMORYDATA) a ms.1).

Definition check_any (value check_value_data : CMockaValueData) : CM Z := mret 1.

(** A call through a [CheckParameterValue] pointer. *)
Definition call_check (f : CheckParameterValue) (value check_value_data : CMockaValueData) : CM Z :=
  match f with
  | Check_int_in_set => check_int_in_set value check_value_data
  | Check_uint_in_set => check_uint_in_set value check_value_data
  | Check_not_in_set => check_not_in_set value check_value_data
  | Check_in_range => check_in_range value check_value_data
  | Check_not_in_range => check_not_in_range value check_value_data
  | Check_value => check_value value check_value_data
  | Check_not_value => check_not_value value check_value_data
  | Check_string => check_string value check_value_data
  | Check_not_string => check_not_string value check_value_data
  | Check_memory => check_memory value check_value_data
  | Check_not_memory => check_not_memory value check_value_data
  | Check_any => check_any value check_value_data
  | Custom id => plat_custom_check id value check_value_data
  end.

(** ** Declaring expected parameters *)

(** [assert_non_null] of an array argument, None for NULL. *)
Definition assert_non_null_array {A} (line_ : Z) (p : option A) : CM unit :=
  assert_non_null line_ (match p with Some _ => 1 | None => NULL end).

(** The first [n] elements of an array; reading more than it has is undefined. *)
Definition array_take (n : Z) (values : option (list Z)) : CM (list Z) :=
  deref (fun _ => l ← values; if n <=? Z.of_nat (length l) then Some (take (Z.to_nat n) l) else None).

(** The stores of [memcpy(set, ...)], [->set] and [->size_of_set], and the
    registration of the event. *)
Definition fill_set (function parameter : string) (file_ : option string) (line_ : Z)
    (check : ptr) (values : option (list Z)) (number_of_values : Z)
    (check_function : CheckParameterValue) (count : Z) : CM unit :=
  load_block check;;
  set ← array_take number_of_values values;
  store_block check (BCheckIntegerSet (mkCheckIntegerSet junk_event set number_of_values));;
  _expect_check function parameter file_ line_ check_function check check count.

Definition junk_set : Block := BCheckIntegerSet (mkCheckIntegerSet junk_event [] 0).

Definition expect_set (function parameter : string) (file_ : option string) (line_ : Z)
    (values : option (list Z)) (number_of_values : Z)
    (check_function : CheckParameterValue) (count : Z) : CM unit :=
  check_integer_set ← malloc_block
    (to_u64 (SIZEOF_CHECKINTEGERSET + SIZEOF_UINTMAX * number_of_values)) junk_set;
  assert_non_null_array 1849 values;;
  assert_true 1850 "number_of_values" (negb (number_of_values =? 0));;
  fill_set function parameter file_ line_ check_integer_set values number_of_values
    check_function count.

(** [calloc(number_of_values, sizeof(struct) + sizeof(values[0]))] fails when
    the product overflows. *)
Definition calloc_set (number_of_values : Z) : CM ptr :=
  let bytes := number_of_values * (SIZEOF_CHECKINTEGERSET + SIZEOF_UINTMAX) in
  if SIZE_MAX <? bytes then mret NULL else malloc_block bytes junk_set.

Definition __expect_int_in_set (function parameter : string) (file_ : option string) (line_ : Z)
    (values : option (list Z)) (number_of_values : Z)
    (check_function : CheckParameterValue) (count : Z) : CM unit :=
  check_integer_set ← calloc_set number_of_values;
  assert_non_null 1874 check_integer_set;;
  assert_non_null_array 1875 values;;
  assert_true 1876 "number_of_values" (negb (number_of_values =? 0));;
  fill_set function parameter file_ (to_s32 line_) check_integer_set values number_of_values
    check_function (to_s32 count).

Definition __expect_uint_in_set (function parameter : string) (file_ : option string) (line_ : Z)
    (values : option (list Z)) (number_of_values : Z)
    (check_function : CheckParameterValue) (count : Z) : CM unit :=
  check_uint_set ← calloc_set number_of_values;
  assert_non_null 1908 check_uint_set;;
  assert_non_null_array 1909 values;;
  assert_true 1910 "number_of_values" (negb (number_of_values =? 0));;
  fill_set function parameter file_ (to_s32 line_) check_uint_set values number_of_values
    check_function (to_s32 count).

Definition _expect_int_in_set (function parameter : string) (file_ : option string) (line_ : Z)
    (values : option (list Z)) (number_of_values count : Z) : CM unit :=
  __expect_int_in_set function parameter file_ line_ values number_of_values Check_int_in_set count.
Definition _expect_uint_in_set (function parameter : string) (file_ : option string) (line_ : Z)
    (values : option (list Z)) (number_of_values count : Z) : CM unit :=
  __expect_uint_in_set function parameter file_ line_ values number_of_values Check_uint_in_set count.
Definition _expect_not_in_set (function parameter : string) (file_ : option string) (line_ : Z)
    (values : option (list Z)) (number_of_values count : Z) : CM unit :=
  expect_set function parameter file_ line_ values number_of_values Check_not_in_set count.

Definition expect_range (function parameter : string) (file_ : option string) (line_ : Z)
    (range_min range_max : Z) (check_function : CheckParameterValue) (count : Z) : CM unit :=
  check_integer_range ← malloc_block SIZEOF_CHECKINTEGERRANGE
    (BCheckIntegerRange (mkCheckIntegerRange junk_event 0 0));
  load_block check_integer_range;;
  store_block check_integer_range
    (BCheckIntegerRange (mkCheckIntegerRange junk_event range_min range_max));;
  _expect_check function parameter file_ line_ check_function check_integer_range
    check_integer_range count.

Definition _expect_in_range (function parameter : string) (file_ : option string) (line_ : Z)
    (range_min range_max count : Z) : CM unit :=
  expect_range function parameter file_ line_ range_min range_max Check_in_range count.
Definition _expect_not_in_range (function parameter : string) (file_ : option string) (line_ : Z)
    (range_min range_max count : Z) : CM unit :=
  expect_range function parameter file_ line_ range_min range_max Check_not_in_range count.

Definition _expect_value (function parameter : string) (file_ : option string) (line_ : Z)
    (value count : Z) : CM unit :=
  _expect_check function parameter file_ line_ Check_value value NULL count.
Definition _expect_not_value (function parameter : string) (file_ : option string) (line_ : Z)
    (value count : Z) : CM unit :=
  _expect_check function parameter file_ line_ Check_not_value value NULL count.
Definition _expect_string (function parameter : string) (file_ : option string) (line_ : Z)
    (string_ : ptr) (count : Z) : CM unit :=
  _expect_check function parameter file_ line_ Check_string string_ NULL count.
Definition _expect_not_string (function parameter : string) (file_ : option string) (line_ : Z)
    (string_ : ptr) (count : Z) : CM unit :=
  _expect_check function parameter file_ line_ Check_not_string string_ NULL count.

Definition expect_memory_setup (function parameter : string) (file_ : option string) (line_ : Z)
    (memory : ptr) (size_ : Z) (check_function : CheckParameterValue) (count : Z) : CM unit :=
  check_data ← malloc_block (to_u64 (SIZEOF_CHECKMEMORYDATA + size_))
    (BCheckMemoryData (mkCheckMemoryData junk_event [] 0));
  assert_non_null 2143 memory;;
  assert_true 2144 "size" (negb (size_ =? 0));;
  load_block check_data;;
  mem ← load_bytes memory size_;
  store_block check_data (BCheckMemoryData (mkCheckMemoryData junk_event mem size_));;
  _expect_check function parameter file_ line_ check_function check_data check_data count.

Definition _expect_memory (function parameter : string) (file_ : option string) (line_ : Z)
    (memory : ptr) (size_ count : Z) : CM unit :=
  expect_memory_setup function parameter file_ line_ memory size_ Check_memory count.
Definition _expect_not_memory (function parameter : string) (file_ : option string) (line_ : Z)
    (memory : ptr) (size_ count : Z) : CM unit :=
  expect_memory_setup function parameter file_ line_ memory size_ Check_not_memory count.

Definition _expect_any (function parameter : string) (file_ : option string) (line_ count : Z)
    : CM unit :=
  _expect_check function parameter file_ line_ Check_any NULL NULL count.

(** ** Checking a parameter *)

Definition check_failed_text (file_ : option string) (line_ : Z) (parameter_name function_name : string)
    (l : SourceLocation) : string :=
  fmt_location file_ line_ +:+ ": error: Check of parameter " +:+ parameter_name +:+
  ", function " +:+ function_name +:+ " failed" +:+ nl +:+
  fmt_location (file l) (line l) +:+ ": note: Expected parameter declared here" +:+ nl.

(** The report when there is no expected value. *)
Definition check_no_value (function_name parameter_name : string) (file_ : option string) (line_ : Z)
    : CM unit :=
  cmocka_print_error (fmt_location file_ line_ +:+
    ": error: Could not get value to check parameter " +:+ parameter_name +:+
    " of function " +:+ function_name +:+ nl);;
  l ← gets global_last_parameter_location;
  if source_location_is_set l then
    cmocka_print_error (fmt_location (file l) (line l) +:+
      ": note: Previously declared parameter value was declared here" +:+ nl)
  else
    cmocka_print_error ("There were no previously declared parameter values for this test." +:+ nl).

Definition _check_expected (function_name parameter_name : string) (file_ : option string) (line_ : Z)
    (value : CMockaValueData) : CM unit :=
  rc_result ← get_symbol_value global_function_parameter_map_head [function_name; parameter_name];
  let '(rc, result) := rc_result in
  if negb (rc =? 0) then
    check ← deref (fun _ => result);
    e ← load_event check;
    modify (set_global_last_parameter_location (ev_location e));;
    check_succeeded ← call_check (ev_check_value e) value (ev_check_value_data e);
    (if rc =? 1 then free check else mret tt);;
    when (check_succeeded =? 0)
      (l ← gets global_last_parameter_location;
       cmocka_print_error (check_failed_text file_ line_ parameter_name function_name l);;
       _fail file_ line_)
  else
    check_no_value function_name parameter_name file_ line_;;
    exit_test true.
End code.
