(* ===== verification/Asserts.v ===== *)
(** * The assertion functions

    The [_assert_*] functions of src/src/cmocka.c: each compares and, when the
    comparison fails, ends the test.  The arguments of the memory assertions
    are addresses, those of the set assertions arrays. *)
From S2P Require Import Prelude CMonad ListNode World Report Memory FloatCompare Compare Checks.

Section code.
Context `{!Platform}.

(** [if (!comparison) { _fail(file, line); }] *)
Definition fail_unless (comparison : CM bool) (file_ : option string) (line_ : Z) : CM unit :=
  ok ← comparison; when (negb ok) (_fail file_ line_).

Definition _assert_return_code (result error : Z) (expression : string) (file_ : option string)
    (line_ : Z) : CM unit :=
  when (result <? 0)
    ((if 0 <? error then
        cmocka_print_error (expression +:+ " < 0, errno(" +:+ fmt_d error +:+ "): " +:+
                            plat_strerror error +:+ nl)
      else cmocka_print_error (expression +:+ " < 0" +:+ nl));;
     _fail file_ line_).

Definition _assert_float_equal (a b epsilon : fpnum) : option string -> Z -> CM unit :=
  fail_unless (float_values_equal_display_error a b epsilon).
Definition _assert_float_not_equal (a b epsilon : fpnum) : option string -> Z -> CM unit :=
  fail_unless (float_values_not_equal_display_error a b epsilon).
Definition _assert_double_equal (a b epsilon : fpnum) : option string -> Z -> CM unit :=
  fail_unless (double_values_equal_display_error a b epsilon).
Definition _assert_double_not_equal (a b epsilon : fpnum) : option string -> Z -> CM unit :=
  fail_unless (double_values_not_equal_display_error a b epsilon).

Definition _assert_int_equal (a b : Z) : option string -> Z -> CM unit :=
  fail_unless (int_values_equal_display_error a b).
Definition _assert_int_not_equal (a b : Z) : option string -> Z -> CM unit :=
  fail_unless (int_values_not_equal_display_error a b).
Definition _assert_uint_equal (a b : Z) : option string -> Z -> CM unit :=
  fail_unless (uint_values_equal_display_error a b).
Definition _assert_uint_not_equal (a b : Z) : option string -> Z -> CM unit :=
  fail_unless (uint_values_not_equal_display_error a b).

Definition _assert_string_equal (a b : ptr) : option string -> Z -> CM unit :=
  fail_unless (string_equal_display_error a b).
Definition _assert_string_not_equal (a b : ptr) : option string -> Z -> CM unit :=
  fail_unless (string_not_equal_display_error a b).

(** The bytes at two addresses. *)
Definition load_two (a b : ptr) (size_ : Z) : CM (list Z * list Z) :=
  x ← load_bytes a size_; y ← load_bytes b size_; mret (x, y).

Definition _assert_memory_equal (a b : ptr) (size_ : Z) : option string -> Z -> CM unit :=
  fail_unless (xy ← load_two a b size_; memory_equal_display_error xy.1 xy.2).
Definition _assert_memory_not_equal (a b : ptr) (size_ : Z) : option string -> Z -> CM unit :=
  fail_unless (xy ← load_two a b size_; memory_not_equal_display_error a b xy.1 xy.2).

Definition _assert_int_in_range (value range_min range_max : Z) : option string -> Z -> CM unit :=
  fail_unless (int_in_range_display_error value range_min range_max).
Definition _assert_int_not_in_range (value range_min range_max : Z) : option string -> Z -> CM unit :=
  fail_unless (int_not_in_range_display_error value range_min range_max).
Definition _assert_uint_in_range (value range_min range_max : Z) : option string -> Z -> CM unit :=
  fail_unless (uint_in_range_display_error value range_min range_max).
Definition _assert_uint_not_in_range (value range_min range_max : Z) : option string -> Z -> CM unit :=
  fail_unless (uint_not_in_range_display_error value range_min range_max).

(** The structure on the stack: its address is not NULL. *)
Definition STACK_ADDRESS : ptr := 1.
Definition stack_set (values : list Z) (number_of_values : Z) : CM (list Z * Z) :=
  mret (values, number_of_values).

Definition _assert_not_in_set (value : Z) (values : list Z) (number_of_values : Z)
    : option string -> Z -> CM unit :=
  fail_unless (uint_value_in_set_display_error value STACK_ADDRESS
                 (stack_set values number_of_values) true).
Definition _assert_int_in_set (value : Z) (values : list Z) (number_of_values : Z)
    : option string -> Z -> CM unit :=
  fail_unless (int_value_in_set_display_error value STACK_ADDRESS
                 (stack_set values number_of_values) false).
Definition _assert_int_not_in_set (value : Z) (values : list Z) (number_of_values : Z)
    : option string -> Z -> CM unit :=
  fail_unless (int_value_in_set_display_error value STACK_ADDRESS
                 (stack_set values number_of_values) true).
Definition _assert_uint_in_set (value : Z) (values : list Z) (number_of_values : Z)
    : option string -> Z -> CM unit :=
  fail_unless (uint_value_in_set_display_error value STACK_ADDRESS
                 (stack_set values number_of_values) false).
Definition _assert_uint_not_in_set (value : Z) (values : list Z) (number_of_values : Z)
    : option string -> Z -> CM unit :=
  fail_unless (uint_value_in_set_display_error value STACK_ADDRESS
                 (stack_set values number_of_values) true).
End code.
