(* ===== verification/CompareProofs.v ===== *)
(** * What the reporting comparisons decide

    Each [*_display_error] function returns whether its comparison holds; it
    changes nothing if so, and only prints if not.  The checking functions of
    Checks.v are calls of them. *)
From S2P Require Import Prelude CMonad ListNode World Report Memory SymbolMap Mock FloatCompare Compare Checks Asserts.

Lemma read_bytes_length m p n l : read_bytes m p n = Some l -> length l = n.
Proof.
  revert p l. induction n as [|n IH]; intros p l; cbn; [by intros [= <-]|].
  destruct (m !! p); [|done]. cbn. intros (l' & Hl & ->)%fmap_Some. cbn. f_equal. by eapply IH.
Qed.

Section proofs.
Context `{!Platform}.
Implicit Types (w : World) (b : bool).

(** [m] decides [b] in state [w], printing the reason if it is false. *)
Definition displays (m : CM bool) b w : Prop :=
  if b then m w = (Ret true, w) else exists w', m w = (Ret false, w') /\ quiet w w'.

(** [m] returns if [b] and ends the test if not. *)
Definition asserts (m : CM unit) b w : Prop :=
  if b then m w = (Ret tt, w) else exists w', m w = (exit_outcome w, w') /\ quiet w w'.

(** [m] returns a C truth value. *)
Definition checks (m : CM Z) b w : Prop :=
  if b then m w = (Ret 1, w) else exists w', m w = (Ret 0, w') /\ quiet w w'.

Lemma displays_returns m b w : displays m b w -> exists w', m w = (Ret b, w') /\ quiet w w'.
Proof. unfold displays. destruct b; [by exists w|done]. Qed.

Lemma report_unless_displays ok s w : displays (report_unless ok s) ok w.
Proof.
  unfold report_unless. destruct ok; [done|].
  destruct (prints_cmocka_print_error s w) as (w' & R & Q). exists w'. cbn. by mrun R.
Qed.

Lemma displays_ret_false w : displays (mret false) false w.
Proof. by exists w. Qed.
Lemma displays_prints (m : CM unit) (k : CM bool) w :
  prints m -> (forall w', displays k false w') -> displays (m;; k) false w.
Proof.
  intros Hm Hk. destruct (Hm w) as (w1 & R & Q), (Hk w1) as (w2 & R2 & Q2).
  exists w2. mrun R. split; [done|by etrans].
Qed.

Lemma fail_unless_asserts m b file line w : displays m b w -> asserts (fail_unless m file line) b w.
Proof.
  unfold displays, asserts, fail_unless. destruct b; [intros R; by mrun R|].
  intros (w1 & R & Q). mrun R. destruct (fail_run file line w1) as (w2 & R2 & Q2).
  exists w2. cbn. rewrite R2, (exit_outcome_quiet w w1) by done. split; [done|by etrans].
Qed.

Lemma int_of_checks m b w : displays m b w -> checks (int_of m) b w.
Proof.
  unfold displays, checks, int_of. destruct b; [intros R; by mrun R|].
  intros (w1 & R & Q). exists w1. by mrun R.
Qed.

(** A successful read before a comparison. *)
Lemma displays_bind {A} (r : CM A) (a : A) k b w :
  r w = (Ret a, w) -> displays (k a) b w -> displays (x ← r; k x) b w.
Proof.
  intros R. unfold displays. destruct b; [intros K; by mrun R|].
  intros (w' & K & Q). exists w'. by mrun R.
Qed.
Lemma checks_bind {A} (r : CM A) (a : A) k b w :
  r w = (Ret a, w) -> checks (k a) b w -> checks (x ← r; k x) b w.
Proof.
  intros R. unfold checks. destruct b; [intros K; by mrun R|].
  intros (w' & K & Q). exists w'. by mrun R.
Qed.

(** ** Sets *)

Lemma set_contains_run n i set v w :
  (i + n <= length set)%nat ->
  set_contains n i set v w = (Ret (bool_decide (v ∈ take n (skipn i set))), w).
Proof.
  revert i. induction n as [|n IH]; intros i Hn.
  - cbn. by rewrite bool_decide_false by apply not_elem_of_nil.
  - destruct (lookup_lt_is_Some_2 set i ltac:(lia)) as [e He]. cbn [set_contains].
    rewrite (bind_run _ _ _ e w) by by apply deref_run.
    rewrite (drop_S _ _ _ He). cbn [take]. destruct (e =? v) eqn:E; zbool.
    + subst. by rewrite bool_decide_true by by left.
    + rewrite IH by lia. do 2 f_equal. apply bool_decide_ext. rewrite elem_of_cons. naive_solver.
Qed.

Lemma prints_set n i set fmt : (i + n <= length set)%nat -> prints (print_set n i set fmt).
Proof.
  revert i. induction n as [|n IH]; intros i Hn; [apply prints_ret|]. cbn [print_set].
  destruct (lookup_lt_is_Some_2 set i ltac:(lia)) as [e He]. intros w.
  rewrite (bind_run _ _ _ e w) by by apply deref_run.
  apply (prints_seq _ _ (prints_cmocka_print_error _) (IH (S i) ltac:(lia))).
Qed.

(** The decision of the set comparisons. *)
Definition in_set (value : Z) (set : list Z) (n : Z) (invert : bool) : bool :=
  if bool_decide (value ∈ take (Z.to_nat n) set) then negb invert else invert.

Lemma in_set_displays line fmt fe value check load set n invert w :
  check <> NULL -> load w = (Ret (set, n), w) -> n <= Z.of_nat (length set) ->
  displays (in_set_display_error line fmt fe value check load invert) (in_set value set n invert) w.
Proof.
  intros Hc Hl Hn. unfold in_set_display_error.
  apply (displays_bind _ tt); [by apply assert_non_null_ok|].
  apply (displays_bind _ _ _ _ _ Hl).
  apply (displays_bind _ (bool_decide (value ∈ take (Z.to_nat n) set))).
  { rewrite set_contains_run by lia. done. }
  unfold in_set. destruct (if bool_decide _ then _ else _) ; [done|].
  apply displays_prints; [apply prints_cmocka_print_error|intros w1].
  apply displays_prints; [apply prints_set; lia|intros w2].
  apply displays_prints; [apply prints_cmocka_print_error|apply displays_ret_false].
Qed.

(** ** Strings and memory *)

Lemma string_displays l r (f : bool -> bool) m s1 s2 w :
  read_cstr (S (size (bytes w))) (bytes w) l = Some s1 ->
  read_cstr (S (size (bytes w))) (bytes w) r = Some s2 ->
  displays (x ← load_cstr l; y ← load_cstr r; report_unless (f (bool_decide (x = y))) (m x y))
    (f (bool_decide (s1 = s2))) w.
Proof.
  intros H1 H2. apply (displays_bind _ s1); [by apply deref_run|].
  apply (displays_bind _ s2); [by apply deref_run|]. apply report_unless_displays.
Qed.

Lemma prints_ascii buf : prints (cmocka_print_ascii buf).
Proof. induction buf; cbn; eauto with cmocka. Qed.

Lemma prints_hex_columns n i buf : prints (print_hex_columns n i buf).
Proof.
  revert i. induction n as [|n IH]; intros i; cbn; [eauto with cmocka|].
  apply prints_seq; [eauto with cmocka|]. apply prints_seq; [|done].
  destruct (buf !! i); eauto with cmocka.
Qed.

Lemma prints_ascii_columns i buf : prints (print_ascii_columns i buf).
Proof.
  revert i. induction buf as [|b buf IH]; intros i; cbn; [eauto with cmocka|].
  repeat apply prints_seq; eauto with cmocka.
Qed.

Lemma prints_data_block16 prefix i buf :
  (length buf <= 16)%nat -> prints (print_data_block16 prefix i buf).
Proof.
  intros Hl. unfold print_data_block16. apply prints_seq.
  { intros w. exists w. by rewrite (proj2 (Nat.leb_le _ 16) Hl). }
  apply prints_seq; [eauto with cmocka|]. apply prints_seq; [apply prints_hex_columns|].
  apply prints_seq; [eauto with cmocka|].
  destruct (Nat.eqb (length buf) 0); [eauto with cmocka|].
  apply prints_seq; [apply prints_ascii_columns|eauto with cmocka].
Qed.

Lemma this_block_length i buf : (length (block_bytes (this_block i buf)) <= 16)%nat.
Proof. unfold this_block. destruct (Nat.ltb _ _); cbn; [|lia]. rewrite length_take. lia. Qed.

Lemma prints_data_diff_loop fuel i (b1 b2 : list Z) omit skipped :
  (Nat.max (length b1) (length b2) - i < fuel)%nat ->
  prints (print_data_diff_loop fuel i b1 b2 omit skipped).
Proof.
  revert i skipped. induction fuel as [|fuel IH]; intros i skipped Hf.
  { lia. } cbn [print_data_diff_loop].
  destruct (Nat.leb _ i) eqn:E; [apply prints_ret|]. apply Nat.leb_gt in E.
  destruct (_ && _ && _ && _ && _ && _ && _); apply prints_seq; eauto with cmocka; try (apply IH; lia).
  destruct (_ && _); [|apply prints_seq]; apply prints_data_block16, this_block_length.
Qed.

Lemma prints_data_diff (b1 b2 : list Z) omit : prints (print_data_diff b1 b2 omit).
Proof. apply prints_data_diff_loop. lia. Qed.

Lemma memory_equal_displays (a b : list Z) w :
  displays (memory_equal_display_error a b) (bool_decide (a = b)) w.
Proof.
  unfold memory_equal_display_error, memcmp_eq. case_bool_decide; [done|].
  apply displays_prints; [apply prints_cmocka_print_error|intros w1].
  apply displays_prints; [apply prints_data_diff|intros w2].
  apply displays_prints; [apply prints_cmocka_print_error|apply displays_ret_false].
Qed.

Lemma count_same_spec (a b : list Z) :
  length a = length b -> (count_same a b <= length a)%nat /\ (count_same a b = length a <-> a = b).
Proof.
  revert b. induction a as [|x a IH]; intros [|y b] Hl; try done.
  destruct (IH b ltac:(by injection Hl)) as [Hle Heq]. cbn.
  destruct (x =? y) eqn:E; zbool; subst.
  - split; [lia|]. split; [|intros [= ->]; f_equal; by apply Heq].
    intros Hs. f_equal. apply Heq. lia.
  - split; [lia|]. split; [lia|]. by intros [= -> _].
Qed.

Lemma memory_not_equal_displays pa pb (a b : list Z) w :
  length a = length b ->
  displays (memory_not_equal_display_error pa pb a b) (negb (bool_decide (a = b))) w.
Proof.
  intros Hl. unfold memory_not_equal_display_error. destruct (count_same_spec a b Hl) as [_ Hs].
  case_bool_decide as Hab.
  - rewrite (proj2 (Nat.eqb_eq _ _)) by by apply Hs.
    apply displays_prints; [apply prints_cmocka_print_error|apply displays_ret_false].
  - rewrite (proj2 (Nat.eqb_neq _ _)) by by rewrite Hs. done.
Qed.
End proofs.
