(* ===== verification/CheckSpec.v ===== *)
(** * The conditions declared parameters check

    [check_passes] is the condition that a declared check puts on a parameter;
    the checking functions of Checks.v decide it. *)
From S2P Require Import Prelude CMonad ListNode World Report Memory SymbolMap Mock FloatCompare Compare Checks Asserts CompareProofs.

(** The condition a declared check [b] puts on a parameter [value], with data
    memory [mem]; None when evaluating it is undefined behaviour or is left to
    the program under test. *)
Definition check_passes (mem : gmap ptr Z) (b : Block) (value : CMockaValueData) : option bool :=
  let string_at p := read_cstr (S (size mem)) mem p in
  e ← block_event b;
  let data := ev_check_value_data e in
  match ev_check_value e, b with
  | Check_any, _ => Some true
  | Check_value, _ => Some (bool_decide (uint_val value = uint_val data))
  | Check_not_value, _ => Some (bool_decide (uint_val value <> uint_val data))
  | Check_string, _ =>
      l ← string_at (val_ptr value); r ← string_at (val_ptr data); Some (bool_decide (l = r))
  | Check_not_string, _ =>
      l ← string_at (val_ptr value); r ← string_at (val_ptr data); Some (bool_decide (l <> r))
  | Check_in_range, BCheckIntegerRange r =>
      Some (bool_decide (minimum r <= uint_val value <= maximum r))
  | Check_not_in_range, BCheckIntegerRange r =>
      Some (bool_decide (uint_val value < minimum r \/ maximum r < uint_val value))
  | Check_int_in_set, BCheckIntegerSet s =>
      if size_of_set s <=? Z.of_nat (length (set_elems s))
      then Some (bool_decide (int_val value ∈ take (Z.to_nat (size_of_set s)) (set_elems s))) else None
  | Check_uint_in_set, BCheckIntegerSet s =>
      if size_of_set s <=? Z.of_nat (length (set_elems s))
      then Some (bool_decide (uint_val value ∈ take (Z.to_nat (size_of_set s)) (set_elems s))) else None
  | Check_not_in_set, BCheckIntegerSet s =>
      if size_of_set s <=? Z.of_nat (length (set_elems s))
      then Some (bool_decide (uint_val value ∉ take (Z.to_nat (size_of_set s)) (set_elems s))) else None
  | Check_memory, BCheckMemoryData m =>
      a ← read_bytes mem (val_ptr value) (Z.to_nat (cm_size m)); Some (bool_decide (a = cm_memory m))
  | Check_not_memory, BCheckMemoryData m =>
      a ← read_bytes mem (val_ptr value) (Z.to_nat (cm_size m));
      if Nat.eqb (length a) (length (cm_memory m)) then Some (bool_decide (a <> cm_memory m)) else None
  | _, _ => None
  end.

(** The data of the structures that carry their own data point to themselves. *)
Definition self_data (p : ptr) (b : Block) : Prop :=
  match b with
  | BCheckIntegerRange r => val_ptr (ev_check_value_data (cr_event r)) = p
  | BCheckIntegerSet s => val_ptr (ev_check_value_data (cs_event s)) = p
  | BCheckMemoryData m => val_ptr (ev_check_value_data (cm_event m)) = p
  | _ => True
  end.

Section checks.
Context `{!Platform}.
Implicit Types w : World.

Lemma checks_ext (m : CM Z) b b' w : b = b' -> checks m b w -> checks m b' w.
Proof. by intros ->. Qed.

Lemma range_condition (lo v hi : Z) : (lo <=? v) && (v <=? hi) = bool_decide (lo <= v <= hi).
Proof. case_bool_decide; lia. Qed.
Lemma outside_condition (lo v hi : Z) : (v <? lo) || (hi <? v) = bool_decide (v < lo \/ hi < v).
Proof. case_bool_decide; lia. Qed.
Lemma in_set_plain v set n : in_set v set n false = bool_decide (v ∈ take (Z.to_nat n) set).
Proof. unfold in_set. by case_bool_decide. Qed.
Lemma in_set_inverted v set n : in_set v set n true = bool_decide (v ∉ take (Z.to_nat n) set).
Proof. unfold in_set. by do 2 case_bool_decide. Qed.

Lemma checks_set (fmt : Z -> string) fe line_ value p s invert w :
  lookup_block w p = Some (BCheckIntegerSet s) -> p <> NULL ->
  (size_of_set s <=? Z.of_nat (length (set_elems s))) = true ->
  checks (int_of (in_set_display_error line_ fmt fe value p (load_set p) invert))
    (in_set value (set_elems s) (size_of_set s) invert) w.
Proof.
  intros Hl Hp Hs%Z.leb_le. apply int_of_checks, in_set_displays; [done| |done].
  apply deref_run. by rewrite Hl.
Qed.

Lemma memory_checks p m value a (invert : bool) w :
  lookup_block w p = Some (BCheckMemoryData m) -> p <> NULL ->
  read_bytes (bytes w) value (Z.to_nat (cm_size m)) = Some a ->
  (invert = true -> length a = length (cm_memory m)) ->
  checks (assert_non_null (if invert then 2169 else 2125) p;;
          ms ← load_memory p;
          a ← load_bytes value ms.2;
          int_of (if invert
                  then memory_not_equal_display_error value (p + SIZEOF_CHECKMEMORYDATA) a ms.1
                  else memory_equal_display_error a ms.1))
    (if invert then negb (bool_decide (a = cm_memory m)) else bool_decide (a = cm_memory m)) w.
Proof.
  intros Hl Hp Ha Hlen. eapply checks_bind; [by apply assert_non_null_ok|].
  apply (checks_bind _ (cm_memory m, cm_size m)); [apply deref_run; by rewrite Hl|].
  apply (checks_bind _ a); [by apply deref_run|]. apply int_of_checks.
  destruct invert; [by apply memory_not_equal_displays, Hlen|apply memory_equal_displays].
Qed.

Lemma range_checks p r (m : Z -> Z -> CM bool) (ok : Z -> Z -> bool) line_ w :
  lookup_block w p = Some (BCheckIntegerRange r) -> p <> NULL ->
  (forall lo hi, displays (m lo hi) (ok lo hi) w) ->
  checks (assert_non_null line_ p;; r ← load_range p; int_of (m r.1 r.2))
    (ok (minimum r) (maximum r)) w.
Proof.
  intros Hl Hp Hm. eapply checks_bind; [by apply assert_non_null_ok|].
  apply (checks_bind _ (minimum r, maximum r)); [apply deref_run; by rewrite Hl|].
  by apply int_of_checks.
Qed.

Lemma string_checks w l r s1 s2 (f : bool -> bool) m :
  read_cstr (S (size (bytes w))) (bytes w) l = Some s1 ->
  read_cstr (S (size (bytes w))) (bytes w) r = Some s2 ->
  checks (int_of (x ← load_cstr l; y ← load_cstr r; report_unless (f (bool_decide (x = y))) (m x y)))
    (f (bool_decide (s1 = s2))) w.
Proof. intros. by apply int_of_checks, string_displays. Qed.

Lemma negb_decide (P : Prop) `{!Decision P} : negb (bool_decide P) = bool_decide (~ P).
Proof. by do 2 case_bool_decide. Qed.

(** The checking function of an event in memory decides its condition. *)
Lemma call_check_decides p b value ok w e :
  lookup_block w p = Some b -> self_data p b -> block_event b = Some e ->
  check_passes (bytes w) b value = Some ok ->
  checks (call_check (ev_check_value e) value (ev_check_value_data e)) ok w.
Proof.
  intros Hl Hself He Hok. unfold check_passes in Hok. rewrite He in Hok. cbn -[read_cstr] in Hok.
  assert (p <> NULL) as Hp by by intros ->.
  destruct (ev_check_value e); cbn [call_check].
  1-5, 10-11: destruct b; try done; injection He as <-; cbn in Hself;
    unfold check_int_in_set, check_uint_in_set, check_not_in_set, check_in_range,
      check_not_in_range, check_memory, check_not_memory; rewrite Hself.
  - destruct (_ <=? _) eqn:Hs; [|done]. injection Hok as <-. rewrite <-in_set_plain. by apply checks_set.
  - destruct (_ <=? _) eqn:Hs; [|done]. injection Hok as <-. rewrite <-in_set_plain. by apply checks_set.
  - destruct (_ <=? _) eqn:Hs; [|done]. injection Hok as <-. rewrite <-in_set_inverted. by apply checks_set.
  - injection Hok as <-. rewrite <-range_condition.
    apply (range_checks p v _ (fun lo hi => (lo <=? uint_val value) && (uint_val value <=? hi))); [done..|].
    intros lo hi. apply report_unless_displays.
  - injection Hok as <-. rewrite <-outside_condition.
    apply (range_checks p v _ (fun lo hi => (uint_val value <? lo) || (hi <? uint_val value))); [done..|].
    intros lo hi. apply report_unless_displays.
  - destruct (read_bytes _ _ _) as [a|] eqn:Ha; [|done]. injection Hok as <-.
    by apply (memory_checks p v (val_ptr value) a false w).
  - destruct (read_bytes _ _ _) as [a|] eqn:Ha; [|done]. cbn in Hok.
    destruct (Nat.eqb_spec (length a) (length (cm_memory v))); [|done]. injection Hok as <-.
    rewrite <-negb_decide. by apply (memory_checks p v (val_ptr value) a true w).
  - injection Hok as <-. eapply checks_ext; [|apply int_of_checks, report_unless_displays].
    case_bool_decide; lia.
  - injection Hok as <-. eapply checks_ext; [|apply int_of_checks, report_unless_displays].
    case_bool_decide; lia.
  - destruct (read_cstr _ _ (val_ptr value)) as [s1|] eqn:H1; [|done]. cbn -[read_cstr] in Hok.
    destruct (read_cstr _ _ (val_ptr (ev_check_value_data e))) as [s2|] eqn:H2; [|done].
    injection Hok as <-.
    by apply (string_checks w _ _ s1 s2 id (fun l r => quoted l +:+ " != " +:+ quoted r +:+ nl)).
  - destruct (read_cstr _ _ (val_ptr value)) as [s1|] eqn:H1; [|done]. cbn -[read_cstr] in Hok.
    destruct (read_cstr _ _ (val_ptr (ev_check_value_data e))) as [s2|] eqn:H2; [|done].
    injection Hok as <-. rewrite <-negb_decide.
    by apply (string_checks w _ _ s1 s2 negb (fun l r => quoted l +:+ " == " +:+ quoted r +:+ nl)).
  - by injection Hok as <-.
  - done.
Qed.
End checks.
