(* ===== verification/AssertTheorems.v ===== *)
(** * Assertions decide their conditions

    The [_assert_*] functions return without any effect if their condition
    holds, and print and end the test otherwise. *)
From S2P Require Import Prelude CMonad ListNode World Report Memory SymbolMap Mock FloatCompare Compare Checks Asserts CompareProofs CheckSpec.

Lemma bool_eq_decide (P : Prop) `{!Decision P} b : (b = true <-> P) -> b = bool_decide P.
Proof. intros Hb. destruct b; symmetry; [apply bool_decide_true|apply bool_decide_false]; naive_solver. Qed.

Ltac decide_bool :=
  apply bool_eq_decide; rewrite ?negb_true_iff, ?andb_true_iff, ?orb_true_iff; lia.

Section theorems.
Context `{!Platform}.
Implicit Types (w : World) (v lo hi : Z) (loc : option string) (lno : Z).

Lemma asserts_ext (m : CM unit) b b' w : b = b' -> asserts m b w -> asserts m b' w.
Proof. by intros ->. Qed.
(** A comparison that reports a computed condition. *)
Ltac report_asserts :=
  eapply asserts_ext; [|apply fail_unless_asserts, report_unless_displays]; decide_bool.

Lemma when_asserts (c : bool) (m : CM unit) loc lno w :
  prints m -> asserts (when (negb c) (m;; _fail loc lno)) c w.
Proof. destruct c; [done|]. intros Hm. by apply prints_then_fail. Qed.

Lemma prints_option_msg msg :
  prints (match msg with Some m => _additional_msg m | None => mret tt end).
Proof. destruct msg; eauto with cmocka. Qed.

Lemma ptr_asserts (c : bool) s msg loc lno w :
  asserts (ok ← report_unless c s;
           when (negb ok) (match msg with Some m => _additional_msg m | None => mret tt end;;
                           _fail loc lno)) c w.
Proof.
  unfold report_unless. destruct c; [done|].
  destruct (prints_cmocka_print_error s w) as (w1 & R1 & Q1).
  destruct (prints_then_fail _ loc lno w1 (prints_option_msg msg)) as (w2 & R2 & Q2).
  exists w2. cbn [when negb]. rewrite bind_assoc_run. mrun R1. mprim. cbn [when negb]. rewrite R2.
  rewrite (exit_outcome_quiet w w1 Q1). split; [done|by etrans].
Qed.

Lemma number_asserts a b v lo hi loc lno w :
  asserts (_assert_int_equal a b loc lno) (bool_decide (a = b)) w /\
  asserts (_assert_int_not_equal a b loc lno) (bool_decide (a <> b)) w /\
  asserts (_assert_uint_equal a b loc lno) (bool_decide (a = b)) w /\
  asserts (_assert_uint_not_equal a b loc lno) (bool_decide (a <> b)) w /\
  asserts (_assert_int_in_range v lo hi loc lno) (bool_decide (lo <= v <= hi)) w /\
  asserts (_assert_int_not_in_range v lo hi loc lno) (bool_decide (v < lo \/ hi < v)) w /\
  asserts (_assert_uint_in_range v lo hi loc lno) (bool_decide (lo <= v <= hi)) w /\
  asserts (_assert_uint_not_in_range v lo hi loc lno) (bool_decide (v < lo \/ hi < v)) w.
Proof. split_and!; report_asserts. Qed.

Lemma condition_asserts r e expr loc lno w :
  asserts (_assert_true r expr loc lno) (bool_decide (r <> 0)) w /\
  asserts (_assert_false r expr loc lno) (bool_decide (r = 0)) w /\
  asserts (_assert_return_code r e expr loc lno) (bool_decide (0 <= r)) w.
Proof.
  split_and!.
  - unfold _assert_true. rewrite <-(negb_involutive (r =? 0)).
    eapply asserts_ext; [|apply when_asserts; eauto with cmocka]. decide_bool.
  - eapply asserts_ext; [|apply when_asserts; eauto with cmocka]. decide_bool.
  - unfold _assert_return_code. rewrite <-(negb_involutive (r <? 0)).
    eapply asserts_ext; [|apply when_asserts; destruct (0 <? e); eauto with cmocka]. decide_bool.
Qed.

Lemma stack_set_asserts line_no fmt fe v values n invert loc lno w :
  n <= Z.of_nat (length values) ->
  asserts (fail_unless (in_set_display_error line_no fmt fe v STACK_ADDRESS (stack_set values n) invert)
             loc lno) (in_set v values n invert) w.
Proof. intros Hn. apply fail_unless_asserts, in_set_displays; [discriminate|reflexivity|exact Hn]. Qed.

Lemma set_asserts v values n loc lno w :
  n <= Z.of_nat (length values) ->
  let member := v ∈ take (Z.to_nat n) values in
  asserts (_assert_int_in_set v values n loc lno) (bool_decide member) w /\
  asserts (_assert_uint_in_set v values n loc lno) (bool_decide member) w /\
  asserts (_assert_int_not_in_set v values n loc lno) (bool_decide (~ member)) w /\
  asserts (_assert_uint_not_in_set v values n loc lno) (bool_decide (~ member)) w /\
  asserts (_assert_not_in_set v values n loc lno) (bool_decide (~ member)) w.
Proof.
  cbv zeta. intros Hn. rewrite <-in_set_inverted, <-in_set_plain.
  split_and!; exact (stack_set_asserts _ _ _ _ _ _ _ loc lno w Hn).
Qed.

(** C27: Each assertion on integers, conditions, return codes, pointers and
    sets returns without any effect if its condition holds, and otherwise
    prints why and ends the test as [exit_test] does; a set is the first
    [number_of_values] elements of an array that has as many. *)
Theorem scalar_assertions_decide a b v lo hi r e p q expr msg values n loc lno w :
  n <= Z.of_nat (length values) ->
  let member := v ∈ take (Z.to_nat n) values in
  (asserts (_assert_int_equal a b loc lno) (bool_decide (a = b)) w /\
   asserts (_assert_int_not_equal a b loc lno) (bool_decide (a <> b)) w /\
   asserts (_assert_uint_equal a b loc lno) (bool_decide (a = b)) w /\
   asserts (_assert_uint_not_equal a b loc lno) (bool_decide (a <> b)) w /\
   asserts (_assert_int_in_range v lo hi loc lno) (bool_decide (lo <= v <= hi)) w /\
   asserts (_assert_int_not_in_range v lo hi loc lno) (bool_decide (v < lo \/ hi < v)) w /\
   asserts (_assert_uint_in_range v lo hi loc lno) (bool_decide (lo <= v <= hi)) w /\
   asserts (_assert_uint_not_in_range v lo hi loc lno) (bool_decide (v < lo \/ hi < v)) w) /\
  (asserts (_assert_int_in_set v values n loc lno) (bool_decide member) w /\
   asserts (_assert_uint_in_set v values n loc lno) (bool_decide member) w /\
   asserts (_assert_int_not_in_set v values n loc lno) (bool_decide (~ member)) w /\
   asserts (_assert_uint_not_in_set v values n loc lno) (bool_decide (~ member)) w /\
   asserts (_assert_not_in_set v values n loc lno) (bool_decide (~ member)) w) /\
  (asserts (_assert_true r expr loc lno) (bool_decide (r <> 0)) w /\
   asserts (_assert_false r expr loc lno) (bool_decide (r = 0)) w /\
   asserts (_assert_return_code r e expr loc lno) (bool_decide (0 <= r)) w) /\
  asserts (_assert_ptr_equal_msg p q loc lno msg) (bool_decide (p = q)) w /\
  asserts (_assert_ptr_not_equal_msg p q loc lno msg) (bool_decide (p <> q)) w.
Proof.
  intros Hn member. split; [apply number_asserts|]. split; [by apply set_asserts|]. split; [apply condition_asserts|].
  split; (eapply asserts_ext; [|apply ptr_asserts]); decide_bool.
Qed.

Lemma string_asserts pa pb sa sb loc lno w :
  read_cstr (S (size (bytes w))) (bytes w) pa = Some sa -> read_cstr (S (size (bytes w))) (bytes w) pb = Some sb ->
  asserts (_assert_string_equal pa pb loc lno) (bool_decide (sa = sb)) w /\
  asserts (_assert_string_not_equal pa pb loc lno) (bool_decide (sa <> sb)) w.
Proof.
  intros Hsa Hsb. rewrite <-negb_decide. split; apply fail_unless_asserts.
  - by apply (string_displays pa pb id (fun l r => quoted l +:+ " != " +:+ quoted r +:+ nl)).
  - by apply (string_displays pa pb negb (fun l r => quoted l +:+ " == " +:+ quoted r +:+ nl)).
Qed.

Lemma memory_block_asserts pa pb n a b loc lno w :
  read_bytes (bytes w) pa (Z.to_nat n) = Some a -> read_bytes (bytes w) pb (Z.to_nat n) = Some b ->
  asserts (_assert_memory_equal pa pb n loc lno) (bool_decide (a = b)) w /\
  asserts (_assert_memory_not_equal pa pb n loc lno) (bool_decide (a <> b)) w.
Proof.
  intros Ha Hb. rewrite <-negb_decide.
  assert (load_two pa pb n w = (Ret (a, b), w)) as Htwo.
  { unfold load_two, load_bytes. rewrite (bind_run _ _ w a w) by by apply deref_run.
    by rewrite (bind_run _ _ w b w) by by apply deref_run. }
  split; apply fail_unless_asserts, (displays_bind _ _ _ _ _ Htwo).
  - apply memory_equal_displays.
  - apply memory_not_equal_displays. by rewrite (read_bytes_length _ _ _ _ Ha), (read_bytes_length _ _ _ _ Hb).
Qed.

(** C26: The string and memory assertions compare the strings and the bytes in
    memory; the report of a difference terminates and never reads beyond
    them. *)
Theorem memory_assertions_decide pa pb sa sb n a b loc lno w :
  let string_at p := read_cstr (S (size (bytes w))) (bytes w) p in
  string_at pa = Some sa -> string_at pb = Some sb ->
  read_bytes (bytes w) pa (Z.to_nat n) = Some a -> read_bytes (bytes w) pb (Z.to_nat n) = Some b ->
  asserts (_assert_string_equal pa pb loc lno) (bool_decide (sa = sb)) w /\
  asserts (_assert_string_not_equal pa pb loc lno) (bool_decide (sa <> sb)) w /\
  asserts (_assert_memory_equal pa pb n loc lno) (bool_decide (a = b)) w /\
  asserts (_assert_memory_not_equal pa pb n loc lno) (bool_decide (a <> b)) w.
Proof.
  cbv zeta. intros Hsa Hsb Ha Hb. destruct (string_asserts pa pb sa sb loc lno w Hsa Hsb).
  by destruct (memory_block_asserts pa pb n a b loc lno w Ha Hb).
Qed.
End theorems.
