(* ===== verification/Coverity.v ===== *)
(** * The Coverity model of the assertions

    src/coverity/coverity_assert_model.c tells a static analyser, for each
    assertion, when it does not return.  Its functions have the names of those
    of src/src/cmocka.c that they stand for; here they are functions of this
    file, and the others those of [Report], [Asserts].  The theorems compare
    the two. *)
From Stdlib Require Import Floats.SpecFloat.
From S2P Require Import Prelude CMonad ListNode World Report Memory FloatCompare FloatTheorems Compare Asserts CompareProofs CheckSpec AssertTheorems.

(** The primitives of the analyser (src/coverity/coverity-builtins.h). *)
Class Analyser := {
  __coverity_panic__ : CM unit;
  __coverity_weak_guard_sink__ : ptr -> ptr -> CM unit;
}.

(** [__coverity_panic__] has the attribute noreturn, and
    [__coverity_weak_guard_sink__] is a mark without effect. *)
Class AnalyserLaws `{!Analyser} : Prop := {
  panic_noreturn w w' : __coverity_panic__ w <> (Ret tt, w');
  guard_sink_silent a b w : __coverity_weak_guard_sink__ a b w = (Ret tt, w);
}.

(** ** The model *)

Section model.
Context `{!Analyser}.

Definition _assert_true (result : Z) (expression : string) (file_ : option string) (line_ : Z) : CM unit :=
  when (result =? 0) __coverity_panic__.

Definition _assert_int_equal (a b : Z) (file_ : option string) (line_ : Z) : CM unit :=
  when (negb (a =? b)) __coverity_panic__.
Definition _assert_uint_equal (a b : Z) (file_ : option string) (line_ : Z) : CM unit :=
  when (negb (a =? b)) __coverity_panic__.
Definition _assert_int_not_equal (a b : Z) (file_ : option string) (line_ : Z) : CM unit :=
  when (a =? b) __coverity_panic__.
Definition _assert_uint_not_equal (a b : Z) (file_ : option string) (line_ : Z) : CM unit :=
  when (a =? b) __coverity_panic__.

Definition _assert_return_code (result error : Z) (expression : string) (file_ : option string) (line_ : Z) : CM unit :=
  when (result <? 0) __coverity_panic__.

Definition _assert_float_equal (a b epsilon : fpnum) (file_ : option string) (line_ : Z) : CM unit :=
  when (negb (SFeqb a b)) __coverity_panic__.
Definition _assert_float_not_equal (a b epsilon : fpnum) (file_ : option string) (line_ : Z) : CM unit :=
  when (SFeqb a b) __coverity_panic__.
Definition _assert_double_equal (a b epsilon : fpnum) (file_ : option string) (line_ : Z) : CM unit :=
  when (negb (SFeqb a b)) __coverity_panic__.
Definition _assert_double_not_equal (a b epsilon : fpnum) (file_ : option string) (line_ : Z) : CM unit :=
  when (negb (SFeqb a b)) __coverity_panic__.

(** The two marks and the two reads with which the models of the string and
    memory assertions begin. *)
Definition read_both (a b : ptr) : CM unit :=
  __coverity_weak_guard_sink__ a b;;
  __coverity_weak_guard_sink__ b a;;
  deref (fun w => bytes w !! a);;
  deref (fun w => bytes w !! b);;
  mret tt.

(** [cmp] is the value of the variable of that name, which the code never
    sets: to the analyser, any value. *)
Definition _assert_string_equal (cmp : Z) (a b : ptr) (file_ : option string) (line_ : Z) : CM unit :=
  read_both a b;; when (negb (cmp =? 0)) __coverity_panic__.
Definition _assert_string_not_equal (cmp : Z) (a b : ptr) (file_ : option string) (line_ : Z) : CM unit :=
  read_both a b;; when (cmp =? 0) __coverity_panic__.
Definition _assert_memory_equal (cmp : Z) (a b : ptr) (size_ : Z) (file_ : option string) (line_ : Z) : CM unit :=
  read_both a b;; when (negb (cmp =? 0)) __coverity_panic__.
Definition _assert_memory_not_equal (cmp : Z) (a b : ptr) (size_ : Z) (file_ : option string) (line_ : Z) : CM unit :=
  read_both a b;; when (cmp =? 0) __coverity_panic__.

Definition _assert_int_in_range (value minimum maximum : Z) (file_ : option string) (line_ : Z) : CM unit :=
  when ((value <? minimum) || (maximum <? value)) __coverity_panic__.
Definition _assert_uint_in_range (value minimum maximum : Z) (file_ : option string) (line_ : Z) : CM unit :=
  when ((value <? minimum) || (maximum <? value)) __coverity_panic__.
Definition _assert_not_in_range (value minimum maximum : Z) (file_ : option string) (line_ : Z) : CM unit :=
  when ((minimum <? value) && (value <? maximum)) __coverity_panic__.

(** The loops over [values] from index [i] on, [count] more elements. *)
Fixpoint in_set_loop (count i : nat) (value : Z) (values : list Z) : CM unit :=
  match count with
  | O => __coverity_panic__
  | S k => e ← deref (fun _ => values !! i);
           if value =? e then mret tt else in_set_loop k (S i) value values
  end.
Fixpoint not_in_set_loop (count i : nat) (value : Z) (values : list Z) : CM unit :=
  match count with
  | O => mret tt
  | S k => e ← deref (fun _ => values !! i);
           when (value =? e) __coverity_panic__;; not_in_set_loop k (S i) value values
  end.

Definition _assert_int_in_set (value : Z) (values : list Z) (number_of_values : Z) (file_ : option string) (line_ : Z) : CM unit :=
  in_set_loop (Z.to_nat number_of_values) 0 value values.
Definition _assert_uint_in_set (value : Z) (values : list Z) (number_of_values : Z) (file_ : option string) (line_ : Z) : CM unit :=
  in_set_loop (Z.to_nat number_of_values) 0 value values.
Definition _assert_int_not_in_set (value : Z) (values : list Z) (number_of_values : Z) (file_ : option string) (line_ : Z) : CM unit :=
  not_in_set_loop (Z.to_nat number_of_values) 0 value values.
Definition _assert_uint_not_in_set (value : Z) (values : list Z) (number_of_values : Z) (file_ : option string) (line_ : Z) : CM unit :=
  not_in_set_loop (Z.to_nat number_of_values) 0 value values.

(** src/coverity/coverity_internal_model.c *)
Definition exit_test (quit_application : Z) : CM unit := __coverity_panic__.
End model.

(** ** What the model says of the assertions *)

Section theorems.
Context `{!Platform, !Analyser, !AnalyserLaws}.
Implicit Types (w : World) (loc : option string) (lno : Z).

(** [m] returns, without any effect, exactly if [b]. *)
Definition decides (m : CM unit) (b : bool) w : Prop := forall w', m w = (Ret tt, w') <-> b = true /\ w' = w.

(** From [w] the two computations return alike. *)
Definition agrees (m m' : CM unit) w : Prop := forall w', m w = (Ret tt, w') <-> m' w = (Ret tt, w').

Lemma decides_agree m m' b w : decides m b w -> decides m' b w -> agrees m m' w.
Proof. intros D D2 w'. by rewrite (D w'), (D2 w'). Qed.

Lemma decides_ext m b b' w : b = b' -> decides m b w -> decides m b' w.
Proof. by intros ->. Qed.

Lemma ret_decides w : decides (mret tt) true w.
Proof. intros w'. split; [by intros [= <-]|by intros [_ ->] ]. Qed.

(** Assertions decide their conditions in this sense, too. *)
Lemma asserts_decides (m : CM unit) b w : asserts m b w -> decides m b w.
Proof.
  unfold asserts, decides. destruct b; [intros -> w'; apply (ret_decides w)|].
  intros (w1 & -> & _) w'. split; [|by intros []]. intros [= E]. by apply exit_outcome_not_ret in E.
Qed.

Lemma panic_decides (c : bool) w : decides (when c __coverity_panic__) (negb c) w.
Proof.
  destruct c; [|apply ret_decides]. intros w'. cbn. split; [|by intros []]. intros E. by apply panic_noreturn in E.
Qed.

Lemma decides_after (m k : CM unit) b w : m w = (Ret tt, w) -> decides k b w -> decides (m;; k) b w.
Proof. intros R K w'. rewrite (bind_run _ _ _ _ _ R). apply K. Qed.

Lemma decides_deref {A} (g : World -> option A) (k : A -> CM unit) a b w :
  g w = Some a -> decides (k a) b w -> decides (x ← deref g; k x) b w.
Proof. intros Hg K w'. rewrite (bind_run _ _ w a w) by by apply deref_run. apply K. Qed.

(** The model of a range or equality assertion and the assertion agree if
    their conditions do. *)
Lemma panic_agrees (c b : bool) (m : CM unit) w :
  negb c = b -> asserts m b w -> agrees (when c __coverity_panic__) m w.
Proof. intros <- Hm. eapply decides_agree; [apply panic_decides|by apply asserts_decides]. Qed.

Lemma in_set_loop_decides value values w : forall n i, (i + n <= length values)%nat ->
  decides (in_set_loop n i value values) (bool_decide (value ∈ take n (skipn i values))) w.
Proof.
  induction n as [|n IH]; intros i Hn; cbn [in_set_loop].
  { rewrite bool_decide_false by apply not_elem_of_nil. apply (panic_decides true). }
  destruct (lookup_lt_is_Some_2 values i ltac:(lia)) as [e He].
  apply decides_deref with e; [done|]. rewrite (drop_S _ _ _ He). cbn [take]. destruct (value =? e) eqn:E; zbool.
  - rewrite bool_decide_true by (subst; by left). apply ret_decides.
  - eapply decides_ext, (IH (S i)); [|lia]. apply bool_decide_ext. rewrite elem_of_cons. naive_solver.
Qed.

Lemma not_in_set_loop_decides value values w : forall n i, (i + n <= length values)%nat ->
  decides (not_in_set_loop n i value values) (negb (bool_decide (value ∈ take n (skipn i values)))) w.
Proof.
  induction n as [|n IH]; intros i Hn; cbn [not_in_set_loop].
  { rewrite bool_decide_false by apply not_elem_of_nil. apply ret_decides. }
  destruct (lookup_lt_is_Some_2 values i ltac:(lia)) as [e He].
  apply decides_deref with e; [done|]. rewrite (drop_S _ _ _ He). cbn [take]. destruct (value =? e) eqn:E; zbool.
  - rewrite bool_decide_true by (subst; by left). intros w'. split; [|by intros []].
    intros ([] & w1 & P & _)%bind_ret_inv. by apply panic_noreturn in P.
  - apply (decides_after _ _ _ _ eq_refl). eapply decides_ext, (IH (S i)); [|lia].
    f_equal. apply bool_decide_ext. rewrite elem_of_cons. naive_solver.
Qed.

Lemma read_both_run a b w :
  is_Some (bytes w !! a) -> is_Some (bytes w !! b) -> read_both a b w = (Ret tt, w).
Proof.
  intros [x Hx] [y Hy]. unfold read_both. mrun (guard_sink_silent a b w). mrun (guard_sink_silent b a w).
  rewrite (bind_run _ _ w x w) by by apply deref_run. by rewrite (bind_run _ _ w y w) by by apply deref_run.
Qed.

Lemma read_bytes_first m p n l : read_bytes m p n = Some l -> (0 < n)%nat -> is_Some (m !! p).
Proof. destruct n; [lia|]. cbn. by destruct (m !! p). Qed.
Lemma read_cstr_first m p n s : read_cstr n m p = Some s -> is_Some (m !! p).
Proof. destruct n; [done|]. cbn. by destruct (m !! p). Qed.

(** [a == b] of the C language, on numbers of equal value. *)
Lemma SFeqb_same a b : SFeqb a b = true -> same_value a b.
Proof.
  unfold SFeqb. destruct a as [[]|[]| |[] ma ea], b as [[]|[]| |[] mb eb]; try done; cbn [SFcompare];
    destruct (ea ?= eb) eqn:He; try done; apply Z.compare_eq in He as ->;
    change (Pos.compare_cont Eq) with Pos.compare; destruct (ma ?= mb)%positive eqn:Hm; try done;
    by apply Pos.compare_eq in Hm as ->.
Qed.

Lemma SFeqb_compare prec emax a b e : SFeqb a b = true -> fp_compare prec emax a b e = true.
Proof.
  intros Hs%SFeqb_same. assert (a = b \/ exists s t, a = S754_zero s /\ b = S754_zero t) as [->|(s & t & -> & ->)].
  { destruct a, b; cbn in Hs; eauto. }
  - apply fp_compare_refl.
  - unfold fp_compare. destruct s, t; cbn [SFsub xorb eqb]; destruct (SFleb _ e); try done;
      by destruct (FLT_EPSILON prec emax).
Qed.

(** C32: For every argument, the models of the assertions on conditions,
    integers, return codes, ranges and sets return exactly when the assertions
    do, without any effect. *)
Theorem coverity_model_agrees a b v lo hi r e expr loc lno w values n :
  n <= Z.of_nat (length values) ->
  (agrees (_assert_true r expr loc lno) (Report._assert_true r expr loc lno) w /\
   agrees (_assert_int_equal a b loc lno) (Asserts._assert_int_equal a b loc lno) w /\
   agrees (_assert_uint_equal a b loc lno) (Asserts._assert_uint_equal a b loc lno) w /\
   agrees (_assert_int_not_equal a b loc lno) (Asserts._assert_int_not_equal a b loc lno) w /\
   agrees (_assert_uint_not_equal a b loc lno) (Asserts._assert_uint_not_equal a b loc lno) w /\
   agrees (_assert_return_code r e expr loc lno) (Asserts._assert_return_code r e expr loc lno) w /\
   agrees (_assert_int_in_range v lo hi loc lno) (Asserts._assert_int_in_range v lo hi loc lno) w /\
   agrees (_assert_uint_in_range v lo hi loc lno) (Asserts._assert_uint_in_range v lo hi loc lno) w) /\
  (agrees (_assert_int_in_set v values n loc lno) (Asserts._assert_int_in_set v values n loc lno) w /\
   agrees (_assert_uint_in_set v values n loc lno) (Asserts._assert_uint_in_set v values n loc lno) w /\
   agrees (_assert_int_not_in_set v values n loc lno) (Asserts._assert_int_not_in_set v values n loc lno) w /\
   agrees (_assert_uint_not_in_set v values n loc lno) (Asserts._assert_uint_not_in_set v values n loc lno) w).
Proof.
  intros Hn.
  destruct (number_asserts a b v lo hi loc lno w) as (A1 & A2 & A3 & A4 & A5 & _ & A7 & _).
  destruct (condition_asserts r e expr loc lno w) as (A9 & _ & A11).
  destruct (set_asserts v values n loc lno w Hn) as (S1 & S2 & S3 & S4 & _). split.
  - split_and!; (eapply panic_agrees; [|eassumption]; decide_bool).
  - rewrite <-negb_decide in S3, S4.
    split_and!; (eapply decides_agree; [|by apply asserts_decides]);
      first [apply (in_set_loop_decides v values w _ 0) | apply (not_in_set_loop_decides v values w _ 0)]; lia.
Qed.

(** ** Where the model does not agree *)

Lemma decides_disagree m m' b b' w : decides m b w -> decides m' b' w -> agrees m m' w <-> b = b'.
Proof.
  intros D D'. split; [|intros <-; by eapply decides_agree]. intros Ha. specialize (Ha w). rewrite (D w), (D' w) in Ha.
  destruct b, b'; naive_solver.
Qed.

Lemma report_decides ok s loc lno w : decides (fail_unless (report_unless ok s) loc lno) ok w.
Proof. apply asserts_decides, fail_unless_asserts, report_unless_displays. Qed.

(** What the models of floating-point assertions decide, and the assertions. *)
Lemma float_models a b epsilon loc lno w :
  (decides (_assert_float_equal a b epsilon loc lno) (SFeqb a b) w /\
   decides (_assert_float_not_equal a b epsilon loc lno) (negb (SFeqb a b)) w /\
   decides (_assert_double_equal a b epsilon loc lno) (SFeqb a b) w /\
   decides (_assert_double_not_equal a b epsilon loc lno) (SFeqb a b) w) /\
  (decides (Asserts._assert_float_equal a b epsilon loc lno) (float_compare a b epsilon) w /\
   decides (Asserts._assert_float_not_equal a b epsilon loc lno) (negb (float_compare a b epsilon)) w /\
   decides (Asserts._assert_double_equal a b epsilon loc lno) (double_compare a b epsilon) w /\
   decides (Asserts._assert_double_not_equal a b epsilon loc lno) (negb (double_compare a b epsilon)) w).
Proof.
  split; split_and!; try apply report_decides; try apply panic_decides;
    (eapply decides_ext; [|apply panic_decides]; by rewrite negb_involutive).
Qed.

Lemma float_agrees x y epsilon loc lno w :
  (agrees (_assert_float_equal x y epsilon loc lno) (Asserts._assert_float_equal x y epsilon loc lno) w <->
   SFeqb x y = float_compare x y epsilon) /\
  (agrees (_assert_float_not_equal x y epsilon loc lno) (Asserts._assert_float_not_equal x y epsilon loc lno) w <->
   SFeqb x y = float_compare x y epsilon) /\
  (agrees (_assert_double_equal x y epsilon loc lno) (Asserts._assert_double_equal x y epsilon loc lno) w <->
   SFeqb x y = double_compare x y epsilon) /\
  (agrees (_assert_double_not_equal x y epsilon loc lno) (Asserts._assert_double_not_equal x y epsilon loc lno) w <->
   SFeqb x y = false /\ double_compare x y epsilon = true).
Proof.
  destruct (float_models x y epsilon loc lno w) as [ (M1 & M2 & M3 & M4) (A1 & A2 & A3 & A4) ].
  rewrite (decides_disagree _ _ _ _ _ M1 A1), (decides_disagree _ _ _ _ _ M2 A2), (decides_disagree _ _ _ _ _ M3 A3), (decides_disagree _ _ _ _ _ M4 A4).
  pose proof (SFeqb_compare 53 1024 x y epsilon) as Hs. fold (double_compare x y epsilon) in Hs.
  destruct (SFeqb x y), (float_compare x y epsilon), (double_compare x y epsilon); naive_solver.
Qed.

(** The models of the string and memory assertions decide [cmp]. *)
Lemma cmp_models cmp a b loc lno size_ w :
  is_Some (bytes w !! a) -> is_Some (bytes w !! b) ->
  (decides (_assert_string_equal cmp a b loc lno) (cmp =? 0) w /\
   decides (_assert_string_not_equal cmp a b loc lno) (negb (cmp =? 0)) w) /\
  (decides (_assert_memory_equal cmp a b size_ loc lno) (cmp =? 0) w /\
   decides (_assert_memory_not_equal cmp a b size_ loc lno) (negb (cmp =? 0)) w).
Proof.
  intros Ha Hb. pose proof (read_both_run a b w Ha Hb) as R.
  split; split; (eapply decides_after; [exact R|]); try apply panic_decides;
    (eapply decides_ext; [|apply panic_decides]; by rewrite negb_involutive).
Qed.

(** Models that decide the same of an equal pair and a different one. *)
Lemma cmp_wrong {A} (a c d : A) `{!EqDecision A} b (m1 m1' m2 m2' n1 n1' n2 n2' : CM unit) w : c <> d ->
  decides m1 b w -> decides m2 (negb b) w -> decides n1 b w -> decides n2 (negb b) w ->
  decides m1' (bool_decide (a = a)) w -> decides m2' (bool_decide (a <> a)) w ->
  decides n1' (bool_decide (c = d)) w -> decides n2' (bool_decide (c <> d)) w ->
  ~ (agrees m1 m1' w /\ agrees n1 n1' w) /\ ~ (agrees m2 m2' w /\ agrees n2 n2' w).
Proof.
  intros Hne M1 M2 N1 N2 A1 A2 B1 B2.
  rewrite (decides_disagree _ _ _ _ _ M1 A1), (decides_disagree _ _ _ _ _ M2 A2), (decides_disagree _ _ _ _ _ N1 B1), (decides_disagree _ _ _ _ _ N2 B2).
  rewrite (bool_decide_true (a = a)), (bool_decide_false (a <> a)), (bool_decide_false (c = d)), (bool_decide_true (c <> d)) by naive_solver.
  destruct b; split; intros []; done.
Qed.

(** C38: Where the models do not agree with the assertions.  The models of the
    floating-point assertions compare exactly: they agree on the arguments on
    which the comparison up to epsilon is the exact one, and never on two
    different numbers within the epsilon, floats and doubles of any magnitude.
    The model of [_assert_double_not_equal] is the wrong way round: it agrees
    only where both end the test, for different numbers within the tolerance.
    The model [_assert_not_in_range], of an assertion that is now called
    [_assert_int_not_in_range], agrees except at the two bounds, which it
    accepts.  The models of the string and memory assertions look only at
    their variable [cmp], which the code never sets: whatever it is, of two
    pairs, one equal and one different, they are wrong about one. *)
Theorem coverity_model_diverges loc lno w :
  (forall x y epsilon,
    (agrees (_assert_float_equal x y epsilon loc lno) (Asserts._assert_float_equal x y epsilon loc lno) w <->
     SFeqb x y = float_compare x y epsilon) /\
    (agrees (_assert_float_not_equal x y epsilon loc lno) (Asserts._assert_float_not_equal x y epsilon loc lno) w <->
     SFeqb x y = float_compare x y epsilon) /\
    (agrees (_assert_double_equal x y epsilon loc lno) (Asserts._assert_double_equal x y epsilon loc lno) w <->
     SFeqb x y = double_compare x y epsilon) /\
    (agrees (_assert_double_not_equal x y epsilon loc lno) (Asserts._assert_double_not_equal x y epsilon loc lno) w <->
     SFeqb x y = false /\ double_compare x y epsilon = true)) /\
  (forall a b e k, a <> b -> Z.abs (a - b) <= e < 2 ^ 24 -> Z.abs a < 2 ^ 24 -> Z.abs b < 2 ^ 24 -> -126 <= k <= 104 ->
    let x := float_of a k in let y := float_of b k in let epsilon := float_of e k in
    ~ agrees (_assert_float_equal x y epsilon loc lno) (Asserts._assert_float_equal x y epsilon loc lno) w /\
    ~ agrees (_assert_float_not_equal x y epsilon loc lno) (Asserts._assert_float_not_equal x y epsilon loc lno) w) /\
  (forall a b e k, a <> b -> Z.abs (a - b) <= e < 2 ^ 53 -> Z.abs a < 2 ^ 53 -> Z.abs b < 2 ^ 53 -> -1051 <= k <= 971 ->
    let x := double_of a k in let y := double_of b k in let epsilon := double_of e k in
    ~ agrees (_assert_double_equal x y epsilon loc lno) (Asserts._assert_double_equal x y epsilon loc lno) w) /\
  (forall v lo hi, lo <= hi ->
    (agrees (_assert_not_in_range v lo hi loc lno) (Asserts._assert_int_not_in_range v lo hi loc lno) w <-> v <> lo /\ v <> hi) /\
    _assert_not_in_range lo lo hi loc lno w = (Ret tt, w) /\ _assert_not_in_range hi lo hi loc lno w = (Ret tt, w)) /\
  (forall cmp pa pb size_, is_Some (bytes w !! pa) -> is_Some (bytes w !! pb) ->
    (decides (_assert_string_equal cmp pa pb loc lno) (cmp =? 0) w /\
     decides (_assert_string_not_equal cmp pa pb loc lno) (negb (cmp =? 0)) w) /\
    (decides (_assert_memory_equal cmp pa pb size_ loc lno) (cmp =? 0) w /\
     decides (_assert_memory_not_equal cmp pa pb size_ loc lno) (negb (cmp =? 0)) w)) /\
  (forall cmp pa pb pc pd sa sc sd,
    read_cstr (S (size (bytes w))) (bytes w) pa = Some sa -> read_cstr (S (size (bytes w))) (bytes w) pb = Some sa ->
    read_cstr (S (size (bytes w))) (bytes w) pc = Some sc -> read_cstr (S (size (bytes w))) (bytes w) pd = Some sd -> sc <> sd ->
    ~ (agrees (_assert_string_equal cmp pa pb loc lno) (Asserts._assert_string_equal pa pb loc lno) w /\
       agrees (_assert_string_equal cmp pc pd loc lno) (Asserts._assert_string_equal pc pd loc lno) w) /\
    ~ (agrees (_assert_string_not_equal cmp pa pb loc lno) (Asserts._assert_string_not_equal pa pb loc lno) w /\
       agrees (_assert_string_not_equal cmp pc pd loc lno) (Asserts._assert_string_not_equal pc pd loc lno) w)) /\
  (forall cmp size_ pa pb pc pd ma mc md, 0 < size_ ->
    read_bytes (bytes w) pa (Z.to_nat size_) = Some ma -> read_bytes (bytes w) pb (Z.to_nat size_) = Some ma ->
    read_bytes (bytes w) pc (Z.to_nat size_) = Some mc -> read_bytes (bytes w) pd (Z.to_nat size_) = Some md -> mc <> md ->
    ~ (agrees (_assert_memory_equal cmp pa pb size_ loc lno) (Asserts._assert_memory_equal pa pb size_ loc lno) w /\
       agrees (_assert_memory_equal cmp pc pd size_ loc lno) (Asserts._assert_memory_equal pc pd size_ loc lno) w) /\
    ~ (agrees (_assert_memory_not_equal cmp pa pb size_ loc lno) (Asserts._assert_memory_not_equal pa pb size_ loc lno) w /\
       agrees (_assert_memory_not_equal cmp pc pd size_ loc lno) (Asserts._assert_memory_not_equal pc pd size_ loc lno) w)).
Proof.
  assert (forall x y epsilon, SFeqb x y = false -> (float_compare x y epsilon = true ->
    ~ agrees (_assert_float_equal x y epsilon loc lno) (Asserts._assert_float_equal x y epsilon loc lno) w /\
    ~ agrees (_assert_float_not_equal x y epsilon loc lno) (Asserts._assert_float_not_equal x y epsilon loc lno) w) /\
    (double_compare x y epsilon = true ->
    ~ agrees (_assert_double_equal x y epsilon loc lno) (Asserts._assert_double_equal x y epsilon loc lno) w)) as Hdiff.
  { intros x y epsilon E. destruct (float_agrees x y epsilon loc lno w) as (F & N & D & _). rewrite F, N, D, E.
    split; [intros ->|intros ->]; done. }
  split; [intros x y epsilon; apply float_agrees|]. split_and!.
  - intros a b e k Hab He Ha Hb Hk. apply Hdiff.
    + apply (fp_of_different 24 128); done || lia || (unfold emin; lia).
    + apply (fp_compare_close 24 128); [lia|lia|by eexists|done..|unfold emin; lia].
  - intros a b e k Hab He Ha Hb Hk. apply Hdiff.
    + apply (fp_of_different 53 1024); done || lia || (unfold emin; lia).
    + apply (fp_compare_close 53 1024); [lia|lia|by eexists|done..|unfold emin; lia].
  - intros v lo hi Hle. pose proof (fun c => panic_decides c w) as M.
    destruct (number_asserts 0 0 v lo hi loc lno w) as (_ & _ & _ & _ & _ & A%asserts_decides & _). unfold _assert_not_in_range. split.
    + rewrite (decides_disagree _ _ _ _ _ (M _) A). destruct (decide (v < lo \/ hi < v)); [rewrite bool_decide_true by done|rewrite bool_decide_false by done];
        destruct (Z.ltb_spec lo v), (Z.ltb_spec v hi); cbn; (split; [try done; lia|intros []; try done; lia]).
    + split; apply M; (split; [by rewrite Z.ltb_irrefl, ?andb_false_r|done]).
  - intros cmp pa pb size_. apply cmp_models.
  - intros cmp pa pb pc pd sa sc sd Ha Hb Hc Hd Hne.
    destruct (cmp_models cmp pa pb loc lno 0 w (read_cstr_first _ _ _ _ Ha) (read_cstr_first _ _ _ _ Hb)) as [ [M1 M2] _].
    destruct (cmp_models cmp pc pd loc lno 0 w (read_cstr_first _ _ _ _ Hc) (read_cstr_first _ _ _ _ Hd)) as [ [N1 N2] _].
    destruct (string_asserts pa pb sa sa loc lno w Ha Hb) as [A1%asserts_decides A2%asserts_decides].
    destruct (string_asserts pc pd sc sd loc lno w Hc Hd) as [B1%asserts_decides B2%asserts_decides].
    by eapply cmp_wrong.
  - intros cmp size_ pa pb pc pd ma mc md Hs Ha Hb Hc Hd Hne.
    destruct (cmp_models cmp pa pb loc lno size_ w) as [_ [M1 M2] ]; [apply (read_bytes_first _ _ _ _ Ha); lia|apply (read_bytes_first _ _ _ _ Hb); lia|].
    destruct (cmp_models cmp pc pd loc lno size_ w) as [_ [N1 N2] ]; [apply (read_bytes_first _ _ _ _ Hc); lia|apply (read_bytes_first _ _ _ _ Hd); lia|].
    destruct (memory_block_asserts pa pb size_ ma ma loc lno w Ha Hb) as [A1%asserts_decides A2%asserts_decides].
    destruct (memory_block_asserts pc pd size_ mc md loc lno w Hc Hd) as [B1%asserts_decides B2%asserts_decides].
    by eapply cmp_wrong.
Qed.
End theorems.
