(* ===== verification/Alloc.v ===== *)
(** * Checked dynamic memory

    [_test_malloc], [_test_calloc], [_test_realloc], [_test_free] and the leak
    check ([check_point_allocated_blocks] to [fail_if_blocks_allocated]) of
    src/src/cmocka.c.

    A libc region is a range of bytes.  The header [MallocBlockInfoData] that
    [_test_malloc] places in it is a typed object: while it is live its bytes
    are not accessible as data. *)
From S2P Require Import Prelude CMonad ListNode World Report Memory Compare.

(** ** Layout *)

Definition MALLOC_GUARD_SIZE : Z := 16.
Definition MALLOC_GUARD_PATTERN : Z := 239.
Definition MALLOC_ALLOC_PATTERN : Z := 186.
Definition MALLOC_FREE_PATTERN : Z := 205.
Definition MALLOC_ALIGNMENT : Z := 16.
(** sizeof(struct MallocBlockInfoData) (LP64) *)
Definition SIZEOF_MALLOCBLOCKINFODATA : Z := 72.
Definition ENOMEM : Z := 12.

Definition ALIGN_DOWN (x a : Z) : Z := Z.land x (Z.lnot (a - 1)).

(** The header of the block whose user memory is at [p]. *)
Definition header_of (p : ptr) : ptr := p - (MALLOC_GUARD_SIZE + SIZEOF_MALLOCBLOCKINFODATA).

(** ** Bytes *)

Fixpoint write_bytes (p : ptr) (l : list Z) (m : gmap ptr Z) : gmap ptr Z :=
  match l with
  | [] => m
  | b :: l' => <[p := b]> (write_bytes (p + 1) l' m)
  end.
Fixpoint erase_bytes (p : ptr) (n : nat) (m : gmap ptr Z) : gmap ptr Z :=
  match n with
  | O => m
  | S k => delete p (erase_bytes (p + 1) k m)
  end.

Definition in_range (p n a : Z) : Prop := p <= a < p + n.
#[export] Instance in_range_dec p n a : Decision (in_range p n a) := _.

(** Forget the headers in a region. *)
Definition erase_infos (p n : Z) (m : gmap ptr MallocBlockInfoData) : gmap ptr MallocBlockInfoData :=
  filter (fun kv => ~ in_range p n kv.1) m.

(** Stores to data memory; storing where there is none is undefined. *)
Definition store_bytes (p : ptr) (l : list Z) : CM unit := fun w =>
  match read_bytes (bytes w) p (length l) with
  | Some _ => (Ret tt, set_bytes (write_bytes p l (bytes w)) w)
  | None => (Undef, w)
  end.
Definition memset (p : ptr) (v n : Z) : CM unit := store_bytes p (replicate (Z.to_nat n) v).

Section code.
Context `{!Platform}.

(** ** The C library *)

(** malloc(size) of a region; its content is indeterminate, here zero. *)
Definition libc_malloc (size_ : Z) : CM ptr := fun w =>
  let p := plat_malloc w size_ in
  if p =? NULL then (Ret NULL, w)
  else (Ret p, set_raw (<[p := size_]> (raw w))
                 (set_bytes (write_bytes p (replicate (Z.to_nat size_) 0) (bytes w)) w)).

(** free(p) of a region. *)
Definition libc_free (p : ptr) : CM unit := fun w =>
  match raw w !! p with
  | Some size_ =>
      (Ret tt, set_raw (delete p (raw w))
                 (set_infos (erase_infos p size_ (infos w))
                   (set_bytes (erase_bytes p (Z.to_nat size_) (bytes w)) w)))
  | None => (Undef, w)
  end.

(** memset(block, v, n) over a region: its header becomes data. *)
Definition memset_region (p : ptr) (v n : Z) : CM unit := fun w =>
  match raw w !! p with
  | Some size_ =>
      if n <=? size_ then
        (Ret tt, set_infos (erase_infos p n (infos w))
                   (set_bytes (write_bytes p (replicate (Z.to_nat n) v) (bytes w)) w))
      else (Undef, w)
  | None => (Undef, w)
  end.

(** The stores that create the header at [h]. *)
Definition store_info (h : ptr) (i : MallocBlockInfoData) : CM unit := fun w =>
  match read_bytes (bytes w) h (Z.to_nat SIZEOF_MALLOCBLOCKINFODATA) with
  | Some _ =>
      (Ret tt, set_infos (<[h := i]> (infos w))
                 (set_bytes (erase_bytes h (Z.to_nat SIZEOF_MALLOCBLOCKINFODATA) (bytes w)) w))
  | None => (Undef, w)
  end.
Definition load_info (h : ptr) : CM MallocBlockInfoData := deref (fun w => infos w !! h).

(** ** Allocation *)

Definition get_allocated_blocks_list : CM ptr :=
  v ← get_value global_allocated_blocks;
  (if v =? NULL then
     list_initialize global_allocated_blocks;;
     set_value global_allocated_blocks 1
   else mret tt);;
  mret global_allocated_blocks.

Definition _test_malloc (size_ : Z) (file_ : option string) (line_ : Z) : CM ptr :=
  block_list ← get_allocated_blocks_list;
  let allocate_size := to_u64 (size_ + MALLOC_GUARD_SIZE * 2 + SIZEOF_MALLOCBLOCKINFODATA +
                               MALLOC_ALIGNMENT) in
  assert_true 2687 "allocate_size > size" (size_ <? allocate_size);;
  block ← libc_malloc allocate_size;
  assert_non_null 2690 block;;
  let ptr := ALIGN_DOWN (block + MALLOC_GUARD_SIZE + SIZEOF_MALLOCBLOCKINFODATA +
                         MALLOC_ALIGNMENT) MALLOC_ALIGNMENT in
  memset (ptr - MALLOC_GUARD_SIZE) MALLOC_GUARD_PATTERN MALLOC_GUARD_SIZE;;
  memset (ptr + size_) MALLOC_GUARD_PATTERN MALLOC_GUARD_SIZE;;
  memset ptr MALLOC_ALLOC_PATTERN size_;;
  let block_info := header_of ptr in
  store_info block_info
    (mkMallocBlockInfoData block allocate_size size_ (mkSourceLocation file_ line_)
       (with_value block_info junk_node));;
  list_add block_list block_info;;
  mret ptr.

Definition _test_calloc (number_of_elements size_ : Z) (file_ : option string) (line_ : Z) : CM ptr :=
  if (0 <? size_) && (SIZE_MAX / size_ <? number_of_elements) then
    modify (set_errno ENOMEM);;
    mret NULL
  else
    ptr ← _test_malloc (number_of_elements * size_) file_ line_;
    (if negb (ptr =? NULL) then memset ptr 0 (number_of_elements * size_) else mret tt);;
    mret ptr.

(** ** Deallocation *)

Definition guard_corrupt (ptr guard : Z) (info : MallocBlockInfoData) (file_ : option string)
    (line_ : Z) : CM unit :=
  cmocka_print_error (fmt_location file_ line_ +:+ ": error: Guard block of " +:+ plat_fmt_p ptr +:+
    " size=" +:+ fmt_u (mb_size info) +:+ " is corrupt" +:+ nl +:+
    fmt_location (file (mb_location info)) (line (mb_location info)) +:+
    ": note: allocated here at " +:+ plat_fmt_p guard +:+ nl);;
  _fail file_ line_.

(** The inner loop: [count] more bytes of a guard from [guard] on.  The byte
    minus the pattern, converted to char, is zero exactly if they are equal. *)
Fixpoint check_guard (count : nat) (guard ptr : Z) (info : MallocBlockInfoData)
    (file_ : option string) (line_ : Z) : CM unit :=
  match count with
  | O => mret tt
  | S k =>
      b ← deref (fun w => bytes w !! guard);
      when (negb ((b - MALLOC_GUARD_PATTERN) mod 256 =? 0)) (guard_corrupt ptr guard info file_ line_);;
      check_guard k (guard + 1) ptr info file_ line_
  end.

Definition _test_free (ptr : ptr) (file_ : option string) (line_ : Z) : CM unit :=
  if ptr =? NULL then mret tt
  else
    _assert_ptr_not_equal_msg ptr NULL file_ line_ None;;
    let block_info := header_of ptr in
    info ← load_info block_info;
    check_guard (Z.to_nat MALLOC_GUARD_SIZE) (ptr - MALLOC_GUARD_SIZE) ptr info file_ line_;;
    check_guard (Z.to_nat MALLOC_GUARD_SIZE) (ptr + mb_size info) ptr info file_ line_;;
    list_remove block_info None;;
    memset_region (mb_block info) MALLOC_FREE_PATTERN (mb_allocated_size info);;
    libc_free (mb_block info).

Definition _test_realloc (ptr : ptr) (size_ : Z) (file_ : option string) (line_ : Z) : CM Z :=
  if ptr =? NULL then _test_malloc size_ file_ line_
  else if size_ =? 0 then _test_free ptr file_ line_;; mret NULL
  else
    let block_info := header_of ptr in
    new_block ← _test_malloc size_ file_ line_;
    if new_block =? NULL then mret NULL
    else
      info ← load_info block_info;
      let block_size := if mb_size info <? size_ then mb_size info else size_ in
      data ← load_bytes ptr block_size;
      store_bytes new_block data;;
      _test_free ptr file_ line_;;
      mret new_block.

(** ** Leaks *)

Definition check_point_allocated_blocks : CM ptr :=
  l ← get_allocated_blocks_list; get_prev l.

(** The [for] loop: it counts the blocks from [node] on. *)
Fixpoint display_blocks_loop (fuel : nat) (head node allocated_blocks : Z) : CM Z :=
  match fuel with
  | O => no_fuel
  | S k =>
      if node =? head then mret allocated_blocks
      else
        block_info ← get_value node;
        assert_non_null 2841 block_info;;
        (if allocated_blocks =? 0 then cmocka_print_error ("Blocks allocated..." +:+ nl) else mret tt);;
        info ← load_info block_info;
        cmocka_print_error (fmt_location (file (mb_location info)) (line (mb_location info)) +:+
          ": note: block " +:+ plat_fmt_p (mb_block info) +:+ " allocated here" +:+ nl);;
        node' ← get_next node;
        display_blocks_loop k head node' (allocated_blocks + 1)
  end.

Definition display_allocated_blocks (check_point : ptr) : CM Z :=
  head ← get_allocated_blocks_list;
  assert_non_null 2834 check_point;;
  next ← get_next check_point;
  assert_non_null 2835 next;;
  fuel ← gets node_bound;
  display_blocks_loop (S fuel) head next 0.

(** The [while] loop; free() is [test_free], called from this line. *)
Fixpoint free_blocks_loop (fuel : nat) (head node : ptr) : CM unit :=
  match fuel with
  | O => no_fuel
  | S k =>
      if node =? head then mret tt
      else
        block_info ← get_value node;
        node' ← get_next node;
        _test_free (block_info + SIZEOF_MALLOCBLOCKINFODATA + MALLOC_GUARD_SIZE) CMOCKA_C 2870;;
        free_blocks_loop k head node'
  end.

Definition free_allocated_blocks (check_point : ptr) : CM unit :=
  head ← get_allocated_blocks_list;
  assert_non_null 2860 check_point;;
  node ← get_next check_point;
  assert_non_null 2863 node;;
  fuel ← gets node_bound;
  free_blocks_loop (S fuel) head node.

Definition fail_if_blocks_allocated (check_point : ptr) (test_name : string) : CM unit :=
  allocated_blocks ← display_allocated_blocks check_point;
  when (0 <? allocated_blocks)
    (free_allocated_blocks check_point;;
     cmocka_print_error ("ERROR: " +:+ test_name +:+ " leaked " +:+ fmt_u allocated_blocks +:+
                         " block(s)" +:+ nl);;
     exit_test true).
End code.
