(* ===== verification/AllocBytes.v ===== *)
(** * Byte ranges

    Reading, writing and erasing ranges of the byte memory, and the layout of
    the blocks of [_test_malloc]. *)
From S2P Require Import Prelude CMonad ListNode World Report Memory FloatCompare Compare Alloc.

Implicit Types (m : gmap ptr Z) (p a n : Z).

(** Every address of a range holds a byte. *)
Definition present m p n : Prop := forall a, in_range p n a -> is_Some (m !! a).

Lemma read_bytes_present m p (k : nat) :
  present m p (Z.of_nat k) <-> is_Some (read_bytes m p k).
Proof.
  revert p. induction k as [|k IH]; intros p; cbn [read_bytes].
  - split; [by eexists|]. intros _ a Ha. unfold in_range in Ha. lia.
  - split.
    + intros Hp. destruct (Hp p) as [b Hb]; [unfold in_range; lia|]. rewrite Hb. cbn.
      apply fmap_is_Some, IH. intros a Ha. apply Hp. unfold in_range in *. lia.
    + intros Hs a Ha. destruct (m !! p) as [b|] eqn:Hb; [|by destruct Hs].
      cbn in Hs. rewrite fmap_is_Some in Hs. apply IH in Hs.
      destruct (decide (a = p)) as [->|Hne]; [by eexists|]. apply Hs. unfold in_range in *. lia.
Qed.

Lemma read_bytes_lookup m p (k i : nat) l :
  read_bytes m p k = Some l -> (i < k)%nat -> m !! (p + Z.of_nat i) = l !! i.
Proof.
  revert p i l. induction k as [|k IH]; intros p i l Hl Hi; [lia|]. cbn [read_bytes] in Hl.
  destruct (m !! p) as [b|] eqn:Hb; [|done]. cbn in Hl. apply fmap_Some in Hl as (l' & Hl & ->).
  destruct i as [|i]; [by rewrite Z.add_0_r, Hb|].
  change ((b :: l') !! S i) with (l' !! i). rewrite <-(IH (p + 1) i l' Hl) by lia. f_equal. lia.
Qed.

(** Reading a range is looking up each of its addresses. *)
Lemma read_bytes_iff m p (k : nat) l :
  read_bytes m p k = Some l <->
  length l = k /\ forall i, (i < k)%nat -> m !! (p + Z.of_nat i) = l !! i.
Proof.
  split.
  - intros Hl. split; [|intros i Hi; by eapply read_bytes_lookup].
    revert p l Hl. induction k as [|k IH]; intros p l Hl; cbn in Hl; [by injection Hl as <-|].
    destruct (m !! p); [|done]. cbn in Hl. apply fmap_Some in Hl as (l' & Hl & ->). cbn. f_equal. by eapply IH.
  - intros [Hlen Hat]. revert p l Hlen Hat. induction k as [|k IH]; intros p [|b l] Hlen Hat; try done.
    cbn [read_bytes]. pose proof (Hat 0%nat ltac:(lia)) as H0. rewrite Z.add_0_r in H0. rewrite H0. cbn.
    rewrite (IH (p + 1) l); [done|by injection Hlen|]. intros i Hi.
    replace (p + 1 + Z.of_nat i) with (p + Z.of_nat (S i)) by lia. rewrite Hat by lia. done.
Qed.

Lemma read_bytes_ext m m' p (k : nat) :
  (forall a, in_range p (Z.of_nat k) a -> m' !! a = m !! a) -> read_bytes m' p k = read_bytes m p k.
Proof.
  revert p. induction k as [|k IH]; intros p Heq; [done|]. cbn [read_bytes].
  rewrite Heq by (unfold in_range; lia). rewrite IH; [done|].
  intros a Ha. apply Heq. unfold in_range in *. lia.
Qed.

Lemma write_bytes_lookup m p l a :
  write_bytes p l m !! a =
    if decide (in_range p (Z.of_nat (length l)) a) then l !! Z.to_nat (a - p) else m !! a.
Proof.
  revert p. induction l as [|b l IH]; intros p; cbn [write_bytes length].
  - rewrite decide_False; [done|]. unfold in_range. lia.
  - destruct (decide (a = p)) as [->|Hne].
    + rewrite lookup_insert_eq, decide_True by (unfold in_range; lia). by rewrite Z.sub_diag.
    + rewrite lookup_insert_ne, IH by done. unfold in_range. repeat case_decide; try lia; [|done].
      replace (Z.to_nat (a - p)) with (S (Z.to_nat (a - (p + 1)))) by lia. done.
Qed.

Lemma fill_lookup m p v n a :
  write_bytes p (replicate (Z.to_nat n) v) m !! a =
    if decide (in_range p n a) then Some v else m !! a.
Proof.
  rewrite write_bytes_lookup, length_replicate. unfold in_range. repeat case_decide; try lia; [|done].
  by rewrite lookup_replicate_2 by lia.
Qed.

Lemma erase_bytes_lookup m p (k : nat) a :
  erase_bytes p k m !! a = if decide (in_range p (Z.of_nat k) a) then None else m !! a.
Proof.
  revert p. induction k as [|k IH]; intros p; cbn [erase_bytes].
  - rewrite decide_False; [done|]. unfold in_range. lia.
  - destruct (decide (a = p)) as [->|Hne].
    + rewrite lookup_delete_eq, decide_True; [done|]. unfold in_range. lia.
    + rewrite lookup_delete_ne, IH by done. unfold in_range. repeat case_decide; try lia; done.
Qed.

Lemma erase_infos_lookup (f : gmap ptr MallocBlockInfoData) p n a :
  erase_infos p n f !! a = if decide (in_range p n a) then None else f !! a.
Proof.
  unfold erase_infos. case_decide as Ha.
  - apply map_lookup_filter_None. right. intros i _ Hn. by apply Hn.
  - destruct (f !! a) as [i|] eqn:Hi.
    + by apply map_lookup_filter_Some.
    + apply map_lookup_filter_None. by left.
Qed.

(** ** Alignment *)

Lemma ALIGN_DOWN_spec x : ALIGN_DOWN x 16 = x - x mod 16.
Proof.
  unfold ALIGN_DOWN. change (16 - 1) with (Z.ones 4). change 16 with (2 ^ 4).
  rewrite <-Z.ldiff_land, Z.ldiff_ones_r by lia.
  rewrite Z.shiftl_mul_pow2, Z.shiftr_div_pow2 by lia.
  pose proof (Z.div_mod x (2 ^ 4) ltac:(lia)). lia.
Qed.

Lemma ALIGN_DOWN_bounds x : x - 16 < ALIGN_DOWN x 16 <= x /\ ALIGN_DOWN x 16 mod 16 = 0.
Proof.
  rewrite ALIGN_DOWN_spec. pose proof (Z.mod_pos_bound x 16 ltac:(lia)). split; [lia|].
  rewrite Zminus_mod_idemp_r, Z.sub_diag. done.
Qed.

Section runs.
Context `{!Platform}.
Implicit Types w : World.

Lemma memset_run w p v n :
  present (bytes w) p n -> 0 <= n ->
  memset p v n w = (Ret tt, set_bytes (write_bytes p (replicate (Z.to_nat n) v) (bytes w)) w).
Proof.
  intros Hp Hn. unfold memset, store_bytes. rewrite length_replicate.
  destruct (proj1 (read_bytes_present (bytes w) p (Z.to_nat n))) as [l ->]; [|done].
  by rewrite Z2Nat.id.
Qed.

Lemma store_info_run w h i :
  present (bytes w) h SIZEOF_MALLOCBLOCKINFODATA ->
  store_info h i w = (Ret tt, set_infos (<[h := i]> (infos w))
    (set_bytes (erase_bytes h (Z.to_nat SIZEOF_MALLOCBLOCKINFODATA) (bytes w)) w)).
Proof.
  intros Hp. unfold store_info.
  destruct (proj1 (read_bytes_present (bytes w) h (Z.to_nat SIZEOF_MALLOCBLOCKINFODATA))) as [l ->]; done.
Qed.
End runs.
