(* ===== verification/AllocProofs.v ===== *)
(** * The heap of checked blocks

    The invariant [heap] of the list of allocated blocks and of their memory,
    and its preservation by allocation and deallocation. *)
From S2P Require Import Prelude CMonad ListNode World Report Memory FloatCompare Compare Alloc AllocBytes.

Abbreviation hA := global_allocated_blocks.

(** The members of a header other than its list node. *)
Definition meta (i : MallocBlockInfoData) : ptr * Z * Z * SourceLocation :=
  (mb_block i, mb_allocated_size i, mb_size i, mb_location i).

(** The bytes cmocka adds to a block. *)
Definition OVERHEAD : Z := 120.

(** The header at [h] describes a live block of [size_] bytes in the region at
    [block]: header, guard, user memory, guard. *)
Record live (w : World) (h block size_ : Z) (loc : SourceLocation) : Prop := {
  lv_block : blocks w !! h = None;
  lv_meta : meta <$> infos w !! h = Some (block, size_ + OVERHEAD, size_, loc);
  lv_raw : raw w !! block = Some (size_ + OVERHEAD);
  lv_size : 0 <= size_;
  lv_place : HEAP_START <= block /\ block <= h <= block + 16;
  lv_bytes : present (bytes w) (h + SIZEOF_MALLOCBLOCKINFODATA) (size_ + 2 * MALLOC_GUARD_SIZE);
}.

(** [hs] are the headers of the live blocks, in the order of allocation. *)
Record heap `{!Platform} (w : World) (hs : list ptr) : Prop := {
  hp_list : dll w hA ((fun h => (h, h, 0)) <$> hs);
  hp_head : exists v r, data_of w hA = Some (v, r) /\ v <> NULL;
  hp_live : forall h, h ∈ hs -> exists block size_ loc, live w h block size_ loc;
  hp_raw : forall b s b' s', raw w !! b = Some s -> raw w !! b' = Some s' -> b <> b' ->
    b + Z.max 1 s <= b' \/ b' + Z.max 1 s' <= b;
  hp_inj : forall h h' block s s' l l', h ∈ hs -> h' ∈ hs ->
    live w h block s l -> live w h' block s' l' -> h = h';
}.

(** Every byte of a range has the value [v]. *)
Definition filled (w : World) (p n v : Z) : Prop := forall a, in_range p n a -> bytes w !! a = Some v.

(** The memory holds bytes. *)
Definition bytes_valid (w : World) : Prop := forall a b, bytes w !! a = Some b -> 0 <= b < 256.

(** The two guards of the block at [h]. *)
Definition guards_intact (w : World) (h size_ : Z) : Prop :=
  filled w (h + SIZEOF_MALLOCBLOCKINFODATA) MALLOC_GUARD_SIZE MALLOC_GUARD_PATTERN /\
  filled w (h + SIZEOF_MALLOCBLOCKINFODATA + MALLOC_GUARD_SIZE + size_) MALLOC_GUARD_SIZE
    MALLOC_GUARD_PATTERN.

(** The user memory of the block at [h]. *)
Definition user_of (h : ptr) : ptr := h + SIZEOF_MALLOCBLOCKINFODATA + MALLOC_GUARD_SIZE.

Lemma header_user h : header_of (user_of h) = h.
Proof. unfold header_of, user_of. lia. Qed.

(** [w'] differs from [w] in memory only. *)
Definition memory_only (w w' : World) : Prop :=
  exists b i r m, w' = set_blocks b (set_infos i (set_raw r (set_bytes m w))).

#[export] Instance memory_only_preorder : PreOrder memory_only.
Proof.
  split.
  - intros w. exists (blocks w), (infos w), (raw w), (bytes w). by destruct w.
  - intros w1 w2 w3 (b & i & r & m & ->) (b' & i' & r' & m' & ->). exists b', i', r', m'. by destruct w1.
Qed.
Lemma memory_only_exit {A} `{!Platform} w w' : memory_only w w' -> @exit_outcome A w' = exit_outcome w.
Proof. by intros (b & i & r & m & ->). Qed.

Lemma addrs_headers hs : addrs ((fun h => (h, h, 0)) <$> hs) = hs.
Proof. unfold addrs. rewrite <-list_fmap_compose. by apply list_fmap_id. Qed.

(** The typed blocks of [w] other than the head of the list are as before. *)
Definition blocks_kept (w w' : World) : Prop :=
  forall x, x <> hA -> is_Some (blocks w !! x) -> blocks w' !! x = blocks w !! x.

#[export] Instance blocks_kept_preorder : PreOrder blocks_kept.
Proof.
  split; [done|]. intros w1 w2 w3 H12 H23 x Hx Hs. rewrite H23; [by apply H12|done|]. by rewrite H12.
Qed.

Section proofs.
Context `{!Platform, !PlatformLaws}.
Implicit Types (w : World) (h p : Z) (hs : list ptr).

(** List operations only change the nodes of headers. *)
Lemma touches_meta W w w' :
  touches W [] w w' -> forall h, meta <$> infos w' !! h = meta <$> infos w !! h.
Proof.
  induction 1 as [w|w w' p n Hp Hn _ IH|w w' p Hp|w w1 w' p Hp]; intros h; [done| |by apply not_elem_of_nil in Hp..].
  rewrite IH. unfold put_node, world_heap, world_put_node. destruct (blocks w !! p); [done|]. cbn.
  destruct (decide (h = p)) as [->|]; [|by rewrite lookup_alter_ne].
  rewrite lookup_alter_eq. by destruct (infos w !! p) as [ []|].
Qed.

Lemma touches_blocks_none W w w' h :
  touches W [] w w' -> blocks w !! h = None -> blocks w' !! h = None.
Proof.
  induction 1 as [w|w w' p n Hp Hn _ IH|w w' p Hp|w w1 w' p Hp]; intros Hb; [done| |by apply not_elem_of_nil in Hp..].
  apply IH. unfold put_node, world_heap, world_put_node. destruct (blocks w !! p) eqn:Hbp; [|done]. cbn.
  rewrite lookup_insert_ne; [done|]. intros ->. congruence.
Qed.

Lemma touches_memory W w w' : touches W [] w w' -> memory_only w w'.
Proof.
  intros (b & i & ->)%touches_world. exists b, i, (raw w), (bytes w). by destruct w.
Qed.

Lemma touches_kept W w w' :
  touches W [] w w' -> (forall h, h ∈ W -> h = hA \/ blocks w !! h = None) -> blocks_kept w w'.
Proof.
  intros Ht HW x Hx Hs. apply (touches_block _ _ _ _ x Ht); [|apply not_elem_of_nil].
  intros [->|Hn]%HW; [done|]. rewrite Hn in Hs. by destruct Hs.
Qed.

Lemma touches_live W w w' h b s l : touches W [] w w' -> live w h b s l -> live w' h b s l.
Proof.
  intros Ht [H1 H2 H3 H4 H5 H6]. pose proof (touches_world _ _ _ _ Ht) as (bl & i & Hw).
  split; [by eapply touches_blocks_none|by rewrite (touches_meta _ _ _ Ht)| |done|done|];
    by rewrite Hw.
Qed.

(** The description of a live block is unique. *)
Lemma live_unique w h b s l b' s' l' : live w h b s l -> live w h b' s' l' -> b = b' /\ s = s' /\ l = l'.
Proof. intros [_ E1 _ _ _ _] [_ E2 _ _ _ _]. rewrite E1 in E2. by injection E2 as -> _ -> ->. Qed.

(** A live block in a state that agrees on its region. *)
Lemma live_frame w w' h b s l :
  live w h b s l ->
  blocks w' !! h = None -> infos w' !! h = infos w !! h -> raw w' !! b = raw w !! b ->
  (forall a, in_range b (s + OVERHEAD) a -> is_Some (bytes w !! a) -> is_Some (bytes w' !! a)) ->
  live w' h b s l.
Proof.
  intros [H1 H2 H3 H4 H5 H6] Hb Hi Hr Hm. split; [done|by rewrite Hi|by rewrite Hr|done|done|].
  intros a Ha. apply Hm; [|by apply H6].
  unfold in_range, OVERHEAD, SIZEOF_MALLOCBLOCKINFODATA, MALLOC_GUARD_SIZE in *. lia.
Qed.

(** ** Allocation *)

Lemma get_list_run w hs : heap w hs -> get_allocated_blocks_list w = (Ret hA, w).
Proof.
  intros Hh. destruct (hp_head _ _ Hh) as (v & r & Hd & Hv). unfold get_allocated_blocks_list.
  mrun (get_value_run w hA v r Hd). rewrite (proj2 (Z.eqb_neq _ _) Hv). by mprim.
Qed.

(** The address of the user memory in a region at [block]. *)
Definition placed (block : Z) : Z :=
  ALIGN_DOWN (block + MALLOC_GUARD_SIZE + SIZEOF_MALLOCBLOCKINFODATA + MALLOC_ALIGNMENT) MALLOC_ALIGNMENT.

Lemma placed_bounds block : block + 88 < placed block <= block + 104 /\ placed block mod 16 = 0.
Proof.
  unfold placed, MALLOC_GUARD_SIZE, SIZEOF_MALLOCBLOCKINFODATA, MALLOC_ALIGNMENT.
  pose proof (ALIGN_DOWN_bounds (block + 16 + 72 + 16)). lia.
Qed.

(** The region with its guards, its pattern and its header. *)
Definition furnished (w w' : World) (block size_ : Z) (i : MallocBlockInfoData) : Prop :=
  let p := placed block in
  blocks w' = blocks w /\ infos w' = <[header_of p := i]> (infos w) /\ raw w' = raw w /\ memory_only w w' /\
  filled w' (p - MALLOC_GUARD_SIZE) MALLOC_GUARD_SIZE MALLOC_GUARD_PATTERN /\
  filled w' p size_ MALLOC_ALLOC_PATTERN /\
  filled w' (p + size_) MALLOC_GUARD_SIZE MALLOC_GUARD_PATTERN /\
  (forall a, ~ in_range block (size_ + OVERHEAD) a -> bytes w' !! a = bytes w !! a) /\
  (bytes_valid w -> bytes_valid w').

Lemma furnish_run {A} w block size_ i (k : unit -> CM A) :
  0 <= size_ -> present (bytes w) block (size_ + OVERHEAD) ->
  let p := placed block in
  exists w', (memset (p - MALLOC_GUARD_SIZE) MALLOC_GUARD_PATTERN MALLOC_GUARD_SIZE;;
    memset (p + size_) MALLOC_GUARD_PATTERN MALLOC_GUARD_SIZE;;
    memset p MALLOC_ALLOC_PATTERN size_;;
    u ← store_info (header_of p) i; k u) w = k tt w' /\ furnished w w' block size_ i.
Proof.
  intros Hs Hp p. pose proof (placed_bounds block) as [Hb _]. fold p in Hb.
  unfold in_range, OVERHEAD, MALLOC_GUARD_SIZE, header_of, SIZEOF_MALLOCBLOCKINFODATA in *.
  assert (forall q n v c m, present m block (size_ + 120) ->
    present (write_bytes q (replicate (Z.to_nat n) v) m) c 0 /\
    present (write_bytes q (replicate (Z.to_nat n) v) m) block (size_ + 120)) as Hkeep.
  { intros q n v c m Hm. split; intros a Ha; [unfold in_range in Ha; lia|].
    rewrite fill_lookup. case_decide; [eauto|by apply Hm]. }
  assert (forall m q n, present m block (size_ + 120) -> block <= q -> q + n <= block + size_ + 120 ->
    present m q n) as Hsub.
  { intros m q n Hm H1 H2 a Ha. apply Hm. unfold in_range in *. lia. }
  rewrite (bind_run _ _ _ _ _ (memset_run w (p - 16) MALLOC_GUARD_PATTERN 16 ltac:(apply Hsub; [done|lia..]) ltac:(lia))).
  set (w1 := set_bytes _ w).
  assert (present (bytes w1) block (size_ + 120)) as Hp1 by (by apply Hkeep).
  rewrite (bind_run _ _ _ _ _ (memset_run w1 (p + size_) MALLOC_GUARD_PATTERN 16 ltac:(apply Hsub; [done|lia..]) ltac:(lia))).
  set (w2 := set_bytes _ w1).
  assert (present (bytes w2) block (size_ + 120)) as Hp2 by (by apply Hkeep).
  rewrite (bind_run _ _ _ _ _ (memset_run w2 p MALLOC_ALLOC_PATTERN size_ ltac:(apply Hsub; [done|lia..]) ltac:(lia))).
  set (w3 := set_bytes _ w2).
  assert (present (bytes w3) block (size_ + 120)) as Hp3 by (by apply Hkeep).
  rewrite (bind_run _ _ _ _ _ (store_info_run w3 (p - (16 + 72)) i ltac:(apply Hsub; [done|unfold SIZEOF_MALLOCBLOCKINFODATA; lia..]))).
  eexists. split; [done|]. unfold furnished, header_of, filled, in_range, OVERHEAD, MALLOC_GUARD_SIZE, SIZEOF_MALLOCBLOCKINFODATA.
  fold p. split_and!; [done..| | | | | |].
  6: { intros Hv a b. unfold w3, w2, w1. cbn [bytes set_infos set_bytes].
    rewrite erase_bytes_lookup, !fill_lookup. unfold MALLOC_ALLOC_PATTERN, MALLOC_GUARD_PATTERN.
    repeat case_decide; try done; try (intros [= <-]; lia). apply Hv. }
  1: { exists (blocks w), (<[p - (16 + 72) := i]> (infos w)), (raw w). eexists. unfold w3, w2, w1. by destruct w. }
  all: intros a Ha; unfold w3, w2, w1; cbn [bytes set_infos set_bytes];
    rewrite erase_bytes_lookup, !fill_lookup; unfold in_range, SIZEOF_MALLOCBLOCKINFODATA;
    repeat case_decide; try done; lia.
Qed.

(** A header is inside its region, which is apart from fresh memory. *)
Lemma live_fresh w h b s l p n x :
  live w h b s l -> fresh_region w p n -> in_range b (s + OVERHEAD) x -> ~ in_range p n x.
Proof.
  intros [_ _ Hr _ _ _] (_ & _ & Hf). pose proof (Hf b _ Hr). unfold in_range. lia.
Qed.

Lemma live_header w h b s l : live w h b s l -> in_range b (s + OVERHEAD) h /\ h <> hA /\ h <> NULL.
Proof.
  intros [_ _ _ Hs [Hb Hp] _]. unfold in_range, OVERHEAD, HEAP_START, hA, NULL in *. lia.
Qed.

Lemma get_node_header w h : blocks w !! h = None -> h <> NULL -> get_node w h = mb_node <$> infos w !! h.
Proof.
  intros Hb Hn. unfold get_node, world_heap, world_get_node. by rewrite (proj2 (Z.eqb_neq _ _) Hn), Hb.
Qed.

(** The heap before the new header is linked. *)
Record prepared w w' hs block size_ loc : Prop := {
  pr_dll : dll w' hA ((fun h => (h, h, 0)) <$> hs);
  pr_data : data_of w' (header_of (placed block)) = Some (header_of (placed block), 0);
  pr_new : header_of (placed block) ∉ hA :: hs;
  pr_live : live w' (header_of (placed block)) block size_ loc;
  pr_head : data_of w' hA = data_of w hA;
  pr_old : forall h b s l, live w h b s l -> live w' h b s l;
}.

Lemma prepare w hs size_ loc lno w1 w2 i :
  heap w hs -> 0 <= size_ ->
  let n := size_ + OVERHEAD in
  let block := plat_malloc w n in
  block <> NULL ->
  w1 = set_raw (<[block := n]> (raw w)) (set_bytes (write_bytes block (replicate (Z.to_nat n) 0) (bytes w)) w) ->
  i = mkMallocBlockInfoData block n size_ (mkSourceLocation loc lno) (with_value (header_of (placed block)) junk_node) ->
  furnished w1 w2 block size_ i ->
  prepared w w2 hs block size_ (mkSourceLocation loc lno).
Proof.
  intros Hh Hs n block Hblock Hw1 Hi (Hb & Hinf & Hraw & Hmem & Hg1 & Hu & Hg2 & Hout & _).
  pose proof (plat_malloc_fresh w n Hblock) as Hfresh. fold block in Hfresh.
  pose proof Hfresh as (Hstart & Hnone & Hdis).
  pose proof (placed_bounds block) as [Hpl _]. set (h := header_of (placed block)) in *.
  assert (block <= h <= block + 16) as Hplace
    by (unfold h, header_of, MALLOC_GUARD_SIZE, SIZEOF_MALLOCBLOCKINFODATA; lia).
  assert (in_range block n h) as Hin by (unfold in_range, n, OVERHEAD; lia).
  assert (blocks w1 = blocks w /\ infos w1 = infos w) as [Hb1 Hi1] by by subst w1.
  destruct (Hnone h) as (Hhb & Hhi & _); [unfold in_range in Hin; lia|].
  assert (forall x b s l, live w x b s l -> x <> h) as Hdiff.
  { intros x b s l Hx ->. apply (live_fresh w h b s l block n h Hx Hfresh); [|done].
    by apply (live_header w h b s l). }
  assert (h <> hA /\ h <> NULL) as [HhA HhN] by (unfold HEAP_START, hA, NULL in *; lia).
  assert (forall x, x <> h -> get_node w2 x = get_node w x) as Hget.
  { intros x Hx. unfold get_node, world_heap, world_get_node. rewrite Hb, Hb1, Hinf, Hi1.
    by rewrite lookup_insert_ne. }
  assert (h ∉ hA :: hs) as Hnew.
  { intros [?|Hx]%elem_of_cons; [done|]. destruct (hp_live _ _ Hh h Hx) as (b & s & l & Hl).
    by apply (Hdiff h b s l Hl). }
  assert (blocks w2 !! h = None) as Hb2 by by rewrite Hb, Hb1.
  split.
  - eapply dll_frame_node; [|exact (hp_list _ _ Hh)]. intros x. rewrite addrs_headers. intros Hx.
    apply Hget. intros ->. done.
  - unfold data_of. rewrite get_node_header, Hinf, lookup_insert_eq by done. by subst i.
  - done.
  - split; [done| | |done|lia|].
    + rewrite Hinf, lookup_insert_eq. by subst i.
    + rewrite Hraw, Hw1. cbn. by rewrite lookup_insert_eq.
    + intros a Ha. unfold in_range, h, header_of, MALLOC_GUARD_SIZE, SIZEOF_MALLOCBLOCKINFODATA in *.
      destruct (decide (a < placed block)); [exists MALLOC_GUARD_PATTERN; apply Hg1; unfold in_range, MALLOC_GUARD_SIZE; lia|].
      destruct (decide (a < placed block + size_)); [exists MALLOC_ALLOC_PATTERN; apply Hu; unfold in_range; lia|].
      exists MALLOC_GUARD_PATTERN. apply Hg2. unfold in_range, MALLOC_GUARD_SIZE. lia.
  - unfold data_of. by rewrite Hget.
  - intros x b s l Hx. pose proof Hx as [Hxb _ Hxr _ _ _]. eapply live_frame; [exact Hx| | | |].
    + by rewrite Hb, Hb1.
    + rewrite Hinf, Hi1. rewrite lookup_insert_ne; [done|]. intros ->. by eapply Hdiff.
    + rewrite Hraw, Hw1. cbn. rewrite lookup_insert_ne; [done|]. intros <-.
      pose proof (Hdis block _ Hxr). lia.
    + intros a Ha Hsome. pose proof (live_fresh w x b s l block n a Hx Hfresh Ha) as Hna.
      rewrite Hout by exact Hna. rewrite Hw1. cbn. rewrite fill_lookup. by rewrite decide_False.
Qed.
End proofs.
