(* ===== verification/AllocOps.v ===== *)
(** * Allocating and releasing a checked block

    How [_test_malloc] and [_test_free] run on the heap invariant of
    AllocProofs.v: what a new block and a released block are. *)
From S2P Require Import Prelude CMonad ListNode World Report Memory FloatCompare Compare Alloc AllocBytes AllocProofs.

(** [p] is new user memory with the content [l], allocated at [loc]. *)
Record allocated `{!Platform} (w w' : World) (hs : list ptr) (p : ptr) (l : list Z) (loc : SourceLocation) : Prop := {
  al_align : p mod 16 = 0;
  al_heap : heap w' (hs ++ [header_of p]);
  al_new : exists block, live w' (header_of p) block (Z.of_nat (length l)) loc;
  al_guards : guards_intact w' (header_of p) (Z.of_nat (length l));
  al_content : read_bytes (bytes w') p (length l) = Some l;
  al_fresh : forall a, in_range p (Z.of_nat (length l)) a -> bytes w !! a = None;
  al_valid : bytes_valid w -> bytes_valid w';
  al_bytes : forall a, is_Some (bytes w !! a) -> bytes w' !! a = bytes w !! a;
  al_old : forall h b s l, live w h b s l -> live w' h b s l;
  al_only : memory_only w w';
  al_kept : blocks_kept w w';
}.

(** The block of [n] bytes at [block], whose header is [h], is gone; nothing
    else is. *)
Record freed `{!Platform} (w w' : World) (h block n : Z) (hs : list ptr) : Prop := {
  fr_heap : heap w' hs;
  fr_raw : raw w' = delete block (raw w);
  fr_bytes : forall a, bytes w' !! a = if decide (in_range block n a) then None else bytes w !! a;
  fr_valid : bytes_valid w';
  fr_header : infos w' !! h = None;
  fr_live : forall x b s l, x ∈ hs -> live w x b s l -> live w' x b s l;
  fr_only : memory_only w w';
  fr_kept : blocks_kept w w';
}.

Section proofs.
Context `{!Platform, !PlatformLaws}.
Implicit Types (w : World) (h p : Z) (hs : list ptr).

(** ** Allocation *)

(** Linking the prepared header keeps the invariant. *)
Lemma heap_linked w w2 w3 hs block size_ loc :
  heap w hs -> fresh_region w block (size_ + OVERHEAD) ->
  prepared w w2 hs block size_ loc -> raw w2 = <[block := size_ + OVERHEAD]> (raw w) ->
  let h := header_of (placed block) in
  touches (h :: hA :: addrs ((fun h => (h, h, 0)) <$> hs)) [] w2 w3 ->
  dll w3 hA (((fun h => (h, h, 0)) <$> hs) ++ [(h, h, 0)]) -> data_of w3 hA = data_of w2 hA ->
  heap w3 (hs ++ [h]) /\ live w3 h block size_ loc.
Proof.
  intros Hh (_ & _ & Hdis) Hp Hraw h Ht Hdll Hdata.
  pose proof (pr_live _ _ _ _ _ _ Hp) as Hnew. fold h in Hnew.
  assert (live w3 h block size_ loc) as Hl3 by (by eapply touches_live).
  assert (forall x, x ∈ hs -> exists b s l, live w x b s l /\ live w3 x b s l /\ b <> block) as Hold.
  { intros x Hx. destruct (hp_live _ _ Hh x Hx) as (b & s & l & Hl). exists b, s, l. split_and!; [done| |].
    - eapply touches_live, pr_old; eauto.
    - intros ->. pose proof (Hdis _ _ (lv_raw _ _ _ _ _ Hl)). lia. }
  assert (raw w3 = <[block := size_ + OVERHEAD]> (raw w)) as Hraw3.
  { destruct (touches_world _ _ _ _ Ht) as (bl & i & ->). done. }
  split; [|done]. split.
  - by rewrite fmap_app.
  - rewrite Hdata, (pr_head _ _ _ _ _ _ Hp). apply (hp_head _ _ Hh).
  - intros x [Hx|Hx%list_elem_of_singleton]%elem_of_app.
    + destruct (Hold x Hx) as (b & s & l & _ & Hl & _). eauto.
    + subst x. eauto.
  - rewrite Hraw3. intros b s b' s' Hb Hb' Hne.
    apply lookup_insert_Some in Hb as [[<- <-]|[Hb0 Hb]], Hb' as [[<- <-]|[Hb0' Hb']]; [done| | |].
    + pose proof (Hdis _ _ Hb'). lia.
    + pose proof (Hdis _ _ Hb). lia.
    + by eapply (hp_raw _ _ Hh).
  - intros x y b s s' l l' Hx Hy Hlx Hly.
    apply elem_of_app in Hx as [Hx|Hx%list_elem_of_singleton], Hy as [Hy|Hy%list_elem_of_singleton];
      subst; [| | |done].
    + destruct (Hold x Hx) as (b1 & s1 & l1 & H1 & H1' & _), (Hold y Hy) as (b2 & s2 & l2 & H2 & H2' & _).
      destruct (live_unique _ _ _ _ _ _ _ _ Hlx H1') as (-> & -> & ->).
      destruct (live_unique _ _ _ _ _ _ _ _ Hly H2') as (<- & -> & ->).
      by eapply (hp_inj _ _ Hh x y).
    + destruct (Hold x Hx) as (b1 & s1 & l1 & _ & H1' & Hb).
      destruct (live_unique _ _ _ _ _ _ _ _ Hlx H1') as (-> & _), (live_unique _ _ _ _ _ _ _ _ Hly Hl3) as (-> & _).
      done.
    + destruct (Hold y Hy) as (b1 & s1 & l1 & _ & H1' & Hb).
      destruct (live_unique _ _ _ _ _ _ _ _ Hly H1') as (-> & _), (live_unique _ _ _ _ _ _ _ _ Hlx Hl3) as (-> & _).
      done.
Qed.

Lemma user_header p : user_of (header_of p) = p.
Proof. unfold header_of, user_of. lia. Qed.

(** The region malloc() returns, zeroed. *)
Definition mallocated w block n : World :=
  set_raw (<[block := n]> (raw w)) (set_bytes (write_bytes block (replicate (Z.to_nat n) 0) (bytes w)) w).

(** The furnished region with its header linked is an allocated block. *)
Lemma allocated_linked w w2 w3 hs size_ i loc :
  let block := plat_malloc w (size_ + OVERHEAD) in
  let h := header_of (placed block) in
  heap w hs -> 0 <= size_ -> block <> NULL -> prepared w w2 hs block size_ loc ->
  furnished (mallocated w block (size_ + OVERHEAD)) w2 block size_ i ->
  touches (h :: hA :: addrs ((fun h => (h, h, 0)) <$> hs)) [] w2 w3 ->
  dll w3 hA (((fun h => (h, h, 0)) <$> hs) ++ [(h, h, 0)]) -> data_of w3 hA = data_of w2 hA ->
  allocated w w3 hs (placed block) (replicate (Z.to_nat size_) MALLOC_ALLOC_PATTERN) loc.
Proof.
  intros block h Hh Hs Hblock Hp (Hb2 & Hi2 & Hr2 & Hm2 & Hg1 & Hu & Hg2 & Hout & Hval) Ht Hdll Hd.
  pose proof (plat_malloc_fresh _ _ Hblock) as Hfresh. fold block in Hfresh.
  destruct (heap_linked w w2 w3 hs block size_ loc Hh Hfresh Hp Hr2 Ht Hdll Hd) as [Hheap Hlive].
  pose proof (touches_memory _ _ _ Ht) as Hm3. pose proof (placed_bounds block) as [Hpl Hmod].
  assert (bytes w3 = bytes w2) as Hb3 by (by destruct (touches_world _ _ _ _ Ht) as (? & ? & ->)).
  split; rewrite ?length_replicate, ?Z2Nat.id by done; try done; fold h.
  - eauto.
  - unfold guards_intact, filled, h, header_of. rewrite Hb3. split; intros a Ha; [apply Hg1|apply Hg2];
      unfold in_range, MALLOC_GUARD_SIZE, SIZEOF_MALLOCBLOCKINFODATA in *; lia.
  - apply read_bytes_iff. split; [by apply length_replicate|]. intros k Hk. rewrite Hb3, lookup_replicate_2 by done.
    apply Hu. unfold in_range. lia.
  - intros a Ha. apply Hfresh. unfold in_range, OVERHEAD in *. lia.
  - intros Hv a b. rewrite Hb3. apply Hval. intros x y. cbn. rewrite fill_lookup. case_decide; [|apply Hv].
    intros [= <-]. lia.
  - intros a Ha. rewrite Hb3. destruct (decide (in_range block (size_ + OVERHEAD) a)) as [Hin|Hin].
    + destruct Hfresh as (_ & Hnone & _). destruct (Hnone a) as (_ & _ & Hn); [unfold in_range in Hin; lia|].
      rewrite Hn in Ha. by destruct Ha.
    + rewrite Hout by done. cbn. by rewrite fill_lookup, decide_False.
  - intros x b s l Hl. eapply touches_live; [exact Ht|]. by eapply pr_old.
  - etrans; [|exact Hm3]. etrans; [|exact Hm2].
    exists (blocks w), (infos w), (<[block:=size_ + OVERHEAD]> (raw w)). eexists. unfold mallocated. by destruct w.
  - assert (blocks w2 = blocks w) as Hbw by by rewrite Hb2.
    assert (blocks_kept w2 w3) as Hk; [|unfold blocks_kept in *; by rewrite <-Hbw].
    eapply touches_kept; [exact Ht|]. intros x. rewrite addrs_headers, !elem_of_cons. intros [->|[->|Hx] ]; [right|by left|right].
    + apply (pr_live _ _ _ _ _ _ Hp).
    + rewrite Hbw. destruct (hp_live _ _ Hh x Hx) as (b & s & l & Hl). apply Hl.
Qed.

Lemma malloc_run w hs size_ loc lno :
  heap w hs -> 0 <= size_ -> size_ + OVERHEAD <= SIZE_MAX -> plat_malloc w (size_ + OVERHEAD) <> NULL ->
  exists p w', _test_malloc size_ loc lno w = (Ret p, w') /\ p <> NULL /\
    allocated w w' hs p (replicate (Z.to_nat size_) MALLOC_ALLOC_PATTERN) (mkSourceLocation loc lno).
Proof.
  intros Hh Hs Hmax Hblock. unfold _test_malloc. mrun (get_list_run w hs Hh).
  replace (to_u64 _) with (size_ + OVERHEAD); cycle 1.
  { unfold OVERHEAD, SIZE_MAX, MALLOC_GUARD_SIZE, SIZEOF_MALLOCBLOCKINFODATA, MALLOC_ALIGNMENT in *.
    rewrite to_u64_small; lia. }
  rewrite (proj2 (Z.ltb_lt size_ (size_ + OVERHEAD))) by (unfold OVERHEAD; lia).
  mrun (assert_true_ok w 2687 "allocate_size > size").
  set (block := plat_malloc w (size_ + OVERHEAD)). fold block in Hblock. set (w1 := mallocated w block (size_ + OVERHEAD)).
  assert (libc_malloc (size_ + OVERHEAD) w = (Ret block, w1)) as Rm.
  { unfold libc_malloc. fold block. by rewrite (proj2 (Z.eqb_neq _ _) Hblock). }
  mrun Rm. mrun (assert_non_null_ok w1 2690 block Hblock).
  set (i := mkMallocBlockInfoData block (size_ + OVERHEAD) size_ (mkSourceLocation loc lno)
    (with_value (header_of (placed block)) junk_node)).
  set (h := header_of (placed block)) in *.
  destruct (furnish_run w1 block size_ i (fun _ => list_add hA h;; mret (placed block)) Hs) as (w2 & R2 & F2).
  { intros a Ha. unfold w1, mallocated. cbn. rewrite fill_lookup, decide_True by done. eauto. }
  pose proof (prepare w hs size_ loc lno w1 w2 i Hh Hs Hblock eq_refl eq_refl F2) as Hp.
  pose proof (pr_new _ _ _ _ _ _ Hp) as Hnew. pose proof (pr_data _ _ _ _ _ _ Hp) as Hdata. fold block in Hnew, Hdata. fold h in Hnew, Hdata.
  destruct (list_add_spec w2 hA _ h h 0 (pr_dll _ _ _ _ _ _ Hp) Hdata) as (w3 & R3 & Hdll3 & Hd3 & _ & Ht3).
  { by rewrite addrs_headers. }
  exists (placed block), w3. split_and!.
  - etrans; [exact R2|]. by mrun R3.
  - pose proof (proj1 (plat_malloc_fresh _ _ Hblock)) as Hstart. pose proof (placed_bounds block). fold block in Hstart.
    unfold NULL, HEAP_START in *. lia.
  - by eapply allocated_linked.
Qed.

(** An assertion of cmocka.c that does not hold ends the test. *)
Lemma then_exit {A B} (m : CM A) (k : A -> CM B) w :
  (exists w', m w = (exit_outcome w, w') /\ quiet w w') ->
  exists w', (m ≫= k) w = (exit_outcome w, w') /\ quiet w w'.
Proof.
  intros (w' & R & Q). exists w'. split; [by apply exit_outcome_bind|done].
Qed.

Lemma assert_true_ends w lno e : exists w', assert_true lno e false w = (exit_outcome w, w') /\ quiet w w'.
Proof.
  unfold assert_true, _assert_true. cbn [Z.b2z]. apply (prints_then_fail (cmocka_print_error _)).
  apply prints_cmocka_print_error.
Qed.

Lemma assert_non_null_ends w lno : exists w', assert_non_null lno NULL w = (exit_outcome w, w') /\ quiet w w'.
Proof.
  unfold assert_non_null, _assert_ptr_not_equal_msg, ptr_values_not_equal_display_error. rewrite Z.eqb_refl.
  cbn [negb when]. rewrite bind_assoc_run. destruct (prints_cmocka_print_error (plat_fmt_p NULL +:+ " == " +:+ plat_fmt_p NULL +:+ nl) w) as (w1 & R1 & Q1).
  mrun R1. mprim. cbn [negb when]. mprim.
  destruct (fail_run CMOCKA_C lno w1) as (w2 & R2 & Q2). exists w2.
  rewrite R2, (exit_outcome_quiet w w1 Q1). split; [done|by etrans].
Qed.

(** ** Deallocation *)

Lemma check_guard_spec w n guard p info loc lno :
  bytes_valid w -> present (bytes w) guard (Z.of_nat n) ->
  (filled w guard (Z.of_nat n) MALLOC_GUARD_PATTERN /\ check_guard n guard p info loc lno w = (Ret tt, w)) \/
  (~ filled w guard (Z.of_nat n) MALLOC_GUARD_PATTERN /\
   exists w', check_guard n guard p info loc lno w = (exit_outcome w, w') /\ quiet w w').
Proof.
  intros Hv. revert guard. induction n as [|n IH]; intros guard Hp.
  { left. split; [|done]. intros a Ha. unfold in_range in Ha. lia. }
  cbn [check_guard]. destruct (Hp guard) as [b Hb]; [unfold in_range; lia|].
  rewrite (bind_run _ _ _ b w) by by apply deref_run. pose proof (Hv _ _ Hb) as Hrange.
  destruct (decide (b = MALLOC_GUARD_PATTERN)) as [->|Hne].
  - rewrite Z.sub_diag. change (negb (0 mod 256 =? 0)) with false. cbn [when]. mprim.
    destruct (IH (guard + 1)) as [[Hf R]|[Hf R]]; [intros a Ha; apply Hp; unfold in_range in *; lia| |].
    + left. split; [|done]. intros a Ha. destruct (decide (a = guard)) as [->|]; [done|].
      apply Hf. unfold in_range in *. lia.
    + right. split; [|done]. intros Hall. apply Hf. intros a Ha. apply Hall. unfold in_range in *. lia.
  - right. split.
    + intros Hall. assert (bytes w !! guard = Some MALLOC_GUARD_PATTERN) as Hg by (apply Hall; unfold in_range; lia).
      congruence.
    + rewrite (proj2 (Z.eqb_neq _ 0)); cycle 1.
      { unfold MALLOC_GUARD_PATTERN in *. intros Hm. apply Z.mod_divide in Hm as [k Hk]; lia. }
      cbn [negb when]. apply then_exit. apply prints_then_fail, prints_cmocka_print_error.
Qed.

(** [w'] is [w] without the region of [n] bytes at [block]. *)
Record released w w' block n : Prop := {
  rl_blocks : blocks w' = blocks w;
  rl_raw : raw w' = delete block (raw w);
  rl_infos : forall a, infos w' !! a = if decide (in_range block n a) then None else infos w !! a;
  rl_bytes : forall a, bytes w' !! a = if decide (in_range block n a) then None else bytes w !! a;
  rl_only : memory_only w w';
}.

Lemma release_run w block n :
  raw w !! block = Some n -> 0 <= n ->
  exists w', (memset_region block MALLOC_FREE_PATTERN n;; libc_free block) w = (Ret tt, w') /\ released w w' block n.
Proof.
  intros Hr Hn. unfold memset_region. rewrite bind_eq, Hr, (proj2 (Z.leb_le n n)) by lia. cbn [outcome_bind].
  unfold libc_free. cbn [raw set_infos set_bytes]. rewrite Hr. eexists. split; [done|]. split.
  - done.
  - done.
  - intros a. cbn. rewrite !erase_infos_lookup. by case_decide.
  - intros a. cbn. rewrite erase_bytes_lookup, fill_lookup, Z2Nat.id by done. by case_decide.
  - by eexists (blocks w), (erase_infos block n (erase_infos block n (infos w))), (delete block (raw w)), _.
Qed.

(** The regions of two live blocks are apart. *)
Lemma live_apart w hs x y bx sx lx b_y sy ly a :
  heap w hs -> x ∈ hs -> y ∈ hs -> x <> y -> live w x bx sx lx -> live w y b_y sy ly ->
  in_range bx (sx + OVERHEAD) a -> ~ in_range b_y (sy + OVERHEAD) a.
Proof.
  intros Hh Hx Hy Hne Hlx Hly Ha. assert (bx <> b_y) as Hb.
  { intros ->. by apply Hne, (hp_inj _ _ Hh x y b_y sx sy lx ly). }
  pose proof (hp_raw _ _ Hh _ _ _ _ (lv_raw _ _ _ _ _ Hlx) (lv_raw _ _ _ _ _ Hly) Hb).
  unfold in_range in *. lia.
Qed.

(** Unlinking a header and releasing its region keeps the invariant. *)
Lemma heap_released w w1 w2 hs1 h hs2 block size_ loc W :
  heap w (hs1 ++ h :: hs2) -> live w h block size_ loc ->
  dll w1 hA ((fun h => (h, h, 0)) <$> (hs1 ++ hs2)) -> (forall x, data_of w1 x = data_of w x) ->
  touches W [] w w1 -> released w1 w2 block (size_ + OVERHEAD) ->
  heap w2 (hs1 ++ hs2) /\
  (forall x b s l, x ∈ hs1 ++ hs2 -> live w x b s l -> live w2 x b s l).
Proof.
  intros Hh Hl Hdll Hd Ht Hr.
  assert (forall x, x ∈ hs1 ++ hs2 -> x ∈ hs1 ++ h :: hs2 /\ x <> h) as Hin.
  { pose proof (proj1 (hp_list _ _ Hh)) as Hnd. rewrite addrs_headers in Hnd. apply NoDup_cons in Hnd as [_ Hnd].
    apply NoDup_app_cons_middle in Hnd as (Hh1 & Hh2 & _).
    intros x [Hx|Hx]%elem_of_app; (split; [|intros ->; done]); apply elem_of_app; [by left|right; by right]. }
  assert (h ∈ hs1 ++ h :: hs2) as Hhin by (apply elem_of_app; right; by left).
  assert (forall x b s l a, x ∈ hs1 ++ hs2 -> live w x b s l -> in_range b (s + OVERHEAD) a ->
    ~ in_range block (size_ + OVERHEAD) a) as Hapart.
  { intros x b s l a Hx Hlx Ha. destruct (Hin x Hx) as [Hx' Hne]. by eapply (live_apart w _ x h). }
  assert (raw w1 = raw w) as Hraw1 by (by destruct (touches_world _ _ _ _ Ht) as (? & ? & ->)).
  assert (forall x b s l, x ∈ hs1 ++ hs2 -> live w x b s l -> live w2 x b s l) as Hkeep.
  { intros x b s l Hx Hlx. pose proof (touches_live _ _ _ _ _ _ _ Ht Hlx) as Hl1.
    pose proof (live_header _ _ _ _ _ Hlx) as [Hxin _].
    eapply live_frame; [exact Hl1| | | |].
    - rewrite (rl_blocks _ _ _ _ Hr). apply Hl1.
    - rewrite (rl_infos _ _ _ _ Hr), decide_False; [done|]. by eapply Hapart.
    - rewrite (rl_raw _ _ _ _ Hr), lookup_delete_ne; [done|]. intros <-.
      destruct (Hin x Hx) as [Hx' Hne]. by apply Hne, (hp_inj _ _ Hh x h block s size_ l loc).
    - intros a Ha. rewrite (rl_bytes _ _ _ _ Hr), decide_False; [done|]. by eapply Hapart. }
  assert (forall x, x ∈ hA :: hs1 ++ hs2 -> get_node w2 x = get_node w1 x) as Hget.
  { intros x Hx. unfold get_node, world_heap, world_get_node. rewrite (rl_blocks _ _ _ _ Hr), (rl_infos _ _ _ _ Hr).
    rewrite decide_False; [done|]. apply elem_of_cons in Hx as [->|Hx].
    - pose proof (lv_place _ _ _ _ _ Hl). unfold in_range, hA, HEAP_START in *. lia.
    - destruct (hp_live _ _ Hh x (proj1 (Hin x Hx))) as (b & s & l & Hlx).
      eapply Hapart; [done..|]. by apply (live_header _ _ _ _ _ Hlx). }
  split; [|done]. split.
  - eapply dll_frame_node; [|exact Hdll]. intros x. rewrite addrs_headers. apply Hget.
  - unfold data_of. rewrite Hget by (by left). fold (data_of w1 hA). rewrite Hd. apply (hp_head _ _ Hh).
  - intros x Hx. destruct (hp_live _ _ Hh x (proj1 (Hin x Hx))) as (b & s & l & Hlx). eauto.
  - rewrite (rl_raw _ _ _ _ Hr), Hraw1. intros b s b' s' [_ Hb]%lookup_delete_Some [_ Hb']%lookup_delete_Some.
    by apply (hp_raw _ _ Hh).
  - intros x y b s s' l l' Hx Hy Hlx Hly. destruct (Hin x Hx) as [Hx' _], (Hin y Hy) as [Hy' _].
    destruct (hp_live _ _ Hh x Hx') as (b1 & s1 & l1 & H1), (hp_live _ _ Hh y Hy') as (b2 & s2 & l2 & H2).
    destruct (live_unique _ _ _ _ _ _ _ _ Hlx (Hkeep _ _ _ _ Hx H1)) as (-> & -> & ->).
    destruct (live_unique _ _ _ _ _ _ _ _ Hly (Hkeep _ _ _ _ Hy H2)) as (<- & -> & ->).
    by eapply (hp_inj _ _ Hh x y).
Qed.

Lemma guard_before_present w h block size_ loc :
  live w h block size_ loc -> present (bytes w) (user_of h - MALLOC_GUARD_SIZE) (Z.of_nat (Z.to_nat MALLOC_GUARD_SIZE)).
Proof.
  intros [_ _ _ Hs _ Hp] a Ha. apply Hp. unfold user_of, in_range, MALLOC_GUARD_SIZE, SIZEOF_MALLOCBLOCKINFODATA in *. lia.
Qed.
Lemma guard_after_present w h block size_ loc :
  live w h block size_ loc -> present (bytes w) (user_of h + size_) (Z.of_nat (Z.to_nat MALLOC_GUARD_SIZE)).
Proof.
  intros [_ _ _ Hs _ Hp] a Ha. apply Hp. unfold user_of, in_range, MALLOC_GUARD_SIZE, SIZEOF_MALLOCBLOCKINFODATA in *. lia.
Qed.

(** The two guards, where [_test_free] looks for them. *)
Lemma guards_at_user w h size_ :
  guards_intact w h size_ <->
  filled w (user_of h - MALLOC_GUARD_SIZE) (Z.of_nat (Z.to_nat MALLOC_GUARD_SIZE)) MALLOC_GUARD_PATTERN /\
  filled w (user_of h + size_) (Z.of_nat (Z.to_nat MALLOC_GUARD_SIZE)) MALLOC_GUARD_PATTERN.
Proof.
  unfold guards_intact, user_of. change (Z.of_nat (Z.to_nat MALLOC_GUARD_SIZE)) with MALLOC_GUARD_SIZE.
  replace (h + SIZEOF_MALLOCBLOCKINFODATA + MALLOC_GUARD_SIZE - MALLOC_GUARD_SIZE) with (h + SIZEOF_MALLOCBLOCKINFODATA) by lia.
  done.
Qed.

(** [_test_free] up to the checks of the guards. *)
Lemma free_start w h block size_ loc file_ lno :
  live w h block size_ loc ->
  exists info, infos w !! h = Some info /\
    (mb_block info, mb_allocated_size info, mb_size info, mb_location info) = (block, size_ + OVERHEAD, size_, loc) /\
    _test_free (user_of h) file_ lno w =
      (check_guard (Z.to_nat MALLOC_GUARD_SIZE) (user_of h - MALLOC_GUARD_SIZE) (user_of h) info file_ lno;;
       check_guard (Z.to_nat MALLOC_GUARD_SIZE) (user_of h + mb_size info) (user_of h) info file_ lno;;
       list_remove h None;;
       memset_region (mb_block info) MALLOC_FREE_PATTERN (mb_allocated_size info);;
       libc_free (mb_block info)) w.
Proof.
  intros [Hb Hm Hr Hs Hp Hby]. destruct (infos w !! h) as [info|] eqn:Hi; [|done]. exists info. split; [done|].
  split; [by injection Hm as -> -> -> ->|].
  assert (user_of h <> NULL) as Hn.
  { unfold user_of, NULL, SIZEOF_MALLOCBLOCKINFODATA, MALLOC_GUARD_SIZE, HEAP_START in *. lia. }
  unfold _test_free. rewrite (proj2 (Z.eqb_neq _ _) Hn), header_user.
  assert (_assert_ptr_not_equal_msg (user_of h) NULL file_ lno None w = (Ret tt, w)) as Ra.
  { unfold _assert_ptr_not_equal_msg, ptr_values_not_equal_display_error.
    by rewrite (proj2 (Z.eqb_neq _ _) Hn). }
  mrun Ra. unfold load_info. by rewrite (bind_run _ _ _ info w) by by apply deref_run.
Qed.

Lemma test_free_run w hs1 h hs2 block size_ loc file_ lno :
  heap w (hs1 ++ h :: hs2) -> live w h block size_ loc -> bytes_valid w -> guards_intact w h size_ ->
  exists w', _test_free (user_of h) file_ lno w = (Ret tt, w') /\ freed w w' h block (size_ + OVERHEAD) (hs1 ++ hs2).
Proof.
  intros Hh Hl Hv [Hg1 Hg2]%guards_at_user.
  destruct (free_start w h block size_ loc file_ lno Hl) as (info & Hi & [= Hib Hia His _] & ->).
  rewrite Hib, Hia, His.
  destruct (check_guard_spec w _ _ (user_of h) info file_ lno Hv (guard_before_present _ _ _ _ _ Hl)) as [[_ R1]|[Hc _]]; [|done].
  mrun R1.
  destruct (check_guard_spec w _ _ (user_of h) info file_ lno Hv (guard_after_present _ _ _ _ _ Hl)) as [[_ R2]|[Hc _]]; [|done].
  mrun R2.
  pose proof (hp_list _ _ Hh) as Hdll. rewrite fmap_app, fmap_cons in Hdll.
  destruct (list_remove_unlink w hA _ _ _ _ _ Hdll) as (w1 & Hdll1 & R3 & Hd & _ & Ht).
  assert (list_remove h None w = (Ret h, w1)) as R by exact (R3 None).
  mrun R. rewrite <-fmap_app in Hdll1.
  assert (raw w1 = raw w /\ bytes w1 = bytes w) as [Hr1 Hb1] by (by destruct (touches_world _ _ _ _ Ht) as (? & ? & ->)).
  destruct (release_run w1 block (size_ + OVERHEAD)) as (w2 & R4 & Hrel).
  { rewrite Hr1. apply Hl. } { pose proof (lv_size _ _ _ _ _ Hl). unfold OVERHEAD. lia. }
  destruct (heap_released w w1 w2 hs1 h hs2 block size_ loc _ Hh Hl Hdll1 Hd Ht Hrel) as [Hheap Hkeep].
  exists w2. split; [done|]. split; [done|by rewrite (rl_raw _ _ _ _ Hrel), Hr1| | | |done| |].
  - intros a. by rewrite (rl_bytes _ _ _ _ Hrel), Hb1.
  - intros a b. rewrite (rl_bytes _ _ _ _ Hrel), Hb1. case_decide; [done|apply Hv].
  - rewrite (rl_infos _ _ _ _ Hrel), decide_True; [done|]. by apply (live_header _ _ _ _ _ Hl).
  - etrans; [by eapply touches_memory|by apply Hrel].
  - etrans; [|intros x _ _; by rewrite (rl_blocks _ _ _ _ Hrel)]. apply (touches_kept _ _ _ Ht).
    intros x [Hx|Hx]%elem_of_cons; [by left|right].
    assert (x ∈ addrs ((fun h => (h, h, 0)) <$> (hs1 ++ h :: hs2))) as Hx' by by rewrite fmap_app.
    rewrite addrs_headers in Hx'. clear Hx. rename Hx' into Hx.
    destruct (hp_live _ _ Hh x Hx) as (b & s & l & Hlx). apply Hlx.
Qed.

Lemma test_free_corrupt w h block size_ loc file_ lno :
  live w h block size_ loc -> bytes_valid w -> ~ guards_intact w h size_ ->
  exists w', _test_free (user_of h) file_ lno w = (exit_outcome w, w') /\ quiet w w'.
Proof.
  intros Hl Hv Hg. rewrite guards_at_user in Hg.
  destruct (free_start w h block size_ loc file_ lno Hl) as (info & Hi & [= Hib Hia His _] & ->). rewrite His.
  destruct (check_guard_spec w _ _ (user_of h) info file_ lno Hv (guard_before_present _ _ _ _ _ Hl)) as [[Hf R1]|[_ R1]];
    [|by apply then_exit].
  mrun R1.
  destruct (check_guard_spec w _ _ (user_of h) info file_ lno Hv (guard_after_present _ _ _ _ _ Hl)) as [[Hf' _]|[_ R2]];
    [by destruct Hg|by apply then_exit].
Qed.

Lemma free_decides w hs1 h hs2 block size_ loc file_ lno :
  heap w (hs1 ++ h :: hs2) -> live w h block size_ loc -> bytes_valid w ->
  (exists w', _test_free (user_of h) file_ lno w = (Ret tt, w') /\
     freed w w' h block (size_ + OVERHEAD) (hs1 ++ hs2)) \/
  (exists w', _test_free (user_of h) file_ lno w = (exit_outcome w, w') /\ quiet w w').
Proof.
  intros Hh Hl Hv.
  destruct (free_start w h block size_ loc file_ lno Hl) as (info & _ & _ & _).
  assert (guards_intact w h size_ \/ ~ guards_intact w h size_) as [Hg|Hg].
  { rewrite guards_at_user.
    destruct (check_guard_spec w _ _ (user_of h) info file_ lno Hv (guard_before_present _ _ _ _ _ Hl)) as [[H1 _]|[H1 _]],
      (check_guard_spec w _ _ (user_of h) info file_ lno Hv (guard_after_present _ _ _ _ _ Hl)) as [[H2 _]|[H2 _]]; tauto. }
  - left. by eapply test_free_run.
  - right. by eapply test_free_corrupt.
Qed.

(** The first use of the allocator initialises its list: no block is live. *)
Lemma heap_first_use w r :
  data_of w hA = Some (NULL, r) -> raw w = ∅ ->
  exists w', get_allocated_blocks_list w = (Ret hA, w') /\ heap w' [] /\ memory_only w w' /\
    bytes w' = bytes w /\ raw w' = raw w.
Proof.
  intros Hd Hr. unfold get_allocated_blocks_list. mrun (get_value_run w hA NULL r Hd). rewrite Z.eqb_refl.
  assert (is_Some (get_node w hA)) as Hn by (unfold data_of in Hd; by destruct (get_node w hA)).
  destruct (list_initialize_spec w hA Hn) as (w1 & R1 & Hdll & Hd1 & _ & T1).
  rewrite bind_assoc_run. mrun R1.
  assert (exists n1, get_node w1 hA = Some n1) as [n1 Hn1] by apply (dll_head_node _ _ _ Hdll).
  destruct (set_data_run hA (with_value 1) w1 n1 Hn1 ltac:(done)) as (w2 & R2 & N2 & P2 & D2 & G2 & _ & T2).
  unfold set_value. mrun R2. exists w2.
  assert (touches [hA] [] w w2) as Ht by (eapply touches_trans; [exact T1|apply T2; by left]).
  assert (bytes w2 = bytes w /\ raw w2 = raw w) as [Hb Hr2] by (by destruct (touches_world _ _ _ _ Ht) as (? & ? & ->)).
  split_and!; [done| |by eapply touches_memory|done|done]. split.
  - destruct Hdll as (Hnd & _ & [Hl1 Hl2]). split_and!; [done..|]. split; [by rewrite N2|by rewrite P2].
  - exists 1, 1. split; [|done]. rewrite D2, decide_True by done. unfold data_of in Hd1. rewrite Hn1 in Hd1. cbn in *. congruence.
  - by intros h ?%elem_of_nil.
  - rewrite Hr2, Hr. intros b s b' s' Hb'. by rewrite lookup_empty in Hb'.
  - by intros h h' block s s' l l' ?%elem_of_nil.
Qed.
End proofs.
