(* ===== verification/AllocTheorems.v ===== *)
(** * What the checked allocator guarantees

    The theorems about [_test_malloc], [_test_calloc], [_test_realloc] and
    [_test_free], on the heap invariant of AllocProofs.v. *)
From S2P Require Import Prelude CMonad ListNode World Report Memory FloatCompare Compare Alloc AllocBytes AllocProofs AllocOps.

Section helpers.
Context `{!Platform, !PlatformLaws}.
Implicit Types (w : World) (h p : Z) (hs : list ptr).

(** Overwriting bytes keeps the blocks. *)
Lemma live_set_bytes w m h b s l :
  (forall a, is_Some (bytes w !! a) -> is_Some (m !! a)) -> live w h b s l -> live (set_bytes m w) h b s l.
Proof. intros Hm Hl. eapply live_frame; [exact Hl|apply Hl|done..|]. intros a _. apply Hm. Qed.

Lemma live_set_bytes_inv w m h b s l hs :
  heap w hs -> h ∈ hs -> (forall a, is_Some (bytes w !! a) -> is_Some (m !! a)) ->
  live (set_bytes m w) h b s l -> live w h b s l.
Proof.
  intros Hh Hin Hm Hl. destruct (hp_live _ _ Hh h Hin) as (b' & s' & l' & Hl').
  by destruct (live_unique _ _ _ _ _ _ _ _ Hl (live_set_bytes _ m _ _ _ _ Hm Hl')) as (-> & -> & ->).
Qed.

Lemma heap_set_bytes w m hs :
  (forall a, is_Some (bytes w !! a) -> is_Some (m !! a)) -> heap w hs -> heap (set_bytes m w) hs.
Proof.
  intros Hm Hh. split.
  - eapply dll_frame_node; [|exact (hp_list _ _ Hh)]. done.
  - exact (hp_head _ _ Hh).
  - intros h Hin. destruct (hp_live _ _ Hh h Hin) as (b & s & l & Hl). exists b, s, l. by apply live_set_bytes.
  - exact (hp_raw _ _ Hh).
  - intros h h' b s s' l l' Hi Hi' Hl Hl'.
    eapply (hp_inj _ _ Hh h h' b); [done..| |]; by eapply live_set_bytes_inv.
Qed.

Lemma store_bytes_run w p l :
  present (bytes w) p (Z.of_nat (length l)) -> store_bytes p l w = (Ret tt, set_bytes (write_bytes p l (bytes w)) w).
Proof. intros Hp. unfold store_bytes. by destruct (proj1 (read_bytes_present _ _ _) Hp) as [l' ->]. Qed.

Lemma write_bytes_present m p l a : is_Some (m !! a) -> is_Some (write_bytes p l m !! a).
Proof.
  intros Ha. rewrite write_bytes_lookup. case_decide as Hin; [|done].
  apply lookup_lt_is_Some_2. unfold in_range in Hin. lia.
Qed.

Lemma memory_only_set_bytes w m : memory_only w (set_bytes m w).
Proof. exists (blocks w), (infos w), (raw w), m. by destruct w. Qed.

(** Storing into the user memory of a new block. *)
Lemma allocated_store w w' hs p l d loc :
  allocated w w' hs p l loc -> (length d <= length l)%nat -> Forall (fun b => 0 <= b < 256) d ->
  exists w2, store_bytes p d w' = (Ret tt, w2) /\ allocated w w2 hs p (d ++ skipn (length d) l) loc.
Proof.
  intros Ha Hlen Hd. destruct Ha as [H1 H2 [block H3] [Hg1 Hg2] H5 H6 H7 H8 H9 H10 H11].
  pose proof (proj1 (read_bytes_iff _ _ _ _) H5) as [_ Hl].
  exists (set_bytes (write_bytes p d (bytes w')) w'). split.
  { apply store_bytes_run. intros a Hin. exists (default 0 (l !! Z.to_nat (a - p))).
    replace a with (p + Z.of_nat (Z.to_nat (a - p))) at 1 by (unfold in_range in Hin; lia).
    rewrite Hl by (unfold in_range in Hin; lia).
    destruct (lookup_lt_is_Some_2 l (Z.to_nat (a - p))) as [b ->]; [unfold in_range in Hin; lia|done]. }
  assert (length (d ++ skipn (length d) l) = length l) as Hlen' by (rewrite length_app, length_skipn; lia).
  assert (forall a, is_Some (bytes w' !! a) -> is_Some (write_bytes p d (bytes w') !! a)) as Hkeep
    by apply write_bytes_present.
  split; rewrite ?Hlen'; [done|by apply heap_set_bytes| | | |done| | | | |done].
  - exists block. by apply live_set_bytes.
  - assert (forall a, ~ in_range p (Z.of_nat (length l)) a -> write_bytes p d (bytes w') !! a = bytes w' !! a) as Hout.
    { intros a Hin. rewrite write_bytes_lookup, decide_False; [done|]. unfold in_range in *. lia. }
    unfold guards_intact, filled in *. cbn. unfold header_of, in_range, MALLOC_GUARD_SIZE, SIZEOF_MALLOCBLOCKINFODATA in *.
    split; intros a Ha; (rewrite Hout by lia); [by apply Hg1|by apply Hg2].
  - apply read_bytes_iff. split; [done|]. intros i Hi. cbn. rewrite write_bytes_lookup.
    rewrite lookup_app. case_decide as Hin; unfold in_range in Hin.
    + replace (Z.to_nat (p + Z.of_nat i - p)) with i by lia.
      destruct (lookup_lt_is_Some_2 d i ltac:(lia)) as [b ->]. done.
    + rewrite Hl by done. rewrite (lookup_ge_None_2 d i) by lia. rewrite lookup_drop. f_equal. lia.
  - intros Hv a b. cbn. rewrite write_bytes_lookup. case_decide; [|by apply H7].
    intros Hb. by eapply (proj1 (Forall_lookup _ _) Hd).
  - intros a Hsome. cbn. rewrite write_bytes_lookup, decide_False; [by apply H8|].
    intros Hin. rewrite H6 in Hsome; [by destruct Hsome|]. unfold in_range in *. lia.
  - intros h b s x Hx. by apply live_set_bytes, H9.
  - etrans; [done|apply memory_only_set_bytes].
Qed.
(** The bytes of a block survive the release of another one. *)
Lemma freed_bytes w w' hs1 h hs2 block size_ loc x b s l p n :
  heap w (hs1 ++ h :: hs2) -> live w h block size_ loc -> freed w w' h block (size_ + OVERHEAD) (hs1 ++ hs2) ->
  x ∈ hs1 ++ hs2 -> x <> h -> live w x b s l -> b <= p -> p + n <= b + s + OVERHEAD ->
  forall a, in_range p n a -> bytes w' !! a = bytes w !! a.
Proof.
  intros Hh Hl Hf Hx Hne Hlx Hp Hn a Ha. rewrite (fr_bytes _ _ _ _ _ _ Hf), decide_False; [done|].
  eapply (live_apart w _ x h); [done| |apply elem_of_app; right; by left|done..|].
  - apply elem_of_app in Hx as [Hx|Hx]; apply elem_of_app; [by left|right; by right].
  - unfold in_range in *. lia.
Qed.

Lemma skipn_replicate_min {A} (l : list A) n (x : A) :
  take n l ++ skipn (length (take n l)) (replicate n x) = take n l ++ replicate (n - length l) x.
Proof. f_equal. rewrite drop_replicate, length_take. f_equal. lia. Qed.

(** The guards of a block in a state with the same bytes where there were any. *)
Lemma guards_kept w w' h n :
  (forall a, is_Some (bytes w !! a) -> bytes w' !! a = bytes w !! a) -> guards_intact w h n -> guards_intact w' h n.
Proof.
  intros Hb [Hg1 Hg2].
  assert (forall p c v, filled w p c v -> filled w' p c v) as Hf.
  { intros p c v Hf a Ha. specialize (Hf a Ha). rewrite Hb; eauto. }
  by split; apply Hf.
Qed.

Lemma read_bytes_take m p (n k : nat) l :
  (n <= k)%nat -> read_bytes m p k = Some l -> read_bytes m p n = Some (take n l).
Proof.
  intros Hn [Hlen Hat]%read_bytes_iff. apply read_bytes_iff. split; [rewrite length_take; lia|].
  intros i Hi. rewrite lookup_take_lt by lia. apply Hat. lia.
Qed.

Lemma read_bytes_kept m m' p k l :
  (forall a, is_Some (m !! a) -> m' !! a = m !! a) -> read_bytes m p k = Some l -> read_bytes m' p k = Some l.
Proof.
  intros Hm Hl. pose proof (proj1 (read_bytes_iff _ _ _ _) Hl) as [Hlen Hat].
  rewrite <-Hl. apply read_bytes_ext. intros a Ha. apply Hm.
  apply (proj2 (read_bytes_present m p k)); [eauto|done].
Qed.

Lemma read_bytes_Forall m p k l (P : Z -> Prop) :
  (forall a b, m !! a = Some b -> P b) -> read_bytes m p k = Some l -> Forall P l.
Proof.
  intros HP [Hlen Hat]%read_bytes_iff. apply Forall_lookup. intros i b Hb. eapply HP.
  rewrite Hat; [exact Hb|]. apply lookup_lt_Some in Hb. lia.
Qed.

End helpers.

Section theorems.
Context `{!Platform, !PlatformLaws}.
Implicit Types (w : World) (h p : Z) (hs : list ptr).

(** The failures of [_test_malloc]. *)
Lemma malloc_fails w hs size_ loc lno :
  heap w hs -> 0 <= size_ <= SIZE_MAX ->
  ~ (size_ + OVERHEAD <= SIZE_MAX /\ plat_malloc w (size_ + OVERHEAD) <> NULL) ->
  exists w', _test_malloc size_ loc lno w = (exit_outcome w, w') /\ quiet w w'.
Proof.
  intros Hh Hs Hok.
  unfold _test_malloc. mrun (get_list_run w hs Hh).
  unfold OVERHEAD, SIZE_MAX, MALLOC_GUARD_SIZE, SIZEOF_MALLOCBLOCKINFODATA, MALLOC_ALIGNMENT in *.
  destruct (decide (size_ + 120 <= 2 ^ 64 - 1)) as [Hfit|Hwrap].
  - rewrite to_u64_small by lia. replace (size_ + 16 * 2 + 72 + 16) with (size_ + 120) by lia.
    rewrite (proj2 (Z.ltb_lt _ _)) by lia. mrun (assert_true_ok w 2687 "allocate_size > size").
    assert (plat_malloc w (size_ + 120) = NULL) as Hnull.
    { destruct (decide (plat_malloc w (size_ + 120) = NULL)); [done|]. by destruct Hok. }
    assert (libc_malloc (size_ + 120) w = (Ret NULL, w)) as Rm by (unfold libc_malloc; by rewrite Hnull).
    mrun Rm. apply then_exit, assert_non_null_ends.
  - assert (to_u64 (size_ + 16 * 2 + 72 + 16) = size_ + 120 - 2 ^ 64) as ->.
    { unfold to_u64. symmetry. apply (Z.mod_unique_pos _ _ 1); lia. }
    rewrite (proj2 (Z.ltb_ge _ _)) by lia. apply then_exit, assert_true_ends.
Qed.

(** C11: [_test_malloc] returns a new block if the size plus the 120 bytes of
    overhead is representable and malloc() succeeds: 16-byte aligned, not
    overlapping anything in memory, filled with 0xBA, between two intact guards
    and at the end of the list of allocated blocks; every other block and byte
    is unchanged.  In every other case - the sum wraps around, or malloc()
    fails - the test ends and only the message changes. *)
Theorem test_malloc_decides w hs size_ loc lno :
  heap w hs -> 0 <= size_ <= SIZE_MAX ->
  if decide (size_ + OVERHEAD <= SIZE_MAX /\ plat_malloc w (size_ + OVERHEAD) <> NULL) then
    exists p w', _test_malloc size_ loc lno w = (Ret p, w') /\ p <> NULL /\
      allocated w w' hs p (replicate (Z.to_nat size_) MALLOC_ALLOC_PATTERN) (mkSourceLocation loc lno)
  else exists w', _test_malloc size_ loc lno w = (exit_outcome w, w') /\ quiet w w'.
Proof.
  intros Hh Hs. case_decide as Hok; [destruct Hok; apply malloc_run; (done || lia)|by apply malloc_fails with hs].
Qed.

(** The overflow check of [_test_calloc]. *)
Lemma calloc_overflow n size_ : 0 <= n <= SIZE_MAX -> 0 <= size_ ->
  (0 <? size_) && (SIZE_MAX / size_ <? n) = bool_decide (SIZE_MAX < n * size_).
Proof.
  intros Hn Hs. destruct (decide (size_ = 0)) as [->|Hne]; [rewrite Z.mul_0_r; done|].
  rewrite (proj2 (Z.ltb_lt 0 size_)) by lia. cbn [andb].
  pose proof (Z.div_mod SIZE_MAX size_ Hne). pose proof (Z.mod_pos_bound SIZE_MAX size_ ltac:(lia)).
  set (q := SIZE_MAX / size_) in *. case_bool_decide; [apply Z.ltb_lt|apply Z.ltb_ge]; nia.
Qed.

Lemma calloc_run w hs n size_ loc lno :
  heap w hs -> 0 <= n <= SIZE_MAX -> 0 <= size_ -> n * size_ + OVERHEAD <= SIZE_MAX ->
  plat_malloc w (n * size_ + OVERHEAD) <> NULL ->
  exists p w', _test_calloc n size_ loc lno w = (Ret p, w') /\ p <> NULL /\
    allocated w w' hs p (replicate (Z.to_nat (n * size_)) 0) (mkSourceLocation loc lno).
Proof.
  intros Hh Hn Hs Hfit Hmalloc. unfold _test_calloc. rewrite calloc_overflow by done.
  rewrite bool_decide_false by (unfold OVERHEAD in *; lia).
  destruct (malloc_run w hs (n * size_) loc lno Hh ltac:(nia) Hfit Hmalloc) as (p & w1 & R1 & Hp & Ha).
  mrun R1. rewrite (proj2 (Z.eqb_neq _ _) Hp). cbn [negb].
  destruct (allocated_store _ _ _ _ _ (replicate (Z.to_nat (n * size_)) 0) _ Ha) as (w2 & R2 & Ha2).
  { by rewrite !length_replicate. }
  { apply Forall_replicate. lia. }
  exists p, w2. unfold memset. mrun R2. split_and!; [done..|].
  by rewrite length_replicate, skipn_all2, app_nil_r in Ha2 by (rewrite length_replicate; lia).
Qed.

(** C22: What [_test_calloc] does with each request.  It refuses exactly those
    whose product does not fit size_t: it returns NULL with errno ENOMEM and
    changes nothing else.  If the product plus the overhead of 120 bytes fits
    and malloc() succeeds, it returns a block like that of [_test_malloc] whose
    bytes are all zero, its guards intact.  In the remaining cases - the sum
    with the overhead does not fit, or malloc() fails - it does not return NULL
    as calloc() would: the test ends and only the message changes. *)
Theorem test_calloc_zeroes w hs n size_ loc lno :
  heap w hs -> 0 <= n <= SIZE_MAX -> 0 <= size_ <= SIZE_MAX ->
  if decide (SIZE_MAX < n * size_) then _test_calloc n size_ loc lno w = (Ret NULL, set_errno ENOMEM w)
  else if decide (n * size_ + OVERHEAD <= SIZE_MAX /\ plat_malloc w (n * size_ + OVERHEAD) <> NULL) then
    exists p w', _test_calloc n size_ loc lno w = (Ret p, w') /\ p <> NULL /\
      allocated w w' hs p (replicate (Z.to_nat (n * size_)) 0) (mkSourceLocation loc lno)
  else exists w', _test_calloc n size_ loc lno w = (exit_outcome w, w') /\ quiet w w'.
Proof.
  intros Hh Hn Hs. case_decide as Hover.
  { unfold _test_calloc. rewrite calloc_overflow by lia. rewrite bool_decide_true by done. by mprim. }
  case_decide as Hok; [destruct Hok; apply calloc_run; (done || lia)|].
  destruct (malloc_fails w hs (n * size_) loc lno Hh ltac:(nia) Hok) as (w' & R & Hq). exists w'. split; [|done].
  unfold _test_calloc. rewrite calloc_overflow by lia. rewrite bool_decide_false by done. by apply exit_outcome_bind.
Qed.

(** C5: [_test_free] of a live block releases it exactly if both guards are
    intact: the block leaves the list of allocated blocks, its whole region
    leaves the memory, and every other block and byte is unchanged.  If a byte
    of a guard was overwritten, the test ends and only the message changes. *)
Theorem test_free_checks_guards w hs1 h hs2 block size_ loc file_ lno :
  heap w (hs1 ++ h :: hs2) -> live w h block size_ loc -> bytes_valid w ->
  (guards_intact w h size_ -> exists w', _test_free (user_of h) file_ lno w = (Ret tt, w') /\
     freed w w' h block (size_ + OVERHEAD) (hs1 ++ hs2)) /\
  (~ guards_intact w h size_ -> exists w', _test_free (user_of h) file_ lno w = (exit_outcome w, w') /\ quiet w w').
Proof.
  intros Hh Hl Hv. split; intros Hg; [by eapply test_free_run|by eapply test_free_corrupt].
Qed.

(** [_test_realloc] up to the release of the old block. *)
Lemma realloc_copy w hs h block l loc size_ file_ lno :
  heap w hs -> live w h block (Z.of_nat (length l)) loc -> bytes_valid w ->
  read_bytes (bytes w) (user_of h) (length l) = Some l ->
  0 < size_ -> size_ + OVERHEAD <= SIZE_MAX -> plat_malloc w (size_ + OVERHEAD) <> NULL ->
  exists p w2, _test_realloc (user_of h) size_ file_ lno w = (_test_free (user_of h) file_ lno;; mret p) w2 /\
    allocated w w2 hs p (take (Z.to_nat size_) l ++ replicate (Z.to_nat size_ - length l) MALLOC_ALLOC_PATTERN)
      (mkSourceLocation file_ lno).
Proof.
  intros Hh Hl Hv Hr Hs Hfit Hm. unfold _test_realloc.
  assert (user_of h <> NULL) as HpN.
  { pose proof (lv_place _ _ _ _ _ Hl). unfold user_of, NULL, HEAP_START, SIZEOF_MALLOCBLOCKINFODATA, MALLOC_GUARD_SIZE in *. lia. }
  rewrite (proj2 (Z.eqb_neq _ _) HpN), (proj2 (Z.eqb_neq size_ 0)), header_user by lia.
  destruct (malloc_run w _ size_ file_ lno Hh ltac:(lia) Hfit Hm) as (p & w1 & R1 & Hp & Ha). mrun R1.
  rewrite (proj2 (Z.eqb_neq _ _) Hp). set (loc' := mkSourceLocation file_ lno) in *.
  pose proof (al_old _ _ _ _ _ _ Ha _ _ _ _ Hl) as Hl1. pose proof (lv_meta _ _ _ _ _ Hl1) as Hmeta.
  destruct (infos w1 !! h) as [info|] eqn:Hi; [|done]. injection Hmeta as _ _ Hsize _.
  unfold load_info. rewrite (bind_run _ _ _ info w1) by by apply deref_run.
  set (d := take (Z.to_nat size_) l).
  assert (Z.to_nat (if mb_size info <? size_ then mb_size info else size_) = length d) as Hd.
  { unfold d. rewrite length_take, Hsize. destruct (_ <? _) eqn:E; zbool; lia. }
  assert (load_bytes (user_of h) (if mb_size info <? size_ then mb_size info else size_) w1 = (Ret d, w1)) as Rl.
  { unfold load_bytes. apply deref_run. rewrite Hd.
    apply (read_bytes_kept (bytes w)); [apply (al_bytes _ _ _ _ _ _ Ha)|].
    assert (d = take (length d) l) as Heq by (unfold d; by rewrite length_take, <-take_take, firstn_all).
    rewrite Heq at 2. apply (read_bytes_take _ _ _ (length l)); [|done]. unfold d. rewrite length_take. lia. }
  mrun Rl.
  destruct (allocated_store _ _ _ _ _ d _ Ha) as (w2 & R2 & Ha2).
  { rewrite length_replicate. unfold d. rewrite length_take. lia. }
  { apply Forall_take. by eapply read_bytes_Forall. }
  unfold d in Ha2. rewrite skipn_replicate_min in Ha2.
  exists p, w2. split; [by mrun R2|exact Ha2].
Qed.

(** C19: [_test_realloc] of a live block with intact guards, to a size above 0
    that fits when malloc() succeeds, moves the block: the new user memory
    starts with the old content, cut to the new size, followed by 0xBA bytes;
    its guards are intact; and the old block is released. *)
Theorem test_realloc_keeps_content w hs1 h hs2 block l loc size_ file_ lno :
  let old := Z.of_nat (length l) in
  heap w (hs1 ++ h :: hs2) -> live w h block old loc -> bytes_valid w -> guards_intact w h old ->
  read_bytes (bytes w) (user_of h) (length l) = Some l ->
  0 < size_ -> size_ + OVERHEAD <= SIZE_MAX -> plat_malloc w (size_ + OVERHEAD) <> NULL ->
  exists p w' block', _test_realloc (user_of h) size_ file_ lno w = (Ret p, w') /\
    heap w' (hs1 ++ hs2 ++ [header_of p]) /\ live w' (header_of p) block' size_ (mkSourceLocation file_ lno) /\
    guards_intact w' (header_of p) size_ /\
    read_bytes (bytes w') p (Z.to_nat size_) =
      Some (take (Z.to_nat size_) l ++ replicate (Z.to_nat size_ - length l) MALLOC_ALLOC_PATTERN) /\
    raw w' !! block = None.
Proof.
  intros old Hh Hl Hv Hg Hr Hs Hfit Hm.
  destruct (realloc_copy w _ h block l loc size_ file_ lno Hh Hl Hv Hr Hs Hfit Hm) as (p & w2 & -> & Ha2).
  set (loc' := mkSourceLocation file_ lno) in *.
  set (l2 := take (Z.to_nat size_) l ++ _) in Ha2.
  assert (Z.of_nat (length l2) = size_) as Hl2.
  { unfold l2. rewrite length_app, length_take, length_replicate. lia. }
  destruct (al_new _ _ _ _ _ _ Ha2) as [block' Hnew]. rewrite Hl2 in Hnew.
  pose proof (al_old _ _ _ _ _ _ Ha2 _ _ _ _ Hl) as Hold.
  pose proof (al_heap _ _ _ _ _ _ Ha2) as Hh2. rewrite <-app_assoc in Hh2. cbn [app] in Hh2.
  pose proof (guards_kept w w2 h old (al_bytes _ _ _ _ _ _ Ha2) Hg) as Hg2.
  destruct (test_free_run w2 hs1 h _ block old loc file_ lno Hh2 Hold (al_valid _ _ _ _ _ _ Ha2 Hv) Hg2) as (w3 & R3 & Hf).
  mrun R3.
  assert (header_of p ∈ hs1 ++ hs2 ++ [header_of p]) as Hin by (rewrite !elem_of_app; right; right; by left).
  assert (header_of p <> h) as Hne.
  { intros E. pose proof (proj1 (hp_list _ _ Hh2)) as Hnd. rewrite addrs_headers in Hnd.
    apply NoDup_cons in Hnd as [_ Hnd]. apply NoDup_app_cons_middle in Hnd as (_ & Hn & _).
    apply Hn. rewrite <-E. apply elem_of_app. right. by left. }
  pose proof (lv_place _ _ _ _ _ Hnew) as [_ Hplace].
  assert (forall a, in_range (header_of p) (SIZEOF_MALLOCBLOCKINFODATA + 2 * MALLOC_GUARD_SIZE + size_) a ->
    bytes w3 !! a = bytes w2 !! a) as Hsame.
  { eapply (freed_bytes w2 w3 hs1 h _ block old loc (header_of p) block' size_); [done..|lia|].
    unfold OVERHEAD, SIZEOF_MALLOCBLOCKINFODATA, MALLOC_GUARD_SIZE. lia. }
  exists p, w3, block'. split_and!; [done|exact (fr_heap _ _ _ _ _ _ Hf)|by apply (fr_live _ _ _ _ _ _ Hf)| | |].
  - pose proof (al_guards _ _ _ _ _ _ Ha2) as [H1 H2]. rewrite Hl2 in H2.
    split; intros a Hr'; rewrite Hsame; [by apply H1| |by apply H2|];
      unfold in_range, SIZEOF_MALLOCBLOCKINFODATA, MALLOC_GUARD_SIZE in *; lia.
  - rewrite (read_bytes_ext (bytes w2)).
    + pose proof (al_content _ _ _ _ _ _ Ha2) as Hc. replace (Z.to_nat size_) with (length l2) at 1 by lia.
      by rewrite Hc.
    + intros a Hr'. apply Hsame. unfold in_range, header_of, SIZEOF_MALLOCBLOCKINFODATA, MALLOC_GUARD_SIZE in *. lia.
  - rewrite (fr_raw _ _ _ _ _ _ Hf). apply lookup_delete_eq.
Qed.
End theorems.
