(* ===== verification/AllocLeaks.v ===== *)
(** * The leak check

    [check_point_allocated_blocks] to [fail_if_blocks_allocated]: what is
    reported and released of the blocks allocated since a check point. *)
From S2P Require Import Prelude CMonad ListNode World Report Memory FloatCompare Compare Alloc AllocBytes AllocProofs AllocOps.

Section proofs.
Context `{!Platform, !PlatformLaws}.
Implicit Types (w : World) (h p : Z) (hs : list ptr).

(** The node of the last of the blocks [hs], or the head of the list. *)
Definition last_block hs : ptr := default hA (last hs).
(** The node of the first of the blocks [hs], or the head of the list. *)
Definition first_block hs : ptr := match hs with [] => hA | h :: _ => h end.

Lemma last_block_addr hs : last_addr hA ((fun h => (h, h, 0)) <$> hs) = last_block hs.
Proof. unfold last_addr, last_block. by rewrite addrs_headers. Qed.

Lemma heap_next w hs1 hs2 : heap w (hs1 ++ hs2) -> get_next (last_block hs1) w = (Ret (first_block hs2), w).
Proof.
  intros Hh. pose proof (hp_list _ _ Hh) as Hdll. rewrite fmap_app in Hdll.
  pose proof Hdll as (_ & Hpath & [Hlast _]). apply lpath_app in Hpath as [_ Hpath].
  rewrite last_block_addr in Hpath. apply get_next_run. destruct hs2 as [|h hs2]; cbn in *.
  - by rewrite app_nil_r, last_block_addr in Hlast.
  - by destruct Hpath as [[? _] _].
Qed.

Lemma heap_prev w hs : heap w hs -> get_prev hA w = (Ret (last_block hs), w).
Proof.
  intros Hh. destruct (hp_list _ _ Hh) as (_ & _ & [_ Hp]). rewrite last_block_addr in Hp. by apply get_prev_run.
Qed.

Lemma heap_value w hs1 h hs2 : heap w (hs1 ++ h :: hs2) -> get_value h w = (Ret h, w).
Proof.
  intros Hh. pose proof (hp_list _ _ Hh) as Hdll. rewrite fmap_app, fmap_cons in Hdll.
  apply (get_value_run w h h 0). eapply dll_cell; [exact Hdll|]. apply elem_of_app. right. by left.
Qed.

Lemma last_block_snoc hs1 h : last_block (hs1 ++ [h]) = h.
Proof. unfold last_block. by rewrite last_snoc. Qed.

Lemma heap_members w hs h : heap w hs -> h ∈ hs -> h <> hA /\ h <> NULL.
Proof. intros Hh Hin. destruct (hp_live _ _ Hh h Hin) as (b & s & l & Hl). by apply (live_header _ _ _ _ _ Hl). Qed.

Lemma last_block_not_NULL w hs1 hs2 : heap w (hs1 ++ hs2) -> last_block hs1 <> NULL.
Proof.
  intros Hh. unfold last_block. destruct (last hs1) as [h|] eqn:E; [|done]. cbn.
  apply (heap_members w (hs1 ++ hs2) h Hh). apply elem_of_app. left. by apply last_Some_elem_of.
Qed.

Lemma first_block_not_NULL w hs1 hs2 : heap w (hs1 ++ hs2) -> first_block hs2 <> NULL.
Proof.
  intros Hh. destruct hs2 as [|h hs2]; [done|]. apply (heap_members _ _ h Hh). apply elem_of_app. right. by left.
Qed.

Lemma heap_fuel w hs : heap w hs -> (length hs < node_bound w)%nat.
Proof. intros Hh. pose proof (dll_fuel _ _ _ (hp_list _ _ Hh)) as Hf. by rewrite length_fmap in Hf. Qed.

(** Printing changes neither blocks nor the list. *)
Lemma quiet_live w w' h b s l : quiet w w' -> live w h b s l -> live w' h b s l.
Proof. intros Q [H1 H2 H3 H4 H5 H6]. quiet_simpl. by split. Qed.
Lemma quiet_live_inv w w' h b s l : quiet w w' -> live w' h b s l -> live w h b s l.
Proof. intros Q [H1 H2 H3 H4 H5 H6]. quiet_simpl. by split. Qed.
Lemma quiet_heap w w' hs : quiet w w' -> heap w hs -> heap w' hs.
Proof.
  intros Q Hh. split.
  - eapply dll_frame_node; [|exact (hp_list _ _ Hh)]. intros x _. by quiet_simpl.
  - destruct (hp_head _ _ Hh) as (v & r & Hd & Hv). exists v, r. split; [|done]. by quiet_simpl.
  - intros h Hin. destruct (hp_live _ _ Hh h Hin) as (b & s & l & Hl). exists b, s, l. by eapply quiet_live.
  - pose proof (hp_raw _ _ Hh). by quiet_simpl.
  - intros h h' b s s' l l' Hi Hi' Hl Hl'.
    eapply (hp_inj _ _ Hh h h' b); [done..| |]; by eapply quiet_live_inv.
Qed.

Lemma quiet_kept w w' : quiet w w' -> blocks_kept w w'.
Proof. intros Q x _ _. by quiet_simpl. Qed.

(** ** Reporting *)

Lemma display_loop_run hs2 : forall hs1 w fuel n,
  heap w (hs1 ++ hs2) -> (length hs2 < fuel)%nat ->
  exists w', display_blocks_loop fuel hA (first_block hs2) n w = (Ret (n + Z.of_nat (length hs2)), w') /\ quiet w w' /\ (hs2 = [] -> w' = w).
Proof.
  induction hs2 as [|h hs2 IH]; intros hs1 w fuel n Hh Hf; (destruct fuel as [|fuel]; [cbn in Hf; lia|]);
    cbn [display_blocks_loop first_block].
  { exists w. rewrite Z.eqb_refl, Z.add_0_r. done. }
  destruct (heap_members w _ h Hh) as [HhA HhN]; [apply elem_of_app; right; by left|].
  rewrite (proj2 (Z.eqb_neq _ _) HhA). mrun (heap_value w hs1 h hs2 Hh).
  mrun (assert_non_null_ok w 2841 h HhN).
  set (m := if n =? 0 then _ else _). assert (prints m) as Hm by (unfold m; destruct (n =? 0); eauto with cmocka).
  destruct (Hm w) as (w1 & R1 & Q1). mrun R1.
  pose proof (quiet_heap _ _ _ Q1 Hh) as Hh1.
  destruct (hp_live _ _ Hh1 h) as (b & s & l & Hl); [apply elem_of_app; right; by left|].
  destruct (infos w1 !! h) as [info|] eqn:Hi; [|pose proof (lv_meta _ _ _ _ _ Hl) as Hmeta; by rewrite Hi in Hmeta].
  unfold load_info. rewrite (bind_run _ _ _ info w1) by by apply deref_run.
  destruct (prints_cmocka_print_error (fmt_location (file (mb_location info)) (line (mb_location info)) +:+
    ": note: block " +:+ plat_fmt_p (mb_block info) +:+ " allocated here" +:+ nl) w1) as (w2 & R2 & Q2). mrun R2.
  pose proof (quiet_heap _ _ _ Q2 Hh1) as Hh2.
  assert (heap w2 ((hs1 ++ [h]) ++ hs2)) as Hh2' by by rewrite <-app_assoc.
  pose proof (heap_next w2 (hs1 ++ [h]) hs2 Hh2') as Hn. rewrite last_block_snoc in Hn. mrun Hn.
  destruct (IH (hs1 ++ [h]) w2 fuel (n + 1) Hh2') as (w3 & R3 & Q3 & _); [cbn in Hf; lia|].
  exists w3. rewrite R3. split; [f_equal; f_equal; cbn [length]; lia|]. split; [|done]. by do 2 (etrans; [done|]).
Qed.

Lemma display_run w hs1 hs2 :
  heap w (hs1 ++ hs2) ->
  exists w', display_allocated_blocks (last_block hs1) w = (Ret (Z.of_nat (length hs2)), w') /\ quiet w w' /\ (hs2 = [] -> w' = w).
Proof.
  intros Hh. unfold display_allocated_blocks. mrun (get_list_run w _ Hh).
  mrun (assert_non_null_ok w 2834 _ (last_block_not_NULL _ _ _ Hh)). mrun (heap_next w hs1 hs2 Hh).
  mrun (assert_non_null_ok w 2835 _ (first_block_not_NULL _ _ _ Hh)). mprim.
  pose proof (heap_fuel _ _ Hh) as Hf. rewrite length_app in Hf. by apply (display_loop_run hs2 hs1); [|lia].
Qed.

(** ** Releasing *)

(** The guards of all the blocks [hs] are intact. *)
Definition all_intact w hs : Prop := forall h b s l, h ∈ hs -> live w h b s l -> guards_intact w h s.

(** Releasing a block leaves the guards of the others alone. *)
Lemma freed_intact w w1 hs1 h hs2 block size_ loc :
  heap w (hs1 ++ h :: hs2) -> live w h block size_ loc ->
  freed w w1 h block (size_ + OVERHEAD) (hs1 ++ hs2) -> all_intact w (h :: hs2) -> all_intact w1 hs2.
Proof.
  intros Hh Hl Hf Hall x b s l Hx Hlx.
  assert (x ∈ hs1 ++ h :: hs2 /\ x ∈ hs1 ++ hs2) as [Hx1 Hx2] by (split; apply elem_of_app; right; [by right|done]).
  assert (h ∈ hs1 ++ h :: hs2) as Hhin by (apply elem_of_app; right; by left).
  assert (x <> h) as Hne.
  { intros ->. pose proof (proj1 (hp_list _ _ Hh)) as Hnd. rewrite addrs_headers in Hnd.
    apply NoDup_cons in Hnd as [_ Hnd]. by apply NoDup_app_cons_middle in Hnd as (_ & Hn & _). }
  destruct (hp_live _ _ Hh x Hx1) as (b' & s' & l' & Hl').
  destruct (live_unique _ _ _ _ _ _ _ _ Hlx (fr_live _ _ _ _ _ _ Hf _ _ _ _ Hx2 Hl')) as (-> & -> & ->).
  destruct (Hall x b' s' l' ltac:(by right) Hl') as [Hg1 Hg2].
  assert (forall a, in_range b' (s' + OVERHEAD) a -> bytes w1 !! a = bytes w !! a) as Hsame.
  { intros a Ha. rewrite (fr_bytes _ _ _ _ _ _ Hf), decide_False; [done|].
    by apply (live_apart w _ x h b' s' l' block size_ loc a Hh Hx1 Hhin Hne Hl' Hl). }
  pose proof (lv_place _ _ _ _ _ Hl'). pose proof (lv_size _ _ _ _ _ Hl').
  split; intros a Ha; rewrite Hsame; [by apply Hg1| |by apply Hg2|];
    unfold in_range, OVERHEAD, MALLOC_GUARD_SIZE, SIZEOF_MALLOCBLOCKINFODATA in *; lia.
Qed.

Lemma free_loop_run hs2 : forall hs1 w fuel,
  heap w (hs1 ++ hs2) -> bytes_valid w -> (length hs2 < fuel)%nat -> all_intact w hs2 ->
  exists w', free_blocks_loop fuel hA (first_block hs2) w = (Ret tt, w') /\ heap w' hs1 /\ bytes_valid w' /\
    (forall b, raw w !! b = None -> raw w' !! b = None) /\
    (forall h b s l, h ∈ hs2 -> live w h b s l -> raw w' !! b = None).
Proof.
  induction hs2 as [|h hs2 IH]; intros hs1 w fuel Hh Hv Hf Hall; (destruct fuel as [|fuel]; [cbn in Hf; lia|]);
    cbn [free_blocks_loop first_block].
  { exists w. rewrite Z.eqb_refl. rewrite app_nil_r in Hh. split_and!; try done. by intros h b s l ?%elem_of_nil. }
  assert (h ∈ hs1 ++ h :: hs2) as Hin by (apply elem_of_app; right; by left).
  rewrite (proj2 (Z.eqb_neq _ _) (proj1 (heap_members w _ h Hh Hin))). mrun (heap_value w hs1 h hs2 Hh).
  assert (heap w ((hs1 ++ [h]) ++ hs2)) as Hh' by by rewrite <-app_assoc.
  pose proof (heap_next w (hs1 ++ [h]) hs2 Hh') as Hn. rewrite last_block_snoc in Hn. mrun Hn.
  destruct (hp_live _ _ Hh h Hin) as (block & size_ & loc & Hl). fold (user_of h).
  destruct (test_free_run w hs1 h hs2 block size_ loc CMOCKA_C 2870 Hh Hl Hv) as (w1 & R1 & Hf1).
  { apply (Hall h block size_ loc); [by left|done]. }
  mrun R1. pose proof (freed_intact _ _ _ _ _ _ _ _ Hh Hl Hf1 Hall) as Hall1.
  destruct (IH hs1 w1 fuel (fr_heap _ _ _ _ _ _ Hf1) (fr_valid _ _ _ _ _ _ Hf1)) as (w2 & R2 & Hh2 & Hv2 & Hraw & Hgone);
    [cbn in Hf; lia|done|].
  exists w2. split_and!; [done|done|done| |].
  - intros b Hb. apply Hraw. rewrite (fr_raw _ _ _ _ _ _ Hf1). destruct (decide (b = block)) as [->|];
      [apply lookup_delete_eq|by rewrite lookup_delete_ne].
  - intros x b s l [->|Hx]%elem_of_cons Hlx.
    + destruct (live_unique _ _ _ _ _ _ _ _ Hlx Hl) as (-> & -> & ->). apply Hraw.
      rewrite (fr_raw _ _ _ _ _ _ Hf1). apply lookup_delete_eq.
    + eapply Hgone; [exact Hx|]. apply (fr_live _ _ _ _ _ _ Hf1); [|done]. apply elem_of_app. by right.
Qed.

(** Whatever the guards, the loop returns or ends the test. *)
Lemma free_loop_ends hs2 : forall hs1 w fuel,
  heap w (hs1 ++ hs2) -> bytes_valid w -> (length hs2 < fuel)%nat ->
  exists r w', free_blocks_loop fuel hA (first_block hs2) w = (r, w') /\
    (r = Ret tt \/ r = exit_outcome w) /\ (forall A, @exit_outcome A w' = exit_outcome w) /\ blocks_kept w w'.
Proof.
  induction hs2 as [|h hs2 IH]; intros hs1 w fuel Hh Hv Hf; (destruct fuel as [|fuel]; [cbn in Hf; lia|]);
    cbn [free_blocks_loop first_block].
  { exists (Ret tt), w. rewrite Z.eqb_refl. split_and!; [done|by left|done|done]. }
  assert (h ∈ hs1 ++ h :: hs2) as Hin by (apply elem_of_app; right; by left).
  rewrite (proj2 (Z.eqb_neq _ _) (proj1 (heap_members w _ h Hh Hin))). mrun (heap_value w hs1 h hs2 Hh).
  assert (heap w ((hs1 ++ [h]) ++ hs2)) as Hh' by by rewrite <-app_assoc.
  pose proof (heap_next w (hs1 ++ [h]) hs2 Hh') as Hn. rewrite last_block_snoc in Hn. mrun Hn.
  destruct (hp_live _ _ Hh h Hin) as (block & size_ & loc & Hl). fold (user_of h).
  destruct (free_decides w hs1 h hs2 block size_ loc CMOCKA_C 2870 Hh Hl Hv) as [(w1 & R1 & Hf1)|(w1 & R1 & Q1)].
  - mrun R1. destruct (IH hs1 w1 fuel (fr_heap _ _ _ _ _ _ Hf1) (fr_valid _ _ _ _ _ _ Hf1)) as (r & w2 & R2 & Hr & He & Hk);
      [cbn in Hf; lia|].
    pose proof (fr_only _ _ _ _ _ _ Hf1) as Hm. exists r, w2. split_and!; [done| | |].
    + destruct Hr as [-> | ->]; [by left|right]. by apply memory_only_exit.
    + intros A. rewrite He. by apply memory_only_exit.
    + etrans; [apply Hf1|done].
  - destruct (then_exit (_test_free (user_of h) CMOCKA_C 2870) (fun _ => free_blocks_loop fuel hA (first_block hs2)) w)
      as (w2 & R2 & Q2); [by exists w1|].
    exists (exit_outcome w), w2. split_and!; [exact R2|by right| |by apply quiet_kept]. intros A. by apply exit_outcome_quiet.
Qed.

Lemma free_allocated_start w hs1 hs2 :
  heap w (hs1 ++ hs2) ->
  free_allocated_blocks (last_block hs1) w = free_blocks_loop (S (node_bound w)) hA (first_block hs2) w.
Proof.
  intros Hh. unfold free_allocated_blocks. mrun (get_list_run w _ Hh).
  mrun (assert_non_null_ok w 2860 _ (last_block_not_NULL _ _ _ Hh)). mrun (heap_next w hs1 hs2 Hh).
  mrun (assert_non_null_ok w 2863 _ (first_block_not_NULL _ _ _ Hh)). by mprim.
Qed.

(** Printing and leaving changes neither the heap nor the memory. *)
Lemma report_and_exit s w :
  exists w', (cmocka_print_error s;; exit_test true) w = (exit_outcome w, w') /\ quiet w w'.
Proof.
  destruct (prints_cmocka_print_error s w) as (w1 & R1 & Q1), (exit_test_run w1) as (w2 & R2 & Q2).
  exists w2. mrun R1. rewrite R2, (exit_outcome_quiet w w1 Q1). split; [done|by etrans].
Qed.

(** The run of the leak check. *)
Lemma fail_if_blocks_allocated_full w hs1 hs2 test_name :
  heap w (hs1 ++ hs2) -> bytes_valid w ->
  (hs2 = [] -> fail_if_blocks_allocated (last_block hs1) test_name w = (Ret tt, w)) /\
  (hs2 <> [] -> exists w', fail_if_blocks_allocated (last_block hs1) test_name w = (exit_outcome w, w') /\
     blocks_kept w w' /\
     (all_intact w hs2 -> heap w' hs1 /\ bytes_valid w' /\
        forall h b s l, h ∈ hs2 -> live w h b s l -> raw w' !! b = None)).
Proof.
  intros Hh Hv. unfold fail_if_blocks_allocated. destruct (display_run w hs1 hs2 Hh) as (w1 & R1 & Q1 & Hempty). split.
  { intros ->. rewrite (Hempty eq_refl) in R1. mrun R1. done. }
  intros Hne. mrun R1. rewrite (proj2 (Z.ltb_lt _ _)); [|destruct hs2; [done|cbn; lia]]. cbn [when].
  pose proof (quiet_heap _ _ _ Q1 Hh) as Hh1.
  assert (bytes_valid w1) as Hv1 by (unfold bytes_valid in *; by quiet_simpl).
  rewrite bind_eq, (free_allocated_start w1 hs1 hs2 Hh1).
  pose proof (heap_fuel _ _ Hh1) as Hf. rewrite length_app in Hf.
  destruct (free_loop_ends hs2 hs1 w1 (S (node_bound w1)) Hh1 Hv1 ltac:(lia)) as (r & w2 & R2 & Hr & He & Hk).
  destruct (report_and_exit ("ERROR: " +:+ test_name +:+ " leaked " +:+ fmt_u (Z.of_nat (length hs2)) +:+ " block(s)" +:+ nl) w2)
    as (w3 & R3 & Q3).
  exists (if r is Ret _ then w3 else w2). rewrite R2. rewrite He, (exit_outcome_quiet w w1 Q1) in R3. split_and!.
  - destruct Hr as [-> | ->]; [exact R3|]. rewrite (exit_outcome_quiet w w1 Q1).
    unfold exit_outcome. by repeat split_match.
  - etrans; [by apply quiet_kept|]. etrans; [done|]. destruct r; try done. by apply quiet_kept.
  - intros Hall. assert (all_intact w1 hs2) as Hall1.
    { intros h b s l Hin Hl. pose proof (Hall h b s l Hin (quiet_live_inv _ _ _ _ _ _ Q1 Hl)). by quiet_simpl. }
    destruct (free_loop_run hs2 hs1 w1 (S (node_bound w1)) Hh1 Hv1 ltac:(lia) Hall1) as (w2' & R2' & Hh2 & Hv2 & _ & Hgone).
    rewrite R2 in R2'. injection R2' as -> <-. split; [by eapply quiet_heap|]. split; [unfold bytes_valid in *; by quiet_simpl|].
    intros h b s l Hin Hl. assert (raw w3 = raw w2) as -> by by quiet_simpl.
    eapply Hgone; [exact Hin|]. by eapply quiet_live.
Qed.

Lemma fail_if_blocks_allocated_run w hs1 hs2 test_name :
  heap w (hs1 ++ hs2) -> bytes_valid w ->
  (hs2 = [] -> fail_if_blocks_allocated (last_block hs1) test_name w = (Ret tt, w)) /\
  (hs2 <> [] -> exists w', fail_if_blocks_allocated (last_block hs1) test_name w = (exit_outcome w, w') /\ blocks_kept w w' /\
     (all_intact w hs2 -> heap w' hs1 /\ bytes_valid w')).
Proof.
  intros Hh Hv. destruct (fail_if_blocks_allocated_full w hs1 hs2 test_name Hh Hv) as [H1 H2].
  split; [done|]. intros Hne. destruct (H2 Hne) as (w' & R & Hk & Hall). exists w'. split_and!; [done..|].
  intros Hi. by destruct (Hall Hi) as (? & ? & _).
Qed.

(** C15: At a check point taken when the blocks [hs1] were allocated, the leak
    check passes without changing anything exactly if no block allocated since
    is left.  If some are left, the test (or the program) ends; and when the
    guards of the blocks left are intact all of them have been released first
    and the blocks [hs1] are the heap again. *)
Theorem fail_if_blocks_allocated_spec w hs1 hs2 test_name :
  heap w (hs1 ++ hs2) -> bytes_valid w ->
  check_point_allocated_blocks w = (Ret (last_block (hs1 ++ hs2)), w) /\
  (hs2 = [] -> fail_if_blocks_allocated (last_block hs1) test_name w = (Ret tt, w)) /\
  (hs2 <> [] -> exists w', fail_if_blocks_allocated (last_block hs1) test_name w = (exit_outcome w, w') /\
     (all_intact w hs2 -> heap w' hs1 /\
        forall h b s l, h ∈ hs2 -> live w h b s l -> raw w' !! b = None)).
Proof.
  intros Hh Hv. destruct (fail_if_blocks_allocated_full w hs1 hs2 test_name Hh Hv) as [Hok Hleak].
  split; [|split; [done|]]; [|intros Hne; destruct (Hleak Hne) as (w' & R & _ & Hall); exists w'; split; [done|]; intros Hi; by destruct (Hall Hi) as (? & _ & ?)].
  unfold check_point_allocated_blocks. mrun (get_list_run w _ Hh). by apply heap_prev.
Qed.
End proofs.
