(* ===== verification/Output.v ===== *)
(** * Reports of test results

    The [cmprintf_*] functions of src/src/cmocka.c: the start and end of a
    group and the result of each test, in the formats standard, subunit, TAP
    and XML. *)
From S2P Require Import Prelude CMonad CString ListNode World Report FloatCompare.

(** [enum CMUnitTestStatus], [enum cm_printf_type] *)
Inductive CMUnitTestStatus :=
  CM_TEST_NOT_STARTED | CM_TEST_PASSED | CM_TEST_FAILED | CM_TEST_ERROR | CM_TEST_SKIPPED.
Inductive cm_printf_type :=
  PRINTF_TEST_START | PRINTF_TEST_SUCCESS | PRINTF_TEST_FAILURE | PRINTF_TEST_ERROR |
  PRINTF_TEST_SKIPPED.
#[export] Instance CMUnitTestStatus_eq_dec : EqDecision CMUnitTestStatus.
Proof. solve_decision. Defined.
#[export] Instance cm_printf_type_eq_dec : EqDecision cm_printf_type.
Proof. solve_decision. Defined.

(** What the reports read of a [struct CMUnitTestState]. *)
Record report := mkReport {
  rp_name : string;
  rp_status : CMUnitTestStatus;
  rp_error_message : option string;
  rp_runtime : fpnum;
}.

Definition has_status (s : CMUnitTestStatus) (r : report) : bool := bool_decide (rp_status r = s).

Section code.
Context `{!Platform}.

(** [for (i = 0; i < total_executed; i++)] over an array. *)
Fixpoint for_each {A} (l : list A) (f : A -> CM unit) : CM unit :=
  match l with [] => mret tt | x :: l' => f x;; for_each l' f end.

(** ** Standard *)

Definition cmprintf_group_start_standard (group_name : string) (num_tests : nat) : CM unit :=
  print_message ("[==========] " +:+ group_name +:+ ": Running " +:+ fmt_u (Z.of_nat num_tests) +:+
                 " test(s)." +:+ nl).

Definition cmprintf_group_finish_standard (group_name : string)
    (total_executed total_passed total_failed total_errors total_skipped : nat)
    (cm_tests : list report) : CM unit :=
  let n (k : nat) := fmt_u (Z.of_nat k) in
  print_message ("[==========] " +:+ group_name +:+ ": " +:+ n total_executed +:+
                 " test(s) run." +:+ nl);;
  print_error ("[  PASSED  ] " +:+ fmt_u (to_u32 (Z.of_nat total_passed)) +:+ " test(s)." +:+ nl);;
  when (negb (Nat.eqb total_skipped 0))
    (print_error ("[  SKIPPED ] " +:+ group_name +:+ ": " +:+ n total_skipped +:+
                  " test(s), listed below:" +:+ nl);;
     for_each (take total_executed cm_tests) (fun r =>
       when (has_status CM_TEST_SKIPPED r) (print_error ("[  SKIPPED ] " +:+ rp_name r +:+ nl)));;
     print_error (nl +:+ " " +:+ n total_skipped +:+ " SKIPPED TEST(S)" +:+ nl));;
  when (negb (Nat.eqb total_failed 0))
    (print_error ("[  FAILED  ] " +:+ group_name +:+ ": " +:+ n total_failed +:+
                  " test(s), listed below:" +:+ nl);;
     for_each (take total_executed cm_tests) (fun r =>
       when (has_status CM_TEST_FAILED r) (print_error ("[  FAILED  ] " +:+ rp_name r +:+ nl)));;
     print_error (nl +:+ " " +:+ n (total_failed + total_errors)%nat +:+ " FAILED TEST(S)" +:+ nl)).

Definition cmprintf_standard (type : cm_printf_type) (test_name : string)
    (error_message : option string) : CM unit :=
  match type with
  | PRINTF_TEST_START => print_message ("[ RUN      ] " +:+ test_name +:+ nl)
  | PRINTF_TEST_SUCCESS => print_message ("[       OK ] " +:+ test_name +:+ nl)
  | PRINTF_TEST_FAILURE =>
      match error_message with
      | Some m => print_error ("[  ERROR   ] --- " +:+ m +:+ nl)
      | None => mret tt
      end;;
      print_message ("[  FAILED  ] " +:+ test_name +:+ nl)
  | PRINTF_TEST_SKIPPED => print_message ("[  SKIPPED ] " +:+ test_name +:+ nl)
  | PRINTF_TEST_ERROR =>
      match error_message with
      | Some m => print_error (m +:+ nl)
      | None => mret tt
      end;;
      print_error ("[  ERROR   ] " +:+ test_name +:+ nl)
  end.

(** ** TAP *)

Definition cmprintf_group_start_tap (num_tests : nat) : CM unit :=
  printed ← gets version_printed;
  when (negb printed)
    (print_message ("TAP version 13" +:+ nl);; modify (set_version_printed true));;
  print_message ("1.." +:+ fmt_u (to_u32 (Z.of_nat num_tests)) +:+ nl).

Definition cmprintf_group_finish_tap (group_name : string)
    (total_executed total_passed total_skipped : nat) : CM unit :=
  let status := if Nat.eqb (total_passed + total_skipped) total_executed then "ok" else "not ok" in
  print_message ("# " +:+ status +:+ " - " +:+ group_name +:+ nl).

(** The [while] loop over the lines of the duplicated message: [q] holds the
    characters of the current line read so far. *)
Fixpoint print_comment_lines (q : string) (p : string) : CM unit :=
  match p with
  | "" => print_message ("# " +:+ q +:+ nl)
  | String c p' =>
      if bool_decide (c = Ascii.ascii_of_nat 10) then
        print_message ("# " +:+ q +:+ nl);;
        match p' with "" => mret tt | _ => print_comment_lines "" p' end
      else print_comment_lines (q +:+ String c "") p'
  end.

Definition cmprintf_tap (type : cm_printf_type) (test_number : nat) (test_name : string)
    (error_message : option string) : CM unit :=
  let number := fmt_u (to_u32 (Z.of_nat test_number)) in
  match type with
  | PRINTF_TEST_START => mret tt
  | PRINTF_TEST_SUCCESS => print_message ("ok " +:+ number +:+ " - " +:+ test_name +:+ nl)
  | PRINTF_TEST_FAILURE =>
      print_message ("not ok " +:+ number +:+ " - " +:+ test_name +:+ nl);;
      match error_message with
      | Some m =>
          ok ← gets (fun w => plat_libc_alloc_ok w (Z.of_nat (String.length m) + 1));
          when ok (match m with "" => mret tt | _ => print_comment_lines "" m end)
      | None => mret tt
      end
  | PRINTF_TEST_SKIPPED => print_message ("ok " +:+ number +:+ " # SKIP " +:+ test_name +:+ nl)
  | PRINTF_TEST_ERROR =>
      print_message ("not ok " +:+ number +:+ " - " +:+ test_name +:+ " " +:+
                     fmt_s error_message +:+ nl)
  end.

(** ** Subunit *)

Definition cmprintf_subunit (type : cm_printf_type) (test_name : string)
    (error_message : option string) : CM unit :=
  match type with
  | PRINTF_TEST_START => print_message ("test: " +:+ test_name +:+ nl)
  | PRINTF_TEST_SUCCESS => print_message ("success: " +:+ test_name +:+ nl)
  | PRINTF_TEST_FAILURE =>
      print_message ("failure: " +:+ test_name);;
      match error_message with
      | Some m => print_message (" [" +:+ nl +:+ m +:+ nl +:+ "]" +:+ nl)
      | None => mret tt
      end
  | PRINTF_TEST_SKIPPED => print_message ("skip: " +:+ test_name +:+ nl)
  | PRINTF_TEST_ERROR =>
      print_message ("error: " +:+ test_name +:+ " [ " +:+ fmt_s error_message +:+ " ]" +:+ nl)
  end.

(** ** XML *)

(** The streams the report is written to. *)
Inductive stream := Stdout | Stderr | File (name : string).

Definition fprintf (fp : stream) (s : string) : CM unit :=
  match fp with
  | Stdout => print_message s
  | Stderr => print_error s
  | File name => modify (fun w => set_files (<[name := default "" (files w !! name) +:+ s]> (files w)) w)
  end.

(** fopen(name, "r") succeeds if the file exists; "w" truncates or creates it
    and "a" keeps its content, if the platform permits. *)
Definition fopen_w (name : string) : CM bool := fun w =>
  if plat_fopen_w_ok w name then (Ret true, set_files (<[name := ""]> (files w)) w)
  else (Ret false, w).
Definition fopen_a (name : string) : CM bool := fun w => (Ret (plat_fopen_w_ok w name), w).

(** A computation on a local buffer of [n] bytes, which is then read as a C
    string. *)
Definition with_buffer (n : nat) (m : M cstate unit) : CM string := fun w =>
  match (m;; s ← deref (cstr ∘ src_buf); mret (text s)) (mkCstate (replicate n NUL) None (errno w)) with
  | (Ret s, st) => (Ret s, set_errno (cs_errno st) w)
  | (LongJmp, _) => (LongJmp, w)
  | (AssertJmp, _) => (AssertJmp, w)
  | (Exit c, _) => (Exit c, w)
  | (Aborted, _) => (Aborted, w)
  | (Undef, _) => (Undef, w)
  | (NoFuel, _) => (NoFuel, w)
  end.

Definition BUFFER_SIZE : nat := 1024.

(** The name of the report file: "%g" stands for the name of the group, unless
    the result might not fit. *)
Definition xml_file_name (env group_name : string) : M cstate unit :=
  snprintf_s env;;
  ok ← c_strreplace false BUFFER_SIZE (Some "%g") (Some group_name);
  if (ok : bool) then mret tt else snprintf_s env.

Definition attribute_string (src : string) : CM string :=
  with_buffer BUFFER_SIZE (cmprepare_xml_attribute_string BUFFER_SIZE src).

(** The stream and whether a file was opened. *)
Definition open_xml_report (group_name : string) : CM (stream * bool) :=
  env ← gets (fun w => environ w !! "CMOCKA_XML_FILE");
  match env with
  | None => mret (Stdout, false)
  | Some env =>
      buf ← with_buffer BUFFER_SIZE (xml_file_name env group_name);
      readable ← gets (fun w => bool_decide (is_Some (files w !! buf)));
      if negb readable then
        ok ← fopen_w buf;
        if (ok : bool) then modify (set_file_append 1);; mret (File buf, true)
        else mret (Stderr, false)
      else
        append ← gets file_append;
        if negb (append =? 0) then
          ok ← fopen_a buf;
          if (ok : bool) then modify (set_xml_printed 1);; mret (File buf, true)
          else mret (Stderr, false)
        else mret (Stderr, false)
  end.

Definition dq (s : string) : string :=
  let q := String (Ascii.ascii_of_nat 34) "" in q +:+ s +:+ q.

Definition print_xml_result (fp : stream) (r : report) : CM unit :=
  match rp_status r with
  | CM_TEST_ERROR | CM_TEST_FAILED =>
      match rp_error_message r with
      | Some m => fprintf fp ("      <failure><![CDATA[" +:+ m +:+ "]]></failure>" +:+ nl)
      | None => fprintf fp ("      <failure message=" +:+ dq "Unknown error" +:+ " />" +:+ nl)
      end
  | CM_TEST_SKIPPED => fprintf fp ("      <skipped/>" +:+ nl)
  | CM_TEST_PASSED | CM_TEST_NOT_STARTED => mret tt
  end.

Definition cmprintf_group_finish_xml (group_name : string)
    (total_executed total_failed total_errors total_skipped : nat) (total_runtime : fpnum)
    (cm_tests : list report) : CM unit :=
  fo ← open_xml_report group_name;
  let '(fp, file_opened) := fo in
  xml ← gets xml_printed;
  append ← gets file_append;
  when ((xml =? 0) || (file_opened && (append =? 0)))
    (fprintf fp ("<?xml version=" +:+ dq "1.0" +:+ " encoding=" +:+ dq "UTF-8" +:+ " ?>" +:+ nl);;
     when (negb file_opened) (modify (set_xml_printed 1)));;
  group_name_escaped ← attribute_string group_name;
  fprintf fp ("<testsuites>" +:+ nl);;
  let attr (name : string) (k : nat) := name +:+ "=" +:+ dq (fmt_u (to_u32 (Z.of_nat k))) +:+ " " in
  fprintf fp ("  <testsuite name=" +:+ dq group_name_escaped +:+ " time=" +:+
    dq (fmt_fixed 3 total_runtime) +:+ " " +:+ attr "tests" total_executed +:+
    attr "failures" total_failed +:+ attr "errors" total_errors +:+ attr "skipped" total_skipped +:+
    ">" +:+ nl);;
  for_each (take total_executed cm_tests) (fun r =>
    test_name_escaped ← attribute_string (rp_name r);
    fprintf fp ("    <testcase name=" +:+ dq test_name_escaped +:+ " time=" +:+
      dq (fmt_fixed 3 (rp_runtime r)) +:+ " >" +:+ nl);;
    print_xml_result fp r;;
    fprintf fp ("    </testcase>" +:+ nl));;
  fprintf fp ("  </testsuite>" +:+ nl);;
  fprintf fp ("</testsuites>" +:+ nl).

(** ** Dispatch *)

Definition cmprintf_group_start (group_name : string) (num_tests : nat) : CM unit :=
  output ← cm_get_output;
  when (has_output output CM_OUTPUT_STANDARD) (cmprintf_group_start_standard group_name num_tests);;
  when (has_output output CM_OUTPUT_TAP) (cmprintf_group_start_tap num_tests).

Definition cmprintf_group_finish (group_name : string)
    (total_executed total_passed total_failed total_errors total_skipped : nat)
    (total_runtime : fpnum) (cm_tests : list report) : CM unit :=
  output ← cm_get_output;
  when (has_output output CM_OUTPUT_STANDARD)
    (cmprintf_group_finish_standard group_name total_executed total_passed total_failed total_errors
       total_skipped cm_tests);;
  when (has_output output CM_OUTPUT_TAP)
    (cmprintf_group_finish_tap group_name total_executed total_passed total_skipped);;
  when (has_output output CM_OUTPUT_XML)
    (cmprintf_group_finish_xml group_name total_executed total_failed total_errors total_skipped
       total_runtime cm_tests).

Definition cmprintf (type : cm_printf_type) (test_number : nat) (test_name : string)
    (error_message : option string) : CM unit :=
  output ← cm_get_output;
  when (has_output output CM_OUTPUT_STANDARD) (cmprintf_standard type test_name error_message);;
  when (has_output output CM_OUTPUT_SUBUNIT) (cmprintf_subunit type test_name error_message);;
  when (has_output output CM_OUTPUT_TAP) (cmprintf_tap type test_number test_name error_message).
End code.
