(* ===== verification/OutputProofs.v ===== *)
(** * Reporting returns and only prints

    Every function of Output.v returns - the XML report included, with names of
    any length - and changes nothing but what was printed or written to files,
    the collected messages, errno and the caches of the output. *)
From S2P Require Import Prelude CMonad CString CStringTheorems ListNode World Report Memory FloatCompare Output.

(** [w'] is [w] but for what was printed, and for the caches of the output. *)
Definition talks (w w' : World) : Prop :=
  exists so se m o c v f x p e, w' = set_stdout_text so (set_stderr_text se (set_cm_error_message m
    (set_global_msg_output o (set_env_checked c (set_version_printed v
    (set_files f (set_xml_printed x (set_file_append p (set_errno e w))))))))).

(** Give the components of a state that differs only in them. *)
Ltac talk :=
  match goal with
  | |- talks ?w ?w' =>
      exists (stdout_text w'), (stderr_text w'), (cm_error_message w'), (global_msg_output w'), (env_checked w'),
        (version_printed w'), (files w'), (xml_printed w'), (file_append w'), (errno w'); by destruct w
  end.

#[export] Instance talks_preorder : PreOrder talks.
Proof.
  split; [intros w; talk|].
  intros w1 w2 w3 (so & se & m & o & c & v & f & x & p & e & ->) (so' & se' & m' & o' & c' & v' & f' & x' & p' & e' & ->).
  exists so', se', m', o', c', v', f', x', p', e'. by destruct w1.
Qed.

(** A count as "%u" prints it. *)
Definition fmt_number (n : nat) : string := fmt_u (to_u32 (Z.of_nat n)).

(** A computation that returns and only prints, and one with a result. *)
Definition speaks (m : CM unit) : Prop := forall w, exists w', m w = (Ret tt, w') /\ talks w w'.
Definition answers {A} (m : CM A) : Prop := forall w, exists a w', m w = (Ret a, w') /\ talks w w'.

Section reporting.
Context `{!Platform}.

Lemma quiet_talks w w' : quiet w w' -> talks w w'.
Proof. intros (m & e & o & c & ->). talk. Qed.
Lemma speaks_prints m : prints m -> speaks m.
Proof. intros Hm w. destruct (Hm w) as (w' & R & Q). exists w'. split; [done|by apply quiet_talks]. Qed.
Lemma speaks_ret : speaks (mret tt).
Proof. intros w. by exists w. Qed.
Lemma speaks_bind {A} (m : CM A) k : answers m -> (forall a, speaks (k a)) -> speaks (m ≫= k).
Proof.
  intros Hm Hk w. destruct (Hm w) as (a & w1 & R1 & Q1), (Hk a w1) as (w2 & R2 & Q2).
  exists w2. mrun R1. split; [done|by etrans].
Qed.
Lemma speaks_seq (m k : CM unit) : speaks m -> speaks k -> speaks (m;; k).
Proof. intros Hm Hk. apply speaks_bind; [|done]. intros w. destruct (Hm w) as (w' & ? & ?). by exists tt, w'. Qed.
Lemma speaks_when b m : speaks m -> speaks (when b m).
Proof. destruct b; [done|]. intros _. apply speaks_ret. Qed.
Lemma speaks_gets {A} (g : World -> A) (k : A -> CM unit) : (forall a, speaks (k a)) -> speaks (a ← gets g; k a).
Proof. intros Hk w. destruct (Hk (g w) w) as (w' & R & Q). by exists w'. Qed.
Lemma answers_output : answers cm_get_output.
Proof. intros w. destruct (cm_get_output_quiet w) as (o & w1 & R1 & Q1). exists o, w1. split; [done|by apply quiet_talks]. Qed.
Lemma speaks_output (k : Z -> CM unit) : (forall o, speaks (k o)) -> speaks (o ← cm_get_output; k o).
Proof. by apply speaks_bind, answers_output. Qed.
Lemma speaks_message s : speaks (print_message s).
Proof. intros w. eexists. split; [done|talk]. Qed.
Lemma speaks_error s : speaks (print_error s).
Proof. apply speaks_prints, prints_print_error. Qed.
Lemma speaks_cmocka_error s : speaks (cmocka_print_error s).
Proof. apply speaks_prints, prints_cmocka_print_error. Qed.
Lemma speaks_for_each {A} (l : list A) f : (forall x, speaks (f x)) -> speaks (for_each l f).
Proof. intros Hf. induction l as [|x l IH]; cbn [for_each]; [apply speaks_ret|by apply speaks_seq]. Qed.
#[local] Hint Resolve speaks_ret speaks_seq speaks_when speaks_gets speaks_output speaks_message speaks_error
  speaks_for_each : cmocka.

(** ** Standard, TAP and subunit *)

Lemma speaks_comment_lines p : forall q, speaks (print_comment_lines q p).
Proof.
  induction p as [|c p IH]; intros q; cbn [print_comment_lines]; [eauto with cmocka|].
  case_bool_decide; [|apply IH]. apply speaks_seq; [eauto with cmocka|]. destruct p; [apply speaks_ret|apply IH].
Qed.

(** Printing the result of a test. *)
Lemma speaks_cmprintf type number name message : speaks (cmprintf type number name message).
Proof.
  unfold cmprintf. apply speaks_output. intros o. apply speaks_seq; [|apply speaks_seq]; apply speaks_when.
  - destruct type, message; cbn; eauto with cmocka.
  - destruct type, message; cbn; eauto with cmocka.
  - destruct type, message as [m|]; cbn [cmprintf_tap]; eauto with cmocka.
    apply speaks_seq; [eauto with cmocka|]. apply speaks_gets. intros ok. apply speaks_when.
    destruct m; [apply speaks_ret|apply speaks_comment_lines].
Qed.

Lemma speaks_group_start name n : speaks (cmprintf_group_start name n).
Proof.
  unfold cmprintf_group_start, cmprintf_group_start_standard, cmprintf_group_start_tap.
  apply speaks_output. intros o. apply speaks_seq; apply speaks_when; [auto with cmocka|].
  apply speaks_gets. intros v. apply speaks_seq; [apply speaks_when, speaks_seq|]; auto with cmocka.
  intros w. eexists. split; [done|talk].
Qed.

Lemma speaks_finish_standard name a b c d e ts : speaks (cmprintf_group_finish_standard name a b c d e ts).
Proof.
  unfold cmprintf_group_finish_standard. apply speaks_seq; [auto with cmocka|]. apply speaks_seq; [auto with cmocka|].
  apply speaks_seq; apply speaks_when; auto 6 with cmocka.
Qed.

(** ** XML *)

Lemma answers_buffer n m :
  (forall e, exists st', m (mkCstate (replicate (S n) NUL) None e) = (Ret tt, st') /\ holds_some (S n) st') ->
  answers (with_buffer (S n) m).
Proof.
  intros Hm w. destruct (Hm (errno w)) as (st & R & _ & s & Hs). unfold with_buffer.
  rewrite (bind_run _ _ _ _ _ R).
  assert (cstr (src_buf st) = Some s) as Hc by (destruct Hs as [Hn [t ->]]; by apply cstr_app).
  rewrite (bind_run _ _ _ s st) by by apply deref_run.
  eexists _, _. split; [done|talk].
Qed.

Lemma answers_attribute s : answers (attribute_string s).
Proof. apply answers_buffer. intros e. apply cmprepare_holds, length_replicate. Qed.

Lemma answers_file_name env group : NUL ∉ chars group -> answers (with_buffer BUFFER_SIZE (xml_file_name env group)).
Proof.
  intros Hg. apply answers_buffer. intros e. unfold xml_file_name.
  destruct (snprintf_holds 1023 env (mkCstate (replicate 1024 NUL) None e)) as (st1 & R1 & H1);
    [apply length_replicate|].
  rewrite (bind_run _ _ _ _ _ R1).
  destruct (c_strreplace_holds 1024 "%g" group st1) as (ok & st2 & R2 & H2);
    [done|by apply (bool_decide_unpack _)|done|done|].
  change BUFFER_SIZE with 1024%nat. rewrite (bind_run _ _ _ _ _ R2). destruct ok; [by exists st2|].
  apply snprintf_holds, H2.
Qed.

Lemma speaks_fprintf fp s : speaks (fprintf fp s).
Proof. destruct fp; cbn [fprintf]; [auto with cmocka..|]. intros w. eexists. split; [done|talk]. Qed.
#[local] Hint Resolve speaks_fprintf : cmocka.

Lemma answers_open_report group : NUL ∉ chars group -> answers (open_xml_report group).
Proof.
  intros Hg w. unfold open_xml_report. mprim. destruct (environ w !! _) as [env|]; [|by exists (Stdout, false), w].
  destruct (answers_file_name env group Hg w) as (buf & w1 & R1 & T1). mrun R1. mprim.
  destruct (bool_decide _); cbn [negb].
  - mprim. destruct (file_append w1 =? 0); cbn [negb]; [by eexists _, _|]. unfold fopen_a. rewrite bind_eq.
    destruct (plat_fopen_w_ok w1 buf); [|by eexists _, _]. eexists _, _. split; [done|]. etrans; [exact T1|talk].
  - rewrite bind_eq. unfold fopen_w. destruct (plat_fopen_w_ok w1 buf); [|by eexists _, _].
    eexists _, _. split; [done|]. etrans; [exact T1|talk].
Qed.

Lemma speaks_modify_xml n : speaks (modify (set_xml_printed n)).
Proof. intros w. eexists. split; [done|talk]. Qed.
#[local] Hint Resolve speaks_modify_xml : cmocka.

Lemma speaks_xml_result fp r : speaks (print_xml_result fp r).
Proof. unfold print_xml_result. destruct (rp_status r); auto with cmocka; destruct (rp_error_message r); auto with cmocka. Qed.
#[local] Hint Resolve speaks_xml_result : cmocka.

Lemma speaks_finish_xml group a b c d t ts : NUL ∉ chars group -> speaks (cmprintf_group_finish_xml group a b c d t ts).
Proof.
  intros Hg. unfold cmprintf_group_finish_xml. apply speaks_bind; [by apply answers_open_report|].
  intros [fp opened]. apply speaks_gets. intros xml. apply speaks_gets. intros append.
  apply speaks_seq; [apply speaks_when, speaks_seq; auto with cmocka|].
  apply speaks_bind; [apply answers_attribute|]. intros name. cbv zeta.
  apply speaks_seq; [auto with cmocka|]. apply speaks_seq; [auto with cmocka|].
  apply speaks_seq; [|auto with cmocka]. apply speaks_for_each. intros r.
  apply speaks_bind; [apply answers_attribute|]. intros test_name. auto with cmocka.
Qed.

(** The report of a group, in every format. *)
Lemma speaks_group_finish group a b c d e t ts :
  NUL ∉ chars group -> speaks (cmprintf_group_finish group a b c d e t ts).
Proof.
  intros Hg. unfold cmprintf_group_finish. apply speaks_output. intros o.
  apply speaks_seq; [apply speaks_when, speaks_finish_standard|]. apply speaks_seq; apply speaks_when.
  - unfold cmprintf_group_finish_tap. auto with cmocka.
  - by apply speaks_finish_xml.
Qed.
End reporting.
