(* ===== verification/Runner.v ===== *)
(** * The test runner

    [cmocka_run_one_test_or_fixture], [cmocka_run_group_fixture],
    [cmocka_run_one_tests] and [_cmocka_run_group_tests] of src/src/cmocka.c,
    with the time differences they report.  Tests and fixtures are
    computations of the program under test, given the address of a state
    variable; [setjmp] is the case analysis on how they end. *)
From Stdlib Require Import Floats.SpecFloat.
From S2P Require Import Prelude CMonad CString ListNode World Report Memory SymbolMap Mock FloatCompare Alloc Output.

(** ** Time *)

(** [struct timespec] *)
Record timespec := mkTimespec { tv_sec : Z; tv_nsec : Z }.

(** [(int) (a / b)] for integers of at most 2^31 in absolute value, which
    binary64 represents and whose quotient it does not round up to an integer. *)
Definition double_quot (a b : Z) : Z := Z.quot a b.
Definition E9 : Z := 10 ^ 9.

Definition cm_tspecdiff (time1 time0 : timespec) : timespec :=
  let time0 :=
    if tv_nsec time1 <? tv_nsec time0 then
      let xsec := double_quot (tv_nsec time0 - tv_nsec time1) (E9 + 1) in
      mkTimespec (tv_sec time0 + xsec) (tv_nsec time0 - E9 * xsec)
    else time0 in
  let time0 :=
    if E9 <? tv_nsec time1 - tv_nsec time0 then
      let xsec := double_quot (tv_nsec time1 - tv_nsec time0) E9 in
      mkTimespec (tv_sec time0 - xsec) (tv_nsec time0 + E9 * xsec)
    else time0 in
  let sign := if tv_sec time1 <? tv_sec time0 then -1 else 1 in
  mkTimespec ((tv_sec time1 - tv_sec time0) * sign) (tv_nsec time1 - tv_nsec time0).

(** (double) z *)
Definition double_of_Z (z : Z) : fpnum := binary_normalize 53 1024 z 0 false.

Definition cm_secdiff (clock1 clock0 : timespec) : fpnum :=
  let diff := cm_tspecdiff clock1 clock0 in
  SFadd 53 1024 (double_of_Z (tv_sec diff))
    (SFdiv 53 1024 (double_of_Z (tv_nsec diff)) (double_of_Z E9)).

(** ** Tests *)

Definition CMUnitTestFunction : Type := ptr -> CM unit.
Definition CMFixtureFunction : Type := ptr -> CM Z.

(** [struct CMUnitTest]; None is NULL. *)
Record CMUnitTest := mkCMUnitTest {
  ut_name : option string;
  ut_test_func : option CMUnitTestFunction;
  ut_setup_func : option CMFixtureFunction;
  ut_teardown_func : option CMFixtureFunction;
  ut_initial_state : ptr;
}.

(** [struct CMUnitTestState]; its member [state], whose address the test gets,
    is the variable at [ts_state]. *)
Record CMUnitTestState := mkCMUnitTestState {
  ts_check_point : ptr;
  ts_test : CMUnitTest;
  ts_state : ptr;
  ts_error_message : option string;
  ts_status : CMUnitTestStatus;
  ts_runtime : fpnum;
}.

Definition test_name (t : CMUnitTest) : string := default "(null)" (ut_name t).
Definition with_status (s : CMUnitTestStatus) (t : CMUnitTestState) : CMUnitTestState :=
  mkCMUnitTestState (ts_check_point t) (ts_test t) (ts_state t) (ts_error_message t) s (ts_runtime t).
Definition with_check_point (p : ptr) (t : CMUnitTestState) : CMUnitTestState :=
  mkCMUnitTestState p (ts_test t) (ts_state t) (ts_error_message t) (ts_status t) (ts_runtime t).
Definition with_runtime (r : fpnum) (t : CMUnitTestState) : CMUnitTestState :=
  mkCMUnitTestState (ts_check_point t) (ts_test t) (ts_state t) (ts_error_message t) (ts_status t) r.
Definition with_error_message (m : option string) (t : CMUnitTestState) : CMUnitTestState :=
  mkCMUnitTestState (ts_check_point t) (ts_test t) (ts_state t) m (ts_status t) (ts_runtime t).

Definition report_of (t : CMUnitTestState) : report :=
  mkReport (test_name (ts_test t)) (ts_status t) (ts_error_message t) (ts_runtime t).

(** The addresses of the [void *] variables: the local [current_state], the
    local [group_state] and the member [state] of the i-th element of
    [cm_tests]. *)
Definition current_state_addr : ptr := 8.
Definition group_state_addr : ptr := 16.
Definition test_state_addr (i : nat) : ptr := 24 + 8 * Z.of_nat i.

Definition load_var (p : ptr) : CM ptr := deref (fun w => state_vars w !! p).
Definition store_var (p v : ptr) : CM unit :=
  modify (fun w => set_state_vars (<[p := v]> (state_vars w)) w).

(** ** Signals *)

(** SIGFPE, SIGILL, SIGSEGV, SIGBUS, SIGSYS (Linux) *)
Definition exception_signals : list Z := [8; 4; 11; 7; 31].

(** signal(): set a disposition, return the previous one. *)
Definition signal (sig : Z) (f : SignalFunction) : CM SignalFunction := fun w =>
  (Ret (default SIG_DFL (signal_handlers w !! sig)),
   set_signal_handlers (<[sig := f]> (signal_handlers w)) w).

Fixpoint install_handlers (sigs : list Z) : CM (list SignalFunction) :=
  match sigs with
  | [] => mret []
  | sig :: sigs' =>
      old ← signal sig Exception_handler;
      rest ← install_handlers sigs';
      mret (old :: rest)
  end.

Fixpoint restore_handlers (sigs : list Z) (fs : list SignalFunction) : CM unit :=
  match sigs, fs with
  | sig :: sigs', f :: fs' => signal sig f;; restore_handlers sigs' fs'
  | _, _ => mret tt
  end.

Section code.
Context `{!Platform}.

(** ** One test or fixture *)

(** [cm_setjmp(global_run_test_env)]: a longjmp of the body continues in
    [failed].  A longjmp to [global_expect_assert_env] that gets here has left
    the function that called setjmp, which is undefined. *)
Definition setjmp {A} (body failed : CM A) : CM A := fun w =>
  match body w with
  | (LongJmp, w') => failed w'
  | (AssertJmp, w') => (Undef, w')
  | r => r
  end.

(** The body of the first branch of setjmp. *)
Definition run_test_body (function_name : string) (test_func : option CMUnitTestFunction)
    (setup_func teardown_func : option CMFixtureFunction) (state check_point : ptr) : CM Z :=
  rc ← match test_func, setup_func, teardown_func with
       | Some f, _, _ => f state;; fail_if_blocks_allocated check_point function_name;; mret 0
       | None, Some f, _ => f state
       | None, None, Some f =>
           rc ← f state; fail_if_blocks_allocated check_point function_name;; mret rc
       | None, None, None => mret 0
       end;
  fail_if_leftover_values;;
  modify (set_global_running_test 0);;
  mret rc.

(** The branch after a longjmp. *)
Definition test_failed : CM Z :=
  modify (set_global_running_test 0);;
  stop ← gets global_stop_test;
  if negb (stop =? 0) then
    leftover ← has_leftover_values;
    modify (set_global_stop_test 0);;
    mret (if (leftover : bool) then -1 else 0)
  else mret (-1).

(** [state] is NULL for the local variable [current_state]. *)
Definition cmocka_run_one_test_or_fixture (function_name : string)
    (test_func : option CMUnitTestFunction) (setup_func teardown_func : option CMFixtureFunction)
    (state heap_check_point : ptr) : CM Z :=
  check_point ← (if negb (heap_check_point =? NULL) then mret heap_check_point
                 else check_point_allocated_blocks);
  store_var current_state_addr NULL;;
  old ← install_handlers exception_signals;
  modify (set_default_signal_functions old);;
  initialize_testing;;
  modify (set_global_running_test 1);;
  rc ← setjmp
         (run_test_body function_name test_func setup_func teardown_func
            (if negb (state =? NULL) then state else current_state_addr) check_point)
         test_failed;
  teardown_testing;;
  saved ← gets default_signal_functions;
  restore_handlers exception_signals saved;;
  mret rc.

Definition cmocka_run_group_fixture (function_name : string)
    (setup_func teardown_func : option CMFixtureFunction) (state heap_check_point : ptr) : CM Z :=
  match setup_func with
  | Some _ =>
      cmocka_run_one_test_or_fixture function_name None setup_func None state heap_check_point
  | None =>
      cmocka_run_one_test_or_fixture function_name None None teardown_func state heap_check_point
  end.

(** ** One test with its fixtures *)

(** clock_gettime(CLOCK_REALTIME) *)
Definition clock_gettime : CM timespec := fun w =>
  (Ret (mkTimespec (plat_clock (clock w)).1 (plat_clock (clock w)).2), set_clock (S (clock w)) w).

(** The setup of a test: its result and the updated state. *)
Definition run_setup (t : CMUnitTestState) : CM (Z * CMUnitTestState) :=
  match ut_setup_func (ts_test t) with
  | None => mret (0, t)
  | Some setup =>
      check_point ← check_point_allocated_blocks;
      let t := with_check_point check_point t in
      rc ← cmocka_run_one_test_or_fixture (test_name (ts_test t)) None (Some setup) None
             (ts_state t) check_point;
      if negb (rc =? 0) then
        cmocka_print_error "Test setup failed";; mret (rc, with_status CM_TEST_ERROR t)
      else mret (rc, t)
  end.

(** The test function itself: the updated state. *)
Definition run_test (t : CMUnitTestState) : CM CMUnitTestState :=
  rc ← cmocka_run_one_test_or_fixture (test_name (ts_test t)) (ut_test_func (ts_test t)) None None
         (ts_state t) NULL;
  if rc =? 0 then mret (with_status CM_TEST_PASSED t)
  else
    skip ← gets global_skip_test;
    if negb (skip =? 0) then
      modify (set_global_skip_test 0);; mret (with_status CM_TEST_SKIPPED t)
    else mret (with_status CM_TEST_FAILED t).

Definition run_teardown (rc : Z) (t : CMUnitTestState) : CM (Z * CMUnitTestState) :=
  match ut_teardown_func (ts_test t) with
  | Some teardown =>
      if rc =? 0 then
        rc ← cmocka_run_one_test_or_fixture (test_name (ts_test t)) None None (Some teardown)
               (ts_state t) (ts_check_point t);
        if negb (rc =? 0) then
          cmocka_print_error "Test teardown failed";; mret (rc, with_status CM_TEST_ERROR t)
        else mret (rc, t)
      else mret (rc, t)
  | None => mret (rc, t)
  end.

Definition cmocka_run_one_tests (t : CMUnitTestState) : CM (Z * CMUnitTestState) :=
  rt ← run_setup t;
  let '(rc, t) := rt in
  start ← clock_gettime;
  t ← (if rc =? 0 then run_test t else mret t);
  finish ← clock_gettime;
  let t := with_runtime (cm_secdiff finish start) t in
  rt ← run_teardown rc t;
  let '(rc, t) := rt in
  message ← gets cm_error_message;
  modify (set_cm_error_message None);;
  mret (rc, with_error_message message t).

(** ** A group of tests *)

(** The condition for an element of [tests] to be run. *)
Definition is_test (t : CMUnitTest) : bool :=
  bool_decide (is_Some (ut_name t)) &&
  (bool_decide (is_Some (ut_test_func t)) || bool_decide (is_Some (ut_setup_func t)) ||
   bool_decide (is_Some (ut_teardown_func t))).

Definition is_selected (test_filter skip_filter : option string) (t : CMUnitTest) : bool :=
  is_test t &&
  match test_filter with Some _ => c_strmatch (ut_name t) test_filter | None => true end &&
  negb match skip_filter with Some _ => c_strmatch (ut_name t) skip_filter | None => false end.

(** The loop that sets up the test array; [state] of each element is NULL. *)
Fixpoint setup_test_array (i : nat) (tests : list CMUnitTest) : CM (list CMUnitTestState) :=
  match tests with
  | [] => mret []
  | t :: tests' =>
      test_filter ← gets global_test_filter_pattern;
      skip_filter ← gets global_skip_filter_pattern;
      if is_selected test_filter skip_filter t then
        store_var (test_state_addr i) NULL;;
        rest ← setup_test_array (S i) tests';
        mret (mkCMUnitTestState NULL t (test_state_addr i) None CM_TEST_NOT_STARTED fp_zero :: rest)
      else setup_test_array i tests'
  end.

(** The counters of [_cmocka_run_group_tests]. *)
Record totals := mkTotals {
  total_failed : nat;
  total_passed : nat;
  total_executed : nat;
  total_errors : nat;
  total_skipped : nat;
  total_runtime : fpnum;
}.
Definition no_totals : totals := mkTotals 0 0 0 0 0 fp_zero.

(** [snprintf(err_msg, sizeof(err_msg), "Could not run test: %s", ...)] *)
Definition could_not_run (message : option string) : string :=
  str_take 2047 ("Could not run test: " +:+ fmt_s message).

(** The switch on the status of a test that was run: the report to print and
    the counters. *)
Definition count_result (rc : Z) (t : CMUnitTestState) (c : totals)
    : cm_printf_type * option string * totals :=
  let c := mkTotals (total_failed c) (total_passed c) (S (total_executed c)) (total_errors c)
             (total_skipped c) (SFadd 53 1024 (total_runtime c) (ts_runtime t)) in
  let error :=
    mkTotals (total_failed c) (total_passed c) (total_executed c) (S (total_errors c))
      (total_skipped c) (total_runtime c) in
  if rc =? 0 then
    match ts_status t with
    | CM_TEST_PASSED =>
        (PRINTF_TEST_SUCCESS, ts_error_message t,
         mkTotals (total_failed c) (S (total_passed c)) (total_executed c) (total_errors c)
           (total_skipped c) (total_runtime c))
    | CM_TEST_SKIPPED =>
        (PRINTF_TEST_SKIPPED, ts_error_message t,
         mkTotals (total_failed c) (total_passed c) (total_executed c) (total_errors c)
           (S (total_skipped c)) (total_runtime c))
    | CM_TEST_FAILED =>
        (PRINTF_TEST_FAILURE, ts_error_message t,
         mkTotals (S (total_failed c)) (total_passed c) (total_executed c) (total_errors c)
           (total_skipped c) (total_runtime c))
    | CM_TEST_NOT_STARTED | CM_TEST_ERROR =>
        (PRINTF_TEST_ERROR, Some "Internal cmocka error", error)
    end
  else (PRINTF_TEST_ERROR, Some (could_not_run (ts_error_message t)), error).

(** The loop over the selected tests, from test number [i + 1] on. *)
Fixpoint execute_tests (i : nat) (tests : list CMUnitTestState) (c : totals)
    : CM (list CMUnitTestState * totals) :=
  match tests with
  | [] => mret ([], c)
  | t :: tests' =>
      let test_number := S i in
      let name := test_name (ts_test t) in
      cmprintf PRINTF_TEST_START test_number name None;;
      group_state ← load_var group_state_addr;
      (if negb (group_state =? NULL) then store_var (ts_state t) group_state
       else if negb (ut_initial_state (ts_test t) =? NULL)
       then store_var (ts_state t) (ut_initial_state (ts_test t))
       else mret tt);;
      rt ← cmocka_run_one_tests t;
      let '(rc, t') := rt in
      let '(type, message, c') := count_result rc t' c in
      cmprintf type test_number name message;;
      rest ← execute_tests (S i) tests' c';
      mret (t' :: rest.1, rest.2)
  end.

(** Print and free the collected messages. *)
Definition flush_error_message : CM unit :=
  message ← gets cm_error_message;
  match message with
  | Some m => print_error ("[  ERROR   ] --- " +:+ m +:+ nl);; modify (set_cm_error_message None)
  | None => mret tt
  end.

Definition count_error (c : totals) : totals :=
  mkTotals (total_failed c) (total_passed c) (total_executed c) (S (total_errors c))
    (total_skipped c) (total_runtime c).

Definition SIZEOF_CMUNITTESTSTATE : Z := 48.

(** [tests] has [num_tests] elements.  The error messages of the tests belong
    to their states and are dropped with them. *)
Definition _cmocka_run_group_tests (group_name : string) (tests : list CMUnitTest)
    (group_setup group_teardown : option CMFixtureFunction) : CM Z :=
  group_check_point ← check_point_allocated_blocks;
  store_var group_state_addr NULL;;
  allocated ← gets (fun w => plat_libc_alloc_ok w (SIZEOF_CMUNITTESTSTATE * Z.of_nat (length tests)));
  if negb allocated then mret (-1)
  else
    cm_tests ← setup_test_array 0 tests;
    cmprintf_group_start group_name (length cm_tests);;
    rc ← match group_setup with
         | Some _ => cmocka_run_group_fixture "cmocka_group_setup" group_setup None
                       group_state_addr group_check_point
         | None => mret 0
         end;
    result ← (if rc =? 0 then execute_tests 0 cm_tests no_totals
              else
                flush_error_message;;
                cmprintf PRINTF_TEST_ERROR 0 group_name (Some "[  FAILED  ] GROUP SETUP");;
                mret (cm_tests, count_error no_totals));
    let '(cm_tests, c) := result in
    match group_teardown with
    | Some _ =>
        rc ← cmocka_run_group_fixture "cmocka_group_teardown" None group_teardown
               group_state_addr group_check_point;
        when (negb (rc =? 0))
          (flush_error_message;;
           cmprintf PRINTF_TEST_ERROR 0 group_name (Some "[  FAILED  ] GROUP TEARDOWN"))
    | None => mret tt
    end;;
    cmprintf_group_finish group_name (total_executed c) (total_passed c) (total_failed c)
      (total_errors c) (total_skipped c) (total_runtime c) (report_of <$> cm_tests);;
    fail_if_blocks_allocated group_check_point "cmocka_group_tests";;
    mret (to_s32 (Z.of_nat (total_failed c + total_errors c))).
End code.
