(* ===== verification/Api.v ===== *)
(** * The public macros

    The macros of src/include/cmocka.h through which tests and mock functions
    call the library.  A macro with the argument [here] uses __FILE__ and
    __LINE__ of the place where it is written; one with the argument [func]
    uses __func__.  An argument the macro turns into a string (#function) is
    that string; an integer argument is the value of the C expression, and the
    casts and conversions of the macro are applied to it. *)
From Stdlib Require Import Floats.SpecFloat.
From S2P Require Import Prelude CMonad ListNode World Report Memory SymbolMap Mock FloatCompare Compare Checks Asserts Alloc Output Runner.

(** The place of a macro call. *)
Record site := mkSite { site_file : option string; site_line : Z }.

(** ** Values *)

Definition cast_to_intmax_type (value : Z) : Z := to_s64 value.
Definition cast_to_uintmax_type (value : Z) : Z := to_u64 value.

(** The 64 bits of a [double]; the bits of a NaN are those of the default
    quiet NaN. *)
Definition double_bits (x : fpnum) : Z :=
  let sign (s : bool) := if s then 2 ^ 63 else 0 in
  match x with
  | S754_zero s => sign s
  | S754_infinity s => sign s + 2047 * 2 ^ 52
  | S754_nan => 2047 * 2 ^ 52 + 2 ^ 51
  | S754_finite s m e =>
      if Z.pos m <? 2 ^ 52 then sign s + Z.pos m
      else sign s + (e + 1075) * 2 ^ 52 + (Z.pos m - 2 ^ 52)
  end.

Definition bits_double (v : Z) : fpnum :=
  let s := 2 ^ 63 <=? v in
  let biased := (v / 2 ^ 52) mod 2 ^ 11 in
  let fraction := v mod 2 ^ 52 in
  if biased =? 0 then
    match fraction with Zpos m => S754_finite s m (-1074) | _ => S754_zero s end
  else if biased =? 2047 then
    if fraction =? 0 then S754_infinity s else S754_nan
  else match fraction + 2 ^ 52 with Zpos m => S754_finite s m (biased - 1075) | _ => S754_nan end.

(** The member [real_val] of a [CMockaValueData]. *)
Definition real_val (v : CMockaValueData) : fpnum := bits_double (to_u64 v).

Definition cast_int_to_cmocka_value (value : Z) : CMockaValueData := to_u64 value.
Definition cast_ptr_to_cmocka_value (value : ptr) : CMockaValueData := value.
(** The bits of the [intmax_t] to which [value] is converted. *)
Definition assign_int_to_cmocka_value (value : Z) : CMockaValueData := to_u64 (to_s64 value).
Definition assign_uint_to_cmocka_value (value : Z) : CMockaValueData := to_u64 value.
Definition assign_double_to_cmocka_value (value : fpnum) : CMockaValueData := double_bits value.

Section macros.
Context `{!Platform}.

(** ** Mock functions *)

Definition mock (func : string) (here : site) : CM Z :=
  v ← _mock func (site_file here) (site_line here) None; mret (uint_val v).
(** [cast] is the conversion to the integer type. *)
Definition mock_type {A} (cast : Z -> A) (func : string) (here : site) : CM A :=
  v ← mock func here; mret (cast v).
Definition mock_int (func : string) (here : site) : CM Z :=
  v ← _mock func (site_file here) (site_line here) None; mret (int_val v).
Definition mock_uint (func : string) (here : site) : CM Z :=
  v ← _mock func (site_file here) (site_line here) (Some "uintmax_t"); mret (uint_val v).
Definition mock_float (func : string) (here : site) : CM fpnum :=
  v ← _mock func (site_file here) (site_line here) None; mret (real_val v).
Definition mock_ptr_type (type : string) (func : string) (here : site) : CM ptr :=
  v ← _mock func (site_file here) (site_line here) (Some type); mret (val_ptr v).

Definition will_return (here : site) (function : string) (value : Z) : CM unit :=
  _will_return function (site_file here) (site_line here) None (cast_int_to_cmocka_value value) 1.

Definition will_return_int (here : site) (function : string) (value : Z) : CM unit :=
  _will_return function (site_file here) (site_line here) (Some "intmax_t") (assign_int_to_cmocka_value value) 1.

Definition will_return_uint (here : site) (function : string) (value : Z) : CM unit :=
  _will_return function (site_file here) (site_line here) (Some "uintmax_t") (assign_uint_to_cmocka_value value) 1.

Definition will_return_float (here : site) (function : string) (value : fpnum) : CM unit :=
  _will_return function (site_file here) (site_line here) (Some "float") (assign_double_to_cmocka_value value) 1.

Definition will_return_count (here : site) (function : string) (value count : Z) : CM unit :=
  _will_return function (site_file here) (site_line here) None (cast_int_to_cmocka_value value) (to_s32 count).

Definition will_return_always (here : site) (function : string) (value : Z) : CM unit :=
  will_return_count here function value WILL_RETURN_ALWAYS.
Definition will_return_maybe (here : site) (function : string) (value : Z) : CM unit :=
  will_return_count here function value WILL_RETURN_ONCE.

Definition will_return_ptr (here : site) (function : string) (value : ptr) : CM unit :=
  _will_return function (site_file here) (site_line here) None (cast_ptr_to_cmocka_value value) 1.

Definition will_return_ptr_type (here : site) (function : string) (value : ptr) (type : string) : CM unit :=
  _will_return function (site_file here) (site_line here) (Some type) (cast_ptr_to_cmocka_value value) 1.

Definition will_return_ptr_count (here : site) (function : string) (value : ptr) (count : Z) : CM unit :=
  _will_return function (site_file here) (site_line here) None (cast_ptr_to_cmocka_value value) (to_s32 count).

Definition will_return_ptr_always (here : site) (function : string) (value : ptr) : CM unit :=
  will_return_ptr_count here function value WILL_RETURN_ALWAYS.
Definition will_return_ptr_maybe (here : site) (function : string) (value : ptr) : CM unit :=
  will_return_ptr_count here function value WILL_RETURN_ONCE.

(** ** Expected parameters *)

Definition expect_check_count (here : site) (function parameter : string)
    (check_function : CheckParameterValue) (check_data : CMockaValueData) (count : Z) : CM unit :=
  _expect_check function parameter (site_file here) (site_line here) check_function check_data NULL
    (to_s32 count).
Definition expect_check (here : site) (function parameter : string)
    (check_function : CheckParameterValue) (check_data : CMockaValueData) : CM unit :=
  _expect_check function parameter (site_file here) (site_line here) check_function check_data NULL 1.

(** [value_array] is an array, of whose elements the number is
    [sizeof(value_array) / sizeof((value_array)[0])]. *)
Definition expect_in_set_count (here : site) (function parameter : string) (value_array : list Z) (count : Z) : CM unit :=
  _expect_uint_in_set function parameter (site_file here) (site_line here) (Some value_array)
    (Z.of_nat (length value_array)) (to_u64 count).
Definition expect_in_set (here : site) (function parameter : string) (value_array : list Z) : CM unit :=
  expect_in_set_count here function parameter value_array 1.

Definition expect_int_in_set_count (here : site) (function parameter : string) (value_array : list Z) (count : Z) : CM unit :=
  _expect_int_in_set function parameter (site_file here) (site_line here) (Some value_array)
    (Z.of_nat (length value_array)) (to_u64 count).
Definition expect_int_in_set (here : site) (function parameter : string) (value_array : list Z) : CM unit :=
  expect_int_in_set_count here function parameter value_array 1.

Definition expect_uint_in_set_count (here : site) (function parameter : string) (value_array : list Z) (count : Z) : CM unit :=
  _expect_uint_in_set function parameter (site_file here) (site_line here) (Some value_array)
    (Z.of_nat (length value_array)) (to_u64 count).
Definition expect_uint_in_set (here : site) (function parameter : string) (value_array : list Z) : CM unit :=
  expect_uint_in_set_count here function parameter value_array 1.

Definition expect_not_in_set_count (here : site) (function parameter : string) (value_array : list Z) (count : Z) : CM unit :=
  _expect_not_in_set function parameter (site_file here) (site_line here) (Some value_array)
    (Z.of_nat (length value_array)) (to_s32 count).
Definition expect_not_in_set (here : site) (function parameter : string) (value_array : list Z) : CM unit :=
  expect_not_in_set_count here function parameter value_array 1.

Definition expect_in_range_count (here : site) (function parameter : string) (minimum maximum : Z) (count : Z) : CM unit :=
  _expect_in_range function parameter (site_file here) (site_line here) (to_u64 minimum)
    (to_u64 maximum) (to_s32 count).
Definition expect_in_range (here : site) (function parameter : string) (minimum maximum : Z) : CM unit :=
  expect_in_range_count here function parameter minimum maximum 1.

Definition expect_not_in_range_count (here : site) (function parameter : string) (minimum maximum : Z) (count : Z) : CM unit :=
  _expect_not_in_range function parameter (site_file here) (site_line here) (to_u64 minimum)
    (to_u64 maximum) (to_s32 count).
Definition expect_not_in_range (here : site) (function parameter : string) (minimum maximum : Z) : CM unit :=
  expect_not_in_range_count here function parameter minimum maximum 1.

Definition expect_value_count (here : site) (function parameter : string) (value : Z) (count : Z) : CM unit :=
  _expect_value function parameter (site_file here) (site_line here) (cast_to_uintmax_type value) (to_s32 count).
Definition expect_value (here : site) (function parameter : string) (value : Z) : CM unit :=
  expect_value_count here function parameter value 1.

Definition expect_not_value_count (here : site) (function parameter : string) (value : Z) (count : Z) : CM unit :=
  _expect_not_value function parameter (site_file here) (site_line here) (cast_to_uintmax_type value) (to_s32 count).
Definition expect_not_value (here : site) (function parameter : string) (value : Z) : CM unit :=
  expect_not_value_count here function parameter value 1.

Definition expect_string_count (here : site) (function parameter : string) (string_ : ptr) (count : Z) : CM unit :=
  _expect_string function parameter (site_file here) (site_line here) string_ (to_s32 count).
Definition expect_string (here : site) (function parameter : string) (string_ : ptr) : CM unit :=
  expect_string_count here function parameter string_ 1.

Definition expect_not_string_count (here : site) (function parameter : string) (string_ : ptr) (count : Z) : CM unit :=
  _expect_not_string function parameter (site_file here) (site_line here) string_ (to_s32 count).
Definition expect_not_string (here : site) (function parameter : string) (string_ : ptr) : CM unit :=
  expect_not_string_count here function parameter string_ 1.

Definition expect_memory_count (here : site) (function parameter : string) (memory : ptr) (size_ : Z) (count : Z) : CM unit :=
  _expect_memory function parameter (site_file here) (site_line here) memory (to_u64 size_) (to_s32 count).
Definition expect_memory (here : site) (function parameter : string) (memory : ptr) (size_ : Z) : CM unit :=
  expect_memory_count here function parameter memory size_ 1.

Definition expect_not_memory_count (here : site) (function parameter : string) (memory : ptr) (size_ : Z) (count : Z) : CM unit :=
  _expect_not_memory function parameter (site_file here) (site_line here) memory (to_u64 size_) (to_s32 count).
Definition expect_not_memory (here : site) (function parameter : string) (memory : ptr) (size_ : Z) : CM unit :=
  expect_not_memory_count here function parameter memory size_ 1.

Definition expect_any_count (here : site) (function parameter : string) (count : Z) : CM unit :=
  _expect_any function parameter (site_file here) (site_line here) (to_s32 count).
Definition expect_any (here : site) (function parameter : string) : CM unit :=
  expect_any_count here function parameter 1.
Definition expect_any_always (here : site) (function parameter : string) : CM unit :=
  expect_any_count here function parameter WILL_RETURN_ALWAYS.

(** [parameter] is the name of the parameter, [value] its value. *)
Definition check_expected (func : string) (here : site) (parameter : string) (value : Z) : CM unit :=
  _check_expected func parameter (site_file here) (site_line here) (cast_int_to_cmocka_value value).
Definition check_expected_ptr (func : string) (here : site) (parameter : string) (value : ptr) : CM unit :=
  _check_expected func parameter (site_file here) (site_line here) (cast_ptr_to_cmocka_value value).

(** ** Assertions *)

(** [text] is the asserted expression. *)
Definition assert_true (here : site) (text : string) (c : Z) : CM unit :=
  _assert_true (cast_to_uintmax_type c) text (site_file here) (site_line here).
Definition assert_false (here : site) (text : string) (c : Z) : CM unit :=
  _assert_false (cast_to_uintmax_type c) text (site_file here) (site_line here).
Definition assert_return_code (here : site) (text : string) (rc error : Z) : CM unit :=
  _assert_return_code (to_s64 rc) (to_s32 error) text (site_file here) (site_line here).

Definition assert_ptr_equal_msg (here : site) (a b : ptr) (msg : option string) : CM unit :=
  _assert_ptr_equal_msg a b (site_file here) (site_line here) msg.
Definition assert_ptr_equal (here : site) (a b : ptr) : CM unit := assert_ptr_equal_msg here a b None.
Definition assert_ptr_not_equal_msg (here : site) (a b : ptr) (msg : option string) : CM unit :=
  _assert_ptr_not_equal_msg a b (site_file here) (site_line here) msg.
Definition assert_ptr_not_equal (here : site) (a b : ptr) : CM unit :=
  assert_ptr_not_equal_msg here a b None.
Definition assert_non_null (here : site) (c : ptr) : CM unit := assert_ptr_not_equal here c NULL.
Definition assert_non_null_msg (here : site) (c : ptr) (msg : option string) : CM unit :=
  assert_ptr_not_equal_msg here c NULL msg.
Definition assert_null (here : site) (c : ptr) : CM unit := assert_ptr_equal here c NULL.
Definition assert_null_msg (here : site) (c : ptr) (msg : option string) : CM unit :=
  assert_ptr_equal_msg here c NULL msg.

Definition assert_int_equal (here : site) (a b : Z) : CM unit :=
  _assert_int_equal (cast_to_intmax_type a) (cast_to_intmax_type b) (site_file here) (site_line here).

Definition assert_uint_equal (here : site) (a b : Z) : CM unit :=
  _assert_uint_equal (cast_to_uintmax_type a) (cast_to_uintmax_type b) (site_file here) (site_line here).

Definition assert_int_not_equal (here : site) (a b : Z) : CM unit :=
  _assert_int_not_equal (cast_to_intmax_type a) (cast_to_intmax_type b) (site_file here) (site_line here).

Definition assert_uint_not_equal (here : site) (a b : Z) : CM unit :=
  _assert_uint_not_equal (cast_to_uintmax_type a) (cast_to_uintmax_type b) (site_file here) (site_line here).

(** The arguments are of the type the macro casts them to. *)
Definition assert_float_equal (here : site) (a b epsilon : fpnum) : CM unit :=
  _assert_float_equal a b epsilon (site_file here) (site_line here).

Definition assert_float_not_equal (here : site) (a b epsilon : fpnum) : CM unit :=
  _assert_float_not_equal a b epsilon (site_file here) (site_line here).

Definition assert_double_equal (here : site) (a b epsilon : fpnum) : CM unit :=
  _assert_double_equal a b epsilon (site_file here) (site_line here).

Definition assert_double_not_equal (here : site) (a b epsilon : fpnum) : CM unit :=
  _assert_double_not_equal a b epsilon (site_file here) (site_line here).

Definition assert_string_equal (here : site) (a b : ptr) : CM unit :=
  _assert_string_equal a b (site_file here) (site_line here).

Definition assert_string_not_equal (here : site) (a b : ptr) : CM unit :=
  _assert_string_not_equal a b (site_file here) (site_line here).

Definition assert_memory_equal (here : site) (a b : ptr) (size_ : Z) : CM unit :=
  _assert_memory_equal a b (to_u64 size_) (site_file here) (site_line here).

Definition assert_memory_not_equal (here : site) (a b : ptr) (size_ : Z) : CM unit :=
  _assert_memory_not_equal a b (to_u64 size_) (site_file here) (site_line here).

Definition assert_int_in_range (here : site) (value minimum maximum : Z) : CM unit :=
  _assert_int_in_range (cast_to_intmax_type value) (cast_to_intmax_type minimum) (cast_to_intmax_type maximum)
    (site_file here) (site_line here).

(** The casts to [intmax_t] are followed by the conversion to [uintmax_t] of the call. *)
Definition assert_uint_in_range (here : site) (value minimum maximum : Z) : CM unit :=
  _assert_uint_in_range (to_u64 (cast_to_intmax_type value)) (to_u64 (cast_to_intmax_type minimum)) (to_u64 (cast_to_intmax_type maximum))
    (site_file here) (site_line here).

Definition assert_int_not_in_range (here : site) (value minimum maximum : Z) : CM unit :=
  _assert_int_not_in_range (cast_to_intmax_type value) (cast_to_intmax_type minimum) (cast_to_intmax_type maximum)
    (site_file here) (site_line here).

Definition assert_uint_not_in_range (here : site) (value minimum maximum : Z) : CM unit :=
  _assert_uint_not_in_range (cast_to_uintmax_type value) (cast_to_uintmax_type minimum) (cast_to_uintmax_type maximum)
    (site_file here) (site_line here).

Definition assert_in_range (here : site) (value minimum maximum : Z) : CM unit :=
  _assert_uint_in_range (cast_to_uintmax_type value) (cast_to_uintmax_type minimum) (cast_to_uintmax_type maximum)
    (site_file here) (site_line here).

Definition assert_not_in_range (here : site) (value minimum maximum : Z) : CM unit :=
  _assert_uint_not_in_range (cast_to_uintmax_type value) (cast_to_uintmax_type minimum) (cast_to_uintmax_type maximum)
    (site_file here) (site_line here).

Definition assert_in_set (here : site) (value : Z) (values : list Z) (number_of_values : Z) : CM unit :=
  _assert_uint_in_set (to_u64 value) values number_of_values (site_file here) (site_line here).
Definition assert_not_in_set (here : site) (value : Z) (values : list Z) (number_of_values : Z) : CM unit :=
  _assert_not_in_set (to_u64 value) values number_of_values (site_file here) (site_line here).

(** The array [_cmocka_set] and the loop that fills it, converting each
    element. *)
Definition copy_set (convert : Z -> Z) (values : list Z) (number_of_values : Z) : CM (list Z) :=
  set ← array_take number_of_values (Some values); mret (map convert set).

Definition assert_int_in_set (here : site) (value : Z) (values : list Z) (number_of_values : Z) : CM unit :=
  when (0 <? number_of_values)
    (_cmocka_set ← copy_set to_s64 values number_of_values;
     _assert_int_in_set (to_s64 value) _cmocka_set number_of_values (site_file here) (site_line here)).

Definition assert_int_not_in_set (here : site) (value : Z) (values : list Z) (number_of_values : Z) : CM unit :=
  when (0 <? number_of_values)
    (_cmocka_set ← copy_set to_s64 values number_of_values;
     _assert_int_not_in_set (to_s64 value) _cmocka_set number_of_values (site_file here) (site_line here)).

Definition assert_uint_in_set (here : site) (value : Z) (values : list Z) (number_of_values : Z) : CM unit :=
  when (0 <? number_of_values)
    (_cmocka_set ← copy_set to_u64 values number_of_values;
     _assert_uint_in_set (to_u64 value) _cmocka_set number_of_values (site_file here) (site_line here)).

Definition assert_uint_not_in_set (here : site) (value : Z) (values : list Z) (number_of_values : Z) : CM unit :=
  when (0 <? number_of_values)
    (_cmocka_set ← copy_set to_u64 values number_of_values;
     _assert_uint_not_in_set (to_u64 value) _cmocka_set number_of_values (site_file here) (site_line here)).

(** ** Call ordering *)

Definition function_called (func : string) (here : site) : CM unit :=
  _function_called func (site_file here) (site_line here).
Definition expect_function_calls (here : site) (function : string) (times : Z) : CM unit :=
  _expect_function_call (Some function) (site_file here) (site_line here) (to_s32 times).
Definition expect_function_call (here : site) (function : string) : CM unit :=
  _expect_function_call (Some function) (site_file here) (site_line here) 1.
Definition expect_function_call_any (here : site) (function : string) : CM unit :=
  _expect_function_call (Some function) (site_file here) (site_line here) (-1).
Definition ignore_function_calls (here : site) (function : string) : CM unit :=
  _expect_function_call (Some function) (site_file here) (site_line here) (-2).

(** ** Leaving a test *)

Definition fail (here : site) : CM unit := _fail (site_file here) (site_line here).
Definition skip (here : site) : CM unit := _skip (site_file here) (site_line here).
Definition stop : CM unit := _stop.
(** [msg] is the formatted message. *)
Definition fail_msg (here : site) (msg : string) : CM unit :=
  cmocka_print_error ("ERROR: " +:+ msg +:+ nl);; fail here.

(** ** Checked memory *)

Definition test_malloc (here : site) (size_ : Z) : CM ptr :=
  _test_malloc (to_u64 size_) (site_file here) (site_line here).
Definition test_calloc (here : site) (num size_ : Z) : CM ptr :=
  _test_calloc (to_u64 num) (to_u64 size_) (site_file here) (site_line here).
Definition test_realloc (here : site) (p : ptr) (size_ : Z) : CM ptr :=
  _test_realloc p (to_u64 size_) (site_file here) (site_line here).
Definition test_free (here : site) (p : ptr) : CM unit :=
  _test_free p (site_file here) (site_line here).

(** ** Tests and groups *)

(** [name] is the name of the function [f]. *)
Definition cmocka_unit_test (name : string) (f : CMUnitTestFunction) : CMUnitTest :=
  mkCMUnitTest (Some name) (Some f) None None NULL.
Definition cmocka_unit_test_setup (name : string) (f : CMUnitTestFunction) (setup : CMFixtureFunction)
    : CMUnitTest := mkCMUnitTest (Some name) (Some f) (Some setup) None NULL.
Definition cmocka_unit_test_teardown (name : string) (f : CMUnitTestFunction)
    (teardown : CMFixtureFunction) : CMUnitTest :=
  mkCMUnitTest (Some name) (Some f) None (Some teardown) NULL.
Definition cmocka_unit_test_setup_teardown (name : string) (f : CMUnitTestFunction)
    (setup teardown : CMFixtureFunction) : CMUnitTest :=
  mkCMUnitTest (Some name) (Some f) (Some setup) (Some teardown) NULL.
Definition cmocka_unit_test_prestate (name : string) (f : CMUnitTestFunction) (state : ptr) : CMUnitTest :=
  mkCMUnitTest (Some name) (Some f) None None state.
Definition cmocka_unit_test_prestate_setup_teardown (name : string) (f : CMUnitTestFunction)
    (setup teardown : CMFixtureFunction) (state : ptr) : CMUnitTest :=
  mkCMUnitTest (Some name) (Some f) (Some setup) (Some teardown) state.

(** [name] is the name of the array [group_tests]. *)
Definition cmocka_run_group_tests (name : string) (group_tests : list CMUnitTest)
    (group_setup group_teardown : option CMFixtureFunction) : CM Z :=
  _cmocka_run_group_tests name group_tests group_setup group_teardown.
Definition cmocka_run_group_tests_name (group_name : string) (group_tests : list CMUnitTest)
    (group_setup group_teardown : option CMFixtureFunction) : CM Z :=
  _cmocka_run_group_tests group_name group_tests group_setup group_teardown.
End macros.
