(* ===== verification/Frame.v ===== *)
(** * What the library leaves alone

    The operations on expectations and blocks change memory, messages and the
    source locations; none of them changes the control state of the runner:
    the static list heads, the signal dispositions, the flags, the variables of
    the tests and the environment; nor do they print to stdout or change the
    output format. *)
From S2P Require Import Prelude CMonad CString ListNode World Report Memory SymbolMap Mock FloatCompare Alloc.

(** The heads of the three expectation stores. *)
Definition store_heads : list ptr :=
  [global_function_result_map_head; global_function_parameter_map_head; global_call_ordering_head].

(** Whether a list node is at [h]. *)
Definition node_at (w : World) (h : ptr) : bool := bool_decide (is_Some (blocks w !! h ≫= block_node)).

(** The output format selected by [cmocka_set_message_output], when the
    environment does not select one. *)
Definition chosen_output (w : World) : option Z :=
  match environ w !! "CMOCKA_MESSAGE_OUTPUT" with None => Some (global_msg_output w) | Some _ => None end.

(** The control state, with what was printed to stdout and the output format. *)
Definition control (w : World)
    : list bool * gmap Z SignalFunction * list SignalFunction * Z * Z * Z * gmap ptr ptr * gmap string string *
      string * option Z :=
  (node_at w <$> store_heads, signal_handlers w, default_signal_functions w, global_running_test w, global_skip_test w,
   global_stop_test w, state_vars w, environ w, stdout_text w, chosen_output w).

(** [m] never changes the control state, however it ends. *)
Definition keeps {A} (m : CM A) : Prop := forall w, control (m w).2 = control w.

Create HintDb keeps discriminated.
#[export] Hint Constants Opaque : keeps.

Section rules.
Context {A B : Type}.
Implicit Types w : World.

Lemma keeps_ret (a : A) : keeps (mret a).
Proof. done. Qed.
Lemma keeps_fails (o : forall B, outcome B) : keeps (@fails World A o).
Proof. done. Qed.
Lemma keeps_bind (m : CM A) (k : A -> CM B) : keeps m -> (forall a, keeps (k a)) -> keeps (m ≫= k).
Proof.
  intros Hm Hk w. specialize (Hm w). rewrite bind_eq. destruct (m w) as [[a| | | | | |] w']; cbn in *; try done.
  by rewrite Hk.
Qed.
Lemma keeps_gets (g : World -> A) : keeps (gets g).
Proof. done. Qed.
Lemma keeps_deref (g : World -> option A) : keeps (deref g).
Proof. intros w. unfold deref. by destruct (g w). Qed.
Lemma keeps_modify g : (forall w, control (g w) = control w) -> keeps (modify g).
Proof. intros Hg w. apply Hg. Qed.
Lemma keeps_when b (m : CM unit) : keeps m -> keeps (when b m).
Proof. by destruct b. Qed.

(** The control state after a run. *)
Lemma keeps_run (m : CM A) w r w' : keeps m -> m w = (r, w') -> control w' = control w.
Proof. intros Hm R. specialize (Hm w). by rewrite R in Hm. Qed.
End rules.

#[export] Hint Resolve keeps_ret keeps_fails keeps_gets keeps_deref : keeps.

(** Walk down a computation. *)
Ltac keeps_step :=
  lazymatch goal with
  | |- keeps (_ ≫= _) => apply keeps_bind; [|intros ?]
  | |- keeps (modify _) => apply keeps_modify; intros ?
  | |- keeps (when _ _) => apply keeps_when
  | |- keeps (let _ := _ in _) => cbv zeta
  | |- keeps (if ?b then _ else _) => destruct b
  | |- keeps (match ?x with _ => _ end) => destruct x
  | |- _ => solve [eauto with keeps nocore|eauto|done]
  end.
Ltac keeps := intros; repeat keeps_step.

Section library.
Context `{!Platform}.

Lemma keeps_print_error s : keeps (print_error s).
Proof. done. Qed.
Lemma keeps_vcmocka_print_error s : keeps (vcmocka_print_error s).
Proof. unfold vcmocka_print_error. keeps. Qed.
#[local] Hint Resolve keeps_print_error keeps_vcmocka_print_error : keeps.
Lemma keeps_cmocka_print_error s : keeps (cmocka_print_error s).
Proof. unfold cmocka_print_error. keeps. Qed.
Lemma keeps_cm_get_output : keeps cm_get_output.
Proof.
  intros w. unfold cm_get_output. destruct (env_checked w); [done|].
  destruct (environ w !! "CMOCKA_MESSAGE_OUTPUT") as [env|] eqn:E; [|done].
  repeat (split_match; try done); unfold control, chosen_output; cbn; by rewrite E.
Qed.
#[local] Hint Resolve keeps_cmocka_print_error keeps_cm_get_output : keeps.
Lemma keeps_exit_test b : keeps (exit_test b).
Proof. unfold exit_test, libc_abort, longjmp, libc_exit. keeps. Qed.
#[local] Hint Resolve keeps_exit_test : keeps.
Lemma keeps_fail file_ lno : keeps (_fail file_ lno).
Proof. unfold _fail, libc_exit. keeps. Qed.
#[local] Hint Resolve keeps_fail : keeps.
Lemma keeps_additional_msg s : keeps (_additional_msg s).
Proof. unfold _additional_msg. keeps. Qed.
#[local] Hint Resolve keeps_additional_msg : keeps.
Lemma keeps_assert_ptr a b file_ lno msg : keeps (_assert_ptr_not_equal_msg a b file_ lno msg).
Proof. unfold _assert_ptr_not_equal_msg, ptr_values_not_equal_display_error. keeps. Qed.
#[local] Hint Resolve keeps_assert_ptr : keeps.
Lemma keeps_assert_non_null lno p : keeps (assert_non_null lno p).
Proof. unfold assert_non_null. keeps. Qed.
Lemma keeps_assert_true lno e b : keeps (assert_true lno e b).
Proof. unfold assert_true, _assert_true. keeps. Qed.
#[local] Hint Resolve keeps_assert_non_null keeps_assert_true : keeps.

(** *** Lists *)

Lemma node_at_put w p n h : node_at (put_node p n w) h = node_at w h.
Proof.
  unfold node_at, put_node, world_heap, world_put_node. destruct (blocks w !! p) as [b|] eqn:Hb; [cbn|done].
  destruct (decide (p = h)) as [->|]; [|by rewrite lookup_insert_ne].
  rewrite lookup_insert_eq, Hb. apply bool_decide_ext. cbn. by destruct b.
Qed.

Lemma keeps_update_node p f : keeps (update_node p f).
Proof.
  unfold update_node. keeps. unfold control, store_heads. cbn [fmap list_fmap]. rewrite !node_at_put.
  unfold put_node, world_heap, world_put_node. match goal with |- context [blocks ?w !! _] => by destruct (blocks w !! p) end.
Qed.
#[local] Hint Resolve keeps_update_node : keeps.
Lemma keeps_free p : keeps (free p).
Proof.
  intros w. unfold free. destruct (p =? NULL); [done|]. destruct (owned w p) eqn:Ho; [|done].
  unfold owned, world_heap, world_owned in Ho. apply andb_true_iff in Ho as [Hp%Z.leb_le _].
  cbn [snd]. unfold control, drop, world_heap, world_drop. cbn. unfold node_at. cbn.
  rewrite !lookup_delete_ne; [done|intros ->; done..].
Qed.
#[local] Hint Resolve keeps_free : keeps.
Lemma keeps_get_value p : keeps (get_value p).
Proof. unfold get_value. keeps. Qed.
Lemma keeps_get_next p : keeps (get_next p).
Proof. unfold get_next. keeps. Qed.
Lemma keeps_get_prev p : keeps (get_prev p).
Proof. unfold get_prev. keeps. Qed.
Lemma keeps_get_refcount p : keeps (get_refcount p).
Proof. unfold get_refcount. keeps. Qed.
Lemma keeps_assert_at lno p : keeps (assert_non_null_at (S:=World) lno p).
Proof. apply keeps_assert_non_null. Qed.
#[local] Hint Resolve keeps_get_value keeps_get_next keeps_get_prev keeps_get_refcount keeps_assert_at : keeps.
Lemma keeps_list_initialize p : keeps (list_initialize p).
Proof. unfold list_initialize, set_value, set_next, set_prev, set_refcount. keeps. Qed.
Lemma keeps_list_remove p c : (forall f v, c = Some f -> keeps (f v)) -> keeps (list_remove p c).
Proof. intros Hc. unfold list_remove, set_next, set_prev. keeps. Qed.
Lemma keeps_list_remove_free p c : (forall f v, c = Some f -> keeps (f v)) -> keeps (list_remove_free p c).
Proof. intros Hc. unfold list_remove_free. keeps; by apply keeps_list_remove. Qed.
Lemma keeps_list_empty p : keeps (list_empty p).
Proof. unfold list_empty. keeps. Qed.
#[local] Hint Resolve keeps_list_initialize keeps_list_empty : keeps.
Lemma keeps_list_free h c : (forall f v, c = Some f -> keeps (f v)) -> keeps (list_free h c).
Proof.
  intros Hc. assert (forall n, keeps (list_free_loop n h c)) as Hl.
  { induction n as [|n IH]; cbn [list_free_loop]; [apply keeps_fails|]. keeps; by apply keeps_list_remove_free. }
  unfold list_free. keeps.
Qed.

(** *** Symbol maps *)

Lemma keeps_free_value v : keeps (free_value v).
Proof. unfold free_value. keeps. Qed.
#[local] Hint Resolve keeps_free_value : keeps.
Lemma keeps_cleanup_value f v : Some free_value = Some f -> keeps (f v).
Proof. intros [= <-]. apply keeps_free_value. Qed.
Lemma keeps_cleanup_none (f : ptr -> CM unit) v : None = Some f -> keeps (f v).
Proof. done. Qed.
#[local] Hint Resolve keeps_cleanup_value keeps_cleanup_none keeps_list_remove_free keeps_list_free : keeps.
Lemma keeps_free_symbol_map_value n v : keeps (free_symbol_map_value n v).
Proof.
  revert v. induction n as [|n IH]; intros v; cbn [free_symbol_map_value]; keeps.
  apply keeps_list_free. by intros f x [= <-].
Qed.
Lemma keeps_load_smv p : keeps (load_smv p).
Proof. unfold load_smv. keeps. Qed.
#[local] Hint Resolve keeps_free_symbol_map_value keeps_load_smv : keeps.
Lemma keeps_cleanup_map n f v : Some (free_symbol_map_value n) = Some f -> keeps (f v).
Proof. intros [= <-]. apply keeps_free_symbol_map_value. Qed.
#[local] Hint Resolve keeps_cleanup_map : keeps.

Lemma keeps_remove_from_list_loop n h c x : keeps (remove_always_return_values_from_list_loop n h c x).
Proof.
  revert c x. induction n as [|n IH]; intros c x; cbn [remove_always_return_values_from_list_loop]; keeps.
Qed.
Lemma keeps_remove_always n : forall h, keeps (remove_always_return_values h n).
Proof.
  induction n as [|n IH]; intros h; cbn [remove_always_return_values]; [unfold undef; keeps|].
  keeps. generalize (S a2). intros k. revert a1. induction k as [|k IHk]; intros c; cbn [remove_always_loop]; keeps.
Qed.
Lemma keeps_leftover_list n h c m k : keeps (leftover_list_loop n h c m k).
Proof. revert c k. induction n as [|n IH]; intros c k; cbn [leftover_list_loop]; keeps. Qed.
Lemma keeps_leftover_values n h c : keeps (leftover_values_loop n h c).
Proof. revert c. induction n as [|n IH]; intros c; cbn [leftover_values_loop]; keeps. Qed.
#[local] Hint Resolve keeps_remove_from_list_loop keeps_remove_always keeps_leftover_list keeps_leftover_values : keeps.
Lemma keeps_check_leftover n : forall h m, keeps (check_for_leftover_values h m n).
Proof.
  induction n as [|n IH]; intros h m; cbn [check_for_leftover_values]; [unfold undef; keeps|].
  keeps. generalize (S a2) 0. intros k. revert a1. induction k as [|k IHk]; intros c z; cbn [check_leftover_loop]; keeps.
Qed.
#[local] Hint Resolve keeps_check_leftover : keeps.

(** *** The life cycle *)

Lemma keeps_initialize_testing : keeps initialize_testing.
Proof. unfold initialize_testing, initialize_source_location. keeps. Qed.
Lemma keeps_has_leftover_values : keeps has_leftover_values.
Proof.
  unfold has_leftover_values, remove_always_return_values_from_list, check_for_leftover_values_list. keeps.
Qed.
#[local] Hint Resolve keeps_has_leftover_values : keeps.
Lemma keeps_fail_if_leftover_values : keeps fail_if_leftover_values.
Proof. unfold fail_if_leftover_values. keeps. Qed.
Lemma keeps_teardown_testing : keeps teardown_testing.
Proof. unfold teardown_testing, initialize_source_location. keeps. Qed.

(** *** Blocks *)

Lemma keeps_get_list : keeps get_allocated_blocks_list.
Proof. unfold get_allocated_blocks_list, set_value. keeps. Qed.
#[local] Hint Resolve keeps_get_list : keeps.
Lemma keeps_check_point : keeps check_point_allocated_blocks.
Proof. unfold check_point_allocated_blocks. keeps. Qed.
Lemma keeps_load_info p : keeps (load_info p).
Proof. unfold load_info. keeps. Qed.
#[local] Hint Resolve keeps_load_info : keeps.
Lemma keeps_display h : keeps (display_allocated_blocks h).
Proof.
  unfold display_allocated_blocks. keeps. generalize (S a3) 0. intros k. revert a1.
  induction k as [|k IHk]; intros c z; cbn [display_blocks_loop]; keeps.
Qed.
Lemma keeps_check_guard n g p i file_ lno : keeps (check_guard n g p i file_ lno).
Proof. revert g. induction n as [|n IH]; intros g; cbn [check_guard]; unfold guard_corrupt; keeps. Qed.
#[local] Hint Resolve keeps_display keeps_check_guard : keeps.
Lemma keeps_memset_region p v n : keeps (memset_region p v n).
Proof. intros w. unfold memset_region. by repeat case_match. Qed.
Lemma keeps_libc_free p : keeps (libc_free p).
Proof. intros w. unfold libc_free. by repeat case_match. Qed.
#[local] Hint Resolve keeps_memset_region keeps_libc_free keeps_list_remove : keeps.
Lemma keeps_test_free p file_ lno : keeps (_test_free p file_ lno).
Proof. unfold _test_free. keeps. Qed.
#[local] Hint Resolve keeps_test_free : keeps.
Lemma keeps_free_allocated h : keeps (free_allocated_blocks h).
Proof.
  unfold free_allocated_blocks. keeps. generalize (S a3). intros k. revert a1.
  induction k as [|k IHk]; intros c; cbn [free_blocks_loop]; keeps.
Qed.
#[local] Hint Resolve keeps_free_allocated : keeps.
Lemma keeps_fail_if_blocks cp name : keeps (fail_if_blocks_allocated cp name).
Proof. unfold fail_if_blocks_allocated. keeps. Qed.
End library.

#[export] Hint Resolve keeps_print_error keeps_cmocka_print_error keeps_cm_get_output keeps_exit_test keeps_fail
  keeps_initialize_testing keeps_has_leftover_values keeps_fail_if_leftover_values keeps_teardown_testing
  keeps_check_point keeps_fail_if_blocks : keeps.
