(* ===== verification/MockSpec.v ===== *)
(** * What the mock operations promise

    The abstract state of the three expectation stores, [expectations], the
    relation [mocks] of it to the memory, and the refinement of the operations
    of [Mock.v] by operations on it. *)
From S2P Require Import Prelude CMonad ListNode World Report Memory SymbolMap Tree SymbolTree SymbolGet SymbolAdd SymbolRemove SymbolLeftover Mock FloatCompare Compare Checks Asserts CompareProofs CheckSpec.

(** The values given to [will_return], by function; the checks given to
    [expect_*], by function and parameter; the expected calls.  Each value
    comes with its reference count; queues are in the order of declaration. *)
Record expectations := mkExpectations {
  returns : tree SymbolValue 1;
  params : tree Block 2;
  calls : tree FuncOrderingValue 0;
}.
Definition no_expectations : expectations := mkExpectations [] [] [].

(** What one call of a function does to an expectation of it. *)
Definition called_once (e : FuncOrderingValue * Z) : list (FuncOrderingValue * Z) :=
  if -2 <? e.2 then if e.2 - 1 =? 0 then [] else [(e.1, e.2 - 1)] else [e].

(** The expectations after a call of [f]; [None] is a wrong call.  The
    expectations that may be missed (-2) are skipped. *)
Fixpoint call_step (f : string) (q : list (FuncOrderingValue * Z))
    : option (list (FuncOrderingValue * Z)) :=
  match q with
  | [] => None
  | (o, rc) :: q' =>
      if bool_decide (fo_function o = f) then Some (called_once (o, rc) ++ q')
      else if -2 <? rc then None
      else cons (o, rc) <$> call_step f q'
  end.

(** What is left of the expectations at the end of a test: values that need not
    be used up are dropped ([tree_remove_always]: only the first one of each
    queue of values; all of them in the list of calls). *)
Definition leftover (a : expectations) : expectations :=
  mkExpectations (tree_remove_always 1 (returns a)) (tree_remove_always 2 (params a))
    (List.filter (fun e => negb (e.2 <? -1)) (calls a)).
Definition nothing_left (a : expectations) : bool :=
  tree_is_nil (returns a) && tree_is_nil (params a) && tree_is_nil (n:=0) (calls a).

Definition is_event (b : Block) : bool :=
  match b with
  | BCheckParameterEvent _ | BCheckIntegerRange _ | BCheckIntegerSet _ | BCheckMemoryData _ => true
  | _ => false
  end.

Section spec.
Context `{!Platform}.
Implicit Types (w : World) (a : expectations).

Definition holds_return w (p : ptr) (v : SymbolValue) : Prop := lookup_block w p = Some (BSymbolValue v).
(** A check structure; if it carries its own data, its event points to it. *)
Definition holds_check w (p : ptr) (b : Block) : Prop :=
  lookup_block w p = Some b /\ is_event b = true /\ self_data p b.
Definition holds_call w (p : ptr) (v : FuncOrderingValue) : Prop :=
  lookup_block w p = Some (BFuncOrderingValue v).

(** A store: the shape at head [h] holds the contents [u]. *)
Record store {B} (Rel : World -> ptr -> B -> Prop) (n : nat) w h (t : shape n) (u : tree B n)
    : Prop := {
  st_good : good n w h t;
  st_rel : tree_rel (Rel w) n (erase n t) u;
}.

(** The shapes [R], [P] and [C] of the three stores are in memory, apart from
    each other, and hold [a]. *)
Record mocks_at w (R : shape 1) (P : shape 2) (C : shape 0) a : Prop := {
  m_R : store holds_return 1 w global_function_result_map_head R (returns a);
  m_P : store holds_check 2 w global_function_parameter_map_head P (params a);
  m_C : store holds_call 0 w global_call_ordering_head C (calls a);
  m_apart : NoDup ((global_function_result_map_head :: fp 1 R) ++
    (global_function_parameter_map_head :: fp 2 P) ++ (global_call_ordering_head :: fp 0 C));
}.

Definition mocks w a : Prop := exists R P C, mocks_at w R P C a.

(** The memory of checked blocks is unchanged: the head of their list, their
    headers and the data. *)
Definition heap_kept w w' : Prop :=
  raw w' = raw w /\ bytes w' = bytes w /\
  forall x, x = global_allocated_blocks \/ (HEAP_START <= x /\ blocks w !! x = None /\ is_Some (infos w !! x)) ->
    blocks w' !! x = blocks w !! x /\ infos w' !! x = infos w !! x.

(** The control state of the runner is unchanged. *)
Definition calm w w' : Prop :=
  signal_handlers w' = signal_handlers w /\ default_signal_functions w' = default_signal_functions w /\
  global_running_test w' = global_running_test w /\ global_skip_test w' = global_skip_test w /\
  global_stop_test w' = global_stop_test w /\ state_vars w' = state_vars w /\ environ w' = environ w.

(** What an operation on expectations leaves alone: the checked blocks, the
    static list nodes and the control state. *)
Definition kept w w' : Prop := heap_kept w w' /\ static_kept w w' /\ calm w w'.

(** Only the typed memory changes, and no checked block. *)
Definition typed_only w w' : Prop :=
  (exists b i, w' = set_blocks b (set_infos i w)) /\ static_kept w w' /\ heap_kept w w'.

(** An address at which no checked block lies. *)
Definition harmless w (x : ptr) : Prop :=
  x <> global_allocated_blocks /\ (x < HEAP_START \/ is_Some (blocks w !! x) \/ infos w !! x = None).

(** The same memory: only the program's other variables differ. *)
Definition same_mem w w' : Prop := blocks w' = blocks w /\ infos w' = infos w.
End spec.

Section lemmas.
Context `{!Platform, !PlatformLaws}.
Implicit Types (w : World) (a : expectations).

#[export] Instance heap_kept_preorder : PreOrder heap_kept.
Proof.
  split; [intros w; by split_and!|]. intros w1 w2 w3 (R1 & B1 & H1) (R2 & B2 & H2).
  split_and!; [congruence..|]. intros x Hx. destruct (H1 x Hx) as [E1 I1].
  destruct (H2 x) as [E2 I2]; [|by rewrite E2, I2]. destruct Hx as [?|[? Hn] ]; [by left|right; by rewrite E1, I1].
Qed.

#[export] Instance calm_preorder : PreOrder calm.
Proof. unfold calm. split; [done|]. intros w1 w2 w3 ? ?. destruct_and?. split_and!; congruence. Qed.

#[export] Instance kept_preorder : PreOrder kept.
Proof. split; [done|]. intros w1 w2 w3 (K1 & S1 & C1) (K2 & S2 & C2). split; [by etrans|split; by etrans]. Qed.

#[export] Instance typed_only_preorder : PreOrder typed_only.
Proof.
  split; [intros w; split; [exists (blocks w), (infos w); by destruct w|done]|].
  intros w1 w2 w3 [ (b & i & ->) [S1 K1] ] [ (b' & i' & ->) [S2 K2] ]. split; [by exists b', i'|split; by etrans].
Qed.

Lemma typed_only_kept w w' : typed_only w w' -> kept w w'.
Proof. intros [ (b & i & ->) [Hs Hk] ]. by split. Qed.

Lemma typed_only_bytes w w' : typed_only w w' -> bytes w' = bytes w.
Proof. by intros [_ [_ (_ & ? & _)] ]. Qed.
Lemma typed_only_exit {A} w w' : typed_only w w' -> @exit_outcome A w' = exit_outcome w.
Proof. by intros [ (b & i & ->) _]. Qed.

Lemma kept_quiet w w' : quiet w w' -> kept w w'.
Proof. intros (m & e & o & c & ->). split; [done|split; [by intros x|done] ]. Qed.
Lemma quiet_heap_kept w w' : quiet w w' -> heap_kept w w'.
Proof. intros Hq. by apply kept_quiet. Qed.

Lemma kept_mock_location w l : kept w (set_global_last_mock_value_location l w).
Proof. split; [done|split; [by intros x|done] ]. Qed.
Lemma kept_parameter_location w l : kept w (set_global_last_parameter_location l w).
Proof. split; [done|split; [by intros x|done] ]. Qed.

(** Changes at harmless addresses. *)
Lemma frame_typed X w w' : mem_frame X w w' -> (forall x, x ∈ X -> harmless w x) -> typed_only w w'.
Proof.
  intros [ [ (b & i & ->) Hst] Hf] HX. split; [by eauto|split; [done|]]. split_and!; [done..|]. intros x Hx. apply Hf.
  intros [Hne Hn]%HX. destruct Hx as [?|(? & Hb & Hi)]; [done|].
  destruct Hn as [?|[Hs|Hs] ]; [lia|by rewrite Hb in Hs; destruct Hs|by rewrite Hs in Hi; destruct Hi].
Qed.

Lemma fresh_harmless w x : fresh_block w x -> harmless w x.
Proof. intros (Hs & Hb & Hi). split; [|by right; right]. unfold HEAP_START, global_allocated_blocks in *. lia. Qed.
Lemma owned_harmless w x : owned w x = true -> harmless w x.
Proof.
  unfold owned, world_heap, world_owned. intros [Hs Ho%bool_decide_eq_true]%andb_true_iff. zbool.
  split; [unfold HEAP_START, global_allocated_blocks in *; lia|by right; left].
Qed.
Lemma store_harmless n w h (t : shape n) x :
  rep n w h t -> h < HEAP_START -> h <> global_allocated_blocks -> x ∈ h :: fp n t -> harmless w x.
Proof.
  intros Hr Hh HhA [->|Hin]%elem_of_cons; [split; [done|by left]|]. by eapply owned_harmless, rep_owned.
Qed.

Lemma store_heap_kept n w w' h (t : shape n) :
  rep n w h t -> h < HEAP_START -> h <> global_allocated_blocks -> mem_frame (h :: fp n t) w w' -> heap_kept w w'.
Proof. intros Hr Hh HhA Hf. eapply frame_typed; [exact Hf|]. intros x. by apply store_harmless. Qed.

(** The relation of values to their contents depends on the values only. *)
Lemma tree_rel_values {B} (R R' : ptr -> B -> Prop) n : forall (t : shape n) u,
  (forall x b, x ∈ values n t -> R x b -> R' x b) ->
  tree_rel R n (erase n t) u -> tree_rel R' n (erase n t) u.
Proof.
  induction n as [|k IH]; intros t u HR Ht; simpl in *.
  - revert u Ht. induction t as [|c t IHt]; intros u Ht; inversion Ht as [|? f ? u' [Hf Hrc] Ht']; subst.
    + constructor.
    + constructor; [split; [|done]|].
      * apply HR; [by left|done].
      * apply IHt; [|done]. intros x b Hx. apply HR. by right.
  - revert u Ht. induction t as [|c t IHt]; intros u Ht; inversion Ht as [|? f ? u' [Hf Hs] Ht']; subst.
    + constructor.
    + rewrite bind_cons in HR. constructor; [split; [done|]|].
      * apply IH; [|done]. intros x b Hx. apply HR. apply elem_of_app. by left.
      * apply IHt; [|done]. intros x b Hx. apply HR. apply elem_of_app. by right.
Qed.

Lemma frame_lookup X w w' x : mem_frame X w w' -> (x ∉ X) -> lookup_block w' x = lookup_block w x.
Proof. intros [_ Hf] [Hb _]%Hf. unfold lookup_block. by rewrite Hb. Qed.

Lemma quiet_same_mem w w' : quiet w w' -> same_mem w w'.
Proof. by intros (m & e & o & c & ->). Qed.

(** ** Stores *)

Section store.
Context {B : Type} (Rel : World -> ptr -> B -> Prop).
Hypothesis Rel_local : forall w w' x b,
  lookup_block w' x = lookup_block w x -> Rel w x b -> Rel w' x b.

Lemma store_frame n w w' h t u X :
  mem_frame X w w' -> (forall x, x ∈ h :: fp n t -> x ∉ X) ->
  store Rel n w h t u -> store Rel n w' h t u.
Proof.
  intros Hf Hd [ [Hg Hfill] Hr]. split; [split; [by eapply good0_frame|done]|].
  eapply tree_rel_values; [|exact Hr]. intros x b Hx. apply Rel_local.
  eapply frame_lookup; [done|]. apply Hd. right. by apply values_fp.
Qed.

Lemma store_same_mem n w w' h t u : same_mem w w' -> store Rel n w h t u -> store Rel n w' h t u.
Proof.
  intros [Hb Hi] [ [ (Hr & Hn & Hnd) Hfill] Hrel].
  assert (forall x, get_node w' x = get_node w x /\ owned w' x = owned w x /\ name_of w' x = name_of w x) as Hobs.
  { intros x. apply frame_obs; congruence. }
  split; [split; [split_and!|]|]; try done.
  - eapply rep_agree; [|done]. intros x _. destruct (Hobs x) as (? & ? & ?). done.
  - eapply names_frame; [|done]. intros x _. apply Hobs.
  - eapply tree_rel_impl; [|exact Hrel]. intros x b. apply Rel_local.
    unfold lookup_block. by rewrite Hb.
Qed.

(** A value that is held does not belong to the lists. *)
Lemma spine_lookup n w w' h (t : shape n) x :
  NoDup (h :: fp n t) -> mem_frame (h :: spine n t) w w' -> x ∈ values n t ->
  lookup_block w' x = lookup_block w x /\ owned w' x = owned w x.
Proof.
  intros Hnd Hf Hx. pose proof (values_not_spine n h t x Hnd Hx) as Hns.
  split; [by eapply frame_lookup|]. by apply (mem_frame_obs _ _ _ _ Hf).
Qed.

Lemma store_get k names w h (t : shape (S k)) u :
  store Rel (S k) w h t u -> length names = S k -> refcounts_ok (S k) u ->
  match tree_get (S k) names u with
  | Some (rc, b, u') => exists w' t' v,
      get_symbol_value h names w = (Ret (rc, Some v), w') /\
      store Rel (S k) w' h t' u' /\ Rel w' v b /\ v ∈ fp (S k) t /\ owned w' v = true /\
      ((rc = 1 -> v ∉ h :: fp (S k) t') /\ (rc <> 1 -> v ∈ values (S k) t')) /\
      fp (S k) t' ⊆ fp (S k) t /\ mem_frame (h :: fp (S k) t) w w' /\ NoDup (h :: fp (S k) t)
  | None => exists w', get_symbol_value h names w = (Ret (0, None), w') /\ quiet w w'
  end.
Proof.
  intros [Hgood Hrel] Hlen Hrc. pose proof (tree_rel_refcounts _ _ _ _ Hrel Hrc) as Hrc'.
  pose proof (get_refines k names w h t Hgood Hlen Hrc') as Hres.
  pose proof (tree_rel_get _ _ names _ _ Hrel) as Hg. unfold get_result in Hres. unfold get_rel in Hg.
  pose proof (proj2 (proj2 (proj1 Hgood))) as Hnd.
  destruct (tree_get (S k) names (erase (S k) t)) as [ [ [rc v] tr]|] eqn:Htr,
    (tree_get (S k) names u) as [ [ [rc' b] u']|]; try done.
  destruct Hg as (-> & Hvb & Htr').
  destruct Hres as (w' & t' & R & [Hg' Hf' Htree (freed & Hperm & Hgone) Hframe Hv Hvs Hh]).
  assert (tr = erase (S k) t') as -> by congruence.
  destruct (spine_lookup (S k) w w' h t v Hnd Hframe Hv) as [Hlv Hov].
  exists w', t', v. split_and!; [done| | | | | | | | |done].
  - split; [done|]. eapply tree_rel_values; [|exact Htr']. intros x b' Hx. apply Rel_local.
    apply (spine_lookup (S k) w w' h t x Hnd Hframe). by apply Hvs.
  - by eapply Rel_local.
  - by apply values_fp.
  - rewrite Hov. eapply rep_owned; [exact (proj1 (proj1 Hgood))|]. by apply values_fp.
  - intros ->. simpl in Hperm. rewrite Hperm in Hnd. clear - Hnd.
    change (NoDup (h :: v :: freed ++ fp (S k) t')) in Hnd.
    apply NoDup_cons in Hnd as [Hh [Hv _]%NoDup_cons]. set_solver.
  - intros Hrc1. rewrite values_leaves. by eapply tree_get_keeps.
  - intros x Hx. rewrite Hperm, !elem_of_app. by do 2 right.
  - eapply mem_frame_mono; [|exact Hframe]. intros x [->|Hx]%elem_of_cons; [by left|right].
    by apply spine_fp.
Qed.

(** What an operation on a store may use: its own addresses and fresh
    memory. *)
Definition evolves n w h (t : shape n) w' (t' : shape n) (v : ptr) : Prop :=
  (exists X, (forall x, x ∈ X -> x ∈ h :: fp n t \/ fresh_block w x) /\ mem_frame X w w') /\
  (forall x, x ∈ fp n t' -> x = v \/ x ∈ fp n t \/ fresh_block w x).

Lemma evolves_typed n w h (t t' : shape n) w' v :
  rep n w h t -> h < HEAP_START -> h <> global_allocated_blocks -> evolves n w h t w' t' v -> typed_only w w'.
Proof.
  intros Hr Hh HhA [ (X & HX & Hf) _]. eapply frame_typed; [exact Hf|]. intros x [Hx|Hx]%HX; [by eapply store_harmless|].
  by apply fresh_harmless.
Qed.

Lemma add_post_store n names w h t u v b rc w' t' :
  store Rel n w h t u -> add_post n names w h t v rc w' t' ->
  Rel w v b -> (v ∉ h :: fp n t) -> owned w v = true ->
  store Rel n w' h t' (tree_add n names b rc u) /\ evolves n w h t w' t' v.
Proof.
  intros [ [Hgood Hfill] Hrel] [Hg Hf _ Htr (new & Hperm & Hnew) (X & HX & HfX) Hvs _] Hv Hvn Hov.
  pose proof (proj2 (proj2 Hgood)) as Hnd.
  assert (forall x, x ∈ v :: values n t -> x ∉ X) as Hout.
  { intros x Hx HxX. destruct (HX x HxX) as [Hin|Hin].
    - apply elem_of_cons in Hx as [->|Hx]; [|by apply (values_not_spine n h t x Hnd Hx)].
      apply Hvn. apply elem_of_cons in Hin as [->|Hin]; [by left|right; by apply spine_fp].
    - destruct (fresh_obs w x Hin) as (_ & Hno & _).
      apply elem_of_cons in Hx as [->|Hx%values_fp]; [congruence|].
      pose proof (rep_owned n w h t x (proj1 Hgood) Hx). congruence. }
  split; [split; [split; [done|by apply Hf]|]|split].
  - assert (forall x b', x ∈ values n t' -> Rel w x b' -> Rel w' x b') as Hstep.
    { intros x b' Hx. apply Rel_local. eapply frame_lookup; [done|]. by apply Hout, Hvs. }
    eapply tree_rel_values; [exact Hstep|]. rewrite Htr. by apply tree_rel_add.
  - exists X. split; [|done]. intros x Hx. destruct (HX x Hx) as [Hin|Hin]; [left|by right].
    apply elem_of_cons in Hin as [->|Hin]; [by left|right; by apply spine_fp].
  - intros x. rewrite Hperm, elem_of_cons, elem_of_app. intros [?|[?|?] ]; auto.
Qed.

Lemma store_add `{!PlatformTotal} k names w h (t : list (Entry (shape k))) u v b rc :
  store Rel (S k) w h t u -> length names = S k ->
  Rel w v b -> (v ∉ h :: fp (S k) t) -> owned w v = true ->
  exists w' t', add_symbol_value h names v rc w = (Ret tt, w') /\
    store Rel (S k) w' h t' (tree_add (S k) names b rc u) /\ evolves (S k) w h t w' t' v.
Proof.
  intros Hst Hlen Hv Hvn Hov.
  destruct (add_refines k names w h t v rc (proj1 (st_good _ _ _ _ _ _ Hst)) Hlen Hov Hvn)
    as (w' & t' & R & Hpost).
  exists w', t'. split; [done|]. by apply (add_post_store (S k) names w h t u v b rc).
Qed.

Lemma store_append `{!PlatformTotal} w h (t : list cell) u v b rc :
  store Rel 0 w h t u -> Rel w v b -> (v ∉ h :: fp 0 t) -> owned w v = true ->
  exists w' t' q, list_add_value h v rc w = (Ret q, w') /\
    store Rel 0 w' h t' (u ++ [(b, rc)]) /\ evolves 0 w h t w' t' v.
Proof.
  intros Hst Hv Hvn Hov.
  destruct (list_add_value_post w h t v rc (proj1 (st_good _ _ _ _ _ _ Hst)) Hov Hvn)
    as (w' & t' & q & R & Hpost).
  exists w', t', q. split; [done|]. by apply (add_post_store 0 [] w h t u v b rc).
Qed.

(** Shrinking a store. *)
Lemma shrinks_store n w h t u w' t' u' :
  store Rel n w h t u -> shrinks n h w t w' t' -> filled n t' ->
  tree_rel (Rel w) n (erase n t') u' ->
  store Rel n w' h t' u' /\ evolves n w h t w' t' h.
Proof.
  intros _ [Hg (freed & Hperm & _) Hfr Hvs _] Hf Hrel. split; [split; [done|]|split].
  - eapply tree_rel_values; [|exact Hrel]. intros x b Hx. apply Rel_local.
    unfold lookup_block. by rewrite (proj2 (Hvs x Hx)).
  - exists (h :: fp n t). split; [|done]. intros x Hx. by left.
  - intros x Hx. right. left. rewrite Hperm, elem_of_app. by right.
Qed.

Lemma store_remove_always k w h (t : list (Entry (shape k))) u :
  store Rel (S k) w h t u ->
  exists w' t', remove_always_return_values h (S k) w = (Ret tt, w') /\
    store Rel (S k) w' h t' (tree_remove_always (S k) u) /\ evolves (S k) w h t w' t' h /\
    mem_frame (h :: fp (S k) t) w w'.
Proof.
  intros Hst. pose proof Hst as [ [Hgood Hfill] Hrel].
  destruct (remove_always_refines k w h t Hgood) as (w' & R & t' & Hsh & Her & Hf).
  exists w', t'. split; [done|].
  enough (store Rel (S k) w' h t' (tree_remove_always (S k) u) /\ evolves (S k) w h t w' t' h) as [? ?]
    by (split_and!; [done..|apply Hsh]).
  eapply shrinks_store; [done|done|by apply Hf|]. rewrite Her. by apply tree_rel_remove_always.
Qed.

Lemma store_teardown n w h t u :
  store Rel n w h t u ->
  exists w', list_free h (Some (cleanup n)) w = (Ret h, w') /\
    store Rel n w' h (shape_nil n) (tree_nil n) /\ evolves n w h t w' (shape_nil n) h /\
    (forall x, x ∈ fp n t -> gone w' x) /\ mem_frame (h :: fp n t) w w'.
Proof.
  intros [ [ (Hr & _ & Hnd) _] _].
  destruct (free_shape_spec n w h t Hr Hnd) as (w' & R & Hdll & _ & Ht & Hg).
  assert (fp n (shape_nil n) = []) as Hfp by by destruct n.
  exists w'. split_and!; [done| | |done|].
  3:{ eapply mem_frame_mono; [|apply (touches_frame _ _ _ _ Ht)].
      intros x [?|?]%elem_of_app; [done|by right]. }
  - constructor; [split; [split; [|split]|]|].
    + destruct n; (split; [exact Hdll|constructor]).
    + destruct n; constructor.
    + rewrite Hfp. apply NoDup_singleton.
    + destruct n; constructor.
    + destruct n; constructor.
  - split; [|intros x; rewrite Hfp; by intros ?%not_elem_of_nil].
    exists ((h :: fp n t) ++ fp n t). split; [|apply (touches_frame _ _ _ _ Ht)].
    intros x [?|?]%elem_of_app; left; [done|by right].
Qed.
End store.

Lemma store_fresh {B} (Rel : World -> ptr -> B -> Prop) n w h t u x :
  store Rel n w h t u -> fresh_block w x -> x ∉ h :: fp n t.
Proof. intros [ [Hg _] _] Hf Hin. by apply (shape_not_fresh n w h t x Hg Hin). Qed.

(** ** The three stores together *)

Lemma holds_return_local w w' x v :
  lookup_block w' x = lookup_block w x -> holds_return w x v -> holds_return w' x v.
Proof. unfold holds_return. by intros ->. Qed.
Lemma holds_check_local w w' x v :
  lookup_block w' x = lookup_block w x -> holds_check w x v -> holds_check w' x v.
Proof. unfold holds_check. by intros ->. Qed.
Lemma holds_call_local w w' x v :
  lookup_block w' x = lookup_block w x -> holds_call w x v -> holds_call w' x v.
Proof. unfold holds_call. by intros ->. Qed.

Lemma mocks_same_mem w w' a : same_mem w w' -> mocks w a -> mocks w' a.
Proof.
  intros Hm (R & P & C & [HR HP HC Hap]). exists R, P, C. split; [..|done].
  - by apply (store_same_mem _ holds_return_local _ w).
  - by apply (store_same_mem _ holds_check_local _ w).
  - by apply (store_same_mem _ holds_call_local _ w).
Qed.

Lemma apart_replace (l l' m : list ptr) :
  NoDup (l ++ m) -> NoDup l' -> (forall x, x ∈ l' -> x ∈ l \/ (x ∉ m)) -> NoDup (l' ++ m).
Proof.
  intros (_ & Hd & Hm)%NoDup_app Hl' Hx. apply NoDup_app. split_and!; [done| |done].
  intros x Hin Hin'. destruct (Hx x Hin); [by apply (Hd x)|done].
Qed.

(** An operation on one store leaves the stores at [O] alone. *)
Lemma evolves_apart n w h (t : shape n) w' (t' : shape n) v (O : list ptr) :
  NoDup ((h :: fp n t) ++ O) -> NoDup (h :: fp n t') -> evolves n w h t w' t' v ->
  (forall x, x ∈ O -> ~ fresh_block w x) -> (v ∈ h :: fp n t \/ (v ∉ O)) ->
  NoDup ((h :: fp n t') ++ O) /\
  exists X, mem_frame X w w' /\ (forall x, x ∈ O -> x ∉ X).
Proof.
  intros Hnd Hnd' [ (X & HX & Hf) Hfp] Hfresh Hv. split.
  - eapply apart_replace; [exact Hnd|done|]. intros x [->|Hx]%elem_of_cons; [left; by left|].
    destruct (Hfp x Hx) as [->|[?|Hfr] ]; [done|left; by right|]. right. intros Hin.
    by apply (Hfresh x).
  - exists X. split; [done|]. intros x Hin HxX. apply NoDup_app in Hnd as (_ & Hd & _).
    destruct (HX x HxX) as [Hx|Hx]; [by apply (Hd x)|by apply (Hfresh x)].
Qed.

Definition region (n : nat) (h : ptr) (t : shape n) : list ptr := h :: fp n t.

Lemma mocks_at_R w R P C a w' R' q v :
  mocks_at w R P C a -> store holds_return 1 w' global_function_result_map_head R' q ->
  evolves 1 w global_function_result_map_head R w' R' v ->
  (v ∈ global_function_result_map_head :: fp 1 R \/
   (v ∉ (global_function_parameter_map_head :: fp 2 P) ++ (global_call_ordering_head :: fp 0 C))) ->
  mocks_at w' R' P C (mkExpectations q (params a) (calls a)).
Proof.
  intros [HR HP HC Hap] HR' Hev Hv.
  destruct (evolves_apart _ _ _ _ _ _ _ _ Hap (proj2 (proj2 (proj1 (st_good _ _ _ _ _ _ HR')))) Hev)
    as (Hap' & X & Hf & HX); [|done|].
  - intros x [Hx|Hx]%elem_of_app Hfr; [exact (store_fresh _ _ _ _ _ _ _ HP Hfr Hx)|
      exact (store_fresh _ _ _ _ _ _ _ HC Hfr Hx)].
  - split; [done| | |done].
    + eapply (store_frame _ holds_check_local); [exact Hf| |done]. intros x Hx. apply HX, elem_of_app. by left.
    + eapply (store_frame _ holds_call_local); [exact Hf| |done]. intros x Hx. apply HX, elem_of_app. by right.
Qed.

Lemma mocks_at_P w R P C a w' P' q v :
  mocks_at w R P C a -> store holds_check 2 w' global_function_parameter_map_head P' q ->
  evolves 2 w global_function_parameter_map_head P w' P' v ->
  (v ∈ global_function_parameter_map_head :: fp 2 P \/
   (v ∉ (global_function_result_map_head :: fp 1 R) ++ (global_call_ordering_head :: fp 0 C))) ->
  mocks_at w' R P' C (mkExpectations (returns a) q (calls a)).
Proof.
  intros [HR HP HC Hap] HP' Hev Hv. rewrite Permutation_app_swap_app in Hap.
  destruct (evolves_apart _ _ _ _ _ _ _ _ Hap (proj2 (proj2 (proj1 (st_good _ _ _ _ _ _ HP')))) Hev)
    as (Hap' & X & Hf & HX); [|done|].
  - intros x [Hx|Hx]%elem_of_app Hfr; [exact (store_fresh _ _ _ _ _ _ _ HR Hfr Hx)|
      exact (store_fresh _ _ _ _ _ _ _ HC Hfr Hx)].
  - split; [|done| |by rewrite Permutation_app_swap_app].
    + eapply (store_frame _ holds_return_local); [exact Hf| |done]. intros x Hx. apply HX, elem_of_app. by left.
    + eapply (store_frame _ holds_call_local); [exact Hf| |done]. intros x Hx. apply HX, elem_of_app. by right.
Qed.

Lemma mocks_at_C w R P C a w' C' q v :
  mocks_at w R P C a -> store holds_call 0 w' global_call_ordering_head C' q ->
  evolves 0 w global_call_ordering_head C w' C' v ->
  (v ∈ global_call_ordering_head :: fp 0 C \/
   (v ∉ (global_function_result_map_head :: fp 1 R) ++ (global_function_parameter_map_head :: fp 2 P))) ->
  mocks_at w' R P C' (mkExpectations (returns a) (params a) q).
Proof.
  intros [HR HP HC Hap] HC' Hev Hv. rewrite app_assoc, (Permutation_app_comm _ (_ :: fp 0 C)) in Hap.
  destruct (evolves_apart _ _ _ _ _ _ _ _ Hap (proj2 (proj2 (proj1 (st_good _ _ _ _ _ _ HC')))) Hev)
    as (Hap' & X & Hf & HX); [|done|].
  - intros x [Hx|Hx]%elem_of_app Hfr; [exact (store_fresh _ _ _ _ _ _ _ HR Hfr Hx)|
      exact (store_fresh _ _ _ _ _ _ _ HP Hfr Hx)].
  - split; [| |done|by rewrite app_assoc, (Permutation_app_comm _ (_ :: fp 0 C'))].
    + eapply (store_frame _ holds_return_local); [exact Hf| |done]. intros x Hx. apply HX, elem_of_app. by left.
    + eapply (store_frame _ holds_check_local); [exact Hf| |done]. intros x Hx. apply HX, elem_of_app. by right.
Qed.
End lemmas.
