(* ===== verification/MockProofs.v ===== *)
(** * The mock operations meet their specification

    Each operation of [Mock.v], run on a memory that holds the expectations
    [a], ends in a memory that holds the expectations the operation promises;
    errors end the test and leave the expectations as they were. *)
From S2P Require Import Prelude CMonad ListNode World Report Memory SymbolMap Tree SymbolTree SymbolGet SymbolAdd SymbolRemove SymbolLeftover Mock MockSpec.

Section proofs.
Context `{!Platform, !PlatformLaws}.
Implicit Types (w : World) (a : expectations).

(** ** Values in fresh memory *)

Definition all_regions (R : shape 1) (P : shape 2) (C : shape 0) : list ptr :=
  (global_function_result_map_head :: fp 1 R) ++
  (global_function_parameter_map_head :: fp 2 P) ++ (global_call_ordering_head :: fp 0 C).

Lemma mocks_at_frame w w' R P C a X :
  mem_frame X w w' -> (forall x, x ∈ all_regions R P C -> x ∉ X) ->
  mocks_at w R P C a -> mocks_at w' R P C a.
Proof.
  intros Hf HX [HR HP HC Hap]. split; [| | |done].
  - eapply (store_frame _ holds_return_local); [exact Hf| |done]. intros x Hx. apply HX.
    apply elem_of_app. by left.
  - eapply (store_frame _ holds_check_local); [exact Hf| |done]. intros x Hx. apply HX.
    unfold all_regions. rewrite !elem_of_app. by right; left.
  - eapply (store_frame _ holds_call_local); [exact Hf| |done]. intros x Hx. apply HX.
    unfold all_regions. rewrite !elem_of_app. by right; right.
Qed.

Lemma mocks_at_fresh w R P C a x : mocks_at w R P C a -> fresh_block w x -> x ∉ all_regions R P C.
Proof.
  intros [HR HP HC _] Hf [Hx|[Hx|Hx]%elem_of_app]%elem_of_app.
  - exact (store_fresh _ _ _ _ _ _ _ HR Hf Hx).
  - exact (store_fresh _ _ _ _ _ _ _ HP Hf Hx).
  - exact (store_fresh _ _ _ _ _ _ _ HC Hf Hx).
Qed.

Lemma set_block_obs w p b :
  p <> NULL -> HEAP_START <= p ->
  let w' := set_blocks (<[p := b]> (blocks w)) w in
  lookup_block w' p = Some b /\ owned w' p = true.
Proof.
  intros Hp Hs. unfold lookup_block, owned, world_heap, world_owned. simpl.
  rewrite (proj2 (Z.eqb_neq _ _) Hp), lookup_insert_eq, (proj2 (Z.leb_le _ _) Hs). done.
Qed.

(** A structure is allocated and filled in. *)
Lemma alloc_store `{!PlatformTotal} size b0 b w :
  exists p w1 w2, malloc_block size b0 w = (Ret p, w1) /\ p <> NULL /\
    lookup_block w1 p = Some b0 /\ store_block p b w1 = (Ret tt, w2) /\
    lookup_block w2 p = Some b /\ owned w2 p = true /\ fresh_block w p /\ mem_frame [p] w w2.
Proof.
  destruct (alloc_run size b0 w) as (p & Ha & Hf). destruct (fresh_obs w p Hf) as (_ & _ & Hp).
  pose proof Hf as [Hs _].
  exists p, (set_blocks (<[p := b0]> (blocks w)) w). eexists.
  split_and!; try done.
  - unfold malloc_block. by rewrite Ha.
  - by apply set_block_obs.
  - by apply set_block_obs.
  - by apply set_block_obs.
  - eapply mem_frame_trans; by apply set_block_frame.
Qed.

(** ** will_return and mock *)

Definition add_return (f : string) (v : SymbolValue) (count : Z) a : expectations :=
  mkExpectations (tree_add 1 [f] v count (returns a)) (params a) (calls a).

Lemma will_return_spec `{!PlatformTotal} w a f loc line_ name value count :
  mocks w a -> count <> 0 ->
  exists w', _will_return f loc line_ name value count w = (Ret tt, w') /\
    mocks w' (add_return f (mkSymbolValue name (mkSourceLocation loc line_) value) count a) /\
    typed_only w w'.
Proof.
  intros (R & P & C & Hm) Hcount. unfold _will_return.
  destruct (alloc_store SIZEOF_SYMBOLVALUE (BSymbolValue (mkSymbolValue None unset_location 0))
    (BSymbolValue (mkSymbolValue (match name with Some n => Some n | None => None end)
      (mkSourceLocation loc line_) value)) w)
    as (p & w1 & w2 & Ra & Hp & Hl1 & Rs & Hl2 & Ho2 & Hf & Hfr).
  mrun Ra. mrun (assert_non_null_ok w1 1140 p Hp). rewrite (proj2 (Z.eqb_neq _ _) Hcount).
  mrun (assert_true_ok w1 1141 "count != 0").
  assert (load_symbol_value p w1 = (Ret (mkSymbolValue None unset_location 0), w1)) as Rl.
  { apply deref_run. by rewrite Hl1. }
  mrun Rl. cbn [sv_name]. mrun Rs.
  assert (match name with Some n => Some n | None => None end = name) as Hname by by destruct name.
  rewrite Hname in Hl2.
  pose proof (mocks_at_fresh w R P C a p Hm Hf) as Hout.
  assert (mocks_at w2 R P C a) as Hm2.
  { eapply mocks_at_frame; [exact Hfr| |exact Hm]. by intros x Hx ->%list_elem_of_singleton. }
  destruct (store_add _ holds_return_local 0 [f] w2 global_function_result_map_head R (returns a) p
    _ count (m_R _ _ _ _ _ Hm2) eq_refl Hl2) as (w3 & R' & R3 & Hst & Hev); [|done|].
  { intros Hin. apply Hout, elem_of_app. by left. }
  exists w3. split_and!; [done| |].
  - exists R', P, C. eapply mocks_at_R; [exact Hm2|exact Hst|exact Hev|]. right.
    intros Hin. apply Hout, elem_of_app. by right.
  - transitivity w2; [|eapply evolves_typed; [apply (m_R _ _ _ _ _ Hm2)|done..|exact Hev] ].
    eapply frame_typed; [exact Hfr|]. intros x ->%list_elem_of_singleton. by apply fresh_harmless.
Qed.

Lemma drop_frame w p : owned w p = true -> mem_frame [p] w (drop p w).
Proof.
  intros Ho.   apply (touches_frame [] [p]). apply (touch_drop _ _ w _ p); [by left|done|constructor].
Qed.

Lemma drop_typed w p : owned w p = true -> typed_only w (drop p w).
Proof. intros Ho. eapply frame_typed; [by apply drop_frame|]. intros x ->%list_elem_of_singleton. by apply owned_harmless. Qed.

Lemma release w p : owned w p = true -> free p w = (Ret tt, drop p w).
Proof. intros Ho. destruct (owned_heap w p Ho). by apply free_run. Qed.

(** Getting a return value: the value is still readable, and it is out of the
    stores when it was used up. *)
Lemma get_return w a f rc sv q :
  mocks w a -> refcounts_ok 1 (returns a) -> tree_get 1 [f] (returns a) = Some (rc, sv, q) ->
  exists w' v R P C, get_symbol_value global_function_result_map_head [f] w = (Ret (rc, Some v), w') /\
    mocks_at w' R P C (mkExpectations q (params a) (calls a)) /\
    load_symbol_value v w' = (Ret sv, w') /\ owned w' v = true /\
    (rc = 1 -> v ∉ all_regions R P C) /\ typed_only w w' /\ (rc <> 1 -> v ∈ values 1 R).
Proof.
  intros (R & P & C & Hm) Hrc Hget.
  pose proof (store_get _ holds_return_local 0 [f] w _ R _ (m_R _ _ _ _ _ Hm) eq_refl Hrc) as Hg.
  rewrite Hget in Hg.
  destruct Hg as (w1 & R1 & v & Rg & Hst & Hv & Hvf & Hov & [Hout Hkeep] & Hsub & Hf & Hnd).
  assert (v ∉ (global_function_parameter_map_head :: fp 2 P) ++ (global_call_ordering_head :: fp 0 C)) as Hvo.
  { destruct Hm as [_ _ _ (_ & Hd & _)%NoDup_app]. apply Hd. by right. }
  exists w1, v, R1, P, C. split_and!; [exact Rg| | |done| | |done].
  - apply (mocks_at_R w R P C a w1 R1 q v Hm Hst); [|by left; right]. split.
    + exists (global_function_result_map_head :: fp 1 R). split; [intros x Hx; by left|done].
    + intros x Hx. right. left. by apply Hsub.
  - apply deref_run. by rewrite Hv.
  - intros Hone [Hin|Hin]%elem_of_app; [by apply Hout|done].
  - eapply frame_typed; [exact Hf|]. intros x. eapply store_harmless; [apply (m_R _ _ _ _ _ Hm)|done..].
Qed.

Definition name_matches (name : option string) (sv : SymbolValue) : bool :=
  match name with Some n => bool_decide (sv_name sv = Some n) | None => true end.

Lemma same_mem_mocks_at w w' R P C a : same_mem w w' -> mocks_at w R P C a -> mocks_at w' R P C a.
Proof.
  intros Hs [HR HP HC Hap]. split; [..|done].
  - by apply (store_same_mem _ holds_return_local _ w).
  - by apply (store_same_mem _ holds_check_local _ w).
  - by apply (store_same_mem _ holds_call_local _ w).
Qed.

Lemma mocks_at_drop w p R P C a :
  mocks_at w R P C a -> owned w p = true -> (p ∉ all_regions R P C) -> mocks_at (drop p w) R P C a.
Proof.
  intros Hm Ho Hp. eapply mocks_at_frame; [by apply drop_frame| |exact Hm].
  by intros x Hx ->%list_elem_of_singleton.
Qed.

(** A mock function gets its next value. *)
Lemma mock_value_spec w a f loc line_ name rc sv q :
  mocks w a -> refcounts_ok 1 (returns a) -> tree_get 1 [f] (returns a) = Some (rc, sv, q) ->
  rc <> 0 -> name_matches name sv = true ->
  exists w', _mock f loc line_ name w = (Ret (sv_value sv), w') /\
    mocks w' (mkExpectations q (params a) (calls a)) /\
    global_last_mock_value_location w' = sv_location sv /\ kept w w'.
Proof.
  intros Hm Hrc Hget Hz Hname. unfold _mock.
  destruct (get_return w a f rc sv q Hm Hrc Hget)
    as (w1 & v & R & P & C & Rg & Hm1 & Rl & Hov & Hout & Ht & Hin).
  mrun Rg. rewrite (proj2 (Z.eqb_neq _ _) Hz). cbn [negb].
  assert (forall A (k : ptr -> CM A), (v' ← deref (fun _ => Some v); k v') w1 = k v w1) as Rd by done.
  rewrite Rd. mrun Rl.
  assert (forall A (k : unit -> CM A), (match name with
    | Some n => if bool_decide (sv_name sv = Some n) then mret tt
                else mock_type_mismatch sv loc line_ n f;; free v;; exit_test true
    | None => mret tt end ≫= k) w1 = k tt w1) as Rn.
  { intros A k. unfold name_matches in Hname. destruct name; [by rewrite Hname|done]. }
  rewrite Rn. mrun Rl. cbn zeta. mprim.
  set (w2 := set_global_last_mock_value_location (sv_location sv) w1).
  assert (mocks_at w2 R P C (mkExpectations q (params a) (calls a))) as Hm2
    by (by apply (same_mem_mocks_at w1)).
  assert (kept w w2) as K2 by (transitivity w1; [by apply typed_only_kept|apply kept_mock_location]).
  destruct (rc =? 1) eqn:Hone.
  - assert (owned w2 v = true) as Ho2 by done. mrun (release w2 v Ho2).
    exists (drop v w2). split_and!; [done| |done|].
    + exists R, P, C. apply mocks_at_drop; [done|done|]. zbool. auto.
    + transitivity w2; [done|by apply typed_only_kept, drop_typed].
  - mprim. exists w2. split_and!; [done| |done|done]. by exists R, P, C.
Qed.

(** No value: the test ends. *)
Lemma mock_no_value_spec w a f loc line_ name :
  mocks w a -> refcounts_ok 1 (returns a) -> tree_get 1 [f] (returns a) = None ->
  exists w', _mock f loc line_ name w = (exit_outcome w, w') /\ quiet w w'.
Proof.
  intros (R & P & C & Hm) Hrc Hget.
  pose proof (store_get _ holds_return_local 0 [f] w _ R _ (m_R _ _ _ _ _ Hm) eq_refl Hrc) as Hg.
  rewrite Hget in Hg. destruct Hg as (w1 & Rg & Q1). unfold _mock. mrun Rg. cbn [Z.eqb negb].
  rewrite <-(exit_outcome_quiet w w1 Q1).
  destruct (prints_then_exit (mock_no_value f loc line_) (mret NULL : CM Z) w1) as (w2 & R2 & Q2).
  - unfold mock_no_value, note_location. apply prints_seq; [auto with cmocka|].
    apply prints_gets. intros l. destruct (source_location_is_set l); auto with cmocka.
  - exists w2. split; [exact R2|by etrans].
Qed.

(** A freed value is still in the store of mock values. *)
Definition dangling w : Prop :=
  exists w0 R v, rep 1 w0 global_function_result_map_head R /\ NoDup (global_function_result_map_head :: fp 1 R) /\
    v ∈ values 1 R /\ same_mem (drop v w0) w.

(** The value has another name: the test ends; a value used for the last time
    is gone, and any other value is freed nevertheless. *)
Lemma mock_mismatch_spec w a f loc line_ name rc sv q :
  mocks w a -> refcounts_ok 1 (returns a) -> tree_get 1 [f] (returns a) = Some (rc, sv, q) ->
  rc <> 0 -> name_matches name sv = false ->
  exists w', _mock f loc line_ name w = (exit_outcome w, w') /\
    (rc = 1 -> mocks w' (mkExpectations q (params a) (calls a))) /\ kept w w' /\ (rc <> 1 -> dangling w').
Proof.
  intros Hm Hrc Hget Hz Hname. unfold _mock.
  destruct (get_return w a f rc sv q Hm Hrc Hget)
    as (w1 & v & R & P & C & Rg & Hm1 & Rl & Hov & Hout & Ht & Hin).
  mrun Rg. rewrite (proj2 (Z.eqb_neq _ _) Hz). cbn [negb]. destruct name as [n|]; [|done]. simpl in Hname.
  assert (forall A (k : ptr -> CM A), (v' ← deref (fun _ => Some v); k v') w1 = k v w1) as Rd by done.
  rewrite Rd. mrun Rl. rewrite Hname.
  assert (prints (mock_type_mismatch sv loc line_ n f)) as Hp.
  { unfold mock_type_mismatch, note_location. apply prints_seq; [auto with cmocka|].
    apply prints_gets. intros l. auto with cmocka. }
  destruct (Hp w1) as (w2 & R2 & Q2). rewrite bind_assoc_run. mrun R2.
  assert (owned w2 v = true) as Ho2 by (destruct Q2 as (?&?&?&?&->); done).
  rewrite bind_assoc_run. mrun (release w2 v Ho2).
  match goal with |- context [(exit_test true ≫= ?k) _] =>
    destruct (exit_test_then (k tt) (drop v w2)) as (w3 & R3 & Q3) end.
  exists w3. split_and!.
  3:{ transitivity w1; [by apply typed_only_kept|]. transitivity w2; [by apply kept_quiet|].
      transitivity (drop v w2); [by apply typed_only_kept, drop_typed|by apply kept_quiet]. }
  3:{ intros Hr. exists w2, R, v. pose proof (m_R _ _ _ _ _ (same_mem_mocks_at _ _ _ _ _ _ (quiet_same_mem _ _ Q2) Hm1)) as Hst.
      destruct (st_good _ _ _ _ _ _ Hst) as [ (Hrep & _ & Hnd) _]. split_and!; [done..|by apply Hin|by apply quiet_same_mem]. }
  - etrans; [exact R3|]. f_equal. rewrite <-(typed_only_exit w w1 Ht). by destruct Q2 as (?&?&?&?&->).
  - intros ->. exists R, P, C. apply (same_mem_mocks_at (drop v w2)); [by apply quiet_same_mem|].
    apply mocks_at_drop; [|done|by apply Hout].
    apply (same_mem_mocks_at w1); [by apply quiet_same_mem|done].
Qed.

(** ** The order of calls *)

Definition add_call (o : FuncOrderingValue) (count : Z) a : expectations :=
  mkExpectations (returns a) (params a) (calls a ++ [(o, count)]).

Lemma expect_function_call_spec `{!PlatformTotal} w a f loc line_ count :
  mocks w a -> count <> 0 ->
  exists w', _expect_function_call (Some f) (Some loc) line_ count w = (Ret tt, w') /\
    mocks w' (add_call (mkFuncOrderingValue (mkSourceLocation (Some loc) line_) f) count a) /\
    typed_only w w'.
Proof.
  intros (R & P & C & Hm) Hcount. unfold _expect_function_call.
  assert (forall l s, assert_non_null_string l (Some s) w = (Ret tt, w)) as Rs0.
  { intros l s. by apply assert_non_null_ok. }
  mrun (Rs0 1192 f). mrun (Rs0 1193 loc). rewrite (proj2 (Z.eqb_neq _ _) Hcount).
  mrun (assert_true_ok w 1194 "count != 0").
  destruct (alloc_store SIZEOF_FUNCORDERINGVALUE (BFuncOrderingValue (mkFuncOrderingValue unset_location ""))
    (BFuncOrderingValue (mkFuncOrderingValue (mkSourceLocation (Some loc) line_) f)) w)
    as (p & w1 & w2 & Ra & Hp & Hl1 & Rs & Hl2 & Ho2 & Hf & Hfr).
  mrun Ra. assert (load_block p w1 = (Ret _, w1)) as Rl by (apply deref_run; exact Hl1).
  mrun Rl. cbn [default]. mrun Rs.
  pose proof (mocks_at_fresh w R P C a p Hm Hf) as Hout.
  assert (mocks_at w2 R P C a) as Hm2.
  { eapply mocks_at_frame; [exact Hfr| |exact Hm]. by intros x Hx ->%list_elem_of_singleton. }
  destruct (store_append _ holds_call_local w2 global_call_ordering_head C (calls a) p
    _ count (m_C _ _ _ _ _ Hm2) Hl2) as (w3 & C' & q & R3 & Hst & Hev); [|done|].
  { intros Hin. apply Hout. unfold all_regions. rewrite !elem_of_app. auto. }
  exists w3. mrun R3. split_and!; [done| |].
  - exists R, P, C'. eapply mocks_at_C; [exact Hm2|exact Hst|exact Hev|]. right.
    intros Hin. apply Hout. unfold all_regions. rewrite app_assoc. apply elem_of_app. by left.
  - transitivity w2; [|eapply evolves_typed; [apply (m_C _ _ _ _ _ Hm2)|done..|exact Hev] ].
    eapply frame_typed; [exact Hfr|]. intros x ->%list_elem_of_singleton. by apply fresh_harmless.
Qed.

(** The cell at which the search of [_function_called] stops. *)
Fixpoint scan_calls (w : World) (f : string) (cs : list cell) : option (bool * cell) :=
  match cs with
  | [] => None
  | c :: cs' =>
      match lookup_block w (cell_value c) with
      | Some (BFuncOrderingValue o) =>
          if bool_decide (fo_function o = f) then Some (true, c)
          else if -2 <? cell_refcount c then Some (false, c)
          else scan_calls w f cs'
      | _ => None
      end
  end.

Lemma function_called_loop_run f w h cs2 : forall cs1 fuel,
  dll w h (cs1 ++ cs2) -> Forall (fun c => is_ordering w (cell_value c)) cs2 -> cs2 <> [] ->
  (length cs2 < fuel)%nat ->
  exists r, function_called_loop fuel h (first_addr h cs2) f w = (Ret r, w) /\
    match scan_calls w f cs2 with
    | Some (b, c) => r = (cell_addr c, cell_value c, b)
    | None => exists v, r = (h, v, false)
    end.
Proof.
  induction cs2 as [|[ [a v] rc] cs2 IH]; intros cs1 [|fuel] Hdll Hval Hne Hfuel; try done;
    simpl in Hfuel; [lia|]. cbn [function_called_loop].
  change (first_addr h ((a, v, rc) :: cs2)) with a.
  destruct (dll_cell w h _ a v rc Hdll) as [Hd _]; [apply elem_of_app; right; by left|].
  apply Forall_cons in Hval as [ [o Ho] Hval]. change (cell_value (a, v, rc)) with v in Ho.
  assert (v <> NULL) as Hv by (intros ->; done).
  mrun (get_value_run w a v rc Hd). rewrite (proj2 (Z.eqb_neq _ _) Hv). cbn [negb].
  assert (load_ordering v w = (Ret o, w)) as Rl by (apply deref_run; by rewrite Ho).
  rewrite bind_assoc_run. mrun Rl. mprim. mrun (get_refcount_run w a v rc Hd).
  cbn [scan_calls]. change (cell_value (a, v, rc)) with v. rewrite Ho.
  change (cell_refcount (a, v, rc)) with rc. destruct (bool_decide (fo_function o = f)); cbn [orb].
  - by eexists.
  - destruct (-2 <? rc); [by eexists|].
    pose proof (next_cell w h cs1 (a, v, rc) cs2 Hdll) as Hnext. mrun Hnext.
    assert (first_addr h cs2 <> NULL) as Hnn.
    { eapply is_node_NULL, (dll_nodes w h _ _ Hdll). unfold first_addr.
      destruct cs2 as [|c cs2]; [by left|]. right. unfold addrs. rewrite fmap_app, elem_of_app.
      right. right. by left. }
    rewrite (proj2 (Z.eqb_neq _ _) Hnn). cbn [negb andb].
    destruct cs2 as [|c cs2].
    + change (first_addr h []) with h. rewrite Z.eqb_refl. eexists. split; [done|]. by eexists.
    + assert (first_addr h (c :: cs2) <> h) as Hnh.
      { change (first_addr h (c :: cs2)) with (cell_addr c). intros <-.
        destruct Hdll as ([Hh _]%NoDup_cons & _). apply Hh. unfold addrs.
        rewrite fmap_app, elem_of_app. right. right. by left. }
      rewrite (proj2 (Z.eqb_neq _ _) Hnh). cbn [negb].
      rewrite cons_middle, app_assoc in Hdll.
      destruct (IH (cs1 ++ [(a, v, rc)]) fuel Hdll Hval) as (r & R & Hr); [done|simpl in *; lia|].
      exists r. split; [exact R|exact Hr].
Qed.

Definition holds_cell w (c : cell) (e : FuncOrderingValue * Z) : Prop :=
  holds_call w (cell_value c) e.1 /\ cell_refcount c = e.2.

Lemma holds_cells w (C : list cell) q :
  tree_rel (holds_call w) 0 (erase 0 C) q <-> Forall2 (holds_cell w) C q.
Proof. simpl. rewrite Forall2_fmap_l. done. Qed.

Lemma scan_call_step w f C q :
  Forall2 (holds_cell w) C q ->
  match scan_calls w f C with
  | Some (true, c) => exists l1 l2 q1 q2 e, C = l1 ++ c :: l2 /\ q = q1 ++ e :: q2 /\
      Forall2 (holds_cell w) l1 q1 /\ Forall2 (holds_cell w) l2 q2 /\ holds_cell w c e /\
      call_step f q = Some (q1 ++ called_once e ++ q2)
  | _ => call_step f q = None
  end.
Proof.
  induction 1 as [|c [o rc] C q [Ho Hrc] HC IH]; [done|]. cbn [scan_calls call_step].
  unfold holds_call in Ho. simpl in Ho, Hrc. rewrite Ho, Hrc.
  destruct (bool_decide (fo_function o = f)).
  - exists [], C, [], q, (o, rc). split_and!; done.
  - destruct (-2 <? rc) eqn:Hr; [done|].
    destruct (scan_calls w f C) as [ [ [] c']|]; [|by rewrite IH..].
    destruct IH as (l1 & l2 & q1 & q2 & e & -> & -> & H1 & H2 & He & ->).
    exists (c :: l1), l2, ((o, rc) :: q1), q2, e. split_and!; try done. by constructor.
Qed.

Lemma is_ordering_cells w (C : list cell) q :
  Forall2 (holds_cell w) C q -> Forall (fun c => is_ordering w (cell_value c)) C.
Proof. induction 1 as [|c e C q [Hc _] _ IH]; constructor; [by eexists|done]. Qed.

(** The head of the list of expected calls, and the change of the list
    without new memory. *)
Abbreviation hC := global_call_ordering_head.
Definition within (C C' : list cell) w w' : Prop :=
  fp 0 C' ⊆ fp 0 C /\ mem_frame (hC :: fp 0 C) w w'.

Lemma within_trans C1 C2 C3 w1 w2 w3 :
  within C1 C2 w1 w2 -> within C2 C3 w2 w3 -> within C1 C3 w1 w3.
Proof.
  intros [Hs1 Hf1] [Hs2 Hf2]. split; [by etrans|].
  eapply mem_frame_trans; [exact Hf1|]. eapply mem_frame_mono; [|exact Hf2].
  intros x [->|Hx]%elem_of_cons; [by left|right; by apply Hs1].
Qed.

Lemma within_evolves C C' w w' : within C C' w w' -> evolves 0 w hC C w' C' hC.
Proof.
  intros [Hs Hf]. split; [exists (hC :: fp 0 C); auto|]. intros x Hx. right. left. by apply Hs.
Qed.

Lemma fp_cells_app (l1 l2 : list cell) : fp 0 (l1 ++ l2 : list cell) = fp 0 l1 ++ fp 0 l2.
Proof. exact (bind_app (fun c : cell => [cell_addr c; cell_value c]) l1 l2). Qed.

(** A new reference count. *)
Lemma set_count_store w (l1 l2 : list cell) (a v : ptr) rc rc' q1 q2 o :
  good0 0 w hC (l1 ++ (a, v, rc) :: l2 : list cell) ->
  Forall2 (holds_cell w) l1 q1 -> Forall2 (holds_cell w) l2 q2 -> holds_call w v o ->
  exists w1, set_refcount a rc' w = (Ret tt, w1) /\
    good0 0 w1 hC (l1 ++ (a, v, rc') :: l2 : list cell) /\
    Forall2 (holds_cell w1) l1 q1 /\ Forall2 (holds_cell w1) l2 q2 /\ holds_call w1 v o /\
    within (l1 ++ (a, v, rc) :: l2) (l1 ++ (a, v, rc') :: l2) w w1.
Proof.
  intros ((Hdll & Hown) & _ & Hnd) H1 H2 Ho.
  destruct (set_refcount_spec w _ l1 a v rc l2 rc' Hdll)
    as (w1 & R1 & Hdll1 & _ & Ho1 & Ht1).
  pose proof (touches_frame _ _ _ _ Ht1) as Hf1. rewrite app_nil_r in Hf1.
  assert (fp 0 (l1 ++ (a, v, rc') :: l2) = fp 0 (l1 ++ (a, v, rc) :: l2)) as Hfp
    by by rewrite !fp_cells_app.
  assert (forall x, x ∈ values 0 (l1 ++ (a, v, rc) :: l2) -> lookup_block w1 x = lookup_block w x) as Hkeep.
  { intros x Hx. eapply frame_lookup; [exact Hf1|]. intros ->%list_elem_of_singleton.
    apply (values_not_spine 0 _ _ a Hnd Hx). right.
    change (a ∈ cell_addr <$> (l1 ++ (a, v, rc) :: l2)). rewrite fmap_app, elem_of_app.
    right. by left. }
  assert (forall c, c ∈ l1 ++ (a, v, rc) :: l2 -> lookup_block w1 (cell_value c) = lookup_block w (cell_value c)) as Hkc.
  { intros c Hc. apply Hkeep. change (cell_value c ∈ cell_value <$> (l1 ++ (a, v, rc) :: l2)).
    by apply list_elem_of_fmap_2. }
  assert (forall cs q, (forall c, c ∈ cs -> c ∈ l1 ++ (a, v, rc) :: l2) ->
    Forall2 (holds_cell w) cs q -> Forall2 (holds_cell w1) cs q) as Hmove.
  { intros cs q Hin Hcs. induction Hcs as [|c e cs q [Hc Hr] Hcs IH]; constructor.
    - split; [|done]. unfold holds_call. by rewrite Hkc by (apply Hin; by left).
    - apply IH. intros c' Hc'. apply Hin. by right. }
  exists w1. split_and!; [exact R1| | | | |].
  - split_and!; [split; [done|]|done|by rewrite Hfp].
    rewrite Forall_app, Forall_cons in Hown |- *. rewrite !Forall_forall in Hown |- *.
    destruct Hown as (Hn1 & Hn & Hn2). split_and!; intros; rewrite !Ho1; auto.
    all: apply Hn.
  - apply Hmove; [|done]. intros c Hc. apply elem_of_app. by left.
  - apply Hmove; [|done]. intros c Hc. apply elem_of_app. by right; right.
  - apply (holds_call_local w w1); [|done]. apply (Hkc (a, v, rc)).
    apply elem_of_app. right. by left.
  - split; [by rewrite Hfp|]. eapply mem_frame_mono; [|exact Hf1].
    intros x ->%list_elem_of_singleton. right. rewrite fp_cells_app, elem_of_app. right. by left.
Qed.

(** The called function's reference count is decremented, and the expectation
    removed when it drops to 0. *)
Lemma use_call w (l1 l2 : list cell) c q1 q2 e :
  good0 0 w hC (l1 ++ c :: l2 : list cell) ->
  Forall2 (holds_cell w) l1 q1 -> Forall2 (holds_cell w) l2 q2 -> holds_cell w c e ->
  exists w' C', (r ← get_refcount (cell_addr c);
       if -2 <? r then
         set_refcount (cell_addr c) (r - 1);;
         r' ← get_refcount (cell_addr c);
         if r' =? 0 then list_remove_free (cell_addr c) (Some free_value) else mret tt
       else mret tt) w = (Ret tt, w') /\
    store holds_call 0 w' hC C' (q1 ++ called_once e ++ q2) /\ within (l1 ++ c :: l2) C' w w'.
Proof.
  intros Hgood H1 H2 He. destruct c as [ [a v] rc]. destruct e as [o rc']. destruct He as [Ho Hrc].
  unfold cell_refcount in Hrc. simpl in Ho, Hrc. subst rc'. change (cell_addr (a, v, rc)) with a.
  pose proof Hgood as ((Hdll & _) & _).
  destruct (dll_cell w _ _ a v rc Hdll) as [Hd _]; [apply elem_of_app; right; by left|].
  mrun (get_refcount_run w a v rc Hd). unfold called_once. cbn [fst snd].
  destruct (-2 <? rc).
  - destruct (set_count_store w l1 l2 a v rc (rc - 1) q1 q2 o Hgood H1 H2 Ho)
      as (w1 & R1 & Hg1 & Hl1 & Hl2 & Hv & Hw1). mrun R1.
    pose proof Hg1 as ((Hdll1 & _) & _).
    destruct (dll_cell w1 _ _ a v (rc - 1) Hdll1) as [Hd1 _]; [apply elem_of_app; right; by left|].
    mrun (get_refcount_run w1 a v (rc - 1) Hd1). destruct (rc - 1 =? 0).
    + destruct (remove_cell w1 _ a v (rc - 1) l1 l2 Hg1) as (w2 & R2 & Hsh).
      exists w2, (l1 ++ l2). split_and!; [exact R2| |].
      * eapply (shrinks_store _ holds_call_local 0 w1 hC _ (q1 ++ (o, rc - 1) :: q2)).
        -- split; [by split|]. apply holds_cells. apply Forall2_app; [done|]. by constructor.
        -- exact Hsh.
        -- done.
        -- apply holds_cells. by apply Forall2_app.
      * eapply within_trans; [exact Hw1|]. split; [|exact (sh_frame _ _ _ _ _ _ Hsh)].
        destruct Hsh as [_ (freed & Hperm & _) _ _ _]. intros x Hx.
        rewrite Hperm, elem_of_app. by right.
    + exists w1, (l1 ++ (a, v, rc - 1) :: l2). split_and!; [done| |done].
      split; [by split|]. apply holds_cells. apply Forall2_app; [done|]. by constructor.
  - exists w, (l1 ++ (a, v, rc) :: l2). split_and!; [done| |].
    + split; [by split|]. apply holds_cells. apply Forall2_app; [done|]. by constructor.
    + split; [done|apply mem_frame_refl].
Qed.

Lemma scan_calls_in w f C b c :
  scan_calls w f C = Some (b, c) ->
  c ∈ C /\ exists o, lookup_block w (cell_value c) = Some (BFuncOrderingValue o).
Proof.
  induction C as [|c' C IH]; [done|]. cbn [scan_calls].
  destruct (lookup_block w (cell_value c')) as [ []|] eqn:Hl; try done.
  repeat case_match; intros Heq; simplify_eq.
  1,2: split; [by left|eauto].
  destruct (IH Heq). split; [by right|done].
Qed.

(** A call in the declared order uses up its expectation; another one ends
    the test and changes nothing. *)
Lemma function_called_spec w a f loc line_ :
  mocks w a ->
  match call_step f (calls a) with
  | Some q => exists w', _function_called f loc line_ w = (Ret tt, w') /\
      mocks w' (mkExpectations (returns a) (params a) q) /\ kept w w'
  | None => exists w', _function_called f loc line_ w = (exit_outcome w, w') /\ quiet w w'
  end.
Proof.
  intros (R & P & C & Hm). pose proof (m_C _ _ _ _ _ Hm) as [ [Hgood _] Hrel%holds_cells].
  pose proof Hgood as ((Hdll & _) & _). unfold _function_called.
  mrun (list_empty_run w hC C Hdll).
  assert (forall msg A (k : CM A), exists w', (cmocka_print_error msg;; exit_test true;; k) w = (exit_outcome w, w') /\ quiet w w') as Hend.
  { intros msg A k. apply prints_then_exit. auto with cmocka. }
  pose proof (scan_call_step w f C (calls a) Hrel) as Hscan.
  destruct (decide (C = [])) as [->|Hne].
  - cbn [scan_calls] in Hscan. rewrite Hscan, bool_decide_true by done.
    destruct (prints_cmocka_print_error (fmt_location loc line_ +:+
        ": error: No mock calls expected but called() was invoked in " +:+ f +:+ nl) w) as (w1 & R1 & Q1).
    mrun R1. destruct (exit_test_run w1) as (w2 & R2 & Q2).
    exists w2. rewrite R2, (exit_outcome_quiet w w1 Q1). split; [done|by etrans].
  - rewrite bool_decide_false by done. mrun (next_head w hC C Hdll). mprim.
    destruct (function_called_loop_run f w hC C [] (S (node_bound w)) Hdll (is_ordering_cells _ _ _ Hrel) Hne)
      as (r & Rr & Hr); [pose proof (dll_fuel w hC C Hdll); lia|]. mrun Rr.
    destruct (scan_calls w f C) as [ [b c]|] eqn:Hsc.
    + subst r. destruct (scan_calls_in w f C b c Hsc) as (Hin & o & Ho).
      assert (cell_value c <> NULL) as Hv by (intros Heq; by rewrite Heq in Ho).
      assert (cell_addr c <> hC) as Hh.
      { intros Heq. destruct Hdll as ([Hh _]%NoDup_cons & _). apply Hh. rewrite <-Heq.
        by apply list_elem_of_fmap_2. }
      rewrite (proj2 (Z.eqb_neq _ _) Hv), (proj2 (Z.eqb_neq _ _) Hh). cbn [orb negb]. mprim.
      destruct b.
      * destruct Hscan as (l1 & l2 & q1 & q2 & e & -> & Hq & H1 & H2 & He & ->).
        destruct (use_call w l1 l2 c q1 q2 e Hgood H1 H2 He) as (w' & C' & R' & Hst & Hw).
        exists w'. split; [exact R'|]. split.
        -- exists R, P, C'. apply (mocks_at_C w R P _ a w' C' _ hC Hm Hst (within_evolves _ _ _ _ Hw)).
           left. by left.
        -- apply typed_only_kept. eapply frame_typed; [apply Hw|]. intros x.
           eapply store_harmless; [apply (m_C _ _ _ _ _ Hm)|done|done].
      * rewrite Hscan.
        assert (load_ordering (cell_value c) w = (Ret o, w)) as Rl by (apply deref_run; by rewrite Ho).
        rewrite bind_assoc_run. mrun Rl. mprim.
        match goal with |- context [cmocka_print_error ?m ≫= _] =>
          destruct (prints_cmocka_print_error m w) as (w1 & R1 & Q1) end.
        mrun R1. destruct (exit_test_run w1) as (w2 & R2 & Q2).
        exists w2. rewrite R2, (exit_outcome_quiet w w1 Q1). split; [done|by etrans].
    + destruct Hr as (v & ->). rewrite Hscan. rewrite Z.eqb_refl, orb_true_r.
      rewrite bind_assoc_run. apply Hend.
Qed.

(** ** The end of a test *)

Lemma rel_values_ok {B} (Rel : World -> ptr -> B -> Prop) (Q : World -> ptr -> Prop) n w :
  (forall v b, Rel w v b -> Q w v) ->
  forall (t : shape n) u, tree_rel (Rel w) n (erase n t) u -> values_ok Q n w t.
Proof.
  intros HQ. induction n as [|k IH]; intros t u Ht; simpl in *; rewrite Forall2_fmap_l in Ht;
    induction Ht as [|c e t u [Hc Hr] Ht IHt]; constructor; eauto.
Qed.

Lemma rel_length {B} (Rel : ptr -> B -> Prop) k (t : list (Entry (shape k))) (u : tree B (S k)) :
  tree_rel Rel (S k) (erase (S k) t) u -> length u = length t.
Proof. intros Ht%Forall2_length. etrans; [exact (eq_sym Ht)|]. apply length_fmap. Qed.

Lemma length_is_nil {B} k (u : tree B (S k)) :
  negb (Z.of_nat (length u) =? 0) = negb (tree_is_nil u).
Proof. by destruct u. Qed.

Lemma return_located w v sv : holds_return w v sv -> located w v.
Proof. intros Hv. unfold located. rewrite Hv. by eexists. Qed.
Lemma check_located w v b : holds_check w v b -> located w v.
Proof. intros (Hv & Hb & _). unfold located. rewrite Hv. destruct b; try done; by eexists. Qed.

Lemma mocks_quiet w w' R P C a : quiet w w' -> mocks_at w R P C a -> mocks_at w' R P C a.
Proof. intros Hq. by apply same_mem_mocks_at, quiet_same_mem. Qed.

(** One symbol map: drop what need not be used, report the rest. *)
Lemma leftover_R w R P C a msg :
  mocks_at w R P C a ->
  exists w' R', (forall A (k : Z -> CM A),
      (remove_always_return_values global_function_result_map_head 1;;
       n ← check_for_leftover_values global_function_result_map_head msg 1; k n) w =
      k (Z.of_nat (length (tree_remove_always 1 (returns a)))) w') /\
    mocks_at w' R' P C (mkExpectations (tree_remove_always 1 (returns a)) (params a) (calls a)) /\
    heap_kept w w'.
Proof.
  intros Hm. destruct (store_remove_always _ holds_return_local 0 w _ R _ (m_R _ _ _ _ _ Hm))
    as (w1 & R1 & Rr & Hst & Hev & Hfr).
  assert (mocks_at w1 R1 P C (mkExpectations (tree_remove_always 1 (returns a)) (params a) (calls a))) as Hm1.
  { eapply mocks_at_R; [exact Hm|exact Hst|exact Hev|]. left. by left. }
  destruct Hst as [Hgood Hrel].
  destruct (check_for_leftover_values_run msg 0 w1 _ R1 Hgood) as (w2 & Rc & Q2).
  { eapply rel_values_ok; [|exact Hrel]. apply return_located. }
  exists w2, R1. split_and!; [|by apply (mocks_quiet w1)|].
  2:{ etrans; [|by apply quiet_heap_kept]. eapply store_heap_kept; [apply (m_R _ _ _ _ _ Hm)|done|done|done]. }
  intros A k. mrun Rr. mrun Rc. by rewrite (rel_length _ 0 R1 _ Hrel).
Qed.

Lemma leftover_P w R P C a msg :
  mocks_at w R P C a ->
  exists w' P', (forall A (k : Z -> CM A),
      (remove_always_return_values global_function_parameter_map_head 2;;
       n ← check_for_leftover_values global_function_parameter_map_head msg 2; k n) w =
      k (Z.of_nat (length (tree_remove_always 2 (params a)))) w') /\
    mocks_at w' R P' C (mkExpectations (returns a) (tree_remove_always 2 (params a)) (calls a)) /\
    heap_kept w w'.
Proof.
  intros Hm. destruct (store_remove_always _ holds_check_local 1 w _ P _ (m_P _ _ _ _ _ Hm))
    as (w1 & P1 & Rr & Hst & Hev & Hfr).
  assert (mocks_at w1 R P1 C (mkExpectations (returns a) (tree_remove_always 2 (params a)) (calls a))) as Hm1.
  { eapply mocks_at_P; [exact Hm|exact Hst|exact Hev|]. left. by left. }
  destruct Hst as [Hgood Hrel].
  destruct (check_for_leftover_values_run msg 1 w1 _ P1 Hgood) as (w2 & Rc & Q2).
  { eapply rel_values_ok; [|exact Hrel]. apply check_located. }
  exists w2, P1. split_and!; [|by apply (mocks_quiet w1)|].
  2:{ etrans; [|by apply quiet_heap_kept]. eapply store_heap_kept; [apply (m_P _ _ _ _ _ Hm)|done|done|done]. }
  intros A k. mrun Rr. mrun Rc. by rewrite (rel_length _ 1 P1 _ Hrel).
Qed.

Lemma filter_cells w (C : list cell) q :
  Forall2 (holds_cell w) C q ->
  Forall2 (holds_cell w) (List.filter must_be_used C) (List.filter (fun e => negb (e.2 <? -1)) q).
Proof.
  induction 1 as [|c e C q [Hc Hr] HC IH]; [constructor|]. cbn [List.filter]. unfold must_be_used.
  rewrite Hr. destruct (negb (e.2 <? -1)); [by constructor|done].
Qed.

Lemma leftover_C w R P C a msg :
  mocks_at w R P C a ->
  let q := List.filter (fun e => negb (e.2 <? -1)) (calls a) in
  exists w' C', (forall A (k : Z -> CM A),
      (remove_always_return_values_from_list hC;;
       n ← check_for_leftover_values_list hC msg; k n) w = k (Z.of_nat (length q)) w') /\
    mocks_at w' R P C' (mkExpectations (returns a) (params a) q) /\ heap_kept w w'.
Proof.
  intros Hm q. pose proof (m_C _ _ _ _ _ Hm) as Hst0. pose proof Hst0 as [ [Hgood0 _] Hrel0%holds_cells].
  destruct (remove_from_list_run w hC C Hgood0) as (w1 & Rr & Hsh).
  destruct (shrinks_store _ holds_call_local 0 w hC C (calls a) w1 _ q Hst0 Hsh) as [Hst Hev]; [done| |].
  { apply holds_cells, filter_cells, Hrel0. }
  assert (mocks_at w1 R P (List.filter must_be_used C) (mkExpectations (returns a) (params a) q)) as Hm1.
  { eapply mocks_at_C; [exact Hm|exact Hst|exact Hev|]. left. by left. }
  destruct Hst as [ [ ((Hdll & _) & _) _] Hrel%holds_cells].
  destruct (check_for_leftover_values_list_run w1 hC _ msg Hdll (is_ordering_cells _ _ _ Hrel))
    as (w2 & Rc & Q2).
  exists w2, (List.filter must_be_used C). split_and!; [|by apply (mocks_quiet w1)|].
  2:{ etrans; [|by apply quiet_heap_kept]. eapply store_heap_kept; [apply Hgood0|done|done|apply Hsh]. }
  intros A k. mrun Rr. mrun Rc. by rewrite (Forall2_length _ _ _ Hrel).
Qed.

(** Leftover values are reported exactly when something is left. *)
Lemma has_leftover_values_spec w a :
  mocks w a ->
  exists w', has_leftover_values w = (Ret (negb (nothing_left (leftover a))), w') /\
    mocks w' (leftover a) /\ heap_kept w w'.
Proof.
  intros (R & P & C & Hm). unfold has_leftover_values.
  destruct (leftover_R w R P C a "Has remaining non-returned values" Hm) as (w1 & R1 & E1 & Hm1 & K1).
  rewrite E1. destruct (leftover_P w1 R1 P C _ "Parameter still has values that haven't been checked" Hm1)
    as (w2 & P2 & E2 & Hm2 & K2). rewrite E2.
  destruct (leftover_C w2 R1 P2 C _ "Function was expected to be called but was not" Hm2)
    as (w3 & C3 & E3 & Hm3 & K3). rewrite E3.
  exists w3. split_and!; [|by exists R1, P2, C3|by do 2 (etrans; [done|])]. unfold mret, M_ret. do 2 f_equal.
  cbn [returns params calls]. rewrite (length_is_nil 0), (length_is_nil 1).
  unfold nothing_left, leftover. cbn [returns params calls].
  rewrite !negb_andb. by destruct (List.filter _ (calls a)).
Qed.

Lemma fail_if_leftover_values_spec w a :
  mocks w a ->
  exists w', mocks w' (leftover a) /\
    fail_if_leftover_values w =
      (if nothing_left (leftover a) then Ret tt else exit_outcome w', w') /\ heap_kept w w'.
Proof.
  intros Hm. destruct (has_leftover_values_spec w a Hm) as (w1 & R1 & Hm1 & K1).
  unfold fail_if_leftover_values. mrun R1. destruct (nothing_left (leftover a)); cbn [negb].
  - by exists w1.
  - destruct (exit_test_run w1) as (w2 & R2 & Q2). exists w2. split_and!.
    + eapply mocks_same_mem; [by apply quiet_same_mem|done].
    + rewrite R2. by rewrite (exit_outcome_quiet w1 w2).
    + etrans; [done|by apply quiet_heap_kept].
Qed.

(** ** Setting up and tearing down *)

(** The static list heads are in memory. *)
Definition static_heads (w : World) : Prop :=
  forall h, h ∈ [global_function_result_map_head; global_function_parameter_map_head;
                 global_call_ordering_head] -> is_Some (get_node w h).

Lemma store_nil {B} (Rel : World -> ptr -> B -> Prop) n w h :
  dll w h [] -> store Rel n w h (shape_nil n) (tree_nil n).
Proof.
  intros Hdll. constructor; [split; [split; [|split]|]|].
  - destruct n; (split; [exact Hdll|constructor]).
  - destruct n; constructor.
  - destruct n; apply NoDup_singleton.
  - destruct n; constructor.
  - destruct n; constructor.
Qed.

Lemma set_location_run f (w : World) :
  initialize_source_location f w = (Ret tt, f unset_location w).
Proof. done. Qed.

Lemma same_mem_node w w' x : same_mem w w' -> get_node w' x = get_node w x.
Proof. intros [Hb Hi]. destruct (frame_obs w w' x) as (? & _); congruence. Qed.

(** Blocks that hold a node still do when list operations write nodes. *)
Lemma touches_holds_node W w w' x :
  touches W [] w w' -> is_Some (blocks w !! x ≫= block_node) -> is_Some (blocks w' !! x ≫= block_node).
Proof.
  induction 1 as [w|w w' p n Hp Hn _ IH|w w' p Hp|w w1 w' p Hp]; intros Hs; [done| |by apply not_elem_of_nil in Hp..].
  apply IH. unfold put_node, world_heap, world_put_node. destruct (blocks w !! p) as [b|] eqn:Hb; [cbn|done].
  destruct (decide (p = x)) as [->|]; [|by rewrite lookup_insert_ne].
  rewrite Hb in Hs. rewrite lookup_insert_eq. cbn in *. by destruct b.
Qed.

(** Initialising one head leaves the other ones alone. *)
Lemma initialize_head w h (f : World -> World) :
  is_Some (get_node w h) -> (forall w, same_mem w (f w)) ->
  exists w1, list_initialize h w = (Ret h, w1) /\ dll (f w1) h [] /\
    (forall x, x <> h -> get_node (f w1) x = get_node w x) /\ mem_frame [h] w w1 /\
    (forall x, is_Some (blocks w !! x ≫= block_node) -> is_Some (blocks w1 !! x ≫= block_node)) /\
    exists b i, w1 = set_blocks b (set_infos i w).
Proof.
  intros Hn Hf. destruct (list_initialize_spec w h Hn) as (w1 & R & Hdll & _ & _ & Ht).
  exists w1. split_and!; [done| | |by apply (touches_frame [h] [])|intros x; by apply (touches_holds_node [h])|by eapply touches_world].
  - eapply dll_frame_node; [|exact Hdll]. intros x _. by apply same_mem_node.
  - intros x Hx. rewrite (same_mem_node w1 (f w1) x) by done.
    apply (touches_get _ _ _ _ _ Ht); [by intros ->%list_elem_of_singleton|apply not_elem_of_nil].
Qed.

Lemma initialize_testing_spec w :
  static_heads w ->
  exists w', initialize_testing w = (Ret tt, w') /\ mocks w' no_expectations /\
    global_last_mock_value_location w' = unset_location /\
    global_last_parameter_location w' = unset_location /\
    raw w' = raw w /\ bytes w' = bytes w /\
    (forall x, is_Some (blocks w !! x ≫= block_node) -> is_Some (blocks w' !! x ≫= block_node)) /\
    (forall x, x ∉ [global_function_result_map_head; global_function_parameter_map_head; global_call_ordering_head] ->
       blocks w' !! x = blocks w !! x /\ infos w' !! x = infos w !! x).
Proof.
  intros Hs. unfold initialize_testing.
  destruct (initialize_head w global_function_result_map_head
    (set_global_last_mock_value_location unset_location)) as (w1 & R1 & D1 & N1 & [_ F1] & S1 & b1 & i1 & E1);
    [apply Hs; by left|done|].
  mrun R1. mrun (set_location_run set_global_last_mock_value_location w1).
  destruct (initialize_head (set_global_last_mock_value_location unset_location w1)
    global_function_parameter_map_head (set_global_last_parameter_location unset_location))
    as (w2 & R2 & D2 & N2 & [_ F2] & S2 & b2 & i2 & E2); [rewrite N1 by done; apply Hs; by right; left|done|].
  mrun R2. mrun (set_location_run set_global_last_parameter_location w2).
  destruct (initialize_head (set_global_last_parameter_location unset_location w2)
    global_call_ordering_head (set_global_last_parameter_location unset_location))
    as (w3 & R3 & D3 & N3 & [_ F3] & S3 & b3 & i3 & E3);
    [rewrite N2, N1 by done; apply Hs; by right; right; left|done|].
  mrun R3. rewrite set_location_run. eexists. split_and!; [done| | |done| | | |].
  - exists [], [], []. split.
    + apply (store_nil holds_return 1). eapply dll_frame_node; [|exact D1].
      intros x ->%list_elem_of_singleton. by rewrite N3, N2.
    + apply (store_nil holds_check 2). eapply dll_frame_node; [|exact D2].
      intros x ->%list_elem_of_singleton. by rewrite N3.
    + by apply (store_nil holds_call 0).
    + exact (bool_decide_unpack (NoDup [16; 48; 80]) I).
  - by rewrite E3, E2, E1.
  - by rewrite E3, E2, E1.
  - by rewrite E3, E2, E1.
  - intros x Hx. apply S3, S2, S1, Hx.
  - intros x Hx. rewrite !not_elem_of_cons in Hx. destruct Hx as (H1 & H2 & H3 & _).
    destruct (F1 x) as [B1 I1], (F2 x) as [B2 I2], (F3 x) as [B3 I3]; [by rewrite list_elem_of_singleton..|].
    split; [exact (eq_trans B3 (eq_trans B2 B1))|exact (eq_trans I3 (eq_trans I2 I1))].
Qed.

(** Teardown empties the stores and frees everything they held, and nothing
    else. *)
Lemma teardown_testing_at w R P C a :
  mocks_at w R P C a ->
  exists w', teardown_testing w = (Ret tt, w') /\ mocks w' no_expectations /\
    (forall x, x ∈ fp 1 R ++ fp 2 P ++ fp 0 C -> gone w' x) /\
    (forall x, x ∉ all_regions R P C ->
       blocks w' !! x = blocks w !! x /\ infos w' !! x = infos w !! x) /\
    heap_kept w w'.
Proof.
  intros Hm. pose proof (m_apart _ _ _ _ _ Hm) as Hap. unfold teardown_testing.
  destruct (store_teardown holds_return 1 w _ R _ (m_R _ _ _ _ _ Hm)) as (w1 & R1 & Hst1 & Hev1 & Hg1 & Hf1).
  mrun R1.
  assert (mocks_at w1 ([] : list (Entry (shape 0))) P C (mkExpectations [] (params a) (calls a))) as Hm1.
  { eapply (mocks_at_R w R P C a); [exact Hm|exact Hst1|exact Hev1|]. left. by left. }
  mrun (set_location_run set_global_last_mock_value_location w1). set (w1' := set_global_last_mock_value_location _ w1).
  assert (mocks_at w1' ([] : list (Entry (shape 0))) P C (mkExpectations [] (params a) (calls a))) as Hm1'
    by (by apply (same_mem_mocks_at w1)).
  destruct (store_teardown holds_check 2 w1' _ P _ (m_P _ _ _ _ _ Hm1')) as (w2 & R2 & Hst2 & Hev2 & Hg2 & Hf2).
  mrun R2.
  assert (mocks_at w2 ([] : list (Entry (shape 0))) ([] : list (Entry (shape 1))) C (mkExpectations [] [] (calls a))) as Hm2.
  { eapply (mocks_at_P w1' _ P C (mkExpectations [] (params a) (calls a))); [exact Hm1'|exact Hst2|exact Hev2|]. left. by left. }
  mrun (set_location_run set_global_last_parameter_location w2). set (w2' := set_global_last_parameter_location _ w2).
  assert (mocks_at w2' ([] : list (Entry (shape 0))) ([] : list (Entry (shape 1))) C (mkExpectations [] [] (calls a))) as Hm2'
    by (by apply (same_mem_mocks_at w2)).
  destruct (store_teardown holds_call 0 w2' _ C _ (m_C _ _ _ _ _ Hm2')) as (w3 & R3 & Hst3 & Hev3 & Hg3 & Hf3).
  mrun R3. rewrite set_location_run. eexists. split; [done|].
  assert (forall X u u' x, mem_frame X u u' -> (x ∉ X) -> gone u x -> gone u' x) as Hkeep
    by (intros; by eapply gone_frame).
  unfold all_regions. apply NoDup_app in Hap as (_ & Hd1 & (_ & Hd2 & _)%NoDup_app).
  split_and!.
  - exists [], [], []. apply (same_mem_mocks_at w3); [done|].
    eapply (mocks_at_C w2' _ _ C (mkExpectations [] [] (calls a))); [exact Hm2'|exact Hst3|exact Hev3|]. left. by left.
  - intros x Hx. assert (gone w3 x) as [G1 G2]; [|split; [exact G1|exact G2]].
    apply elem_of_app in Hx as [Hx|[Hx|Hx]%elem_of_app]; [| |by apply Hg3].
    + assert (x ∉ (global_function_parameter_map_head :: fp 2 P) ++ (global_call_ordering_head :: fp 0 C))
        as Hno by (apply Hd1; by right).
      apply (Hkeep _ w2' _ _ Hf3); [intros Hin; apply Hno, elem_of_app; by right|].
      apply (Hkeep _ w1' w2 _ Hf2); [intros Hin; apply Hno, elem_of_app; by left|]. by apply Hg1.
    + apply (Hkeep _ w2' _ _ Hf3); [apply Hd2; by right|]. by apply Hg2.
  - intros x Hx. rewrite !not_elem_of_app in Hx. destruct Hx as (HxR & HxP & HxC).
    destruct Hf1 as [_ Hf1], Hf2 as [_ Hf2], Hf3 as [_ Hf3].
    destruct (Hf1 x HxR) as [B1 I1], (Hf2 x HxP) as [B2 I2], (Hf3 x HxC) as [B3 I3].
    split; [exact (eq_trans B3 (eq_trans B2 B1))|exact (eq_trans I3 (eq_trans I2 I1))].
  - transitivity w1; [eapply store_heap_kept; [apply (m_R _ _ _ _ _ Hm)|done..]|].
    transitivity w1'; [done|]. transitivity w2; [eapply store_heap_kept; [apply (m_P _ _ _ _ _ Hm1')|done..]|].
    transitivity w2'; [done|]. transitivity w3; [eapply store_heap_kept; [apply (m_C _ _ _ _ _ Hm2')|done..]|]. done.
Qed.
End proofs.
