(* ===== verification/DoubleFree.v ===== *)
(** * Freeing a value twice

    What becomes of a mock value that [_mock] frees because of its type while
    it is still in the store: [teardown_testing] frees it again. *)
From S2P Require Import Prelude CMonad ListNode World Report Memory SymbolMap Tree SymbolTree Mock MockSpec MockProofs.

Section double_free.
Context `{!Platform, !PlatformLaws}.
Implicit Types (w : World) (h p v : ptr).

(** The counterpart of [cleans]: the cleanup of [X] runs into undefined
    behaviour, in every memory which agrees with [w] on it. *)
Definition breaks w (f : CM unit) (X : list ptr) : Prop :=
  forall w0, agree X w w0 -> exists w1, f w0 = (Undef, w1).

Lemma breaks_agree w w' f X : agree X w w' -> breaks w f X -> breaks w' f X.
Proof.
  intros Ha Hb w0 Ha'. apply Hb. intros x Hx. destruct (Ha' x Hx) as [-> ->], (Ha x Hx) as [-> ->]. done.
Qed.

Lemma bind_undef {A B} (m : CM A) (k : A -> CM B) w w' : m w = (Undef, w') -> (m ≫= k) w = (Undef, w').
Proof. intros R. by rewrite bind_eq, R. Qed.

(** ** Lists *)

(** The loop frees the cells before the one that breaks. *)
Lemma list_free_loop_breaks (f : ptr -> CM unit) a v r X ccs2 ccs1 : forall w h fuel,
  dll w h (ccs1 ++ (a, v, r, X) :: ccs2).*1 -> Forall (fun c => owned w (cell_addr c.1) = true) ccs1 ->
  NoDup (h :: footprint (ccs1 ++ (a, v, r, X) :: ccs2)) ->
  Forall (fun c => cleans w (f c.1.1.2) c.2) ccs1 -> breaks w (f v) X -> (length ccs1 < fuel)%nat ->
  exists w', list_free_loop fuel h (Some f) w = (Undef, w').
Proof.
  induction ccs1 as [|[ [ [a1 v1] r1] X1] ccs1 IH]; intros w h [|fuel] Hdll Ho Hnd Hc Hb Hfuel; simpl in Hfuel; try lia;
    cbn [list_free_loop]; mrun (list_empty_run w h _ Hdll); rewrite bool_decide_false by done;
    mrun (dll_next_first w h _ _ _ _ Hdll).
  - destruct (list_remove_unlink w h [] a v r ccs2.*1 Hdll) as (w1 & _ & Hr & _ & _ & Ht).
    assert (is_Some (get_node w a)) as Ha by (eapply dll_cell; [exact Hdll|by left]).
    change (NoDup (h :: a :: X ++ footprint ccs2)) in Hnd.
    destruct (Hb w1) as (w2 & R2).
    { eapply touches_agree; [exact Ht|]. intros x Hx. split; [|apply not_elem_of_nil].
      pose proof (footprint_addrs ccs2 x) as Hfp. change (x ∉ h :: a :: addrs ccs2.*1).
      apply NoDup_cons in Hnd as [Hh [Ha' (_ & Hd & _)%NoDup_app]%NoDup_cons]. set_solver. }
    exists w2. apply bind_undef. unfold list_remove_free. mrun (assert_non_null_node 691 w a Ha).
    apply bind_undef. rewrite Hr. by apply bind_undef.
  - apply Forall_cons in Ho as [Hoa Ho]. apply Forall_cons in Hc as [Hca Hc].
    destruct (list_free_step w h f a1 v1 r1 X1 (ccs1 ++ (a, v, r, X) :: ccs2) Hdll Hoa Hnd Hca)
      as (w1 & R1 & Hdll1 & _ & _ & _ & Hf1 & Ho1). mrun R1.
    change (NoDup (h :: a1 :: X1 ++ footprint (ccs1 ++ (a, v, r, X) :: ccs2))) in Hnd.
    apply NoDup_cons in Hnd as [Hh Hnd]. apply NoDup_cons in Hnd as [Ha Hnd]. apply NoDup_app in Hnd as (_ & _ & Hnd).
    assert (forall c, c ∈ ccs1 ++ (a, v, r, X) :: ccs2 -> agree c.2 w w1) as Hag.
    { intros c Hc' x Hx. pose proof Hc' as (l1 & l2 & E)%list_elem_of_split. rewrite E in Hf1, Ho1, Hnd.
      assert (x ∈ footprint (l1 ++ c :: l2)) as Hx' by (unfold footprint; rewrite bind_app, bind_cons; set_solver).
      split; [|by apply Ho1]. apply Hf1; [done|]. intros Hxa. by eapply footprint_disjoint_addrs. }
    apply (IH w1 h fuel Hdll1).
    + rewrite Forall_forall in Ho |- *. intros c Hin. rewrite Ho1; [by apply Ho|].
      apply footprint_addrs. unfold addrs. do 2 apply list_elem_of_fmap_2. set_solver.
    + apply NoDup_cons. split; [set_solver|done].
    + rewrite Forall_forall in Hc |- *. intros c Hin. eapply cleans_agree; [|by apply Hc]. apply Hag. set_solver.
    + eapply breaks_agree; [|exact Hb]. apply (Hag (a, v, r, X)). set_solver.
    + lia.
Qed.

Lemma list_free_breaks (f : ptr -> CM unit) a v r X ccs2 ccs1 w h :
  dll w h (ccs1 ++ (a, v, r, X) :: ccs2).*1 -> Forall (fun c => owned w (cell_addr c.1) = true) ccs1 ->
  NoDup (h :: footprint (ccs1 ++ (a, v, r, X) :: ccs2)) ->
  Forall (fun c => cleans w (f c.1.1.2) c.2) ccs1 -> breaks w (f v) X ->
  exists w', list_free h (Some f) w = (Undef, w').
Proof.
  intros Hdll Ho Hnd Hc Hb. unfold list_free. mrun (assert_non_null_node 705 w h (dll_head_node w h _ Hdll)). mprim.
  destruct (list_free_loop_breaks f a v r X ccs2 ccs1 w h (S (node_bound w)) Hdll Ho Hnd Hc Hb) as (w' & R).
  { pose proof (dll_fuel w h _ Hdll). rewrite length_fmap, length_app in *. lia. }
  exists w'. by apply bind_undef.
Qed.

(** ** Stores *)

Lemma free_value_breaks w v : v <> NULL -> owned w v = false -> breaks w (free_value v) [v].
Proof.
  intros Hv Ho w0 Ha. destruct (Ha v) as [_ Ho0]; [by left|]. exists w0. unfold free_value.
  mrun (assert_non_null_ok w0 753 v Hv). unfold free. by rewrite (proj2 (Z.eqb_neq _ _) Hv), Ho0, Ho.
Qed.

Lemma free_smv_breaks k w p X :
  p <> NULL -> (forall w0, agree X w w0 -> exists w', list_free p (Some (cleanup k)) w0 = (Undef, w')) ->
  breaks w (free_symbol_map_value k p) X.
Proof.
  intros Hp Hfree w0 Ha. destruct (Hfree w0 Ha) as (w' & R). exists w'.
  assert (free_symbol_map_value k p w0 = (assert_non_null 763 p;; list_free p (Some (cleanup k));; free p) w0) as -> by by destruct k.
  mrun (assert_non_null_ok w0 763 p Hp). by apply bind_undef.
Qed.

(** What the cleanup of one entry of a shape frees. *)
Lemma entry_cleans k w (e : Entry (shape k)) :
  rep k w (e_map e) (e_sub e) -> owned w (e_map e) = true -> NoDup (e_map e :: fp k (e_sub e)) ->
  cleans w (free_symbol_map_value k (e_map e)) (e_map e :: fp k (e_sub e)).
Proof.
  intros Hr Ho Hnd. apply free_smv_cleans; [|done|done|by apply NoDup_cons in Hnd as [? _] ].
  intros w0 Hr0. destruct (free_shape_spec k w0 _ _ Hr0 Hnd) as (w' & ? & _ & _ & ? & ?). by exists w'.
Qed.

(** A shape of which one value, [v], is not allocated in [w']. *)
Definition lacks n w w' h (t : shape n) v : Prop :=
  (forall x, x ∈ h :: fp n t -> x <> v -> get_node w' x = get_node w x /\ owned w' x = owned w x) /\ owned w' v = false.

Lemma lacks_dll n w w' h (t : shape n) v :
  rep n w h t -> NoDup (h :: fp n t) -> v ∈ values n t -> lacks n w w' h t v -> dll w' h (cells t).
Proof.
  intros Hr Hnd Hv [Ha _]. eapply dll_frame_node; [|by eapply rep_cells]. intros x Hx.
  pose proof (values_not_spine n h t v Hnd Hv) as Hout. apply Ha.
  - apply elem_of_cons in Hx as [->|Hx]; [by left|]. right. by apply cells_fp.
  - intros ->. apply Hout. apply elem_of_cons in Hx as [->|Hx]; [by left|]. right. by apply cells_spine.
Qed.

(** Freeing the shape runs into the value: of a list of values, *)
Lemma list_free_lacking_values w w' h (t : shape 0) v :
  rep 0 w h t -> NoDup (h :: fp 0 t) -> v ∈ values 0 t -> v <> NULL -> lacks 0 w w' h t v ->
  exists w'', list_free h (Some (cleanup 0)) w' = (Undef, w'').
Proof.
  intros Hr Hnd Hv Hvz Hl. pose proof (lacks_dll _ _ _ _ _ _ Hr Hnd Hv Hl) as Hdll.
  rewrite <-cell_footprints_cells in Hdll. pose proof Hnd as Hnd'.
  rewrite <-cell_footprints_fp in Hnd'. destruct Hr as [_ Ho], Hl as [Ha Hlv].
  apply list_elem_of_fmap in Hv as ([ [a v'] r] & -> & Hc). cbn [cell_value fst snd] in *.
  apply list_elem_of_split in Hc as (t1 & t2 & ->). cbn [cell_footprints] in *. rewrite fmap_app, fmap_cons in Hdll, Hnd'.
  rewrite Forall_app in Ho. destruct Ho as [Ho1 _]. rewrite Forall_forall in Ho1.
  assert (forall c, c ∈ t1 -> owned w' (cell_addr c) = true /\ owned w' (cell_value c) = true) as Hown.
  { intros c Hc. destruct (Ho1 c Hc) as [H1 H2]. apply NoDup_cons in Hnd as [_ Hnd]. cbn [fp] in Hnd, Ha.
    rewrite bind_app, bind_cons in Hnd, Ha. apply NoDup_app in Hnd as (_ & Hd & _).
    assert (forall x, x ∈ [cell_addr c; cell_value c] -> owned w' x = owned w x) as Hx.
    { intros x Hx. assert (x ∈ t1 ≫= fun c => [cell_addr c; cell_value c]) as Hin by (apply list_elem_of_bind; eauto).
      apply Ha; [right; apply elem_of_app; by left|]. intros ->. apply (Hd _ Hin). right. by left. }
    by rewrite !Hx by set_solver. }
  eapply (list_free_breaks free_value a v' r [v']); [exact Hdll| |exact Hnd'| |by apply free_value_breaks];
    apply Forall_forall; intros x (c & -> & Hc)%list_elem_of_fmap; [by apply Hown|by apply free_value_cleans, Hown].
Qed.

(** of a list of entries, if it does so for the list of each entry, *)
Lemma list_free_lacking_entries k w w' h (t : shape (S k)) v :
  (forall w1 (e : Entry (shape k)), rep k w (e_map e) (e_sub e) -> NoDup (e_map e :: fp k (e_sub e)) ->
     v ∈ values k (e_sub e) -> lacks k w w1 (e_map e) (e_sub e) v ->
     exists w'', list_free (e_map e) (Some (cleanup k)) w1 = (Undef, w'')) ->
  rep (S k) w h t -> NoDup (h :: fp (S k) t) -> v ∈ values (S k) t -> lacks (S k) w w' h t v ->
  exists w'', list_free h (Some (cleanup (S k))) w' = (Undef, w'').
Proof.
  intros IH Hr Hnd Hv Hl. pose proof (lacks_dll _ _ _ _ _ _ Hr Hnd Hv Hl) as Hdll.
  rewrite <-cell_footprints_cells in Hdll. pose proof Hnd as Hnd'.
  rewrite <-cell_footprints_fp in Hnd'. destruct Hr as [_ Ho], Hl as [Ha Hlv].
  apply list_elem_of_bind in Hv as (e & Hve & He). apply list_elem_of_split in He as (t1 & t2 & ->).
  cbn [cell_footprints] in *. rewrite fmap_app, fmap_cons in Hdll, Hnd'. rewrite Forall_app, Forall_cons in Ho.
  destruct Ho as (Ho1 & (_ & Hoe & Hre) & _). rewrite Forall_forall in Ho1.
  apply NoDup_cons in Hnd as [_ Hnd]. rewrite fp_app, fp_cons in Hnd, Ha.
  apply NoDup_app in Hnd as (Hnd1 & Hd & Hnd2). rewrite !NoDup_cons in Hnd2. destruct Hnd2 as (_ & Hme & Hnd2).
  apply NoDup_app in Hnd2 as (Hnde & _ & _).
  assert (NoDup (e_map e :: fp k (e_sub e))) as Hndm by (apply NoDup_cons; split; [set_solver|done]).
  assert (forall c, c ∈ t1 -> agree (e_node c :: e_map c :: fp k (e_sub c)) w w') as Hag.
  { intros c Hc x Hx. pose proof (fp_entry k t1 c x Hc Hx) as Hin. apply Ha; [right; apply elem_of_app; by left|].
    intros ->. apply (Hd _ Hin). do 2 right. apply elem_of_app. left. by apply values_fp. }
  eapply (list_free_breaks (free_symbol_map_value k) (e_node e) (e_map e) 1 (e_map e :: fp k (e_sub e))); [exact Hdll| |exact Hnd'| |].
  - apply Forall_forall. intros x (c & -> & Hc)%list_elem_of_fmap. cbn.
    destruct (Hag c Hc (e_node c)) as [_ ->]; [by left|]. by apply Ho1.
  - apply Forall_forall. intros x (c & -> & Hc)%list_elem_of_fmap. cbn. destruct (Ho1 c Hc) as (H1 & H2 & H3).
    pose proof (NoDup_fp_sub k t1 c Hnd1 Hc) as [_ Hndc]%NoDup_cons. apply entry_cleans; [|by destruct (Hag c Hc (e_map c)) as [_ ->]; [set_solver|]|done].
    eapply rep_agree; [|exact H3]. intros x Hx. apply (Hag c Hc). by right.
  - apply free_smv_breaks; [by eapply owned_heap|]. intros w0 Ha0.
    apply (IH w0 e Hre Hndm Hve). split.
    + intros x Hx Hxv. destruct (Ha0 x Hx) as [-> ->]. apply Ha; [|done]. right. apply elem_of_app. right. right.
      apply elem_of_cons in Hx as [->|Hx]; [by left|right; apply elem_of_app; by left].
    + destruct (Ha0 v) as [_ ->]; [|done]. right. by apply values_fp.
Qed.

(** of any shape. *)
Lemma list_free_lacking n : forall w w' h (t : shape n) v,
  rep n w h t -> NoDup (h :: fp n t) -> v ∈ values n t -> lacks n w w' h t v ->
  exists w'', list_free h (Some (cleanup n)) w' = (Undef, w'').
Proof.
  induction n as [|k IH]; intros w w' h t v Hr Hnd Hv Hl.
  - eapply list_free_lacking_values; [exact Hr|done..| |exact Hl].
    by eapply owned_heap, rep_owned, values_fp.
  - eapply list_free_lacking_entries; [|exact Hr|done..|exact Hl]. intros w1 e. apply IH.
Qed.

(** Teardown frees the value again. *)
Lemma dangling_teardown w w' : dangling w -> same_mem w w' -> exists w'', teardown_testing w' = (Undef, w'').
Proof.
  intros (w0 & R & v & Hr & Hnd & Hv & Hs) Hs'.
  assert (forall x, get_node w' x = get_node (drop v w0) x /\ owned w' x = owned (drop v w0) x) as Hx.
  { intros x. destruct Hs as [Hb Hi], Hs' as [Hb' Hi'].
    destruct (frame_obs (drop v w0) w' x) as (? & ? & _); [congruence..|done]. }
  destruct (list_free_lacking 1 w0 w' global_function_result_map_head R v Hr Hnd Hv) as (w'' & E).
  { split.
    - intros x _ Hne. destruct (Hx x) as [-> ->]. by rewrite get_drop, owned_drop, !decide_False by done.
    - destruct (Hx v) as [_ ->]. by rewrite owned_drop, decide_True by done. }
  exists w''. unfold teardown_testing. apply bind_undef. exact E.
Qed.

(** [_mock] for a function whose next value has another name fails the test
    and frees the value; if it was the value's last use, the stores hold what is
    left, but otherwise the value is still queued, and [teardown_testing] frees
    it again, whatever the rest of the world is. *)
Lemma mock_mismatch_frees_twice w a f loc line_ n sv c q :
  mocks w a -> refcounts_ok 1 (returns a) -> tree_get 1 [f] (returns a) = Some (c, sv, q) -> c <> 0 ->
  sv_name sv <> Some n ->
  exists w', _mock f loc line_ (Some n) w = (exit_outcome w, w') /\ kept w w' /\
    (c = 1 -> mocks w' (mkExpectations q (params a) (calls a))) /\
    (c <> 1 -> forall w1, same_mem w' w1 -> exists w'', teardown_testing w1 = (Undef, w'')).
Proof.
  intros Hm Hrc Hget Hc Hn.
  destruct (mock_mismatch_spec w a f loc line_ (Some n) c sv q Hm Hrc Hget Hc) as (w' & R & Hlast & Hk & Hagain).
  { cbn. by apply bool_decide_eq_false. }
  exists w'. split_and!; [exact R|apply Hk..|exact Hlast|].
  intros Hne w1 Hs. apply (dangling_teardown w' w1); [by apply Hagain|done].
Qed.
End double_free.
