(* ===== verification/ParamProofs.v ===== *)
(** * Expected parameters in the store

    Declaring a check adds it to the store of expected parameters, and
    [_check_expected] takes the next one and applies it. *)
From S2P Require Import Prelude CMonad ListNode World Report Memory SymbolMap Tree SymbolTree SymbolGet SymbolAdd SymbolRemove SymbolLeftover Mock FloatCompare Compare Checks Asserts CompareProofs CheckSpec MockSpec MockProofs.

Definition add_param (f p : string) (b : Block) (count : Z) (a : expectations) : expectations :=
  mkExpectations (returns a) (tree_add 2 [f; p] b count (params a)) (calls a).

Section proofs.
Context `{!Platform, !PlatformLaws}.
Implicit Types (w : World) (a : expectations) (f p : string) (x : ptr).

(** A structure outside the stores. *)
Record outside w R P C a x (b : Block) : Prop := {
  out_mocks : mocks_at w R P C a;
  out_region : x ∉ all_regions R P C;
  out_block : lookup_block w x = Some b;
  out_owned : owned w x = true;
}.

Lemma outside_put w R P C a x b0 b :
  outside w R P C a x b0 ->
  exists w', store_block x b w = (Ret tt, w') /\ outside w' R P C a x b /\ typed_only w w'.
Proof.
  intros [Hm Hx Hl Ho]. destruct (owned_heap w x Ho) as [Hp _].
  assert (HEAP_START <= x) as Hs.
  { unfold owned, world_heap, world_owned in Ho. apply andb_true_iff in Ho as [Ho _]. lia. }
  destruct (set_block_obs w x b Hp Hs) as [Hl' Ho'].
  exists (set_blocks (<[x := b]> (blocks w)) w). split_and!; [done| |].
  2:{ eapply frame_typed; [by apply set_block_frame|]. intros y ->%list_elem_of_singleton. by apply owned_harmless. }
  split; [|done..]. eapply mocks_at_frame; [by apply set_block_frame| |done].
  by intros y Hy ->%list_elem_of_singleton.
Qed.

Lemma outside_alloc `{!PlatformTotal} w R P C a size b :
  mocks_at w R P C a ->
  exists x w', malloc_block size b w = (Ret x, w') /\ x <> NULL /\ outside w' R P C a x b /\
    typed_only w w' /\ x = plat_malloc w size.
Proof.
  intros Hm. destruct (alloc_run size b w) as (x & Ha & Hf).
  destruct (fresh_obs w x Hf) as (_ & _ & Hx). pose proof Hf as [Hs _].
  exists x, (set_blocks (<[x := b]> (blocks w)) w).
  destruct (set_block_obs w x b Hx Hs) as [Hl Ho]. split_and!; [by unfold malloc_block; rewrite Ha|done| | |].
  - split; [|by eapply mocks_at_fresh|done|done].
    eapply mocks_at_frame; [by apply set_block_frame| |done].
    intros y Hy ->%list_elem_of_singleton. by eapply mocks_at_fresh.
  - eapply frame_typed; [by apply set_block_frame|]. intros y ->%list_elem_of_singleton. by apply fresh_harmless.
  - unfold alloc_block in Ha. destruct (_ =? NULL); by injection Ha.
Qed.

(** Registering a structure. *)
Lemma expect_check_registers `{!PlatformTotal} w R P C a x b0 b f p loc lno fn data count :
  outside w R P C a x b0 -> with_event (mkCheckParameterEvent (mkSourceLocation loc lno) p fn data) b0 = Some b ->
  is_event b = true -> self_data x b ->
  exists w', _expect_check f p loc lno fn data x count w = (Ret tt, w') /\
    mocks w' (add_param f p b count a) /\ typed_only w w'.
Proof.
  intros Ho Hw He Hself. pose proof (out_block _ _ _ _ _ _ _ Ho) as Hl.
  assert (x <> NULL) as Hx by by intros ->.
  unfold _expect_check. rewrite (proj2 (Z.eqb_neq _ _) Hx). cbn [negb]. mprim.
  mrun (assert_non_null_ok w 1169 x Hx).
  assert (load_block x w = (Ret b0, w)) as Rl by by apply deref_run. mrun Rl.
  assert (forall A (k : Block -> CM A), (b ← deref (fun _ => with_event
    (mkCheckParameterEvent (mkSourceLocation loc lno) p fn data) b0); k b) w = k b w) as Rd.
  { intros A k. by rewrite (bind_run _ _ w b w) by by apply deref_run. }
  rewrite Rd. destruct (outside_put w R P C a x b0 b Ho) as (w1 & R1 & [Hm1 Hx1 Hl1 Ho1] & Ht1).
  mrun R1.
  destruct (store_add _ holds_check_local 1 [f; p] w1 global_function_parameter_map_head P (params a) x
    b count (m_P _ _ _ _ _ Hm1) eq_refl) as (w2 & P' & R2 & Hst & Hev); [done| |done|].
  { intros Hin. apply Hx1. unfold all_regions. rewrite !elem_of_app. by right; left. }
  exists w2. split_and!; [exact R2| |].
  - exists R, P', C. eapply mocks_at_P; [exact Hm1|exact Hst|exact Hev|]. right.
    intros [Hin|Hin]%elem_of_app; apply Hx1, elem_of_app; [by left|right].
    apply elem_of_app. by right.
  - etrans; [exact Ht1|]. eapply evolves_typed; [apply (m_P _ _ _ _ _ Hm1)|done..|exact Hev].
Qed.

(** Registering a plain event. *)
Lemma expect_check_plain `{!PlatformTotal} w a f p loc lno fn data count :
  mocks w a ->
  exists w', _expect_check f p loc lno fn data NULL count w = (Ret tt, w') /\
    mocks w' (add_param f p
      (BCheckParameterEvent (mkCheckParameterEvent (mkSourceLocation loc lno) p fn data)) count a) /\
    typed_only w w'.
Proof.
  intros (R & P & C & Hm).
  destruct (outside_alloc w R P C a SIZEOF_CHECKPARAMETEREVENT (BCheckParameterEvent junk_event) Hm)
    as (x & w1 & R1 & Hx & Ho & Ht & _).
  destruct (expect_check_registers w1 R P C a x _ _ f p loc lno fn data count Ho eq_refl eq_refl I)
    as (w2 & R2 & Hm2 & Ht2).
  exists w2. split_and!; [|done|by etrans].
  rewrite <-R2. unfold _expect_check. rewrite (proj2 (Z.eqb_neq _ _) Hx).
  cbn [NULL Z.eqb negb]. mrun R1. done.
Qed.

(** The address malloc() returns fits in 64 bits. *)
Definition address_ok w (size_ : Z) : Prop := plat_malloc w size_ < 2 ^ 64.

Lemma self_pointer w R P C a x b :
  outside w R P C a x b -> x < 2 ^ 64 -> val_ptr x = x.
Proof.
  intros [_ _ _ Ho] Hx. unfold owned, world_heap, world_owned, HEAP_START in Ho.
  apply andb_true_iff in Ho as [Ho _]. apply to_u64_small. lia.
Qed.

(** The structure of a range check. *)
Definition range_block x p loc lno fn lo hi : Block :=
  BCheckIntegerRange (mkCheckIntegerRange
    (mkCheckParameterEvent (mkSourceLocation loc lno) p fn x) lo hi).

Lemma expect_range_spec `{!PlatformTotal} w a f p loc lno lo hi fn count :
  mocks w a -> address_ok w SIZEOF_CHECKINTEGERRANGE ->
  exists x w', expect_range f p loc lno lo hi fn count w = (Ret tt, w') /\
    mocks w' (add_param f p (range_block x p loc lno fn lo hi) count a) /\ typed_only w w'.
Proof.
  intros (R & P & C & Hm) Haddr. unfold expect_range.
  destruct (outside_alloc w R P C a SIZEOF_CHECKINTEGERRANGE
    (BCheckIntegerRange (mkCheckIntegerRange junk_event 0 0)) Hm) as (x & w1 & R1 & Hx & Ho & Ht & Hxa).
  mrun R1. assert (load_block x w1 = (Ret _, w1)) as Rl by (apply deref_run; apply Ho). mrun Rl.
  destruct (outside_put w1 R P C a x _ (BCheckIntegerRange (mkCheckIntegerRange junk_event lo hi)) Ho)
    as (w2 & R2 & Ho2 & Ht2). mrun R2.
  destruct (expect_check_registers w2 R P C a x _ (range_block x p loc lno fn lo hi)
    f p loc lno fn x count Ho2 eq_refl eq_refl) as (w3 & R3 & Hm3 & Ht3).
  { eapply self_pointer; [exact Ho2|]. by rewrite Hxa. }
  exists x, w3. split_and!; [done..|]. etrans; [|exact Ht3]. by etrans.
Qed.

(** The structure of a set check. *)
Definition set_block x p loc lno fn set n : Block :=
  BCheckIntegerSet (mkCheckIntegerSet
    (mkCheckParameterEvent (mkSourceLocation loc lno) p fn x) set n).

Lemma fill_set_spec `{!PlatformTotal} w R P C a x f p loc lno values n fn count :
  outside w R P C a x junk_set -> x < 2 ^ 64 -> n <= Z.of_nat (length values) ->
  exists w', fill_set f p loc lno x (Some values) n fn count w = (Ret tt, w') /\
    mocks w' (add_param f p (set_block x p loc lno fn (take (Z.to_nat n) values) n) count a) /\
    typed_only w w'.
Proof.
  intros Ho Hx Hn. unfold fill_set.
  assert (load_block x w = (Ret junk_set, w)) as Rl by (apply deref_run; apply Ho). mrun Rl.
  assert (array_take n (Some values) w = (Ret (take (Z.to_nat n) values), w)) as Ra.
  { apply deref_run. cbn. by rewrite (proj2 (Z.leb_le _ _) Hn). } mrun Ra.
  destruct (outside_put w R P C a x _
    (BCheckIntegerSet (mkCheckIntegerSet junk_event (take (Z.to_nat n) values) n)) Ho)
    as (w2 & R2 & Ho2 & Ht2). mrun R2.
  destruct (expect_check_registers w2 R P C a x _ (set_block x p loc lno fn (take (Z.to_nat n) values) n)
    f p loc lno fn x count Ho2 eq_refl eq_refl) as (w3 & R3 & Hm3 & Ht3).
  { by eapply self_pointer. }
  exists w3. split_and!; [done..|]. by etrans.
Qed.

Lemma expect_set_spec `{!PlatformTotal} w a f p loc lno values n fn count :
  mocks w a -> address_ok w (to_u64 (SIZEOF_CHECKINTEGERSET + SIZEOF_UINTMAX * n)) ->
  0 < n <= Z.of_nat (length values) ->
  exists x w', expect_set f p loc lno (Some values) n fn count w = (Ret tt, w') /\
    mocks w' (add_param f p (set_block x p loc lno fn (take (Z.to_nat n) values) n) count a) /\
    typed_only w w'.
Proof.
  intros (R & P & C & Hm) Haddr Hn. unfold expect_set.
  destruct (outside_alloc w R P C a (to_u64 (SIZEOF_CHECKINTEGERSET + SIZEOF_UINTMAX * n)) junk_set Hm)
    as (x & w1 & R1 & Hx & Ho & Ht & Hxa). mrun R1.
  assert (assert_non_null_array 1849 (Some values) w1 = (Ret tt, w1)) as Rv by by apply assert_non_null_ok.
  mrun Rv. rewrite (proj2 (Z.eqb_neq _ _)) by lia. mrun (assert_true_ok w1 1850 "number_of_values").
  destruct (fill_set_spec w1 R P C a x f p loc lno values n fn count Ho) as (w2 & R2 & Hm2 & Ht2);
    [by rewrite Hxa|lia|].
  exists x, w2. split_and!; [done..|]. by etrans.
Qed.

(** [calloc] of the structure of an integer set. *)
Definition set_bytes_of (n : Z) : Z := n * (SIZEOF_CHECKINTEGERSET + SIZEOF_UINTMAX).

Lemma calloc_set_run `{!PlatformTotal} w R P C a n :
  mocks_at w R P C a -> set_bytes_of n <= SIZE_MAX -> address_ok w (set_bytes_of n) ->
  exists x w', calloc_set n w = (Ret x, w') /\ x <> NULL /\ outside w' R P C a x junk_set /\
    typed_only w w' /\ x < 2 ^ 64.
Proof.
  intros Hm Hn Haddr. unfold calloc_set. fold (set_bytes_of n). rewrite (proj2 (Z.ltb_ge _ _) Hn).
  destruct (outside_alloc w R P C a (set_bytes_of n) junk_set Hm) as (x & w1 & R1 & Hx & Ho & Ht & Hxa).
  exists x, w1. split_and!; [done..|]. by rewrite Hxa.
Qed.

(** The two declarations of an integer set. *)
Lemma expect_integer_set_spec `{!PlatformTotal} w a f p loc lno values n count :
  mocks w a -> set_bytes_of n <= SIZE_MAX -> address_ok w (set_bytes_of n) ->
  0 < n <= Z.of_nat (length values) ->
  forall signed : bool, exists x w',
    (if signed then __expect_int_in_set f p loc lno (Some values) n Check_int_in_set count
     else __expect_uint_in_set f p loc lno (Some values) n Check_uint_in_set count) w = (Ret tt, w') /\
    mocks w' (add_param f p (set_block x p loc (to_s32 lno) (if signed then Check_int_in_set else Check_uint_in_set)
                               (take (Z.to_nat n) values) n) (to_s32 count) a) /\
    typed_only w w'.
Proof.
  intros (R & P & C & Hm) Hs Haddr Hn signed.
  destruct (calloc_set_run w R P C a n Hm Hs Haddr) as (x & w1 & R1 & Hx & Ho & Ht & Hxa).
  assert (forall l, assert_non_null_array l (Some values) w1 = (Ret tt, w1)) as Rv
    by (intros l; by apply assert_non_null_ok).
  destruct (fill_set_spec w1 R P C a x f p loc (to_s32 lno) values n
         (if signed then Check_int_in_set else Check_uint_in_set) (to_s32 count) Ho Hxa) as (w2 & R2 & Hm2 & Ht2); [lia|].
  exists x, w2. split_and!; [|exact Hm2|by etrans]. destruct signed.
  - unfold __expect_int_in_set. mrun R1. mrun (assert_non_null_ok w1 1874 x Hx). mrun (Rv 1875).
    rewrite (proj2 (Z.eqb_neq n 0)) by lia. by mrun (assert_true_ok w1 1876 "number_of_values").
  - unfold __expect_uint_in_set. mrun R1. mrun (assert_non_null_ok w1 1908 x Hx). mrun (Rv 1909).
    rewrite (proj2 (Z.eqb_neq n 0)) by lia. by mrun (assert_true_ok w1 1910 "number_of_values").
Qed.

(** The check of a whole array. *)
Lemma set_check_passes m x p loc lno set value :
  let n := Z.of_nat (length set) in
  let block fn := set_block x p loc lno fn (take (Z.to_nat n) set) n in
  check_passes m (block Check_int_in_set) value = Some (bool_decide (int_val value ∈ set)) /\
  check_passes m (block Check_uint_in_set) value = Some (bool_decide (uint_val value ∈ set)) /\
  check_passes m (block Check_not_in_set) value = Some (bool_decide (uint_val value ∉ set)).
Proof.
  cbv zeta. rewrite Nat2Z.id, take_ge by done. cbn -[take]. rewrite Z.leb_refl, Nat2Z.id, take_ge by done. done.
Qed.

(** The structure of a memory check holds a copy of the expected bytes. *)
Definition memory_block x p loc lno fn l n : Block :=
  BCheckMemoryData (mkCheckMemoryData (mkCheckParameterEvent (mkSourceLocation loc lno) p fn x) l n).

Lemma expect_memory_spec `{!PlatformTotal} w a f p loc lno memory n l fn count :
  mocks w a -> address_ok w (to_u64 (SIZEOF_CHECKMEMORYDATA + n)) -> memory <> NULL -> n <> 0 ->
  read_bytes (bytes w) memory (Z.to_nat n) = Some l ->
  exists x w', expect_memory_setup f p loc lno memory n fn count w = (Ret tt, w') /\
    mocks w' (add_param f p (memory_block x p loc lno fn l n) count a) /\ typed_only w w'.
Proof.
  intros (R & P & C & Hm) Haddr Hmem Hn Hl. unfold expect_memory_setup.
  destruct (outside_alloc w R P C a (to_u64 (SIZEOF_CHECKMEMORYDATA + n))
    (BCheckMemoryData (mkCheckMemoryData junk_event [] 0)) Hm) as (x & w1 & R1 & Hx & Ho & Ht & Hxa).
  mrun R1. mrun (assert_non_null_ok w1 2143 memory Hmem). rewrite (proj2 (Z.eqb_neq _ _) Hn).
  mrun (assert_true_ok w1 2144 "size").
  assert (load_block x w1 = (Ret _, w1)) as Rl by (apply deref_run; apply Ho). mrun Rl.
  assert (load_bytes memory n w1 = (Ret l, w1)) as Rm.
  { apply deref_run. by rewrite (typed_only_bytes w w1). } mrun Rm.
  destruct (outside_put w1 R P C a x _ (BCheckMemoryData (mkCheckMemoryData junk_event l n)) Ho)
    as (w2 & R2 & Ho2 & Ht2). mrun R2.
  destruct (expect_check_registers w2 R P C a x _ (memory_block x p loc lno fn l n)
    f p loc lno fn x count Ho2 eq_refl eq_refl) as (w3 & R3 & Hm3 & Ht3).
  { eapply self_pointer; [exact Ho2|]. by rewrite Hxa. }
  exists x, w3. split_and!; [done..|]. etrans; [|exact Ht3]. by etrans.
Qed.

Lemma memory_check_passes m x p loc lno l l' n q :
  n = Z.of_nat (length l) -> read_bytes m (val_ptr q) (length l) = Some l' ->
  check_passes m (memory_block x p loc lno Check_memory l n) q = Some (bool_decide (l' = l)) /\
  check_passes m (memory_block x p loc lno Check_not_memory l n) q = Some (bool_decide (l' <> l)).
Proof.
  intros -> Hq. cbn -[read_bytes]. rewrite Nat2Z.id, Hq. cbn -[read_bytes].
  by rewrite (read_bytes_length _ _ _ _ Hq), Nat.eqb_refl.
Qed.

(** ** Checking *)

(** Taking the next check of a parameter. *)
Lemma get_check w a f p rc b q :
  mocks w a -> refcounts_ok 2 (params a) -> tree_get 2 [f; p] (params a) = Some (rc, b, q) ->
  exists w' x R P C, get_symbol_value global_function_parameter_map_head [f; p] w = (Ret (rc, Some x), w') /\
    mocks_at w' R P C (mkExpectations (returns a) q (calls a)) /\ holds_check w' x b /\
    owned w' x = true /\ (rc = 1 -> x ∉ all_regions R P C) /\ typed_only w w'.
Proof.
  intros (R & P & C & Hm) Hrc Hget.
  pose proof (store_get _ holds_check_local 1 [f; p] w _ P _ (m_P _ _ _ _ _ Hm) eq_refl Hrc) as Hg.
  rewrite Hget in Hg.
  destruct Hg as (w1 & P1 & x & Rg & Hst & Hv & Hvf & Hov & [Hout _] & Hsub & Hf & Hnd).
  assert (x ∉ (global_function_result_map_head :: fp 1 R) ++ (global_call_ordering_head :: fp 0 C)) as Hvo.
  { destruct Hm as [_ _ _ Hap]. rewrite Permutation_app_swap_app in Hap.
    apply NoDup_app in Hap as (_ & Hd & _). apply Hd. by right. }
  exists w1, x, R, P1, C. split_and!; [exact Rg| |done|done| |].
  3:{ eapply frame_typed; [exact Hf|]. intros y. eapply store_harmless; [apply (m_P _ _ _ _ _ Hm)|done|done]. }
  - apply (mocks_at_P w R P C a w1 P1 q x Hm Hst); [|by left; right]. split.
    + exists (global_function_parameter_map_head :: fp 2 P). split; [intros y Hy; by left|done].
    + intros y Hy. right. left. by apply Hsub.
  - intros Hone [Hin|[Hin|Hin]%elem_of_app]%elem_of_app; [|exact (Hout Hone Hin)|];
      apply Hvo, elem_of_app; [by left|by right].
Qed.

(** The next check of a parameter is applied to it and used up once.  The test
    ends if the checking function returns 0. *)
Lemma check_expected_calls w a f p loc lno value rc b q e r :
  mocks w a -> refcounts_ok 2 (params a) -> tree_get 2 [f; p] (params a) = Some (rc, b, q) -> rc <> 0 ->
  block_event b = Some e ->
  (forall x w2, lookup_block w2 x = Some b -> self_data x b -> bytes w2 = bytes w ->
     exists w3, call_check (ev_check_value e) value (ev_check_value_data e) w2 = (Ret r, w3) /\ quiet w2 w3) ->
  exists w', _check_expected f p loc lno value w = ((if r =? 0 then exit_outcome w else Ret tt), w') /\
    mocks w' (mkExpectations (returns a) q (calls a)) /\
    global_last_parameter_location w' = ev_location e /\ kept w w'.
Proof.
  intros Hm Hrc Hget Hz He Hcall.
  destruct (get_check w a f p rc b q Hm Hrc Hget)
    as (w1 & x & R & P & C & Rg & Hm1 & (Hl & Hev & Hself) & Hov & Hout & Ht).
  unfold _check_expected. mrun Rg. rewrite (proj2 (Z.eqb_neq _ _) Hz). cbn [negb].
  assert (forall A (k : ptr -> CM A), (v' ← deref (fun _ => Some x); k v') w1 = k x w1) as Rd by done.
  rewrite Rd. assert (load_event x w1 = (Ret e, w1)) as Rl by (apply deref_run; by rewrite Hl).
  mrun Rl. mprim. set (w2 := set_global_last_parameter_location (ev_location e) w1).
  assert (mocks_at w2 R P C (mkExpectations (returns a) q (calls a))) as Hm2
    by by apply (same_mem_mocks_at w1).
  destruct (Hcall x w2 Hl Hself (typed_only_bytes w w1 Ht)) as (w3 & Rc & Hq). mrun Rc.
  assert (exists w4, (if rc =? 1 then free x else mret tt) w3 = (Ret tt, w4) /\
    mocks w4 (mkExpectations (returns a) q (calls a)) /\
    global_last_parameter_location w4 = ev_location e /\ @exit_outcome unit w4 = exit_outcome w /\ kept w w4)
    as (w4 & R4 & Hm4 & Hl4 & Hx4 & K4).
  { assert (owned w3 x = true) as Ho3 by (destruct Hq as (?&?&?&?&->); done).
    assert (@exit_outcome unit w3 = exit_outcome w) as Hexit.
    { rewrite (exit_outcome_quiet w2 w3 Hq). by apply (typed_only_exit w w1). }
    assert (global_last_parameter_location w3 = ev_location e) as Hloc
      by (destruct Hq as (?&?&?&?&->); done).
    pose proof (mocks_quiet _ _ _ _ _ _ Hq Hm2) as Hm3.
    assert (kept w w3) as K3 by (transitivity w1; [by apply typed_only_kept|]; transitivity w2; [apply kept_parameter_location|by apply kept_quiet]).
    destruct (rc =? 1) eqn:Hone; zbool; [|exists w3; split_and!; try done; by exists R, P, C].
    exists (drop x w3). split_and!; [by apply release| |done|done|transitivity w3; [done|by apply typed_only_kept, drop_typed] ].
    exists R, P, C. apply mocks_at_drop; auto. }
  mrun R4. destruct (r =? 0) eqn:Hr; cbn [when]; [|by exists w4]. mprim.
  destruct (prints_then_fail (cmocka_print_error (check_failed_text loc lno p f
    (global_last_parameter_location w4))) loc lno w4) as (w5 & R5 & Q5); [auto with cmocka|].
  exists w5. rewrite R5, Hx4. split_and!; [done| |by destruct Q5 as (?&?&?&?&->)|transitivity w4; [done|by apply kept_quiet] ].
  eapply mocks_same_mem; [by apply quiet_same_mem|done].
Qed.

(** It passes or ends the test as its condition says. *)
Lemma check_expected_spec w a f p loc lno value rc b q ok e :
  mocks w a -> refcounts_ok 2 (params a) -> tree_get 2 [f; p] (params a) = Some (rc, b, q) -> rc <> 0 ->
  block_event b = Some e -> check_passes (bytes w) b value = Some ok ->
  exists w', _check_expected f p loc lno value w = ((if ok then Ret tt else exit_outcome w), w') /\
    mocks w' (mkExpectations (returns a) q (calls a)) /\
    global_last_parameter_location w' = ev_location e /\ kept w w'.
Proof.
  intros Hm Hrc Hget Hz He Hok.
  destruct (check_expected_calls w a f p loc lno value rc b q e (if ok then 1 else 0) Hm Hrc Hget Hz He) as (w' & R & H').
  - intros x w2 Hl Hself Hb. rewrite <-Hb in Hok. pose proof (call_check_decides x b value ok w2 e Hl Hself He Hok) as Hc.
    destruct ok; [by exists w2|exact Hc].
  - exists w'. split; [|exact H']. by destruct ok.
Qed.

Lemma prints_check_no_value f p loc lno : prints (check_no_value f p loc lno).
Proof.
  unfold check_no_value. apply prints_seq; [auto with cmocka|]. apply prints_gets. intros l.
  destruct (source_location_is_set l); auto with cmocka.
Qed.

(** No check left: the test ends. *)
Lemma check_expected_none w a f p loc lno value :
  mocks w a -> refcounts_ok 2 (params a) -> tree_get 2 [f; p] (params a) = None ->
  exists w', _check_expected f p loc lno value w = (exit_outcome w, w') /\ quiet w w'.
Proof.
  intros (R & P & C & Hm) Hrc Hget.
  pose proof (store_get _ holds_check_local 1 [f; p] w _ P _ (m_P _ _ _ _ _ Hm) eq_refl Hrc) as Hg.
  rewrite Hget in Hg. destruct Hg as (w1 & Rg & Q1). unfold _check_expected. mrun Rg. cbn [Z.eqb negb].
  rewrite <-(exit_outcome_quiet w w1 Q1).
  destruct (prints_check_no_value f p loc lno w1) as (w2 & R2 & Q2). mrun R2.
  destruct (exit_test_run w2) as (w3 & R3 & Q3). exists w3.
  rewrite R3, (exit_outcome_quiet w1 w2 Q2). split; [done|]. etrans; [exact Q1|by etrans].
Qed.
End proofs.
