(* ===== verification/ParamTheorems.v ===== *)
(** * Expected parameters, as a test sees them

    Checking a parameter consumes the next declared check and decides its
    condition; declaring and checking once. *)
From S2P Require Import Prelude CMonad ListNode World TestPlatform Report Memory SymbolMap Tree SymbolTree SymbolGet SymbolAdd Mock FloatCompare Compare Checks Asserts CompareProofs CheckSpec MockSpec MockProofs ParamProofs.

Section theorems.
Context `{!Platform, !PlatformLaws}.
Implicit Types (w : World) (a : expectations) (f p : string).

(** The only check of the only parameter. *)
Lemma first_param f p b a :
  params a = [] ->
  tree_get 2 [f; p] (params (add_param f p b 1 a)) = Some (1, b, []) /\
  refcounts_ok 2 (params (add_param f p b 1 a)).
Proof.
  intros Hp. unfold add_param. cbn [params]. rewrite Hp. split.
  - cbn. by repeat (rewrite decide_True by done; cbn).
  - cbn. repeat constructor; cbn; unfold INT_MIN; lia.
Qed.

(** C4: [_check_expected] takes the next check declared for the parameter of
    the function, uses it up once, and returns if its condition holds of the
    value and ends the test otherwise; without a declared check it ends the
    test and changes nothing but the messages. *)
Theorem check_expected_refines w a f p loc lno value :
  mocks w a -> refcounts_ok 2 (params a) ->
  match tree_get 2 [f; p] (params a) with
  | Some (rc, b, q) =>
      forall e ok, rc <> 0 -> block_event b = Some e -> check_passes (bytes w) b value = Some ok ->
      exists w', _check_expected f p loc lno value w = ((if ok then Ret tt else exit_outcome w), w') /\
        mocks w' (mkExpectations (returns a) q (calls a)) /\
        global_last_parameter_location w' = ev_location e
  | None =>
      exists w', _check_expected f p loc lno value w = (exit_outcome w, w') /\ quiet w w'
  end.
Proof.
  intros Hm Hrc. destruct (tree_get 2 [f; p] (params a)) as [ [ [rc b] q]|] eqn:Hget.
  - intros e ok Hz He Hok. destruct (check_expected_spec w a f p loc lno value rc b q ok e) as (w' & R & Hm' & Hl & _); [done..|by exists w'].
  - by apply (check_expected_none w a).
Qed.

(** Declaring the only check and applying it. *)
Lemma declare_and_check (declare : CM unit) w a f p loc lno value b e ok :
  params a = [] ->
  (exists w1, declare w = (Ret tt, w1) /\ mocks w1 (add_param f p b 1 a) /\ typed_only w w1) ->
  block_event b = Some e -> check_passes (bytes w) b value = Some ok ->
  exists w', (declare;; _check_expected f p loc lno value) w =
      ((if ok then Ret tt else exit_outcome w), w') /\ mocks w' a.
Proof.
  intros Hp (w1 & R1 & Hm1 & Ht) He Hok. destruct (first_param f p b a Hp) as [Hget Hrc].
  destruct (check_expected_spec w1 _ f p loc lno value 1 b [] ok e Hm1 Hrc Hget ltac:(done) He)
    as (w' & R & Hm & _); [by rewrite (typed_only_bytes w w1)|].
  exists w'. mrun R1. rewrite R, (typed_only_exit w w1) by done. split; [done|].
  destruct a. cbn in *. by subst.
Qed.

(** What a declaration [declare] made in [w] expects of the parameter [p] of
    [f].  It adds one check, to be used [count] times and declared at [l], at
    the end of those of the parameter and changes nothing else.  From then on
    and in any state in which this check is the next of the parameter, with
    any count left, [_check_expected] of a value returns if [passes] says so
    of the value in that state, and ends the test if it says no; either way
    the check is used up once. *)
Definition expects f p (count : Z) (l : SourceLocation) w a (declare : CM unit)
    (passes : World -> CMockaValueData -> bool -> Prop) : Prop :=
  exists b w1, declare w = (Ret tt, w1) /\ mocks w1 (add_param f p b count a) /\ typed_only w w1 /\
    (ev_location <$> block_event b = Some l) /\
    forall w2 a2 rc q loc lno value ok, mocks w2 a2 -> refcounts_ok 2 (params a2) ->
      tree_get 2 [f; p] (params a2) = Some (rc, b, q) -> rc <> 0 -> passes w2 value ok ->
      exists w', _check_expected f p loc lno value w2 = ((if ok then Ret tt else exit_outcome w2), w') /\
        mocks w' (mkExpectations (returns a2) q (calls a2)).

Lemma expects_block f p count l w a declare b (passes : World -> CMockaValueData -> bool -> Prop) e :
  (exists w1, declare w = (Ret tt, w1) /\ mocks w1 (add_param f p b count a) /\ typed_only w w1) ->
  block_event b = Some e -> ev_location e = l ->
  (forall w2 y ok, passes w2 y ok -> check_passes (bytes w2) b y = Some ok) ->
  expects f p count l w a declare passes.
Proof.
  intros (w1 & R & Hm1 & Ht) He <- Hp. exists b, w1. split_and!; [done..|by rewrite He|].
  intros w2 a2 rc q loc lno value ok Hm2 Hrc Hget Hz Hok.
  destruct (check_expected_spec w2 a2 f p loc lno value rc b q ok e Hm2 Hrc Hget Hz He (Hp _ _ _ Hok))
    as (w' & R' & Hm' & _). by exists w'.
Qed.

(** Declaring once, and checking, a parameter without expectations. *)
Lemma expects_first f p l w a declare passes loc lno value ok :
  expects f p 1 l w a declare passes -> params a = [] -> (forall w1, bytes w1 = bytes w -> passes w1 value ok) ->
  exists w', (declare;; _check_expected f p loc lno value) w = ((if ok then Ret tt else exit_outcome w), w') /\ mocks w' a.
Proof.
  intros (b & w1 & R & Hm1 & Ht & _ & Hd) Hp Hok. destruct (first_param f p b a Hp) as [Hget Hrc].
  destruct (Hd w1 _ 1 [] loc lno value ok Hm1 Hrc Hget) as (w' & R' & Hm); [done|by apply Hok, typed_only_bytes|].
  exists w'. mrun R. rewrite R', (typed_only_exit w w1) by done. split; [done|].
  destruct a. cbn in *. by subst.
Qed.

Section expects.
Context `{!PlatformTotal} (w : World) (a : expectations) (f p : string) (loc : option string) (lno count : Z).
Hypotheses (Hm : mocks w a) (Haddr : forall n, address_ok w n).

#[local] Abbreviation l := (mkSourceLocation loc lno).

Lemma expects_plain fn data (passes : World -> CMockaValueData -> bool -> Prop) :
  (forall w2 y ok, passes w2 y ok ->
     check_passes (bytes w2) (BCheckParameterEvent (mkCheckParameterEvent l p fn data)) y = Some ok) ->
  expects f p count l w a (_expect_check f p loc lno fn data NULL count) passes.
Proof. intros Hp. eapply expects_block; [by apply expect_check_plain|done|done|exact Hp]. Qed.

Lemma expects_range lo hi fn (passes : World -> CMockaValueData -> bool -> Prop) :
  (forall x w2 y ok, passes w2 y ok -> check_passes (bytes w2) (range_block x p loc lno fn lo hi) y = Some ok) ->
  expects f p count l w a (expect_range f p loc lno lo hi fn count) passes.
Proof.
  intros Hp. destruct (expect_range_spec w a f p loc lno lo hi fn count Hm (Haddr _)) as (x & Hx).
  eapply expects_block; [exact Hx|done|done|exact (Hp x)].
Qed.

Lemma expects_memory mem n bs fn (passes : World -> CMockaValueData -> bool -> Prop) :
  mem <> NULL -> 0 < n -> read_bytes (bytes w) mem (Z.to_nat n) = Some bs ->
  (forall x w2 y ok, passes w2 y ok -> check_passes (bytes w2) (memory_block x p loc lno fn bs n) y = Some ok) ->
  expects f p count l w a (expect_memory_setup f p loc lno mem n fn count) passes.
Proof.
  intros Hmem Hn Hl Hp.
  destruct (expect_memory_spec w a f p loc lno mem n bs fn count Hm (Haddr _) Hmem ltac:(lia) Hl) as (x & Hx).
  eapply expects_block; [exact Hx|done|done|exact (Hp x)].
Qed.

(** A checking function of the program under test, which prints at most. *)
Lemma expects_custom id data :
  expects f p count l w a (_expect_check f p loc lno (Custom id) data NULL count) (fun w2 y ok =>
    exists r, ok = negb (r =? 0) /\ forall w3, bytes w3 = bytes w2 ->
      exists w4, plat_custom_check id y data w3 = (Ret r, w4) /\ quiet w3 w4).
Proof.
  destruct (expect_check_plain w a f p loc lno (Custom id) data count Hm) as (w1 & R & Hm1 & Ht).
  eexists _, w1. split_and!; [exact R|exact Hm1|apply Ht..|done|].
  intros w2 a2 rc q loc' lno' value ok Hm2 Hrc Hget Hz (k & -> & Hk).
  edestruct (check_expected_calls w2 a2 f p loc' lno' value rc _ q _ k Hm2 Hrc Hget Hz eq_refl) as (w' & R' & Hm' & _).
  { intros x w3 _ _ Hb. by apply Hk. }
  exists w'. split; [|done]. rewrite R'. by destruct (k =? 0).
Qed.

Lemma expects_set set n fn (ok_of : CMockaValueData -> bool) (declare : CM unit) :
  (exists x w1, declare w = (Ret tt, w1) /\ mocks w1 (add_param f p (set_block x p loc lno fn (take (Z.to_nat n) set) n) count a) /\
     typed_only w w1) ->
  (forall m x y, check_passes m (set_block x p loc lno fn (take (Z.to_nat n) set) n) y = Some (ok_of y)) ->
  expects f p count l w a declare (fun _ y ok => ok = ok_of y).
Proof. intros (x & Hx) Hp. eapply expects_block; [exact Hx|done|done|]. intros w2 y ok ->. apply Hp. Qed.
End expects.

(** The condition of a set check on the first [n] elements. *)
Lemma set_check_prefix m x p loc lno set n y :
  n <= Z.of_nat (length set) ->
  let block fn := set_block x p loc lno fn (take (Z.to_nat n) set) n in
  check_passes m (block Check_int_in_set) y = Some (bool_decide (int_val y ∈ take (Z.to_nat n) set)) /\
  check_passes m (block Check_uint_in_set) y = Some (bool_decide (uint_val y ∈ take (Z.to_nat n) set)) /\
  check_passes m (block Check_not_in_set) y = Some (bool_decide (uint_val y ∉ take (Z.to_nat n) set)).
Proof.
  intros Hn. cbn -[take]. assert ((n <=? Z.of_nat (length (take (Z.to_nat n) set))) = true \/ n < 0) as [->|Hneg].
  { rewrite length_take. destruct (Z.leb_spec 0 n); [left; apply Z.leb_le|right]; lia. }
  - by rewrite take_take, Nat.min_id.
  - by rewrite (proj2 (Z.leb_le _ _)), take_take, Nat.min_id by lia.
Qed.

(** C16: What each of the thirteen declarations expects of a parameter, for
    any count, in any state and with any other expectations ([expects]):
    equality and inequality with a value, a range (the bounds included) and
    its complement, membership of the first [n] elements of an array, as signed
    and as unsigned numbers, and non-membership; equality of strings, as the
    memory is when the parameter is checked; equality of blocks of memory with
    the bytes there were at the declaration; nothing; and what a checking
    function of the test says, which passes unless it returns 0. *)
Theorem expected_parameter_decides `{!PlatformTotal} w a f p loc lno count x lo hi set n mem size_ bs id data :
  mocks w a -> (forall k, address_ok w k) -> - 2 ^ 31 <= lno < 2 ^ 31 -> - 2 ^ 31 <= count < 2 ^ 31 ->
  0 < n <= Z.of_nat (length set) -> set_bytes_of n <= SIZE_MAX ->
  mem <> NULL -> 0 < size_ -> read_bytes (bytes w) mem (Z.to_nat size_) = Some bs ->
  let string_at w2 q s := read_cstr (S (size (bytes w2))) (bytes w2) (val_ptr q) = Some s in
  let bytes_at w2 q s := read_bytes (bytes w2) (val_ptr q) (Z.to_nat size_) = Some s in
  let expects := expects f p count (mkSourceLocation loc lno) w a in
  (expects (_expect_value f p loc lno x count) (fun _ y ok => ok = bool_decide (uint_val y = uint_val x)) /\
   expects (_expect_not_value f p loc lno x count) (fun _ y ok => ok = bool_decide (uint_val y <> uint_val x)) /\
   expects (_expect_in_range f p loc lno lo hi count) (fun _ y ok => ok = bool_decide (lo <= uint_val y <= hi)) /\
   expects (_expect_not_in_range f p loc lno lo hi count)
     (fun _ y ok => ok = bool_decide (uint_val y < lo \/ hi < uint_val y)) /\
   expects (_expect_int_in_set f p loc lno (Some set) n (to_u64 count))
     (fun _ y ok => ok = bool_decide (int_val y ∈ take (Z.to_nat n) set)) /\
   expects (_expect_uint_in_set f p loc lno (Some set) n (to_u64 count))
     (fun _ y ok => ok = bool_decide (uint_val y ∈ take (Z.to_nat n) set)) /\
   expects (_expect_not_in_set f p loc lno (Some set) n count)
     (fun _ y ok => ok = bool_decide (uint_val y ∉ take (Z.to_nat n) set))) /\
  (expects (_expect_string f p loc lno x count)
     (fun w2 y ok => exists s t, string_at w2 y s /\ string_at w2 x t /\ ok = bool_decide (s = t)) /\
   expects (_expect_not_string f p loc lno x count)
     (fun w2 y ok => exists s t, string_at w2 y s /\ string_at w2 x t /\ ok = bool_decide (s <> t)) /\
   expects (_expect_memory f p loc lno mem size_ count)
     (fun w2 y ok => exists s, bytes_at w2 y s /\ ok = bool_decide (s = bs)) /\
   expects (_expect_not_memory f p loc lno mem size_ count)
     (fun w2 y ok => exists s, bytes_at w2 y s /\ ok = bool_decide (s <> bs))) /\
  expects (_expect_any f p loc lno count) (fun _ y ok => ok = true) /\
  expects (_expect_check f p loc lno (Custom id) data NULL count) (fun w2 y ok =>
    exists r, ok = negb (r =? 0) /\ forall w3, bytes w3 = bytes w2 ->
      exists w4, plat_custom_check id y data w3 = (Ret r, w4) /\ quiet w3 w4).
Proof.
  intros Hm Haddr Hl Hc Hn Hs Hmem Hsize Hbs string_at bytes_at expects.
  assert (to_s32 lno = lno /\ to_s32 (to_u64 count) = count) as [El Ec].
  { unfold to_s32, to_u64. split; [rewrite Z.mod_small; lia|].
    destruct (decide (0 <= count)); [rewrite (Z.mod_small count) by lia; rewrite Z.mod_small; lia|].
    rewrite <-(Z.mod_unique_pos count (2 ^ 64) (-1) (count + 2 ^ 64)) by lia.
    rewrite <-(Z.mod_unique_pos (count + 2 ^ 64 + 2 ^ 31) (2 ^ 32) (2 ^ 32) (count + 2 ^ 31)); lia. }
  assert (length bs = Z.to_nat size_) as Hlen by by eapply read_bytes_length.
  pose proof (fun m q => set_check_prefix m q p loc lno set n) as Hset.
  pose proof (expect_integer_set_spec w a f p loc lno set n (to_u64 count) Hm Hs (Haddr _) Hn) as Hint.
  rewrite El, Ec in Hint.
  split_and!; try by (apply expects_plain; [done|]; intros w2 y ok ->).
  - apply expects_range; [done..|]. by intros q w2 y ok ->.
  - apply expects_range; [done..|]. by intros q w2 y ok ->.
  - apply (expects_set _ _ _ _ _ _ _ set n _ _ _ (Hint true)). intros m q y. apply Hset. lia.
  - apply (expects_set _ _ _ _ _ _ _ set n _ _ _ (Hint false)). intros m q y. apply Hset. lia.
  - eapply (expects_set _ _ _ _ _ _ _ set n); [by apply expect_set_spec|]. intros m q y. apply Hset. lia.
  - apply expects_plain; [done|]. intros w2 y ok (s & t & Hy & Hx & ->). cbn -[read_cstr]. rewrite Hy. cbn -[read_cstr]. by rewrite Hx.
  - apply expects_plain; [done|]. intros w2 y ok (s & t & Hy & Hx & ->). cbn -[read_cstr]. rewrite Hy. cbn -[read_cstr]. by rewrite Hx.
  - eapply expects_memory; [done..|]. intros q w2 y ok (s & Hy & ->).
    apply memory_check_passes; [rewrite Hlen; lia|by rewrite Hlen].
  - eapply expects_memory; [done..|]. intros q w2 y ok (s & Hy & ->).
    apply memory_check_passes; [rewrite Hlen; lia|by rewrite Hlen].
  - by apply expects_custom.
Qed.
End theorems.
