(* ===== verification/MockTheorems.v ===== *)
(** * Mock functions, as a test sees them

    Whole runs of [will_return] and [mock], the order of calls, the end of a
    test: the consequences of [MockProofs.v] a test relies on. *)
From S2P Require Import Prelude CMonad ListNode World TestPlatform Report Memory SymbolMap Tree SymbolTree SymbolGet SymbolAdd SymbolRemove SymbolLeftover Mock MockSpec MockProofs.

Section theorems.
Context `{!Platform, !PlatformLaws}.
Implicit Types (w : World) (a : expectations) (f g : string).

(** Return values are declared once per function and their counts do not
    underflow; [will_return] and [mock] keep this. *)
Definition returns_ok a : Prop :=
  queues_ok (returns a) /\ forall f, counts_ok (pending f (returns a)).

Lemma returns_ok_refcounts a : returns_ok a -> refcounts_ok 1 (returns a).
Proof. intros [ [Hnd _] Hc]. by apply refcounts_pending. Qed.

(** [will_return] for each of the values [ds] with its count, in order. *)
Fixpoint declare f (ds : list (SymbolValue * Z)) : CM unit :=
  match ds with
  | [] => mret tt
  | (v, c) :: ds' =>
      _will_return f (file (sv_location v)) (line (sv_location v)) (sv_name v) (sv_value v) c;;
      declare f ds'
  end.

(** [mock] called [n] times. *)
Fixpoint mock_times f (loc : option string) (line_ : Z) (name : option string) (n : nat) : CM (list Z) :=
  match n with
  | O => mret []
  | S k =>
      x ← _mock f loc line_ name;
      xs ← mock_times f loc line_ name k;
      mret (x :: xs)
  end.

(** Each value as often as its count says. *)
Fixpoint expand (ds : list (SymbolValue * Z)) : list Z :=
  match ds with [] => [] | (v, c) :: ds' => repeat (sv_value v) (Z.to_nat c) ++ expand ds' end.

(** Same pending values of every function, same other expectations. *)
Definition same_but_returns a a' : Prop := params a' = params a /\ calls a' = calls a.

Lemma declare_run `{!PlatformTotal} f ds : forall w a,
  mocks w a -> returns_ok a -> Forall (fun d => INT_MIN < d.2 /\ d.2 <> 0) ds ->
  exists w' a', declare f ds w = (Ret tt, w') /\ mocks w' a' /\ returns_ok a' /\
    (forall g, pending g (returns a') = pending g (returns a) ++ (if decide (f = g) then ds else [])) /\
    same_but_returns a a'.
Proof.
  induction ds as [|[v c] ds IH]; intros w a Hm Hok Hds.
  - exists w, a. split_and!; try done. intros g. case_decide; by rewrite app_nil_r.
  - apply Forall_cons in Hds as [ [Hc Hz] Hds]. cbn [declare].
    destruct (will_return_spec w a f (file (sv_location v)) (line (sv_location v)) (sv_name v)
      (sv_value v) c Hm Hz) as (w1 & R1 & Hm1 & _). mrun R1.
    destruct v as [nm [fl ln] val]. cbn [sv_name sv_location sv_value file line] in *.
    set (a1 := add_return f _ c a) in Hm1.
    assert (forall g, pending g (returns a1) = if decide (f = g)
      then pending f (returns a) ++ [(mkSymbolValue nm (mkSourceLocation fl ln) val, c)]
      else pending g (returns a)) as Hp1 by (intros g; apply pending_add).
    assert (returns_ok a1) as Hok1.
    { split; [by apply queues_ok_add, Hok|]. intros g. rewrite Hp1. case_decide; [|by apply Hok].
      apply Forall_app. split; [by apply Hok|]. by repeat constructor. }
    destruct (IH w1 a1 Hm1 Hok1 Hds) as (w' & a' & R & Hm' & Hok' & Hp' & Hs).
    exists w', a'. split_and!; try done. intros g. rewrite Hp', Hp1.
    case_decide as Hfg; [|done]. subst. by rewrite <-app_assoc.
Qed.

(** One call of [mock] on a queue that has a value. *)
Lemma mock_pending w a f loc line_ name v c q :
  mocks w a -> returns_ok a -> pending f (returns a) = (v, c) :: q -> c <> 0 ->
  name_matches name v = true ->
  exists w' a', _mock f loc line_ name w = (Ret (sv_value v), w') /\ mocks w' a' /\ returns_ok a' /\
    (forall g, pending g (returns a') =
               if decide (f = g) then use_first ((v, c) :: q) else pending g (returns a)) /\
    same_but_returns a a'.
Proof.
  intros Hm Hok Hp Hc Hn. pose proof (returns_ok_refcounts a Hok) as Hrc. destruct Hok as [Hq Hco].
  destruct (get_pending f v c q (returns a) Hq Hp) as (u' & Hget & Hq' & Hp').
  destruct (mock_value_spec w a f loc line_ name c v u' Hm Hrc Hget Hc Hn) as (w' & R & Hm' & _).
  exists w', (mkExpectations u' (params a) (calls a)). split_and!; try done.
  split; [done|]. intros g. cbn [returns]. rewrite Hp'. case_decide as Hfg; [|by apply Hco].
  subst. apply counts_ok_use_first. rewrite <-Hp. apply Hco.
Qed.

(** A value with a positive count is returned that often, then the next one
    follows. *)
Lemma mock_times_run f loc line_ name ds : forall w a,
  mocks w a -> returns_ok a -> pending f (returns a) = ds ->
  Forall (fun d => 1 <= d.2 /\ name_matches name d.1 = true) ds ->
  exists w' a', mock_times f loc line_ name (length (expand ds)) w = (Ret (expand ds), w') /\
    mocks w' a' /\ returns_ok a' /\
    (forall g, pending g (returns a') = if decide (f = g) then [] else pending g (returns a)) /\
    same_but_returns a a'.
Proof.
  induction ds as [|[v c] ds IH]; intros w a Hm Hok Hp Hds.
  - exists w, a. split_and!; try done. intros g. by case_decide; subst.
  - apply Forall_cons in Hds as [ [Hc Hn] Hds]. cbn [fst snd] in Hc, Hn.
    cbn [expand]. remember (Z.to_nat c) as n eqn:Hcn. revert w a c Hc Hcn Hm Hok Hp.
    induction n as [|n IHn]; intros w a c Hc Hcn Hm Hok Hp; [lia|].
    cbn [repeat app length mock_times].
    destruct (mock_pending w a f loc line_ name v c ds Hm Hok Hp ltac:(lia) Hn)
      as (w1 & a1 & R1 & Hm1 & Hok1 & Hp1 & Hs1). mrun R1.
    assert (exists w' a', mock_times f loc line_ name (length (repeat (sv_value v) n ++ expand ds)) w1 =
        (Ret (repeat (sv_value v) n ++ expand ds), w') /\
      mocks w' a' /\ returns_ok a' /\
      (forall g, pending g (returns a') = if decide (f = g) then [] else pending g (returns a1)) /\
      same_but_returns a1 a') as (w' & a' & R & Hm' & Hok' & Hp' & Hs).
    { pose proof (Hp1 f) as Hpf. rewrite decide_True in Hpf by done. cbn [use_first] in Hpf.
      destruct n as [|n].
      - assert (c = 1) as -> by lia. cbn [Z.sub Z.add Z.opp Z.pos_sub Z.eqb] in Hpf.
        apply (IH w1 a1 Hm1 Hok1 Hpf Hds).
      - rewrite (proj2 (Z.eqb_neq _ _)) in Hpf by lia.
        rewrite (proj2 (Z.ltb_lt _ _)) in Hpf by (unfold WILL_RETURN_ONCE; lia).
        apply (IHn w1 a1 (c - 1)); [lia|lia|done..]. }
    exists w', a'. mrun R. split_and!; try done.
    + intros g. rewrite Hp', Hp1. by case_decide.
    + destruct Hs, Hs1. split; congruence.
Qed.

(** A value declared for ever is returned by every call. *)
Lemma mock_times_always f loc line_ name v n : forall w a c,
  mocks w a -> returns_ok a -> pending f (returns a) = [(v, c)] -> c = -1 \/ c = -2 ->
  name_matches name v = true ->
  exists w' a', mock_times f loc line_ name n w = (Ret (repeat (sv_value v) n), w') /\
    mocks w' a' /\
    (forall g, pending g (returns a') = if decide (f = g)
       then [(v, match n with O => c | S _ => -2 end)] else pending g (returns a)) /\
    same_but_returns a a' /\ returns_ok a'.
Proof.
  induction n as [|n IH]; intros w a c Hm Hok Hp Hc Hn.
  - exists w, a. split_and!; try done. intros g. by case_decide; subst.
  - cbn [mock_times].
    destruct (mock_pending w a f loc line_ name v c [] Hm Hok Hp ltac:(lia) Hn)
      as (w1 & a1 & R1 & Hm1 & Hok1 & Hp1 & Hs1). mrun R1.
    assert (use_first [(v, c)] = [(v, -2)]) as Hu by (destruct Hc; subst; done).
    pose proof (Hp1 f) as Hpf. rewrite decide_True, Hu in Hpf by done.
    destruct (IH w1 a1 (-2) Hm1 Hok1 Hpf) as (w' & a' & R & Hm' & Hp' & Hs & Hok'); [by right|done|].
    exists w', a'. mrun R. split_and!; try done.
    + intros g. rewrite Hp', Hp1. case_decide; [|done]. by destruct n.
    + destruct Hs, Hs1. split; congruence.
Qed.

(** ** Properties *)

(** C3: [will_return] with counts [c1], ..., [cn] for a function without
    pending values makes its next [c1 + ... + cn] calls of [mock] return the
    values in the order of declaration, each as often as its count; the call
    after that ends the test.  The expectations of all other functions, of
    parameters and of calls are not affected. *)
Theorem will_return_mock_fifo `{!PlatformTotal} w a f ds loc line_ name :
  mocks w a -> returns_ok a -> pending f (returns a) = [] ->
  Forall (fun d => 1 <= d.2 /\ name_matches name d.1 = true) ds ->
  exists w' a',
    (declare f ds;; mock_times f loc line_ name (length (expand ds))) w = (Ret (expand ds), w') /\
    mocks w' a' /\ (forall g, pending g (returns a') = pending g (returns a)) /\
    same_but_returns a a' /\
    exists w'', _mock f loc line_ name w' = (exit_outcome w', w'') /\ quiet w' w''.
Proof.
  intros Hm Hok Hp Hds.
  destruct (declare_run f ds w a Hm Hok) as (w1 & a1 & R1 & Hm1 & Hok1 & Hp1 & Hs1).
  { eapply Forall_impl; [exact Hds|]. intros d [Hd _]. unfold INT_MIN. lia. }
  pose proof (Hp1 f) as Hpf. rewrite decide_True, Hp in Hpf by done.
  destruct (mock_times_run f loc line_ name ds w1 a1 Hm1 Hok1 Hpf Hds)
    as (w2 & a2 & R2 & Hm2 & Hok2 & Hp2 & Hs2).
  exists w2, a2. split_and!.
  - by mrun R1.
  - done.
  - intros g. rewrite Hp2, Hp1. case_decide as Hfg; [by subst|by rewrite app_nil_r].
  - destruct Hs1, Hs2. split; congruence.
  - apply (mock_no_value_spec w2 a2 f loc line_ name Hm2 (returns_ok_refcounts a2 Hok2)).
    apply get_nothing_pending; [by apply Hok2|]. by rewrite Hp2, decide_True.
Qed.

(** C31: A value declared with WILL_RETURN_ALWAYS (-1) or WILL_RETURN_ONCE (-2,
    "maybe") is returned by any number of calls.  It is left over at the end
    of the test exactly if its count is -1 and it was never used. *)
Theorem will_return_always_mock `{!PlatformTotal} w a f v c n loc line_ name :
  mocks w a -> returns_ok a -> pending f (returns a) = [] ->
  c = WILL_RETURN_ALWAYS \/ c = WILL_RETURN_ONCE -> name_matches name v = true ->
  exists w' a', (declare f [(v, c)];; mock_times f loc line_ name n) w =
      (Ret (repeat (sv_value v) n), w') /\ mocks w' a' /\
    (pending f (returns (leftover a')) = [] <-> ~ (c = WILL_RETURN_ALWAYS /\ n = 0%nat)).
Proof.
  unfold WILL_RETURN_ALWAYS, WILL_RETURN_ONCE. intros Hm Hok Hp Hc Hn.
  destruct (declare_run f [(v, c)] w a Hm Hok) as (w1 & a1 & R1 & Hm1 & Hok1 & Hp1 & _).
  { repeat constructor; cbn [snd]; unfold INT_MIN; lia. }
  pose proof (Hp1 f) as Hpf. rewrite decide_True, Hp in Hpf by done.
  destruct (mock_times_always f loc line_ name v n w1 a1 c Hm1 Hok1 Hpf Hc Hn)
    as (w2 & a2 & R2 & Hm2 & Hp2 & _ & [ [Hnd _] _]).
  exists w2, a2. split_and!; [by mrun R1|done|].
  cbn [leftover returns]. rewrite pending_remove_always by done.
  rewrite Hp2, decide_True by done. cbn [drop_always].
  destruct n as [|n]; destruct Hc as [-> | ->]; cbn; (split; [intros Hx [??]; congruence|]); try done.
  intros Hx. by destruct Hx.
Qed.



(** ** Types *)







(** C12: [function_called] accepts exactly the calls the specification
    [call_step] accepts: the first expectation that is not optional, or an
    optional one before it; it uses that expectation up once.  Any other call
    ends the test and changes nothing but the messages. *)
Theorem function_called_refines w a f loc line_ :
  mocks w a ->
  match call_step f (calls a) with
  | Some q => exists w', _function_called f loc line_ w = (Ret tt, w') /\
      mocks w' (mkExpectations (returns a) (params a) q)
  | None => exists w', _function_called f loc line_ w = (exit_outcome w, w') /\ quiet w w'
  end.
Proof.
  intros Hm. pose proof (function_called_spec w a f loc line_ Hm) as Hs. destruct (call_step f (calls a)); [|done].
  destruct Hs as (w' & R & Hm' & _). by exists w'.
Qed.

(** Calls of the functions [fs], in order. *)
Fixpoint called_all (loc : option string) (line_ : Z) (fs : list string) : CM unit :=
  match fs with
  | [] => mret tt
  | f :: fs' => _function_called f loc line_;; called_all loc line_ fs'
  end.
Fixpoint expect_all (loc : string) (line_ : Z) (fs : list string) : CM unit :=
  match fs with
  | [] => mret tt
  | f :: fs' => _expect_function_call (Some f) (Some loc) line_ 1;; expect_all loc line_ fs'
  end.

Lemma expect_all_run `{!PlatformTotal} loc line_ fs : forall w a, mocks w a ->
  exists w', expect_all loc line_ fs w = (Ret tt, w') /\
    mocks w' (mkExpectations (returns a) (params a) (calls a ++
      ((fun f => (mkFuncOrderingValue (mkSourceLocation (Some loc) line_) f, 1)) <$> fs))).
Proof.
  induction fs as [|f fs IH]; intros w a Hm.
  - exists w. rewrite fmap_nil, app_nil_r. by destruct a.
  - cbn [expect_all].
    destruct (expect_function_call_spec w a f loc line_ 1 Hm) as (w1 & R1 & Hm1 & _); [done|]. mrun R1.
    destruct (IH w1 _ Hm1) as (w' & R & Hm'). exists w'. split; [done|].
    cbn [returns params calls add_call] in Hm'. by rewrite <-app_assoc in Hm'.
Qed.

Lemma called_all_run loc line_ l fs : forall w a q,
  mocks w a -> calls a = ((fun f => (mkFuncOrderingValue l f, 1)) <$> fs) ++ q ->
  exists w', called_all loc line_ fs w = (Ret tt, w') /\
    mocks w' (mkExpectations (returns a) (params a) q).
Proof.
  induction fs as [|f fs IH]; intros w a q Hm Hc.
  - exists w. split; [done|]. simpl in Hc. subst. by destruct a.
  - cbn [called_all]. pose proof (function_called_spec w a f loc line_ Hm) as Hs.
    rewrite Hc in Hs. cbn [fmap list_fmap app call_step fo_function] in Hs.
    rewrite bool_decide_true in Hs by done. destruct Hs as (w1 & R1 & Hm1 & _). mrun R1.
    apply (IH w1 _ q Hm1). done.
Qed.

(** When no calls are pending, declaring [expect_function_call] for a
    sequence of functions makes exactly that sequence of calls pass and uses
    all expectations up; a call of another function where the sequence says
    [g] ends the test. *)
Lemma expect_function_calls_in_order `{!PlatformTotal} w a eloc eline loc line_ fs :
  mocks w a -> calls a = [] ->
  (exists w', (expect_all eloc eline fs;; called_all loc line_ fs) w = (Ret tt, w') /\ mocks w' a) /\
  (forall fs1 g fs2 f, fs = fs1 ++ g :: fs2 -> f <> g ->
     exists w' w'', (expect_all eloc eline fs;; called_all loc line_ fs1) w = (Ret tt, w') /\
       _function_called f loc line_ w' = (exit_outcome w', w'') /\ quiet w' w'').
Proof.
  intros Hm Hc. destruct (expect_all_run eloc eline fs w a Hm) as (w1 & R1 & Hm1).
  rewrite Hc in Hm1. cbn [app] in Hm1. split.
  - destruct (called_all_run loc line_ (mkSourceLocation (Some eloc) eline) fs w1 _ [] Hm1) as (w2 & R2 & Hm2);
      [by rewrite app_nil_r|].
    exists w2. mrun R1. split; [done|]. destruct a. simpl in *. by subst.
  - intros fs1 g fs2 f -> Hfg.
    destruct (called_all_run loc line_ (mkSourceLocation (Some eloc) eline) fs1 w1 _
      ((fun f => (mkFuncOrderingValue (mkSourceLocation (Some eloc) eline) f, 1)) <$> g :: fs2) Hm1)
      as (w2 & R2 & Hm2); [cbn [calls]; by rewrite fmap_app|].
    pose proof (function_called_spec w2 _ f loc line_ Hm2) as Hs.
    cbn [calls fmap list_fmap call_step fo_function] in Hs.
    rewrite bool_decide_false in Hs by congruence. cbn [Z.ltb Z.compare] in Hs.
    destruct Hs as (w3 & R3 & Q3). exists w2, w3. mrun R1. done.
Qed.

(** C21: At the end of a test [fail_if_leftover_values] returns exactly if
    nothing is left of the expectations once the values that need not be used
    up are dropped; otherwise it ends the test. *)
Theorem fail_if_leftover_values_spec_of w a :
  mocks w a ->
  exists w', mocks w' (leftover a) /\
    fail_if_leftover_values w =
      (if nothing_left (leftover a) then Ret tt else exit_outcome w', w').
Proof.
  intros Hm. destruct (fail_if_leftover_values_spec w a Hm) as (w' & Hm' & R & _). by exists w'.
Qed.

(** C14: Setting up from the program's static list heads gives empty stores.
    Tearing down, from any expectations, terminates, frees every node, entry
    and value of the three stores (no leak), frees nothing else (no double
    free: every free hits a live block) and leaves empty stores. *)
Theorem testing_lifecycle w0 w a :
  static_heads w0 -> mocks w a ->
  (exists w', initialize_testing w0 = (Ret tt, w') /\ mocks w' no_expectations) /\
  (exists w' R P C, mocks_at w R P C a /\ teardown_testing w = (Ret tt, w') /\
     mocks w' no_expectations /\ (forall x, x ∈ fp 1 R ++ fp 2 P ++ fp 0 C -> gone w' x) /\
     (forall x, x ∉ all_regions R P C ->
        blocks w' !! x = blocks w !! x /\ infos w' !! x = infos w !! x)).
Proof.
  intros Hs (R & P & C & Hm). split.
  - destruct (initialize_testing_spec w0 Hs) as (w' & ? & ? & _). by exists w'.
  - destruct (teardown_testing_at w R P C a Hm) as (w' & ? & ? & ? & ? & _). by exists w', R, P, C.
Qed.
End theorems.
