(* ===== verification/RunnerProofs.v ===== *)
(** * How one test runs

    [cmocka_run_one_test_or_fixture] from its entry to the test function and
    from there to its result: the expectations and blocks it hands to the test,
    and how what the test leaves of them decides the result. *)
From S2P Require Import Prelude CMonad CString ListNode World Report Memory SymbolMap Tree SymbolTree SymbolGet SymbolAdd SymbolRemove SymbolLeftover Mock FloatCompare Compare Alloc AllocBytes AllocProofs AllocOps AllocLeaks Output Runner Frame MockSpec MockProofs.

(** The disposition of a signal. *)
Definition disposition (w : World) (sig : Z) : SignalFunction := default SIG_DFL (signal_handlers w !! sig).

(** The static list heads are in memory. *)
Definition statics (w : World) : Prop := forall h, h ∈ store_heads -> node_at w h = true.

(** The library's memory holds the expectations [a] and the blocks [hs]. *)
Record consistent `{!Platform} (w : World) (a : expectations) (hs : list ptr) : Prop := {
  cs_mocks : mocks w a;
  cs_heap : heap w hs;
  cs_bytes : bytes_valid w;
  cs_statics : statics w;
}.

(** The state after a test: no test is running, nothing is expected, the heap is
    [hs], and the signals are handled as before. *)
Record ended `{!Platform} (w w' : World) (hs : list ptr) : Prop := {
  en_running : global_running_test w' = 0;
  en_consistent : consistent w' no_expectations hs;
  en_signals : forall sig, sig ∈ exception_signals -> disposition w' sig = disposition w sig;
}.

Section proofs.
Context `{!Platform, !PlatformLaws}.
Implicit Types (w : World) (a : expectations) (hs : list ptr).

(** ** Signals *)

Lemma install_handlers_run sigs : forall w, NoDup sigs ->
  exists h, install_handlers sigs w = (Ret (disposition w <$> sigs), set_signal_handlers h w) /\
    forall s, h !! s = if decide (s ∈ sigs) then Some Exception_handler else signal_handlers w !! s.
Proof.
  induction sigs as [|s sigs IH]; intros w Hnd.
  - exists (signal_handlers w). split; [by destruct w|]. intros s. rewrite decide_False; [done|apply not_elem_of_nil].
  - apply NoDup_cons in Hnd as [Hs Hnd]. cbn [install_handlers].
    set (w1 := set_signal_handlers (<[s := Exception_handler]> (signal_handlers w)) w).
    assert (signal s Exception_handler w = (Ret (disposition w s), w1)) as R by done. mrun R.
    destruct (IH w1 Hnd) as (h & R1 & Hh).
    assert (disposition w1 <$> sigs = disposition w <$> sigs) as E.
    { apply list_fmap_ext. intros i x Hx. unfold disposition. cbn.
      rewrite lookup_insert_ne; [done|]. intros ->. apply Hs. by eapply list_elem_of_lookup_2. }
    rewrite E in R1. mrun R1. exists h. split; [done|].
    { intros x. rewrite Hh. cbn. destruct (decide (x = s)) as [->|Hne].
      * rewrite decide_False, lookup_insert_eq, decide_True by (done || by left). done.
      * rewrite lookup_insert_ne by done. apply decide_ext. rewrite elem_of_cons. naive_solver. }
Qed.

Lemma restore_handlers_run (g : Z -> SignalFunction) sigs : forall w, NoDup sigs ->
  exists h, restore_handlers sigs (g <$> sigs) w = (Ret tt, set_signal_handlers h w) /\
    forall s, s ∈ sigs -> h !! s = Some (g s).
Proof.
  assert (forall sigs w, NoDup sigs -> exists h,
    restore_handlers sigs (g <$> sigs) w = (Ret tt, set_signal_handlers h w) /\
    (forall s, s ∈ sigs -> h !! s = Some (g s)) /\ (forall s, s ∉ sigs -> h !! s = signal_handlers w !! s)) as Hall.
  { clear. induction sigs as [|s sigs IH]; intros w Hnd.
    - exists (signal_handlers w). split; [by destruct w|]. split; [by intros s ?%elem_of_nil|done].
    - apply NoDup_cons in Hnd as [Hs Hnd]. rewrite fmap_cons. cbn [restore_handlers].
      set (w1 := set_signal_handlers (<[s := g s]> (signal_handlers w)) w).
      assert (signal s (g s) w = (Ret (disposition w s), w1)) as R by done. mrun R.
      destruct (IH w1 Hnd) as (h & R1 & Hin & Hout). exists h. split; [done|]. split.
      + intros x [->|Hx]%elem_of_cons; [|by apply Hin]. rewrite Hout by done. apply lookup_insert_eq.
      + intros x [Hne Hx]%not_elem_of_cons. rewrite Hout by done. by apply lookup_insert_ne. }
  intros w Hnd. destruct (Hall sigs w Hnd) as (h & R & Hin & _). by exists h.
Qed.

Lemma exception_signals_NoDup : NoDup exception_signals.
Proof. exact (bool_decide_unpack (NoDup exception_signals) I). Qed.

(** ** What carries over between states *)

Lemma statics_control w w' : control w' = control w -> statics w -> statics w'.
Proof.
  unfold control, statics. intros Hc Hs h Hh.
  assert (node_at w' <$> store_heads = node_at w <$> store_heads) as E by congruence.
  injection E as E1 E2 E3. unfold store_heads in Hh. rewrite !elem_of_cons in Hh.
  destruct Hh as [->|[->|[->|?%elem_of_nil] ] ]; [rewrite E1|rewrite E2|rewrite E3|done];
    apply Hs; unfold store_heads; rewrite !elem_of_cons; auto.
Qed.

Lemma heap_same w w' hs : heap_kept w w' -> heap w hs -> heap w' hs.
Proof.
  intros (Hr & Hb & Hx) Hh.
  assert (forall h b s l, h ∈ hs -> live w h b s l -> blocks w' !! h = blocks w !! h /\ infos w' !! h = infos w !! h) as Hhdr.
  { intros h b s l Hin Hl. apply Hx. right. pose proof (lv_place _ _ _ _ _ Hl). split; [lia|]. split; [apply Hl|].
    pose proof (lv_meta _ _ _ _ _ Hl) as Hi. destruct (infos w !! h); [eauto|done]. }
  assert (forall h b s l, h ∈ hs -> live w h b s l -> live w' h b s l) as Hlive.
  { intros h b s l Hin Hl. destruct (Hhdr h b s l Hin Hl) as [Hxb Hxi].
    eapply live_frame; [exact Hl| |done|by rewrite Hr|by rewrite Hb]. rewrite Hxb. apply Hl. }
  assert (forall h b s l, h ∈ hs -> live w' h b s l -> live w h b s l) as Hinv.
  { intros h b s l Hin Hl. destruct (hp_live _ _ Hh h Hin) as (b' & s' & l' & Hl').
    by destruct (live_unique _ _ _ _ _ _ _ _ Hl (Hlive _ _ _ _ Hin Hl')) as (-> & -> & ->). }
  assert (forall x, x ∈ hA :: hs -> get_node w' x = get_node w x) as Hnode.
  { intros x Hin. assert (blocks w' !! x = blocks w !! x /\ infos w' !! x = infos w !! x) as [Hxb Hxi].
    { apply elem_of_cons in Hin as [->|Hin]; [apply Hx; by left|].
      destruct (hp_live _ _ Hh x Hin) as (b & s & l & Hl). by eapply Hhdr. }
    unfold get_node, world_heap, world_get_node. by rewrite Hxb, Hxi. }
  split.
  - eapply dll_frame_node; [|exact (hp_list _ _ Hh)]. intros x. rewrite addrs_headers. apply Hnode.
  - unfold data_of. rewrite Hnode by (by left). exact (hp_head _ _ Hh).
  - intros h Hin. destruct (hp_live _ _ Hh h Hin) as (b & s & l & Hl). eauto 6.
  - rewrite Hr. exact (hp_raw _ _ Hh).
  - intros h h' b s s' l l' Hi Hi' Hl Hl'. by eapply (hp_inj _ _ Hh h h' b); [| |apply Hinv|apply Hinv].
Qed.

(** The other control state, which only a test and the runner change. *)
Definition same_control w w' : Prop :=
  default_signal_functions w' = default_signal_functions w /\ global_skip_test w' = global_skip_test w /\
  state_vars w' = state_vars w /\ environ w' = environ w /\ global_stop_test w' = global_stop_test w.

Lemma control_same w w' : control w' = control w -> same_control w w'.
Proof. unfold control, same_control. intros Hc. split_and!; congruence. Qed.

Lemma consistent_same w w' a hs :
  same_mem w w' -> raw w' = raw w -> bytes w' = bytes w -> consistent w a hs -> consistent w' a hs.
Proof.
  intros [Hb Hi] Hr Hby [Hm Hh Hv Hs]. split.
  - by apply (mocks_same_mem w).
  - apply (heap_same w); [|done]. split_and!; [done..|]. intros x _. by rewrite Hb, Hi.
  - unfold bytes_valid. by rewrite Hby.
  - intros h Hin. unfold node_at. rewrite Hb. by apply Hs.
Qed.

(** What the life cycle of the expectations does to a consistent state. *)
Lemma consistent_step w w' a a' hs :
  consistent w a hs -> heap_kept w w' -> control w' = control w -> mocks w' a' -> consistent w' a' hs.
Proof.
  intros [Hm Hh Hv Hs] Hk Hc Hm'. split; [done|by eapply heap_same| |by eapply statics_control].
  unfold bytes_valid. destruct Hk as (_ & -> & _). exact Hv.
Qed.

Lemma consistent_kept w w' a a' hs : consistent w a hs -> kept w w' -> mocks w' a' -> consistent w' a' hs.
Proof.
  intros [_ Hh Hv Hs] (Hk & Hst & _) Hm. split; [done|by eapply heap_same| |].
  - unfold bytes_valid. destruct Hk as (_ & -> & _). exact Hv.
  - intros h Hh'. specialize (Hs h Hh'). unfold node_at in *. apply bool_decide_eq_true in Hs. apply bool_decide_eq_true, Hst; [|done].
    unfold store_heads in Hh'. rewrite !elem_of_cons in Hh'. by destruct Hh' as [->|[->|[->|?%elem_of_nil]]].
Qed.

Lemma store_agree {B} (Rel : World -> ptr -> B -> Prop) n w w' h t u :
  (forall w w' x b, lookup_block w' x = lookup_block w x -> Rel w x b -> Rel w' x b) ->
  (forall x, x ∈ h :: fp n t -> is_Some (blocks w !! x) /\ blocks w' !! x = blocks w !! x) ->
  store Rel n w h t u -> store Rel n w' h t u.
Proof.
  intros Hlocal Hx [ [ (Hr & Hn & Hnd) Hfill] Hrel].
  assert (forall x, x ∈ h :: fp n t -> get_node w' x = get_node w x /\ owned w' x = owned w x /\
    lookup_block w' x = lookup_block w x) as Hobs.
  { intros x Hin. destruct (Hx x Hin) as [ [b Hb] Hb'].
    unfold get_node, owned, world_heap, world_get_node, world_owned, lookup_block. by rewrite !Hb', !Hb. }
  split; [split; [split_and!|]|]; try done.
  - eapply rep_agree; [|done]. intros x Hin. by destruct (Hobs x Hin) as (? & ? & _).
  - eapply names_frame; [|done]. intros x Hin. unfold name_of. by destruct (Hobs x ltac:(by right)) as (_ & _ & ->).
  - eapply tree_rel_values; [|exact Hrel]. intros x b Hin. apply Hlocal. apply Hobs. right. by apply values_fp.
Qed.

(** Expectations survive whatever keeps the typed blocks. *)
Lemma mocks_kept w w' a : statics w -> blocks_kept w w' -> mocks w a -> mocks w' a.
Proof.
  intros Hst Hk (R & P & C & [HR HP HC Hap]).
  assert (forall n h (t : shape n), h ∈ store_heads -> rep n w h t -> forall x, x ∈ h :: fp n t ->
    is_Some (blocks w !! x) /\ blocks w' !! x = blocks w !! x) as Hx.
  { intros n h t Hh Hrep x [->|Hx]%elem_of_cons.
    - assert (is_Some (blocks w !! h)) as Hs
        by (specialize (Hst h Hh); apply bool_decide_eq_true in Hst; destruct (blocks w !! h); [eauto|by destruct Hst]).
      split; [done|]. apply Hk; [|done].
      intros ->. unfold store_heads in Hh. rewrite !elem_of_cons in Hh. by destruct Hh as [?|[?|[?|?%elem_of_nil]]].
    - pose proof (rep_owned n w h t x Hrep Hx) as Ho.
      destruct (owned_heap w x Ho) as [_ Hs]. split; [done|]. apply Hk; [|done].
      intros ->. cbn in Ho. done. }
  exists R, P, C. split; [..|done].
  - eapply (store_agree _ _ w); [exact holds_return_local| |exact HR]. apply Hx; [by left|apply HR].
  - eapply (store_agree _ _ w); [exact holds_check_local| |exact HP]. apply Hx; [by right; left|apply HP].
  - eapply (store_agree _ _ w); [exact holds_call_local| |exact HC]. apply Hx; [by right; right; left|apply HC].
Qed.

(** ** From the entry to the test and from the test to the result *)

(** What follows the body. *)
Definition finish (rc : CM Z) : CM Z :=
  rc ← rc;
  teardown_testing;;
  saved ← gets default_signal_functions;
  restore_handlers exception_signals saved;;
  mret rc.

Lemma static_heads_of w : statics w -> static_heads w.
Proof.
  intros Hs h Hh. specialize (Hs h Hh). apply bool_decide_eq_true in Hs. unfold get_node, world_heap, world_get_node.
  assert (h <> NULL) as Hn.
  { unfold store_heads in Hh. rewrite !elem_of_cons in Hh. by destruct Hh as [->|[->|[->|?%elem_of_nil]]]. }
  rewrite (proj2 (Z.eqb_neq _ _) Hn). destruct (blocks w !! h) as [b|]; [exact Hs|by destruct Hs].
Qed.

(** The check point against which a function is checked. *)
Definition point hs (cp : ptr) : ptr := if negb (cp =? NULL) then cp else last_block hs.

Lemma run_one_start w hs name tf sf df st cp :
  heap w hs -> bytes_valid w -> statics w ->
  exists w1, consistent w1 no_expectations hs /\ global_running_test w1 = 1 /\ heap_kept w w1 /\
    (forall sig, sig ∈ exception_signals -> disposition w1 sig = Exception_handler) /\
    default_signal_functions w1 = disposition w <$> exception_signals /\
    global_skip_test w1 = global_skip_test w /\ global_stop_test w1 = global_stop_test w /\
    environ w1 = environ w /\ state_vars w1 = <[current_state_addr := NULL]> (state_vars w) /\
    cmocka_run_one_test_or_fixture name tf sf df st cp w =
      finish (setjmp (run_test_body name tf sf df (if negb (st =? NULL) then st else current_state_addr) (point hs cp))
                test_failed) w1.
Proof.
  intros Hh Hv Hst. unfold cmocka_run_one_test_or_fixture.
  assert ((if negb (cp =? NULL) then mret cp else check_point_allocated_blocks) w = (Ret (point hs cp), w)) as Rc.
  { unfold point. destruct (negb (cp =? NULL)); [done|].
    unfold check_point_allocated_blocks. mrun (get_list_run w _ Hh). by apply heap_prev. }
  mrun Rc. unfold store_var at 1. mprim. set (w1 := set_state_vars _ w).
  destruct (install_handlers_run exception_signals w1 exception_signals_NoDup) as (h & R1 & Hsig).
  mrun R1. mprim. set (w2 := set_default_signal_functions _ _).
  destruct (initialize_testing_spec w2) as (w3 & R2 & Hm & _ & _ & Hr3 & Hb3 & _ & Hf3); [by apply static_heads_of|].
  pose proof (keeps_run _ _ _ _ keeps_initialize_testing R2) as Hc0. pose proof Hc0 as Hc. unfold control in Hc.
  mrun R2. mprim.
  assert (heap_kept w (set_global_running_test 1 w3)) as Hk.
  { split_and!; [done..|]. intros x Hx. apply Hf3. rewrite !not_elem_of_cons. split_and!; try apply not_elem_of_nil;
      intros ->; destruct Hx as [Hx|[Hx _]]; done. }
  exists (set_global_running_test 1 w3). split_and!; [|done|exact Hk| | | | | | |done].
  - split.
    + by apply (mocks_same_mem w3).
    + by apply (heap_same w).
    + unfold bytes_valid in *. cbn. rewrite Hb3. exact Hv.
    + change (statics w3). apply (statics_control w2 w3 Hc0). by intros x Hx; apply Hst.
  - intros sig Hin. unfold disposition. cbn. replace (signal_handlers w3) with (signal_handlers w2) by congruence.
    cbn. by rewrite Hsig, decide_True.
  - cbn. replace (default_signal_functions w3) with (default_signal_functions w2) by congruence. done.
  - cbn in *. congruence.
  - cbn in *. congruence.
  - cbn in *. congruence.
  - cbn in *. congruence.
Qed.

Lemma finish_run (m : CM Z) w1 rc w2 a hs (g : Z -> SignalFunction) :
  m w1 = (Ret rc, w2) -> global_running_test w2 = 0 -> consistent w2 a hs ->
  default_signal_functions w2 = g <$> exception_signals ->
  exists w', finish m w1 = (Ret rc, w') /\ global_running_test w' = 0 /\ consistent w' no_expectations hs /\
    (forall sig, sig ∈ exception_signals -> disposition w' sig = g sig) /\ same_control w2 w' /\ heap_kept w2 w'.
Proof.
  intros R Hrun Hc2 Hd. destruct (cs_mocks _ _ _ Hc2) as (Rs & Ps & Cs & Hm). unfold finish. mrun R.
  destruct (teardown_testing_at w2 Rs Ps Cs a Hm) as (w3 & R3 & Hm3 & _ & _ & Hk3).
  pose proof (keeps_run _ _ _ _ keeps_teardown_testing R3) as Hc.
  pose proof (consistent_step _ _ _ _ _ Hc2 Hk3 Hc Hm3) as Hc3. pose proof Hc as Hc'. unfold control in Hc'. mrun R3. mprim.
  replace (default_signal_functions w3) with (g <$> exception_signals) by congruence.
  destruct (restore_handlers_run g exception_signals w3 exception_signals_NoDup) as (h & R4 & Hh).
  mrun R4. exists (set_signal_handlers h w3). split_and!; [done|cbn; congruence|by apply (consistent_same w3)| | |exact Hk3].
  - intros sig Hin. unfold disposition. cbn. by rewrite (Hh sig Hin).
  - unfold same_control. cbn. split_and!; congruence.
Qed.

Lemma exit_longjmp {A} w : abort_requested w = false -> global_running_test w <> 0 -> @exit_outcome A w = LongJmp.
Proof. intros Ha Hr. unfold exit_outcome. by rewrite Ha, (proj2 (Z.eqb_neq _ _) Hr). Qed.

Lemma abort_requested_control w w' : control w' = control w -> abort_requested w' = abort_requested w.
Proof. unfold control, abort_requested. intros Hc. by replace (global_skip_test w') with (global_skip_test w) by congruence;
  replace (environ w') with (environ w) by congruence. Qed.

(** Without a call of [stop], a longjmp makes the result -1. *)
Lemma test_failed_run w :
  global_stop_test w = 0 -> test_failed w = (Ret (-1), set_global_running_test 0 w).
Proof. intros Hs. unfold test_failed. do 2 mprim. cbn. by rewrite Hs. Qed.

(** After a call of [stop] it is 0 if nothing is left over. *)
Lemma test_stopped_run w a hs :
  global_stop_test w <> 0 -> consistent w a hs ->
  exists w', test_failed w = (Ret (if nothing_left (leftover a) then 0 else -1), w') /\
    global_running_test w' = 0 /\ consistent w' (leftover a) hs /\ same_control (set_global_stop_test 0 w) w' /\ heap_kept w w'.
Proof.
  intros Hs Hc. unfold test_failed. do 2 mprim. cbn [global_stop_test set_global_running_test].
  rewrite (proj2 (Z.eqb_neq _ _) Hs). cbn [negb]. set (w0 := set_global_running_test 0 w).
  assert (consistent w0 a hs) as Hc0 by (by apply (consistent_same w)).
  destruct (has_leftover_values_spec w0 a (cs_mocks _ _ _ Hc0)) as (w1 & R1 & Hm1 & Hk1).
  pose proof (keeps_run _ _ _ _ keeps_has_leftover_values R1) as Hct.
  pose proof (consistent_step _ _ _ _ _ Hc0 Hk1 Hct Hm1) as Hc1. unfold control in Hct. mrun R1. mprim.
  exists (set_global_stop_test 0 w1). cbn in Hct. split_and!; [by destruct (nothing_left _)|cbn; congruence| | |exact Hk1].
  - by apply (consistent_same w1).
  - unfold same_control. cbn. split_and!; congruence.
Qed.

(** ** How a function under the runner leaves it *)

(** What the part of [setjmp]'s body that has returned leaves to do. *)
Lemma setjmp_bind {A B} (m : CM A) (k : A -> CM B) failed w x w' :
  m w = (Ret x, w') -> setjmp (m ≫= k) failed w = setjmp (k x) failed w'.
Proof. intros R. unfold setjmp. by rewrite (bind_run _ _ _ _ _ R). Qed.
Lemma setjmp_longjmp {A B} (m : CM A) (k : A -> CM B) failed w w' :
  m w = (LongJmp, w') -> setjmp (m ≫= k) failed w = failed w'.
Proof. intros R. unfold setjmp. by rewrite (bind_longjmp _ _ _ _ R). Qed.
Lemma setjmp_assoc {A B C} (m : CM A) (k : A -> CM B) (l : B -> CM C) failed w :
  setjmp ((m ≫= k) ≫= l) failed w = setjmp (m ≫= (fun x => k x ≫= l)) failed w.
Proof. unfold setjmp. by rewrite bind_assoc_run. Qed.

(** The state at the end of the body: no test is running. *)
Lemma body_end w2 w3 a3 hs :
  consistent w3 a3 hs -> control w3 = control w2 ->
  let w4 := set_global_running_test 0 w3 in
  global_running_test w4 = 0 /\ consistent w4 a3 hs /\ same_control w2 w4.
Proof.
  intros Hc3 Hct. unfold control in Hct. split_and!; [done|by apply (consistent_same w3)|].
  unfold same_control. cbn. split_and!; congruence.
Qed.

(** The end of the body: the check for leftover expectations. *)
Definition body_tail (rc : Z) : CM Z :=
  fail_if_leftover_values;; modify (set_global_running_test 0);; mret rc.

Lemma body_tail_run w2 a hs rc :
  consistent w2 a hs -> global_running_test w2 <> 0 -> global_stop_test w2 = 0 -> abort_requested w2 = false ->
  exists w3 a3, setjmp (body_tail rc) test_failed w2 = (Ret (if nothing_left (leftover a) then rc else -1), w3) /\
    global_running_test w3 = 0 /\ consistent w3 a3 hs /\ same_control w2 w3 /\ heap_kept w2 w3.
Proof.
  intros Hc2 Hrun Hstop Habort. destruct (fail_if_leftover_values_spec w2 a (cs_mocks _ _ _ Hc2)) as (w3 & Hm3 & R3 & Hk3).
  pose proof (keeps_run _ _ _ _ keeps_fail_if_leftover_values R3) as Hct. pose proof Hct as Hct'. unfold control in Hct'.
  destruct (body_end w2 w3 _ hs (consistent_step _ _ _ _ _ Hc2 Hk3 Hct Hm3) Hct) as (He1 & He2 & He3).
  exists (set_global_running_test 0 w3), (leftover a). unfold body_tail. split; [|by split_and!].
  destruct (nothing_left (leftover a)).
  - by rewrite (setjmp_bind _ _ _ _ _ _ R3).
  - rewrite exit_longjmp in R3; [|by rewrite (abort_requested_control w2)|congruence].
    rewrite (setjmp_longjmp _ _ _ _ _ R3). apply test_failed_run. congruence.
Qed.

(** The same after the check for leaks since the blocks [hs1]. *)
Lemma checked_tail_run w2 a hs1 hs2 name rc :
  consistent w2 a (hs1 ++ hs2) -> all_intact w2 hs2 ->
  global_running_test w2 <> 0 -> global_stop_test w2 = 0 -> abort_requested w2 = false ->
  exists w3 a3, setjmp (fail_if_blocks_allocated (last_block hs1) name;; body_tail rc) test_failed w2 =
      (Ret (if bool_decide (hs2 = []) && nothing_left (leftover a) then rc else -1), w3) /\
    global_running_test w3 = 0 /\ consistent w3 a3 hs1 /\ same_control w2 w3 /\ (hs2 = [] -> heap_kept w2 w3).
Proof.
  intros Hc2 Hall Hrun Hstop Habort. pose proof Hc2 as [Hm Hh Hv Hst].
  destruct (fail_if_blocks_allocated_run w2 hs1 hs2 name Hh Hv) as [Hok Hleak].
  destruct (decide (hs2 = [])) as [Hnil|Hne].
  - rewrite (setjmp_bind _ _ _ _ _ _ (Hok Hnil)), (bool_decide_true _ Hnil). subst hs2. rewrite app_nil_r in Hc2.
    destruct (body_tail_run w2 a hs1 rc Hc2 Hrun Hstop Habort) as (w3 & a3 & R & H1 & H2 & H3 & H4).
    exists w3, a3. by split_and!.
  - rewrite (bool_decide_false _ Hne). cbn [andb]. destruct (Hleak Hne) as (w3 & R3 & Hk & Hheap).
    destruct (Hheap Hall) as [Hh3 Hv3].
    pose proof (keeps_run _ _ _ _ (keeps_fail_if_blocks _ _) R3) as Hct.
    assert (consistent w3 a hs1) as Hc3.
    { split; [by apply (mocks_kept w2)|done|done|by apply (statics_control w2)]. }
    destruct (body_end w2 w3 a hs1 Hc3 Hct) as (He1 & He2 & He3).
    exists (set_global_running_test 0 w3), a. split; [|by split_and!]. unfold control in Hct.
    rewrite exit_longjmp in R3 by done. rewrite (setjmp_longjmp _ _ _ _ _ R3). apply test_failed_run. congruence.
Qed.

(** A longjmp: the result, when [stop] was or was not called. *)
Definition jump_result w a : Z := if negb (global_stop_test w =? 0) && nothing_left (leftover a) then 0 else -1.

Lemma jump_run w2 a hs2 : consistent w2 a hs2 ->
  exists w3 a3, test_failed w2 = (Ret (jump_result w2 a), w3) /\
    global_running_test w3 = 0 /\ consistent w3 a3 hs2 /\ same_control (set_global_stop_test 0 w2) w3 /\ heap_kept w2 w3.
Proof.
  intros Hc2. unfold jump_result. destruct (decide (global_stop_test w2 = 0)) as [Hs|Hs].
  - exists (set_global_running_test 0 w2), a. rewrite (proj2 (Z.eqb_eq _ 0) Hs). cbn [negb andb].
    split_and!; [by apply test_failed_run|done|by apply (consistent_same w2)| |done].
    unfold same_control. cbn. by split_and!.
  - rewrite (proj2 (Z.eqb_neq _ 0) Hs). cbn [negb andb].
    destruct (test_stopped_run w2 a hs2 Hs Hc2) as (w3 & R3 & Hr3 & Hc3 & Hct & Hk). by exists w3, (leftover a).
Qed.

(** ** One function under the runner *)

(** The state in which a function starts. *)
Record entered w w1 hs : Prop := {
  et_consistent : consistent w1 no_expectations hs;
  et_running : global_running_test w1 = 1;
  et_kept : heap_kept w w1;
  et_signals : forall sig, sig ∈ exception_signals -> disposition w1 sig = Exception_handler;
  et_flags : global_skip_test w1 = global_skip_test w /\ global_stop_test w1 = global_stop_test w /\
    environ w1 = environ w /\ state_vars w1 = <[current_state_addr := NULL]> (state_vars w);
}.

(** The address the runner passes. *)
Definition state_arg st : ptr := if negb (st =? NULL) then st else current_state_addr.

(** From the entry of the function to the result: what remains is to see how
    the body ends. *)
Lemma run_phase w hs name tf sf df st cp :
  heap w hs -> bytes_valid w -> statics w ->
  exists w1, entered w w1 hs /\
    forall rc w3 a3 hs3,
      setjmp (run_test_body name tf sf df (state_arg st) (point hs cp)) test_failed w1 = (Ret rc, w3) ->
      global_running_test w3 = 0 -> consistent w3 a3 hs3 -> default_signal_functions w3 = default_signal_functions w1 ->
      exists w', cmocka_run_one_test_or_fixture name tf sf df st cp w = (Ret rc, w') /\
        ended w w' hs3 /\ same_control w3 w' /\ heap_kept w3 w'.
Proof.
  intros Hh Hv Hst.
  destruct (run_one_start w hs name tf sf df st cp Hh Hv Hst)
    as (w1 & Hc1 & Hrun1 & Hk1 & Hsig & Hd1 & Hsk1 & Hs1 & He1 & Hv1 & R).
  exists w1. split; [by split|]. intros rc w3 a3 hs3 R3 Hr3 Hc3 Hd3. rewrite R.
  destruct (finish_run _ _ _ _ _ _ (disposition w) R3 Hr3 Hc3) as (w' & R' & Hr & Hc & Hd & Hct' & Hk); [congruence|].
  exists w'. split; [exact R'|]. by split; [split|].
Qed.

(** The three kinds of functions returning. *)
Lemma test_returned_run w1 w2 a hs1 hs2 name (f : CMUnitTestFunction) sf df addr :
  f addr w1 = (Ret tt, w2) -> consistent w2 a (hs1 ++ hs2) -> all_intact w2 hs2 ->
  global_running_test w2 <> 0 -> global_stop_test w2 = 0 -> abort_requested w2 = false ->
  exists w3 a3, setjmp (run_test_body name (Some f) sf df addr (last_block hs1)) test_failed w1 =
      (Ret (if bool_decide (hs2 = []) && nothing_left (leftover a) then 0 else -1), w3) /\
    global_running_test w3 = 0 /\ consistent w3 a3 hs1 /\ same_control w2 w3 /\ (hs2 = [] -> heap_kept w2 w3).
Proof.
  intros Rf Hc2 Hall Hrun Hstop Habort. unfold run_test_body. rewrite setjmp_assoc, (setjmp_bind _ _ _ _ _ _ Rf), setjmp_assoc.
  exact (checked_tail_run w2 a hs1 hs2 name 0 Hc2 Hall Hrun Hstop Habort).
Qed.

Lemma teardown_returned_run w1 w2 a hs1 hs2 name (f : CMFixtureFunction) rc addr :
  f addr w1 = (Ret rc, w2) -> consistent w2 a (hs1 ++ hs2) -> all_intact w2 hs2 ->
  global_running_test w2 <> 0 -> global_stop_test w2 = 0 -> abort_requested w2 = false ->
  exists w3 a3, setjmp (run_test_body name None None (Some f) addr (last_block hs1)) test_failed w1 =
      (Ret (if bool_decide (hs2 = []) && nothing_left (leftover a) then rc else -1), w3) /\
    global_running_test w3 = 0 /\ consistent w3 a3 hs1 /\ same_control w2 w3 /\ (hs2 = [] -> heap_kept w2 w3).
Proof.
  intros Rf Hc2 Hall Hrun Hstop Habort. unfold run_test_body. rewrite setjmp_assoc, (setjmp_bind _ _ _ _ _ _ Rf), setjmp_assoc.
  exact (checked_tail_run w2 a hs1 hs2 name rc Hc2 Hall Hrun Hstop Habort).
Qed.

Lemma setup_returned_run w1 w2 a hs name (f : CMFixtureFunction) rc addr cp :
  f addr w1 = (Ret rc, w2) -> consistent w2 a hs ->
  global_running_test w2 <> 0 -> global_stop_test w2 = 0 -> abort_requested w2 = false ->
  exists w3 a3, setjmp (run_test_body name None (Some f) None addr cp) test_failed w1 =
      (Ret (if nothing_left (leftover a) then rc else -1), w3) /\
    global_running_test w3 = 0 /\ consistent w3 a3 hs /\ same_control w2 w3 /\ heap_kept w2 w3.
Proof.
  intros Rf Hc2 Hrun Hstop Habort. unfold run_test_body. rewrite (setjmp_bind _ _ _ _ _ _ Rf).
  exact (body_tail_run w2 a hs rc Hc2 Hrun Hstop Habort).
Qed.

(** ... and leaving by a longjmp. *)
Lemma function_jumped name (f : CMUnitTestFunction) sf df addr cp w1 w2 :
  f addr w1 = (LongJmp, w2) -> setjmp (run_test_body name (Some f) sf df addr cp) test_failed w1 = test_failed w2.
Proof. intros Rf. unfold run_test_body. by rewrite setjmp_assoc, (setjmp_longjmp _ _ _ _ _ Rf). Qed.
Lemma teardown_jumped name (f : CMFixtureFunction) addr cp w1 w2 :
  f addr w1 = (LongJmp, w2) -> setjmp (run_test_body name None None (Some f) addr cp) test_failed w1 = test_failed w2.
Proof. intros Rf. unfold run_test_body. by rewrite setjmp_assoc, (setjmp_longjmp _ _ _ _ _ Rf). Qed.
Lemma setup_jumped name (f : CMFixtureFunction) addr cp w1 w2 :
  f addr w1 = (LongJmp, w2) -> setjmp (run_test_body name None (Some f) None addr cp) test_failed w1 = test_failed w2.
Proof. intros Rf. unfold run_test_body. by rewrite (setjmp_longjmp _ _ _ _ _ Rf). Qed.
End proofs.
