(* ===== verification/TestContract.v ===== *)
(** * The contract of a test

    What a test with its fixtures promises the runner, as a game between them:
    the runner starts a function in a state it has prepared, and the function
    ends in a state that is fit for the next step.  A test that keeps the
    contract gets the status the contract states. *)
From S2P Require Import Prelude CMonad CString ListNode World Report Memory SymbolMap Tree SymbolTree Mock FloatCompare Compare Alloc AllocProofs AllocOps AllocLeaks Output OutputProofs Runner Frame MockSpec MockProofs RunnerProofs.

Section contract.
Context `{!Platform, !PlatformLaws}.
Implicit Types (w : World) (hs xs : list ptr) (a : expectations).

(** ** States *)

(** No flag is set that would make the runner end a test in another way. *)
Definition undisturbed w : Prop :=
  global_skip_test w = 0 /\ global_stop_test w = 0 /\ abort_requested w = false.

(** Between the tests of a group: no test is running and the blocks [hs] are
    allocated. *)
Record idle w hs : Prop := {
  id_heap : heap w hs;
  id_bytes : bytes_valid w;
  id_statics : statics w;
  id_running : global_running_test w = 0;
  id_undisturbed : undisturbed w;
}.

(** At the start of a function of the test. *)
Record started w hs : Prop := {
  sd_consistent : consistent w no_expectations hs;
  sd_running : global_running_test w = 1;
  sd_undisturbed : undisturbed w;
}.

(** How a function started in [w1], whose state variable is at [addr], may end:
    the expectations [a] and the blocks [hs] are there. *)
Record left w1 w2 (addr : ptr) a hs : Prop := {
  lf_consistent : consistent w2 a hs;
  lf_running : global_running_test w2 <> 0;
  lf_signals : default_signal_functions w2 = default_signal_functions w1;
  lf_environ : environ w2 = environ w1;
  lf_vars : forall p, p <> addr -> state_vars w2 !! p = state_vars w1 !! p;
}.

(** The next function finds the memory and the state variable as the last one
    left them. *)
Definition resumes (addr : ptr) w w' : Prop :=
  heap_kept w w' /\ state_vars w' !! addr = state_vars w !! addr.

Definition verdict (passes : bool) : CMUnitTestStatus := if passes then CM_TEST_PASSED else CM_TEST_FAILED.

(** The status of a test left by a longjmp: [stop] was called, [skip], or
    neither. *)
Definition jump_verdict w a : CMUnitTestStatus :=
  if jump_result w a =? 0 then CM_TEST_PASSED
  else if global_skip_test w =? 0 then CM_TEST_FAILED else CM_TEST_SKIPPED.

(** ** The contract *)

(** A setup function ends in [w2] with result [rc]; the blocks [hs1] are new. *)
Definition sets_up (f : CMFixtureFunction) addr hs w1 hs1 (rc : Z) w2 : Prop :=
  exists a, left w1 w2 addr a (hs ++ hs1) /\ undisturbed w2 /\
    ((exists r, f addr w1 = (Ret r, w2) /\ rc = if nothing_left (leftover a) then r else -1) \/
     (f addr w1 = (LongJmp, w2) /\ rc = -1)).

(** A test function ends in [w2] with status [s] and the new blocks [hs2]; the
    runner releases those of a function that returns, and [xs] remain. *)
Definition test_ends (f : CMUnitTestFunction) addr hs w1 hs2 xs (s : CMUnitTestStatus) w2 : Prop :=
  exists a, left w1 w2 addr a (hs ++ hs2) /\
    ((f addr w1 = (Ret tt, w2) /\ undisturbed w2 /\ all_intact w2 hs2 /\ xs = [] /\
      s = verdict (bool_decide (hs2 = []) && nothing_left (leftover a))) \/
     (f addr w1 = (LongJmp, w2) /\ xs = hs2 /\ s = jump_verdict w2 a /\
      (s = CM_TEST_PASSED -> global_skip_test w2 = 0))).

(** A teardown function, checked for leaks since [hs], ends with result [rc];
    the blocks [xs] remain. *)
Definition tears_down (f : CMFixtureFunction) addr hs w1 xs (rc : Z) : Prop :=
  exists w2 a hs2, left w1 w2 addr a (hs ++ hs2) /\ undisturbed w2 /\
    ((exists r, f addr w1 = (Ret r, w2) /\ all_intact w2 hs2 /\ xs = [] /\
        rc = if bool_decide (hs2 = []) && nothing_left (leftover a) then r else -1) \/
     (f addr w1 = (LongJmp, w2) /\ xs = hs2 /\ rc = -1)).

Section test.
Context (t : CMUnitTest) (addr : ptr) (hs : list ptr) (s : CMUnitTestStatus) (leaks : bool).

(** [xs]: the blocks that remain at the end of the test. *)
Definition remain xs : Prop := leaks = negb (bool_decide (xs = [])).

(** After the test function, with status [s0]: the blocks [hs1] of the setup
    and [xs] of the test are there. *)
Definition then_teardown hs1 xs s0 w5 : Prop :=
  match ut_teardown_func t with
  | None => s = s0 /\ remain (hs1 ++ xs)
  | Some g => exists ys rc, s = (if rc =? 0 then s0 else CM_TEST_ERROR) /\
      match ut_setup_func t with
      | Some _ => tears_down g addr hs w5 ys rc /\ remain ys
      | None => tears_down g addr (hs ++ hs1 ++ xs) w5 ys rc /\ remain (hs1 ++ xs ++ ys)
      end
  end.

(** From the start of the test function on. *)
Definition then_test hs1 w3 : Prop :=
  exists f hs2 xs s0 w4, ut_test_func t = Some f /\ test_ends f addr (hs ++ hs1) w3 hs2 xs s0 w4 /\
    forall w5, started w5 (hs ++ hs1 ++ xs) -> (xs = hs2 -> resumes addr w4 w5) -> then_teardown hs1 xs s0 w5.

(** From the start of the setup function, or of the test, on. *)
Definition then_setup w1 : Prop :=
  match ut_setup_func t with
  | None => then_test [] w1
  | Some f => exists hs1 rc w2, sets_up f addr hs w1 hs1 rc w2 /\
      if rc =? 0 then forall w3, started w3 (hs ++ hs1) -> resumes addr w2 w3 -> then_test hs1 w3
      else s = CM_TEST_ERROR /\ remain hs1
  end.
End test.

(** The test [t], whose state variable holds [start], gets the status [s], and
    leaks if [leaks]. *)
Definition performs (t : CMUnitTest) (start : ptr) (s : CMUnitTestStatus) (leaks : bool) : Prop :=
  forall addr hs w1, addr <> NULL -> addr <> current_state_addr -> started w1 hs ->
    state_vars w1 !! addr = Some start -> then_setup t addr hs s leaks w1.

(** ** Lemmas on the states *)

Lemma undisturbed_same w w' : same_control w w' -> undisturbed w -> undisturbed w'.
Proof.
  intros (Hd & Hk & Hv & He & Hs) (F1 & F2 & F3). unfold undisturbed, abort_requested in *.
  by rewrite Hk, Hs, He.
Qed.

Lemma undisturbed_talks w w' : talks w w' -> undisturbed w -> undisturbed w'.
Proof. by intros (so & se & m & o & c & v & f & x & p & e & ->). Qed.

Lemma idle_talks w w' hs : talks w w' -> idle w hs -> idle w' hs.
Proof.
  intros Ht [Hh Hb Hs Hr Hu]. pose proof (undisturbed_talks _ _ Ht Hu).
  destruct Ht as (so & se & m & o & c & v & f & x & p & e & ->). split; [by apply (heap_same w)|done..].
Qed.

Lemma idle_same w w' hs :
  same_mem w w' -> raw w' = raw w -> bytes w' = bytes w -> global_running_test w' = 0 -> undisturbed w' ->
  idle w hs -> idle w' hs.
Proof.
  intros [Hb Hi] Hr Hy Hrun Hu [Hh Hv Hs _ _]. split; [| | |done..].
  - apply (heap_same w); [|done]. split_and!; [done..|]. intros x _. by rewrite Hb, Hi.
  - unfold bytes_valid. by rewrite Hy.
  - intros h Hin. unfold node_at. rewrite Hb. by apply Hs.
Qed.

Lemma ended_idle w w' hs : ended w w' hs -> undisturbed w' -> idle w' hs.
Proof. intros [Hr [_ Hh Hb Hs] _] Hu. by split. Qed.

(** The start of a function in a test. *)
Lemma entered_started w w1 hs : undisturbed w -> entered w w1 hs -> started w1 hs.
Proof.
  intros (F1 & F2 & F3) [Hc Hr _ _ (Hk & Hs & He & _)]. split; [done..|].
  unfold undisturbed, abort_requested in *. by rewrite Hk, Hs, He.
Qed.

Lemma entered_resumes addr w w1 hs : addr <> current_state_addr -> entered w w1 hs -> resumes addr w w1.
Proof.
  intros Ha [_ _ Hk _ (_ & _ & _ & Hv)]. split; [done|]. rewrite Hv. by apply lookup_insert_ne.
Qed.

#[export] Instance resumes_preorder addr : PreOrder (resumes addr).
Proof.
  split; [done|]. intros w1 w2 w3 [K1 V1] [K2 V2]. split; [by etrans|congruence].
Qed.

(** The variables of the other tests. *)
Definition others addr w w' : Prop :=
  forall p, p <> addr -> p <> current_state_addr -> state_vars w' !! p = state_vars w !! p.

#[export] Instance others_preorder addr : PreOrder (others addr).
Proof. split; [done|]. intros w1 w2 w3 O1 O2 p Hp Hc. by rewrite O2, O1. Qed.

Lemma entered_others addr w w1 hs : entered w w1 hs -> others addr w w1.
Proof. intros [_ _ _ _ (_ & _ & _ & Hv)] p Hp Hc. rewrite Hv. by apply lookup_insert_ne. Qed.
Lemma left_others addr w1 w2 a hs : left w1 w2 addr a hs -> others addr w1 w2.
Proof. intros Hl p Hp _. by apply (lf_vars _ _ _ _ _ Hl). Qed.
Lemma same_others addr w w' : state_vars w' = state_vars w -> others addr w w'.
Proof. by intros Hv p _ _; rewrite Hv. Qed.
End contract.
