(* ===== verification/TestRun.v ===== *)
(** * A test that keeps its contract

    The runner takes a test with its fixtures through the contract of
    TestContract.v: every function is started in the state the contract
    expects, and the status is the one the contract states. *)
From S2P Require Import Prelude CMonad CString ListNode World Report Memory SymbolMap Tree SymbolTree Mock FloatCompare Compare Alloc AllocProofs AllocOps AllocLeaks Output OutputProofs Runner Frame MockSpec MockProofs RunnerProofs TestContract.

Section runs.
Context `{!Platform, !PlatformLaws}.
Implicit Types (w : World) (hs xs : list ptr) (a : expectations).

Lemma state_arg_addr st : st <> NULL -> state_arg st = st.
Proof. intros Hs. unfold state_arg. by rewrite (proj2 (Z.eqb_neq _ _) Hs). Qed.

(** The flags survive the end of the body. *)
Lemma same_flags w w' : same_control w w' -> environ w' = environ w /\ state_vars w' = state_vars w.
Proof. by intros (_ & _ & Hv & He & _). Qed.

Lemma undisturbed_left w1 w2 w' addr a hs :
  undisturbed w1 -> left w1 w2 addr a hs -> environ w' = environ w2 ->
  global_skip_test w' = 0 -> global_stop_test w' = 0 -> undisturbed w'.
Proof.
  intros (F1 & F2 & F3) Hl He Hk Hs. unfold undisturbed, abort_requested in *.
  rewrite Hk, He, (lf_environ _ _ _ _ _ Hl). by rewrite F1 in F3.
Qed.

(** From the end of a function to the state in which the next one can start. *)
Lemma phase_ends w w1 w2 w3 w' addr a hs hs' hs3 :
  entered w w1 hs -> left w1 w2 addr a hs' -> same_control w2 w3 -> ended w w' hs3 -> same_control w3 w' ->
  undisturbed w' -> idle w' hs3 /\ others addr w w'.
Proof.
  intros He Hl Hc Hen Hc' Hu. split; [by eapply ended_idle|].
  etrans; [by eapply entered_others|]. etrans; [by eapply left_others|].
  apply same_others. destruct (same_flags _ _ Hc) as [_ ->%symmetry], (same_flags _ _ Hc') as [_ ->]. done.
Qed.

Lemma kept_resumes addr w2 w3 w' : heap_kept w2 w3 -> heap_kept w3 w' ->
  state_vars w3 = state_vars w2 -> state_vars w' = state_vars w3 -> resumes addr w2 w'.
Proof. intros K3 K' V3 V'. split; [by etrans|by rewrite V', V3]. Qed.

Lemma ended_cleared w w' hs :
  ended w w' hs -> undisturbed (set_global_skip_test 0 w') -> idle (set_global_skip_test 0 w') hs.
Proof.
  intros [Hr Hc _] Hu. destruct (consistent_same w' (set_global_skip_test 0 w') _ _ ltac:(done) eq_refl eq_refl Hc).
  by split.
Qed.

(** ** Setup *)

Lemma setup_run (f : CMFixtureFunction) name st cp w hs :
  idle w hs -> st <> NULL ->
  exists w1, entered w w1 hs /\ forall hs1 rc w2, sets_up f st hs w1 hs1 rc w2 ->
    exists w', cmocka_run_one_test_or_fixture name None (Some f) None st cp w = (Ret rc, w') /\
      idle w' (hs ++ hs1) /\ resumes st w2 w' /\ others st w w'.
Proof.
  intros [Hh Hv Hs _ Hu] Hst. destruct (run_phase w hs name None (Some f) None st cp Hh Hv Hs) as (w1 & He & Hphase).
  rewrite state_arg_addr in Hphase by done. exists w1. split; [done|]. intros hs1 rc w2 (a & Hl & Hu2 & Hend).
  assert (exists w3 a3, setjmp (run_test_body name None (Some f) None st (point hs cp)) test_failed w1 = (Ret rc, w3) /\
    global_running_test w3 = 0 /\ consistent w3 a3 (hs ++ hs1) /\ same_control w2 w3 /\ heap_kept w2 w3)
    as (w3 & a3 & R3 & Hr3 & Hc3 & Hct & Hk3).
  { destruct Hend as [(r & Rf & ->)|[Rf ->] ].
    - apply (setup_returned_run w1 w2 a (hs ++ hs1) name f r st _ Rf); [apply Hl|apply Hl|apply Hu2..].
    - rewrite (setup_jumped name f st _ w1 w2 Rf). destruct (jump_run w2 a (hs ++ hs1)) as (w3 & a3 & R3 & Hr & Hc & Hct & Hk); [apply Hl|].
      exists w3, a3. assert (global_stop_test w2 = 0) as Hstop by apply Hu2. unfold jump_result in R3. rewrite Hstop in R3.
      split_and!; try done. unfold same_control in *. cbn in Hct. by rewrite Hstop. }
  destruct (Hphase rc w3 a3 _ R3 Hr3 Hc3) as (w' & R & Hen & Hct' & Hk'); [rewrite (proj1 Hct); apply Hl|].
  exists w'. destruct (phase_ends w w1 w2 w3 w' st a hs _ _ He Hl Hct Hen Hct') as [Hid Ho].
  { by eapply undisturbed_same, undisturbed_same. }
  split_and!; [done..| |done]. eapply kept_resumes; [done..|by apply same_flags|by apply same_flags].
Qed.

(** ** Test *)

(** What the runner sees of a test function: the result, and the flag of [skip]. *)
Lemma function_run (f : CMUnitTestFunction) name st w hs :
  idle w hs -> st <> NULL ->
  exists w1, entered w w1 hs /\ forall hs2 xs s w2, test_ends f st hs w1 hs2 xs s w2 ->
    exists rc w', cmocka_run_one_test_or_fixture name (Some f) None None st NULL w = (Ret rc, w') /\
      s = (if rc =? 0 then CM_TEST_PASSED else if global_skip_test w' =? 0 then CM_TEST_FAILED else CM_TEST_SKIPPED) /\
      (rc = 0 -> global_skip_test w' = 0) /\
      idle (set_global_skip_test 0 w') (hs ++ xs) /\ (xs = hs2 -> resumes st w2 w') /\ others st w w'.
Proof.
  intros [Hh Hv Hs _ Hu] Hst. destruct (run_phase w hs name (Some f) None None st NULL Hh Hv Hs) as (w1 & He & Hphase).
  rewrite state_arg_addr in Hphase by done. exists w1. split; [done|]. intros hs2 xs s w2 (a & Hl & Hend).
  pose proof (sd_undisturbed _ _ (entered_started _ _ _ Hu He)) as Hu1.
  assert (exists rc w3 a3, setjmp (run_test_body name (Some f) None None st (last_block hs)) test_failed w1 = (Ret rc, w3) /\
    global_running_test w3 = 0 /\ consistent w3 a3 (hs ++ xs) /\ same_control (set_global_stop_test 0 w2) w3 /\
    (xs = hs2 -> heap_kept w2 w3) /\ (rc = 0 -> global_skip_test w2 = 0) /\
    s = (if rc =? 0 then CM_TEST_PASSED else if global_skip_test w2 =? 0 then CM_TEST_FAILED else CM_TEST_SKIPPED))
    as (rc & w3 & a3 & R3 & Hr3 & Hc3 & Hct & Hk3 & Hskip & Hs3).
  { destruct Hend as [(Rf & Hu2 & Hall & -> & ->)|(Rf & -> & -> & Hkeep)].
    - destruct (test_returned_run w1 w2 a hs hs2 name f None None st Rf) as (w3 & a3 & R3 & Hr & Hc & Hct & Hk);
        [apply Hl|done|apply Hl|apply Hu2..|].
      eexists _, w3, a3. rewrite app_nil_r. assert (global_stop_test w2 = 0 /\ global_skip_test w2 = 0) as [Hz Hz'] by (by destruct Hu2 as (? & ? & _)).
      split_and!; [exact R3|done|done|by unfold same_control in *; cbn; rewrite <-Hz|by intros <-; auto|done|].
      rewrite Hz'. by destruct (bool_decide (hs2 = []) && nothing_left (leftover a)).
    - rewrite (function_jumped name f None None st _ w1 w2 Rf). destruct (jump_run w2 a (hs ++ hs2)) as (w3 & a3 & R3 & Hr & Hc & Hct & Hk); [apply Hl|].
      exists (jump_result w2 a), w3, a3. split_and!; try done. intros E. apply Hkeep. unfold jump_verdict. by rewrite E. }
  destruct (Hphase rc w3 a3 _ R3 Hr3 Hc3) as (w' & R & Hen & Hct' & Hk').
  { rewrite (proj1 Hct). apply Hl. }
  exists rc, w'. assert (global_skip_test w' = global_skip_test w2) as Hk2.
  { destruct Hct as (_ & K & _), Hct' as (_ & K' & _). by rewrite K', K. }
  rewrite Hk2. split_and!; [done..| | |].
  - apply (ended_cleared w w'); [exact Hen|].
    eapply (undisturbed_left w1 w2); [done|done| |done|].
    + destruct (same_flags _ _ Hct) as [E _], (same_flags _ _ Hct') as [E' _]. cbn in *. by rewrite E', E.
    + destruct Hct as (_ & _ & _ & _ & K), Hct' as (_ & _ & _ & _ & K'). cbn. by rewrite K', K.
  - intros Hx. eapply kept_resumes; [by apply Hk3|done|by destruct (same_flags _ _ Hct)|by apply same_flags].
  - etrans; [by eapply entered_others|]. etrans; [by eapply left_others|].
    etrans; [|by apply same_others, same_flags]. by apply same_others; destruct (same_flags _ _ Hct).
Qed.

(** ** Teardown *)

Lemma teardown_run (f : CMFixtureFunction) name st cp w hs hs' :
  idle w (hs ++ hs') -> st <> NULL -> point (hs ++ hs') cp = last_block hs ->
  exists w1, entered w w1 (hs ++ hs') /\ forall xs rc, tears_down f st hs w1 xs rc ->
    exists w', cmocka_run_one_test_or_fixture name None None (Some f) st cp w = (Ret rc, w') /\
      idle w' (hs ++ xs) /\ others st w w'.
Proof.
  intros [Hh Hv Hs Hu] Hst Hcp. destruct (run_phase w _ name None None (Some f) st cp Hh Hv Hs) as (w1 & He & Hphase).
  rewrite state_arg_addr, Hcp in Hphase by done. exists w1. split; [done|]. intros xs rc (w2 & a & hs2 & Hl & Hu2 & Hend).
  assert (exists w3 a3, setjmp (run_test_body name None None (Some f) st (last_block hs)) test_failed w1 = (Ret rc, w3) /\
    global_running_test w3 = 0 /\ consistent w3 a3 (hs ++ xs) /\ same_control w2 w3)
    as (w3 & a3 & R3 & Hr3 & Hc3 & Hct).
  { destruct Hend as [(r & Rf & Hall & -> & ->)|(Rf & -> & ->)].
    - rewrite app_nil_r. destruct (teardown_returned_run w1 w2 a hs hs2 name f r st Rf) as (w3 & a3 & R3 & Hr & Hc & Hct & _);
        [apply Hl|done|apply Hl|apply Hu2..|]. by exists w3, a3.
    - rewrite (teardown_jumped name f st _ w1 w2 Rf). destruct (jump_run w2 a (hs ++ hs2)) as (w3 & a3 & R3 & Hr & Hc & Hct & _); [apply Hl|].
      exists w3, a3. assert (global_stop_test w2 = 0) as Hstop by apply Hu2. unfold jump_result in R3. rewrite Hstop in R3.
      split_and!; try done. unfold same_control in *. cbn in Hct. by rewrite Hstop. }
  destruct (Hphase rc w3 a3 _ R3 Hr3 Hc3) as (w' & R & Hen & Hct' & _); [rewrite (proj1 Hct); apply Hl|].
  exists w'. split; [done|]. eapply (phase_ends w w1 w2 w3 w'); [done..|]. by eapply undisturbed_same, undisturbed_same.
Qed.

(** ** The parts of one test *)

Section test.
Context (hs : list ptr) (s : CMUnitTestStatus) (leaks : bool).
Implicit Types t : CMUnitTestState.

(** The state variable is that of an element of the test array, and the check
    point is that of the setup. *)
Definition set_up t hs : Prop :=
  ts_state t <> NULL /\ ts_state t <> current_state_addr /\
  ts_check_point t = if ut_setup_func (ts_test t) is Some _ then last_block hs else NULL.

Lemma idle_clock w hs' : idle w hs' -> idle (set_clock (S (clock w)) w) hs'.
Proof. intros Hid. apply (idle_same w); [done..|apply Hid|apply Hid|done]. Qed.
Lemma idle_printed w w' hs' : quiet w w' -> idle w hs' -> idle w' hs'.
Proof. intros Hq. by apply idle_talks, quiet_talks. Qed.
Lemma quiet_others addr w w' : quiet w w' -> others addr w w'.
Proof. intros (m & e & o & c & ->). by apply same_others. Qed.

Lemma test_part t hs1 w :
  idle w (hs ++ hs1) -> set_up t hs ->
  (forall w3, started w3 (hs ++ hs1) -> resumes (ts_state t) w w3 -> then_test (ts_test t) (ts_state t) hs s leaks hs1 w3) ->
  exists s0 xs w', run_test t w = (Ret (with_status s0 t), w') /\ idle w' (hs ++ hs1 ++ xs) /\ others (ts_state t) w w' /\
    forall w5, started w5 (hs ++ hs1 ++ xs) -> resumes (ts_state t) w' w5 ->
      then_teardown (ts_test t) (ts_state t) hs s leaks hs1 xs s0 w5.
Proof.
  intros Hid (Hst & Hcur & _) K. pose proof (id_undisturbed _ _ Hid) as Hu.
  assert (forall f, exists w1, entered w w1 (hs ++ hs1) /\ forall hs2 xs s w2, test_ends f (ts_state t) (hs ++ hs1) w1 hs2 xs s w2 -> _) as Hf
    by (intros f; exact (function_run f (test_name (ts_test t)) (ts_state t) w (hs ++ hs1) Hid Hst)).
  destruct (ut_test_func (ts_test t)) as [f|] eqn:Ef.
  2:{ destruct (Hf (fun _ => mret tt)) as (w1 & He & _).
      destruct (K w1 (entered_started _ _ _ Hu He) (entered_resumes _ _ _ _ Hcur He)) as (f & _ & _ & _ & _ & E & _). congruence. }
  destruct (Hf f) as (w1 & He & Hrun).
  destruct (K w1 (entered_started _ _ _ Hu He) (entered_resumes _ _ _ _ Hcur He))
    as (f' & hs2 & xs & s0 & w4 & E & Hend & Htd). assert (f' = f) as -> by congruence.
  destruct (Hrun hs2 xs s0 w4 Hend) as (rc & w' & R & Hs0 & Hz & Hid' & Hres & Ho).
  rewrite <-app_assoc in Hid'. unfold run_test. rewrite Ef. exists s0, xs.
  assert (forall w'', others (ts_state t) w' w'' -> resumes (ts_state t) w' w'' -> idle w'' (hs ++ hs1 ++ xs) ->
    idle w'' (hs ++ hs1 ++ xs) /\ others (ts_state t) w w'' /\ forall w5, started w5 (hs ++ hs1 ++ xs) -> resumes (ts_state t) w'' w5 ->
      then_teardown (ts_test t) (ts_state t) hs s leaks hs1 xs s0 w5) as Hnext.
  { intros w'' Ho' Hr' Hi'. split; [done|]. split; [by etrans|]. intros w5 Hs5 Hr5. apply Htd; [done|].
    intros Hx. etrans; [by apply Hres|]. by etrans. }
  destruct (rc =? 0) eqn:Erc.
  - subst s0. zbool. exists w'. mrun R. rewrite (proj2 (Z.eqb_eq rc 0)) by done. split; [done|]. apply Hnext; [done..|].
    assert (set_global_skip_test 0 w' = w') as <- by (rewrite <-(Hz Erc); by destruct w'). done.
  - mrun R. rewrite Erc. mprim. destruct (global_skip_test w' =? 0) eqn:Ek; subst s0; cbn [negb].
    + exists w'. split; [done|]. apply Hnext; [done..|]. zbool.
      assert (set_global_skip_test 0 w' = w') as <- by (rewrite <-Ek; by destruct w'). done.
    + exists (set_global_skip_test 0 w'). split; [done|]. by apply Hnext.
Qed.

Lemma point_null hs' : point hs' NULL = last_block hs'.
Proof. done. Qed.
Lemma point_heap w hs' xs : heap w (hs' ++ xs) -> point (hs' ++ xs) (last_block hs') = last_block hs'.
Proof. intros Hh. unfold point. by rewrite (proj2 (Z.eqb_neq _ _) (last_block_not_NULL w hs' xs Hh)). Qed.

Lemma teardown_part t hs1 xs s0 w :
  idle w (hs ++ hs1 ++ xs) -> set_up t hs -> ts_status t = s0 ->
  (forall w5, started w5 (hs ++ hs1 ++ xs) -> resumes (ts_state t) w w5 ->
    then_teardown (ts_test t) (ts_state t) hs s leaks hs1 xs s0 w5) ->
  exists rc t' w' zs, run_teardown 0 t w = (Ret (rc, t'), w') /\ ts_status t' = s /\ idle w' (hs ++ zs) /\
    remain leaks zs /\ others (ts_state t) w w'.
Proof.
  intros Hid (Hst & Hcur & Hcp) Hs0 K. pose proof (id_undisturbed _ _ Hid) as Hu. unfold run_teardown, then_teardown in *.
  destruct (ut_teardown_func (ts_test t)) as [g|]; cbn [Z.eqb].
  2:{ destruct (run_phase w _ "" None None None NULL NULL (id_heap _ _ Hid) (id_bytes _ _ Hid) (id_statics _ _ Hid)) as (w1 & He & _).
      destruct (K w1 (entered_started _ _ _ Hu He) (entered_resumes _ _ _ _ Hcur He)) as [-> Hr].
      by exists 0, t, w, (hs1 ++ xs). }
  assert (exists hs' ys', hs ++ hs1 ++ xs = hs' ++ ys' /\ point (hs' ++ ys') (ts_check_point t) = last_block hs' /\
    forall w5, started w5 (hs' ++ ys') -> resumes (ts_state t) w w5 -> exists ys rc zs, s = (if rc =? 0 then s0 else CM_TEST_ERROR) /\
      tears_down g (ts_state t) hs' w5 ys rc /\ remain leaks zs /\ hs' ++ ys = hs ++ zs) as (hs' & ys' & E & Hpt & K').
  { destruct (ut_setup_func (ts_test t)) eqn:Es; rewrite Hcp.
    - exists hs, (hs1 ++ xs). split; [done|]. split; [eapply point_heap, Hid|]. intros w5 H5 R5.
      destruct (K w5 H5 R5) as (ys & rc & E & T & R). by exists ys, rc, ys.
    - exists (hs ++ hs1 ++ xs), []. rewrite !app_nil_r. split_and!; [done..|]. intros w5 H5 R5.
      destruct (K w5 H5 R5) as (ys & rc & E & T & R). exists ys, rc, (hs1 ++ xs ++ ys). by rewrite <-!app_assoc. }
  rewrite E in Hid. destruct (teardown_run g (test_name (ts_test t)) (ts_state t) (ts_check_point t) w hs' ys' Hid Hst Hpt)
    as (w1 & He & Hrun).
  destruct (K' w1 (entered_started _ _ _ Hu He) (entered_resumes _ _ _ _ Hcur He)) as (ys & rc & zs & -> & Htd & Hr & Ez).
  destruct (Hrun ys rc Htd) as (w' & R & Hid' & Ho). mrun R. rewrite Ez in Hid'. destruct (rc =? 0); cbn [negb].
  - by exists rc, t, w', zs.
  - destruct (prints_cmocka_print_error "Test teardown failed" w') as (w2 & R2 & Q2). mrun R2.
    exists rc, (with_status CM_TEST_ERROR t), w2, zs. split_and!; [done|done|by eapply idle_printed|done|].
    etrans; [done|by apply quiet_others].
Qed.
End test.

(** ** The whole test *)

Lemma clock_run w : exists x, clock_gettime w = (Ret x, set_clock (S (clock w)) w).
Proof. by eexists. Qed.

(** After the setup: the test, the teardown and the report. *)
Definition rest_of_test (rc : Z) (t : CMUnitTestState) : CM (Z * CMUnitTestState) :=
  start ← clock_gettime;
  t ← (if rc =? 0 then run_test t else mret t);
  finish ← clock_gettime;
  rt ← run_teardown rc (with_runtime (cm_secdiff finish start) t);
  let '(rc, t) := rt in
  message ← gets cm_error_message;
  modify (set_cm_error_message None);;
  mret (rc, with_error_message message t).

(** The status and the remaining blocks of a test whose contract says so. *)
Definition result_of (t : CMUnitTestState) s leaks hs w (m : outcome (Z * CMUnitTestState) * World) : Prop :=
  exists rc t' w' xs, m = (Ret (rc, t'), w') /\ ts_status t' = s /\ idle w' (hs ++ xs) /\ remain leaks xs /\
    others (ts_state t) w w'.

Lemma rest_passed t hs s leaks hs1 w :
  idle w (hs ++ hs1) -> set_up t hs ->
  (forall w3, started w3 (hs ++ hs1) -> resumes (ts_state t) w w3 -> then_test (ts_test t) (ts_state t) hs s leaks hs1 w3) ->
  result_of t s leaks hs w (rest_of_test 0 t w).
Proof.
  intros Hid Hup K. unfold rest_of_test. cbn [Z.eqb].
  destruct (clock_run w) as [start Rc]. mrun Rc. set (w1 := set_clock (S (clock w)) w).
  destruct (test_part hs s leaks t hs1 w1) as (s0 & xs & w2 & R2 & Hid2 & Ho2 & K2); [by apply idle_clock|done|exact K|].
  mrun R2. destruct (clock_run w2) as [finish Rf]. mrun Rf. set (w3 := set_clock (S (clock w2)) w2).
  destruct (teardown_part hs s leaks (with_runtime (cm_secdiff finish start) (with_status s0 t)) hs1 xs s0 w3)
    as (rc & t' & w4 & zs & R4 & Hs & Hid4 & Hr & Ho4); [by apply idle_clock|done|done|exact K2|].
  mrun R4. do 2 mprim. eexists _, _, _, zs. split_and!; [done|done| |done|].
  - apply (idle_same w4); [done..|apply Hid4|apply Hid4|done].
  - transitivity w2; [exact Ho2|]. transitivity w4; [exact Ho4|by apply same_others].
Qed.

Lemma rest_failed rc t hs s leaks hs1 w :
  rc <> 0 -> idle w (hs ++ hs1) -> ts_status t = s -> remain leaks hs1 -> result_of t s leaks hs w (rest_of_test rc t w).
Proof.
  intros Hrc Hid Hs Hr. unfold rest_of_test. apply Z.eqb_neq in Hrc as E. rewrite E.
  destruct (clock_run w) as [start Rc]. mrun Rc. mprim. set (w1 := set_clock (S (clock w)) w).
  destruct (clock_run w1) as [finish Rf]. mrun Rf. unfold run_teardown. rewrite E.
  assert (idle (set_cm_error_message None (set_clock (S (clock w1)) w1)) (hs ++ hs1)) as Hid'
    by (apply (idle_same w); [done..|apply Hid|apply Hid|done]).
  destruct (ut_teardown_func _); do 3 mprim; (eexists _, _, _, hs1; split_and!; [done|done|exact Hid'|done|by apply same_others]).
Qed.

(** The run of a setup function: the test goes on or is an error. *)
Lemma setup_part t f start s leaks w hs :
  performs (ts_test t) start s leaks -> idle w hs -> ts_state t <> NULL -> ts_state t <> current_state_addr ->
  state_vars w !! ts_state t = Some start -> ut_setup_func (ts_test t) = Some f ->
  let t1 := with_check_point (last_block hs) t in
  exists hs1 w', idle w' (hs ++ hs1) /\ others (ts_state t) w w' /\
    ((run_setup t w = (Ret (0, t1), w') /\
      forall w3, started w3 (hs ++ hs1) -> resumes (ts_state t) w' w3 -> then_test (ts_test t) (ts_state t) hs s leaks hs1 w3) \/
     (exists rc, run_setup t w = (Ret (rc, with_status CM_TEST_ERROR t1), w') /\ rc <> 0 /\ s = CM_TEST_ERROR /\ remain leaks hs1)).
Proof.
  intros Hp Hid Hst Hcur Hv Es t1. pose proof (id_undisturbed _ _ Hid) as Hu. unfold performs, then_setup in Hp. rewrite Es in Hp.
  unfold run_setup. rewrite Es.
  assert (check_point_allocated_blocks w = (Ret (last_block hs), w)) as Rc.
  { unfold check_point_allocated_blocks. mrun (get_list_run w _ (id_heap _ _ Hid)). apply heap_prev, Hid. }
  mrun Rc. fold t1.
  destruct (setup_run f (test_name (ts_test t1)) (ts_state t1) (last_block hs) w hs Hid Hst) as (w1 & He & Hrun).
  destruct (entered_resumes _ _ _ _ Hcur He) as [_ V1].
  destruct (Hp _ hs w1 Hst Hcur (entered_started _ _ _ Hu He) ltac:(congruence)) as (hs1 & rc & w2 & Hset & K).
  destruct (Hrun hs1 rc w2 Hset) as (w' & R & Hid' & Hres & Ho). mrun R.
  destruct (rc =? 0) eqn:Erc; cbn [negb]; zbool.
  - subst rc. exists hs1, w'. split_and!; [done..|]. left. split; [done|]. intros w3 S3 R3. apply K; [done|by etrans].
  - destruct (prints_cmocka_print_error "Test setup failed" w') as (w4 & R4 & Q4). mrun R4. destruct K as [-> Hr].
    exists hs1, w4. split_and!; [by eapply idle_printed|etrans; [done|by apply quiet_others]|]. right. by exists rc.
Qed.

Lemma run_one_tests_performs t start s leaks w hs :
  performs (ts_test t) start s leaks -> idle w hs -> ts_state t <> NULL -> ts_state t <> current_state_addr ->
  ts_check_point t = NULL -> state_vars w !! ts_state t = Some start ->
  result_of t s leaks hs w (cmocka_run_one_tests t w).
Proof.
  intros Hp Hid Hst Hcur Hcp Hv.
  change (cmocka_run_one_tests t) with (rt ← run_setup t; let '(rc, t) := rt in rest_of_test rc t).
  destruct (ut_setup_func (ts_test t)) as [f|] eqn:Es.
  - destruct (setup_part t f start s leaks w hs Hp Hid Hst Hcur Hv Es) as (hs1 & w' & Hid' & Ho & Hend).
    assert (forall t1 m, ts_state t1 = ts_state t -> result_of t1 s leaks hs w' m -> result_of t s leaks hs w m) as Hback.
    { intros t1 m E (rc & t' & w'' & xs & -> & ? & ? & ? & Ho'). rewrite E in Ho'. exists rc, t', w'', xs. split_and!; [done..|by etrans]. }
    destruct Hend as [ [R K]|(rc & R & Hrc & -> & Hr)]; mrun R.
    + apply (Hback (with_check_point (last_block hs) t)); [done|].
      apply (rest_passed _ hs s leaks hs1); [done|unfold set_up; cbn; by rewrite Es|exact K].
    + apply (Hback (with_status CM_TEST_ERROR (with_check_point (last_block hs) t))); [done|].
      by apply (rest_failed rc _ hs CM_TEST_ERROR leaks hs1).
  - assert (run_setup t w = (Ret (0, t), w)) as R by (unfold run_setup; by rewrite Es). mrun R.
    apply (rest_passed t hs s leaks []); [by rewrite app_nil_r|unfold set_up; by rewrite Es|].
    rewrite app_nil_r. intros w3 S3 [_ V3]. unfold performs, then_setup in Hp. rewrite Es in Hp. apply Hp; [done..|congruence].
Qed.
End runs.
