(* ===== verification/GroupProofs.v ===== *)
(** * How the tests of a group run

    The statuses and the totals of the tests of a group, and the run of tests
    that keep the contract of TestContract.v. *)
From S2P Require Import Prelude CMonad CString ListNode World Report Memory SymbolMap Tree SymbolTree Mock FloatCompare Compare Alloc AllocProofs AllocOps AllocLeaks Output OutputProofs Runner Frame MockSpec MockProofs RunnerProofs TestContract TestRun.

(** ** Statuses and totals *)

(** How many tests have the status [s]. *)
Definition with_count (s : CMUnitTestStatus) (ts : list CMUnitTestState) : nat :=
  length (filter (fun t => ts_status t = s) ts).

Lemma with_count_statuses s ts : with_count s ts = length (filter (fun x => x = s) (ts_status <$> ts)).
Proof.
  unfold with_count. induction ts as [|t ts IH]; [done|]. rewrite fmap_cons, !filter_cons.
  case_decide; cbn [length]; by rewrite IH.
Qed.

(** [c'] is [c] with the results [ts] counted in. *)
Definition counted (c c' : totals) (ts : list CMUnitTestState) : Prop :=
  total_executed c' = (total_executed c + length ts)%nat /\
  total_passed c' = (total_passed c + with_count CM_TEST_PASSED ts)%nat /\
  total_failed c' = (total_failed c + with_count CM_TEST_FAILED ts)%nat /\
  total_errors c' = (total_errors c + with_count CM_TEST_ERROR ts)%nat /\
  total_skipped c' = (total_skipped c + with_count CM_TEST_SKIPPED ts)%nat.

(** The result [rc] of a test and its status. *)
Definition status_fits (rc : Z) (t : CMUnitTestState) : Prop :=
  if rc =? 0 then ts_status t ∈ [CM_TEST_PASSED; CM_TEST_FAILED; CM_TEST_SKIPPED] else ts_status t = CM_TEST_ERROR.

Lemma counted_nil c : counted c c [].
Proof. unfold counted. cbn. by rewrite !Nat.add_0_r. Qed.

Lemma count_result_counted rc t c ty msg c1 c2 ts :
  status_fits rc t -> count_result rc t c = (ty, msg, c1) -> counted c1 c2 ts -> counted c c2 (t :: ts).
Proof.
  unfold status_fits, count_result, counted, with_count. rewrite !filter_cons.
  intros Hf Hc (H1 & H2 & H3 & H4 & H5).
  assert (forall s, ts_status t = s -> c1 = mkTotals
    (total_failed c + if decide (s = CM_TEST_FAILED) then 1 else 0)%nat (total_passed c + if decide (s = CM_TEST_PASSED) then 1 else 0)%nat
    (S (total_executed c)) (total_errors c + if decide (s = CM_TEST_ERROR) then 1 else 0)%nat
    (total_skipped c + if decide (s = CM_TEST_SKIPPED) then 1 else 0)%nat (total_runtime c1)) as Hc1.
  { intros s Hs. destruct (rc =? 0); [rewrite !elem_of_cons in Hf; rewrite Hs in Hf, Hc;
      destruct Hf as [->|[->|[->|?%elem_of_nil]]]; [..|done]|assert (s = CM_TEST_ERROR) as -> by congruence];
      injection Hc as _ _ <-; cbn; f_equal; repeat case_decide; try done; lia. }
  rewrite (Hc1 _ eq_refl) in H1, H2, H3, H4, H5. cbn in *. rewrite H1, H2, H3, H4, H5.
  split_and!; repeat case_decide; try congruence; cbn [length]; lia.
Qed.

Section statuses.
Context `{!Platform}.
Implicit Types (w : World) (t : CMUnitTestState).

(** The state of a test before its function runs. *)
Lemma run_setup_status t w rc t' w' :
  run_setup t w = (Ret (rc, t'), w') -> ts_test t' = ts_test t /\ (rc <> 0 -> ts_status t' = CM_TEST_ERROR).
Proof.
  unfold run_setup. destruct (ut_setup_func (ts_test t)) as [f|]; [|by intros [= <- <- <-]].
  intros (cp & w1 & _ & R1)%bind_ret_inv. apply bind_ret_inv in R1 as (rc1 & w2 & _ & R2).
  destruct (rc1 =? 0) eqn:E; cbn [negb] in R2.
  - injection R2 as <- <- <-. zbool. done.
  - apply bind_ret_inv in R2 as (_ & w3 & _ & R3). by injection R3 as <- <- <-.
Qed.

Lemma run_test_status t w t' w' :
  run_test t w = (Ret t', w') -> ts_test t' = ts_test t /\ status_fits 0 t'.
Proof.
  unfold run_test, status_fits. cbn [Z.eqb]. intros (rc & w1 & _ & R1)%bind_ret_inv.
  destruct (rc =? 0); [injection R1 as <- <-; split; [done|by left]|].
  apply bind_ret_inv in R1 as (sk & w2 & _ & R2). destruct (sk =? 0); cbn [negb] in R2.
  - injection R2 as <- <-. split; [done|by right; left].
  - apply bind_ret_inv in R2 as (u & w3 & _ & R3). injection R3 as <- <-. split; [done|by right; right; left].
Qed.

Lemma run_teardown_status rc0 t w rc t' w' :
  run_teardown rc0 t w = (Ret (rc, t'), w') -> ts_test t' = ts_test t /\ (status_fits rc0 t -> status_fits rc t').
Proof.
  unfold run_teardown. destruct (ut_teardown_func (ts_test t)) as [f|]; [|by intros [= <- <- <-]].
  destruct (rc0 =? 0) eqn:E0; [|by intros [= <- <- <-]]. intros (rc1 & w1 & _ & R1)%bind_ret_inv.
  destruct (rc1 =? 0) eqn:E; cbn [negb] in R1.
  - injection R1 as <- <- <-. split; [done|]. unfold status_fits. by rewrite E, E0.
  - apply bind_ret_inv in R1 as (u & w2 & _ & R2). injection R2 as <- <- <-. split; [done|].
    unfold status_fits. by rewrite E.
Qed.

Lemma run_one_tests_status t w rc t' w' :
  cmocka_run_one_tests t w = (Ret (rc, t'), w') -> ts_test t' = ts_test t /\ status_fits rc t'.
Proof.
  unfold cmocka_run_one_tests. intros ([rc1 t1] & w1 & R1 & R)%bind_ret_inv.
  apply run_setup_status in R1 as [T1 S1]. apply bind_ret_inv in R as (start & w2 & _ & R).
  apply bind_ret_inv in R as (t2 & w3 & R2 & R). apply bind_ret_inv in R as (fin & w4 & _ & R).
  apply bind_ret_inv in R as ([rc3 t3] & w5 & R3 & R).
  apply bind_ret_inv in R as (msg & w6 & _ & R). apply bind_ret_inv in R as (u & w7 & _ & R).
  injection R as <- <- <-. apply run_teardown_status in R3 as [T3 S3]. cbn [ts_test with_error_message].
  rewrite T3. cbn [ts_test with_runtime]. destruct (rc1 =? 0) eqn:E1.
  - apply run_test_status in R2 as [T2 S2]. zbool. subst rc1. split; [congruence|]. exact (S3 S2).
  - injection R2 as <- <-. split; [done|]. apply S3. unfold status_fits. rewrite E1. zbool. by apply S1.
Qed.

Lemma execute_tests_counted tests : forall i c w ts c' w',
  execute_tests i tests c w = (Ret (ts, c'), w') ->
  ts_test <$> ts = ts_test <$> tests /\ counted c c' ts /\
  Forall (fun t => ts_status t <> CM_TEST_NOT_STARTED) ts.
Proof.
  induction tests as [|t tests IH]; intros i c w ts c' w'; cbn [execute_tests].
  { intros [= <- <- <-]. split; [done|]. split; [apply counted_nil|constructor]. }
  intros (u1 & w1 & _ & R)%bind_ret_inv. apply bind_ret_inv in R as (g & w2 & _ & R).
  apply bind_ret_inv in R as (u2 & w3 & _ & R). apply bind_ret_inv in R as ([rc t'] & w4 & R1 & R).
  apply run_one_tests_status in R1 as [T1 S1].
  destruct (count_result rc t' c) as [ [ty msg] c1] eqn:Hc.
  apply bind_ret_inv in R as (u3 & w5 & _ & R). apply bind_ret_inv in R as ([ts1 c2] & w6 & R2 & R).
  injection R as <- <- <-. apply IH in R2 as (HT & HC & HS). split_and!.
  - rewrite !fmap_cons. cbn [fst]. by rewrite HT, T1.
  - cbn [snd fst]. by eapply count_result_counted.
  - constructor; [|done]. unfold status_fits in S1. destruct (rc =? 0); [|by rewrite S1].
    rewrite !elem_of_cons in S1. by destruct S1 as [->|[->|[->|?%elem_of_nil]]].
Qed.
End statuses.

(** ** Tests that keep their contract *)

Section contract.
Context `{!Platform, !PlatformLaws}.
Implicit Types (w : World) (hs : list ptr).

(** The status of each test, and whether it leaves blocks behind. *)
Definition promise : Type := CMUnitTestStatus * bool.
(** The setup of the group has left the state [g]. *)
Definition keeps_promise_from (g : ptr) (t : CMUnitTest) (c : promise) : Prop :=
  performs t (if g =? NULL then ut_initial_state t else g) c.1 c.2.
Definition keeps_promise (t : CMUnitTest) (c : promise) : Prop := performs t (ut_initial_state t) c.1 c.2.

(** The element of the test array for the [i]-th selected test. *)
Definition fresh_test (i : nat) (t : CMUnitTest) : CMUnitTestState :=
  mkCMUnitTestState NULL t (test_state_addr i) None CM_TEST_NOT_STARTED fp_zero.

(** The variables of the group and of the tests from number [i] on, before they
    run. *)
Definition vars_at (g : ptr) w (i n : nat) : Prop :=
  state_vars w !! group_state_addr = Some g /\
  forall k, (k < n)%nat -> state_vars w !! test_state_addr (i + k) = Some NULL.
Definition vars_ready := vars_at NULL.

Lemma test_addr i : test_state_addr i <> NULL /\ test_state_addr i <> current_state_addr /\
  test_state_addr i <> group_state_addr /\ forall k, k <> i -> test_state_addr k <> test_state_addr i.
Proof. unfold test_state_addr, NULL, current_state_addr, group_state_addr. split_and!; [lia..|]. intros k. lia. Qed.

Lemma vars_at_next g w w' i n :
  vars_at g w i (S n) -> others (test_state_addr i) w w' -> vars_at g w' (S i) n.
Proof.
  intros [Hg Hv] Ho. split.
  - rewrite Ho; [done| |done]. intros E. by destruct (test_addr i) as (_ & _ & ? & _).
  - intros k Hk. rewrite Ho.
    + rewrite Nat.add_succ_comm. apply Hv. lia.
    + destruct (test_addr i) as (_ & _ & _ & Hne). apply Hne. lia.
    + apply test_addr.
Qed.

(** The state variable of a test before its setup. *)
Definition init_state (t : CMUnitTestState) : CM unit :=
  group_state ← load_var group_state_addr;
  if negb (group_state =? NULL) then store_var (ts_state t) group_state
  else if negb (ut_initial_state (ts_test t) =? NULL) then store_var (ts_state t) (ut_initial_state (ts_test t))
  else mret tt.

Lemma init_state_first {A} t (k : CM A) w :
  (group_state ← load_var group_state_addr;
   (if negb (group_state =? NULL) then store_var (ts_state t) group_state
    else if negb (ut_initial_state (ts_test t) =? NULL) then store_var (ts_state t) (ut_initial_state (ts_test t))
    else mret tt);; k) w = (init_state t;; k) w.
Proof. unfold init_state. by rewrite bind_assoc_run. Qed.

Lemma init_state_vars g i t n w : vars_at g w i (S n) ->
  exists v, init_state (fresh_test i t) w = (Ret tt, set_state_vars v w) /\ others (test_state_addr i) w (set_state_vars v w) /\
    v !! test_state_addr i = Some (if g =? NULL then ut_initial_state t else g).
Proof.
  intros [Hg Hv]. unfold init_state.
  assert (load_var group_state_addr w = (Ret g, w)) as R by by apply deref_run. mrun R.
  assert (forall p, exists v, store_var (test_state_addr i) p w = (Ret tt, set_state_vars v w) /\
    others (test_state_addr i) w (set_state_vars v w) /\ v !! test_state_addr i = Some p) as Hstore.
  { intros p. eexists. split; [done|]. split; [|apply lookup_insert_eq]. intros q Hq _. cbn. by apply lookup_insert_ne. }
  destruct (g =? NULL); cbn [negb ts_state ts_test fresh_test]; [|apply Hstore].
  destruct (ut_initial_state t =? NULL) eqn:E; cbn [negb]; [|apply Hstore].
  zbool. exists (state_vars w). split; [by destruct w|]. split; [done|]. rewrite E, <-(Nat.add_0_r i). apply Hv. lia.
Qed.

Lemma idle_vars v w hs : idle w hs -> idle (set_state_vars v w) hs.
Proof. intros Hid. apply (idle_same w); [done..|apply Hid|apply Hid|done]. Qed.

Lemma init_state_run g i t n w hs :
  idle w hs -> vars_at g w i (S n) ->
  exists w', init_state (fresh_test i t) w = (Ret tt, w') /\ idle w' hs /\ others (test_state_addr i) w w' /\
    state_vars w' !! test_state_addr i = Some (if g =? NULL then ut_initial_state t else g).
Proof.
  intros Hid Hv. destruct (init_state_vars g i t n w Hv) as (v & R & Ho & Hs). exists (set_state_vars v w).
  split_and!; [done|by apply idle_vars|done..].
Qed.

Lemma execute_tests_perform g l cs : Forall2 (keeps_promise_from g) l cs -> forall i c w hs,
  idle w hs -> vars_at g w i (length l) ->
  exists ts c' w' xs, execute_tests i (imap (fun k => fresh_test (i + k)) l) c w = (Ret (ts, c'), w') /\
    ts_status <$> ts = cs.*1 /\ idle w' (hs ++ xs) /\ remain (existsb snd cs) xs /\
    state_vars w' !! group_state_addr = Some g.
Proof.
  induction 1 as [|t [s leaks] l cs Hp _ IH]; intros i c w hs Hid Hv.
  { exists [], c, w, []. rewrite app_nil_r. by destruct Hv. }
  rewrite imap_cons, Nat.add_0_r. cbn [execute_tests].
  destruct (speaks_cmprintf PRINTF_TEST_START (S i) (test_name t) None w) as (w1 & R1 & T1). mrun R1.
  assert (vars_at g w1 i (S (length l))) as Hv1 by (by destruct T1 as (? & ? & ? & ? & ? & ? & ? & ? & ? & ? & ->)).
  destruct (init_state_run g i t (length l) w1 hs (idle_talks _ _ _ T1 Hid) Hv1) as (w2 & R2 & Hid2 & Ho2 & Hs2).
  rewrite init_state_first. mrun R2. destruct (test_addr i) as (Hn & Hc & _).
  destruct (run_one_tests_performs (fresh_test i t) _ s leaks w2 hs Hp Hid2 Hn Hc eq_refl Hs2)
    as (rc & t' & w3 & ys & R3 & Hst & Hid3 & Hr3 & Ho3). mrun R3.
  destruct (count_result rc t' c) as [ [ty msg] c1] eqn:Hcr.
  destruct (speaks_cmprintf ty (S i) (test_name t) msg w3) as (w4 & R4 & T4). mrun R4.
  assert (vars_at g w4 (S i) (length l)) as Hv4.
  { assert (vars_at g w3 (S i) (length l)) as Hv3 by (by eapply vars_at_next; [|etrans]).
    by destruct T4 as (? & ? & ? & ? & ? & ? & ? & ? & ? & ? & ->). }
  destruct (IH (S i) c1 w4 (hs ++ ys) (idle_talks _ _ _ T4 Hid3) Hv4) as (ts & c' & w' & xs & R5 & Hss & Hid' & Hr' & Hg').
  assert (imap ((fun k => fresh_test (i + k)) ∘ S) l = imap (fun k => fresh_test (S i + k)) l) as ->.
  { apply imap_ext. intros k x _. cbn [compose]. by rewrite <-Nat.add_succ_comm. }
  mrun R5. exists (t' :: ts), c', w', (ys ++ xs). rewrite app_assoc. split_and!; [done| |done| |done].
  - by rewrite !fmap_cons, Hst, Hss.
  - unfold remain in *. cbn [existsb snd]. rewrite Hr3, Hr'. by destruct ys, xs.
Qed.
End contract.
