(* ===== verification/RunnerTheorems.v ===== *)
(** * What the runner reports

    The theorems about the result of one test, the selection of the tests of a
    group and the totals of a group. *)
From S2P Require Import Prelude CMonad CString CStringTheorems ListNode World Report Memory SymbolMap Tree SymbolTree Mock FloatCompare Compare Alloc AllocProofs AllocOps AllocLeaks Output Runner Frame MockSpec MockProofs RunnerProofs TestContract TestRun GroupProofs.

Section tests.
Context `{!Platform, !PlatformLaws}.
Implicit Types (w : World) (a : expectations) (hs : list ptr).

(** C6: [cmocka_run_one_test_or_fixture] starts a test function with no
    expectations, all exception signals caught and the heap [hs1] of its
    caller.  When the test returns, having left the expectations [a] and the
    blocks [hs2], the result is 0 exactly if no block is left and no
    expectation is left over, and -1 otherwise; blocks left are released.  When
    the test fails (longjmp), the result is -1, unless it called [stop] and
    nothing is left over.  In every case the function returns, nothing is
    expected any more, no test is running and the signals are handled as
    before. *)
Theorem run_one_test_decides w hs1 name (f : CMUnitTestFunction) st :
  heap w hs1 -> bytes_valid w -> statics w ->
  exists w1, entered w w1 hs1 /\
    (forall w2 a hs2, f (state_arg st) w1 = (Ret tt, w2) -> consistent w2 a (hs1 ++ hs2) -> all_intact w2 hs2 ->
       global_running_test w2 <> 0 -> global_stop_test w2 = 0 -> abort_requested w2 = false ->
       default_signal_functions w2 = default_signal_functions w1 ->
       exists w', cmocka_run_one_test_or_fixture name (Some f) None None st NULL w =
           (Ret (if bool_decide (hs2 = []) && nothing_left (leftover a) then 0 else -1), w') /\ ended w w' hs1) /\
    (forall w2 a hs2, f (state_arg st) w1 = (LongJmp, w2) -> consistent w2 a hs2 ->
       default_signal_functions w2 = default_signal_functions w1 ->
       exists w', cmocka_run_one_test_or_fixture name (Some f) None None st NULL w =
           (Ret (if negb (global_stop_test w2 =? 0) && nothing_left (leftover a) then 0 else -1), w') /\ ended w w' hs2).
Proof.
  intros Hh Hv Hst. destruct (run_phase w hs1 name (Some f) None None st NULL Hh Hv Hst) as (w1 & He & Hphase).
  exists w1. split; [done|]. split.
  - intros w2 a hs2 Rf Hc2 Hall Hrun Hstop Habort Hd2.
    destruct (test_returned_run w1 w2 a hs1 hs2 name f None None _ Rf Hc2 Hall Hrun Hstop Habort)
      as (w3 & a3 & R3 & Hr3 & Hc3 & Hct & _).
    destruct (Hphase _ w3 a3 _ R3 Hr3 Hc3) as (w' & R & Hend & _); [rewrite (proj1 Hct); congruence|]. by exists w'.
  - intros w2 a hs2 Rf Hc2 Hd2. destruct (jump_run w2 a hs2 Hc2) as (w3 & a3 & R3 & Hr3 & Hc3 & Hct & _).
    rewrite <-(function_jumped name f None None _ (point hs1 NULL) w1 w2 Rf) in R3.
    destruct (Hphase _ w3 a3 _ R3 Hr3 Hc3) as (w' & R & Hend & _); [rewrite (proj1 Hct); exact Hd2|]. by exists w'.
Qed.
End tests.

(** ** The tests of a group *)

Section selection.
Context `{!Platform}.
Implicit Types (w : World) (t : CMUnitTest).

(** A test that has a name and a function, whose name matches the test filter
    and does not match the skip filter. *)
Definition wanted (test_filter skip_filter : option string) t : Prop :=
  (is_Some (ut_test_func t) \/ is_Some (ut_setup_func t) \/ is_Some (ut_teardown_func t)) /\
  exists name, ut_name t = Some name /\
    (forall p, test_filter = Some p -> glob (chars p) (chars name)) /\
    (forall p, skip_filter = Some p -> ~ glob (chars p) (chars name)).

Lemma is_selected_wanted tf sf t :
  (forall p, tf = Some p \/ sf = Some p -> single_stars (chars p) = true) ->
  is_selected tf sf t = true <-> wanted tf sf t.
Proof.
  intros Hstars.
  assert (forall p s, tf = Some p \/ sf = Some p -> c_strmatch (Some s) (Some p) = true <-> glob (chars p) (chars s)) as Hm.
  { intros p s Hp. cbn. split; [apply strmatch_sound|apply strmatch_complete, Hstars, Hp]. }
  unfold is_selected, is_test, wanted. rewrite !andb_true_iff, !orb_true_iff, !bool_decide_eq_true.
  destruct (ut_name t) as [name|]; [|split; [intros [ [ [ [x ?] _] _] _]; done|by intros (_ & n & ? & _)]].
  assert ((match tf with Some _ => c_strmatch (Some name) tf | None => true end) = true <->
    forall p, tf = Some p -> glob (chars p) (chars name)) as ->.
  { destruct tf as [p|]; [rewrite Hm by (by left); naive_solver|naive_solver]. }
  assert (negb (match sf with Some _ => c_strmatch (Some name) sf | None => false end) = true <->
    forall p, sf = Some p -> ~ glob (chars p) (chars name)) as ->.
  { destruct sf as [p|]; [|naive_solver]. rewrite negb_true_iff, <-not_true_iff_false, Hm by (by right). naive_solver. }
  split; [naive_solver|]. intros (Hf & n & [= <-] & H1 & H2). split_and!; [by eexists| |done|done]. naive_solver.
Qed.

Lemma setup_test_array_run tests : forall i w,
  let sel := filter (fun t => is_selected (global_test_filter_pattern w) (global_skip_filter_pattern w) t = true) tests in
  exists v, setup_test_array i tests w = (Ret (imap (fun k => fresh_test (i + k)) sel), set_state_vars v w) /\
    (forall k, (k < length sel)%nat -> v !! test_state_addr (i + k) = Some NULL) /\
    (forall p, (forall k, p <> test_state_addr (i + k)) -> v !! p = state_vars w !! p).
Proof.
  induction tests as [|t tests IH]; intros i w sel; cbn [setup_test_array].
  { exists (state_vars w). split; [by destruct w|]. split; [cbn; lia|done]. }
  do 2 mprim. unfold sel. rewrite filter_cons.
  destruct (is_selected (global_test_filter_pattern w) (global_skip_filter_pattern w) t) eqn:Hs.
  - rewrite decide_True by done. unfold store_var. mprim.
    destruct (IH (S i) (set_state_vars (<[test_state_addr i := NULL]> (state_vars w)) w)) as (v & R & Hin & Hout).
    mrun R. exists v. split; [|split].
    + rewrite imap_cons, Nat.add_0_r. erewrite (imap_ext (_ ∘ S)); [reflexivity|].
      intros k x _. cbn [compose]. by rewrite <-Nat.add_succ_comm.
    + intros [|k] Hk.
      * rewrite Nat.add_0_r, Hout; [apply lookup_insert_eq|]. intros k. unfold test_state_addr. lia.
      * rewrite <-Nat.add_succ_comm. apply Hin, Nat.succ_lt_mono. exact Hk.
    + intros p Hp. rewrite Hout; [apply lookup_insert_ne|].
      * specialize (Hp 0%nat). rewrite Nat.add_0_r in Hp. congruence.
      * intros k. rewrite Nat.add_succ_comm. apply Hp.
  - rewrite decide_False by done. apply IH.
Qed.

(** C30: The test array of a group holds, in order, exactly the tests that have
    a name and a function, match the test filter and do not match the skip
    filter, when the filters have no two consecutive stars; every element is
    not started and its state variable is NULL, at an address of its own. *)
Theorem setup_test_array_selects tests w :
  (forall p, global_test_filter_pattern w = Some p \/ global_skip_filter_pattern w = Some p ->
     single_stars (chars p) = true) ->
  exists ts v, setup_test_array 0 tests w = (Ret ts, set_state_vars v w) /\
    (ts_test <$> ts) `sublist_of` tests /\
    (forall t, t ∈ ts_test <$> ts <->
       t ∈ tests /\ wanted (global_test_filter_pattern w) (global_skip_filter_pattern w) t) /\
    (forall i s, ts !! i = Some s -> s = fresh_test i (ts_test s) /\ v !! ts_state s = Some NULL) /\
    v !! group_state_addr = state_vars w !! group_state_addr.
Proof.
  intros Hstars. destruct (setup_test_array_run tests 0 w) as (v & R & Hin & Hout).
  set (sel := filter _ tests) in *. exists (imap fresh_test sel), v. split; [exact R|].
  assert (ts_test <$> imap fresh_test sel = sel) as Hsel.
  { rewrite fmap_imap. etrans; [apply imap_const|]. apply list_fmap_id. }
  rewrite Hsel. split_and!.
  - apply sublist_filter.
  - intros t. unfold sel. rewrite list_elem_of_filter. rewrite is_selected_wanted by done. tauto.
  - intros i s Hs. apply list_lookup_imap_Some in Hs as (t & Ht & ->). split; [done|]. cbn.
    apply (Hin i). by eapply lookup_lt_Some.
  - apply Hout. intros k. unfold group_state_addr, test_state_addr. lia.
Qed.
End selection.

Section groups.
Context `{!Platform, !PlatformLaws}.
Implicit Types (w : World) (hs : list ptr).

Lemma statuses_partition ts :
  Forall (fun t => ts_status t <> CM_TEST_NOT_STARTED) ts ->
  (with_count CM_TEST_PASSED ts + with_count CM_TEST_FAILED ts + with_count CM_TEST_ERROR ts +
   with_count CM_TEST_SKIPPED ts = length ts)%nat.
Proof.
  induction 1 as [|t ts Ht _ IH]; [done|]. unfold with_count in *. rewrite !filter_cons.
  destruct (ts_status t); try done; repeat case_decide; try done; cbn [length]; lia.
Qed.

(** C10: When the loop over the tests of a group returns, it has run all the
    tests, in order, and its counters are the numbers of tests with each
    status: executed is the number of tests, and the sum of passed, failed,
    errors and skipped. *)
Theorem execute_tests_totals tests w ts c w' :
  execute_tests 0 tests no_totals w = (Ret (ts, c), w') ->
  ts_test <$> ts = ts_test <$> tests /\
  total_executed c = length tests /\ total_passed c = with_count CM_TEST_PASSED ts /\
  total_failed c = with_count CM_TEST_FAILED ts /\ total_errors c = with_count CM_TEST_ERROR ts /\
  total_skipped c = with_count CM_TEST_SKIPPED ts /\
  (total_passed c + total_failed c + total_errors c + total_skipped c = total_executed c)%nat.
Proof.
  intros R. destruct (execute_tests_counted _ _ _ _ _ _ _ R) as (HT & (H1 & H2 & H3 & H4 & H5) & HS).
  assert (length ts = length tests) as Hlen by (by rewrite <-(length_fmap ts_test ts), HT, length_fmap).
  cbn in H1, H2, H3, H4, H5. pose proof (statuses_partition ts HS). split_and!; try done; lia.
Qed.

(** When the setup function of a test does not return 0, or fails, neither
    the test function nor the teardown function is run: the test is an error
    whose message is what was collected so far, and only the clock moves on. *)
Theorem failed_setup_is_error t w rc t1 w1 :
  run_setup t w = (Ret (rc, t1), w1) -> rc <> 0 ->
  exists t2, cmocka_run_one_tests t w =
      (Ret (rc, t2), set_cm_error_message None (set_clock (S (S (clock w1))) w1)) /\
    ts_test t2 = ts_test t /\ ts_status t2 = CM_TEST_ERROR /\ ts_error_message t2 = cm_error_message w1.
Proof.
  intros R Hrc. destruct (run_setup_status _ _ _ _ _ R) as [HT HS].
  unfold cmocka_run_one_tests. mrun R. apply Z.eqb_neq in Hrc as E.
  assert (forall u, clock_gettime u = (Ret (mkTimespec (plat_clock (clock u)).1 (plat_clock (clock u)).2),
    set_clock (S (clock u)) u)) as Rc by done.
  mrun (Rc w1). rewrite E. mprim. mrun (Rc (set_clock (S (clock w1)) w1)).
  unfold run_teardown. cbn [ts_test with_runtime]. rewrite E.
  destruct (ut_teardown_func (ts_test t1)); do 3 mprim; eexists; (split; [done|]); cbn; split_and!; auto.
Qed.

(** C28: [mock_assert] with a true condition does nothing.  With a false one,
    inside [expect_assert_failure], the rest of the call is skipped and
    [expect_assert_failure] returns, expecting no assertion any more; outside
    it, the test ends.  A call of which no assertion fails ends the test. *)
Theorem expect_assert_failure_decides (call rest : CM unit) result expr text loc lno loc' lno' w w1 :
  call (set_global_expecting_assert 1 w) = (Ret tt, w1) -> global_expecting_assert w1 <> 0 ->
  rest w1 = (Ret tt, w1) ->
  let function_call := (call;; mock_assert result expr loc lno;; rest) in
  if result =? 0 then
    expect_assert_failure function_call text loc' lno' w =
      (Ret tt, set_global_expecting_assert 0 (set_stdout_text
         (stdout_text w1 +:+ "Expected assertion " +:+ expr +:+ " occurred" +:+ nl)
         (set_global_last_failed_assert (Some expr) w1))) /\
    (exists w', mock_assert result expr loc lno (set_global_expecting_assert 0 w1) = (exit_outcome w1, w'))
  else
    mock_assert result expr loc lno w1 = (Ret tt, w1) /\
    exists w', expect_assert_failure function_call text loc' lno' w = (exit_outcome w1, w') /\
      global_expecting_assert w' = 0.
Proof.
  intros Rc He Rr function_call. destruct (result =? 0) eqn:Er.
  - split.
    + unfold expect_assert_failure, function_call. rewrite (bind_run _ _ _ _ _ Rc). unfold mock_assert at 1. rewrite Er.
      cbn [when]. rewrite bind_assoc_run. mprim. rewrite (proj2 (Z.eqb_neq _ _) He). cbn [negb].
      rewrite bind_assoc_run. mprim. done.
    + unfold mock_assert. rewrite Er. cbn [when]. mprim.
      destruct (prints_then_fail (cmocka_print_error ("ASSERT: " +:+ expr +:+ nl)) loc lno (set_global_expecting_assert 0 w1))
        as (w2 & R2 & _); [apply prints_cmocka_print_error|]. by exists w2.
  - assert (mock_assert result expr loc lno w1 = (Ret tt, w1)) as Rm by (unfold mock_assert; by rewrite Er).
    split; [done|]. unfold expect_assert_failure, function_call.
    rewrite (bind_run _ _ _ _ _ Rc), (bind_run _ _ _ _ _ Rm), Rr. mprim.
    destruct (prints_then_fail (print_error ("Expected assert in " +:+ text +:+ nl)) loc' lno' (set_global_expecting_assert 0 w1))
      as (w2 & R2 & Q2); [apply prints_print_error|]. exists w2. split; [done|]. by quiet_simpl.
Qed.
End groups.

(** ** Time *)

(** Nanoseconds since the epoch. *)
Definition nanoseconds (t : timespec) : Z := tv_sec t * E9 + tv_nsec t.

(** For normalised times, the seconds and nanoseconds of [cm_tspecdiff] add
    up to the difference of the two times when the second count did not go
    backwards, although the nanoseconds may be negative; when it did, only the
    sign of the seconds is changed, not that of the nanoseconds. *)
Theorem cm_tspecdiff_nanoseconds t1 t0 :
  0 <= tv_nsec t1 < E9 -> 0 <= tv_nsec t0 < E9 ->
  nanoseconds (cm_tspecdiff t1 t0) =
    (if tv_sec t1 <? tv_sec t0 then tv_nsec t1 - tv_nsec t0 - (tv_sec t1 - tv_sec t0) * E9
     else nanoseconds t1 - nanoseconds t0) /\
  Z.abs (tv_nsec (cm_tspecdiff t1 t0)) < E9.
Proof.
  intros H1 H0. assert (0 < E9) as HE by done.
  assert (cm_tspecdiff t1 t0 = mkTimespec ((tv_sec t1 - tv_sec t0) * (if tv_sec t1 <? tv_sec t0 then -1 else 1))
    (tv_nsec t1 - tv_nsec t0)) as ->.
  { unfold cm_tspecdiff, double_quot. destruct (tv_nsec t1 <? tv_nsec t0) eqn:E; zbool; cbv zeta; cbn iota.
    - rewrite Z.quot_small by lia. cbn [tv_sec tv_nsec]. rewrite (proj2 (Z.ltb_ge _ _)) by lia.
      cbn [tv_sec tv_nsec]. by rewrite Z.mul_0_r, Z.sub_0_r, Z.add_0_r.
    - by rewrite (proj2 (Z.ltb_ge E9 (tv_nsec t1 - tv_nsec t0))) by lia. }
  cbn [tv_sec tv_nsec]. unfold nanoseconds. cbn [tv_sec tv_nsec]. destruct (tv_sec t1 <? tv_sec t0); split; lia.
Qed.
