(* ===== verification/RunnerExamples.v ===== *)
(** * Runs of small groups

    Groups of tests run on the concrete platform of TestPlatform.v.  They show
    behaviours of the runner that its users may not expect. *)
From S2P Require Import Prelude CMonad CString ListNode World TestPlatform Report Memory SymbolMap Mock FloatCompare Compare Checks Asserts Alloc Output Runner.

#[local] Existing Instance test_platform.

Definition passing_test : CMUnitTestFunction := fun _ => mret tt.
Definition failing_test : CMUnitTestFunction := fun _ => _fail (Some "t.c") 1.
Definition skipping_fixture : CMFixtureFunction := fun _ => _skip (Some "t.c") 2;; mret 0.

Definition simple_test (name : string) (f : CMUnitTestFunction) : CMUnitTest :=
  mkCMUnitTest (Some name) (Some f) None None NULL.

(** The names and statuses of the tests of a group without fixtures. *)
Definition statuses (tests : list CMUnitTest) : outcome (list (string * CMUnitTestStatus)) :=
  fst ((check_point_allocated_blocks;;
        store_var group_state_addr NULL;;
        ts ← setup_test_array 0 tests;
        r ← execute_tests 0 ts no_totals;
        mret ((fun t => (test_name (ts_test t), ts_status t)) <$> r.1)) initial_world).

(** A test that allocates a block and then fails. *)
Definition leaking_failure : CMUnitTestFunction := fun _ =>
  _test_malloc 4 (Some "t.c") 3;; _fail (Some "t.c") 4.

(** Two cases in which a group does not return the number of its failures.
    The flag of [skip] survives a setup function that calls it: that test is an
    error, but the next test that fails is reported as skipped and not counted.
    And a block of a failed test is still allocated at the end of the group,
    where the leak check ends the process with status 1, whereas the same
    failure without a block is returned. *)
Example group_result_misses_failures :
  statuses [mkCMUnitTest (Some "a") (Some passing_test) (Some skipping_fixture) None NULL;
            simple_test "b" failing_test; simple_test "c" failing_test] =
    Ret [("a", CM_TEST_ERROR); ("b", CM_TEST_SKIPPED); ("c", CM_TEST_FAILED)] /\
  fst (_cmocka_run_group_tests "g"
    [mkCMUnitTest (Some "a") (Some passing_test) (Some skipping_fixture) None NULL;
     simple_test "b" failing_test] None None initial_world) = Ret 1 /\
  fst (_cmocka_run_group_tests "g" [simple_test "a" leaking_failure] None None initial_world) = Exit 1 /\
  fst (_cmocka_run_group_tests "g" [simple_test "a" failing_test] None None initial_world) = Ret 1.
Proof. split_and!; vm_compute; reflexivity. Qed.

(** A mock value declared for ever under the type name "int", fetched as a "long". *)
Definition mismatching_test : CMUnitTestFunction := fun _ =>
  _will_return "f" (Some "t.c") 5 (Some "int") 7 WILL_RETURN_ALWAYS;;
  _mock "f" (Some "t.c") 6 (Some "long");; mret tt.
Definition mismatching_once : CMUnitTestFunction := fun _ =>
  _will_return "f" (Some "t.c") 5 (Some "int") 7 1;;
  _mock "f" (Some "t.c") 6 (Some "long");; mret tt.

(** A type mismatch in [mock] frees the value; when the value is still in
    the queue, because its count was not 1, the end of the test frees it again,
    which is undefined behaviour.  With count 1 the test just fails. *)
Example mock_mismatch_double_free :
  statuses [simple_test "a" mismatching_test] = Undef /\
  statuses [simple_test "a" mismatching_once] = Ret [("a", CM_TEST_FAILED)].
Proof. split; vm_compute; reflexivity. Qed.
