(* ===== verification/GroupTheorems.v ===== *)
(** * A whole group

    From the start of a group - the first of the process or a later one - to
    its result: [cmocka_run_group_tests] on tests that honour their contract. *)
From Stdlib Require Import Floats.SpecFloat.
From S2P Require Import Prelude CMonad CString ListNode World Report Memory SymbolMap Mock FloatCompare Compare Alloc AllocBytes AllocProofs AllocOps AllocLeaks Output OutputProofs Runner Api Frame MockSpec MockProofs RunnerProofs TestContract TestRun GroupProofs RunnerTheorems.

Section groups.
Context `{!Platform, !PlatformLaws}.
Implicit Types (w : World) (hs : list ptr).

(** The state in which a program may start a group: the blocks [hs] are
    allocated, or the allocator was never used; no test is running, skipped or
    stopped. *)
Record startable w hs : Prop := {
  st_heap : heap w hs \/ (hs = [] /\ (exists r, data_of w hA = Some (NULL, r)) /\ raw w = ∅);
  st_bytes : bytes_valid w;
  st_statics : statics w;
  st_flags : global_running_test w = 0 /\ undisturbed w;
}.

(** The first check point of the group. *)
Lemma check_point_start w hs : startable w hs ->
  exists w', check_point_allocated_blocks w = (Ret (last_block hs), w') /\ heap w' hs /\ bytes_valid w' /\
    memory_only w w'.
Proof.
  intros [ [Hh|(-> & [r Hd] & Hr)] Hb _ _]; unfold check_point_allocated_blocks.
  - exists w. split_and!; [|done..]. mrun (get_list_run w _ Hh). by apply heap_prev.
  - destruct (heap_first_use w r Hd Hr) as (w' & R & Hh & Hm & Hby & _). exists w'. mrun R.
    split_and!; [by apply heap_prev|done|unfold bytes_valid; by rewrite Hby|done].
Qed.

(** ... after which the tests can run. *)
Lemma group_start w hs : startable w hs ->
  exists w1, check_point_allocated_blocks w = (Ret (last_block hs), w1) /\
    let w' := set_state_vars (<[group_state_addr := NULL]> (state_vars w1)) w1 in
    idle w' hs /\ state_vars w' = <[group_state_addr := NULL]> (state_vars w1) /\
    global_test_filter_pattern w' = global_test_filter_pattern w /\
    global_skip_filter_pattern w' = global_skip_filter_pattern w /\ version_printed w1 = version_printed w.
Proof.
  intros Hs. destruct (check_point_start w hs Hs) as (w1 & R1 & Hh & Hb & Hm).
  pose proof (keeps_run _ _ _ _ keeps_check_point R1) as Hc.
  pose proof (control_same _ _ Hc) as Hct. destruct (st_flags _ _ Hs) as (Hr & Hu).
  exists w1. split; [done|]. split_and!; [|done|by destruct Hm as (? & ? & ? & ? & ->)..]. split.
  - by apply (heap_same w1).
  - done.
  - exact (statics_control w w1 Hc (st_statics _ _ Hs)).
  - unfold control in Hc. cbn. congruence.
  - by apply (undisturbed_same w w1).
Qed.

(** The selected tests, as they are in the test array. *)
Definition selected w (tests : list CMUnitTest) : list CMUnitTest :=
  filter (fun t => is_selected (global_test_filter_pattern w) (global_skip_filter_pattern w) t = true) tests.

(** What the test array is set up to. *)
Lemma setup_idle tests w hs : idle w hs -> state_vars w !! group_state_addr = Some NULL ->
  exists w', setup_test_array 0 tests w = (Ret (imap fresh_test (selected w tests)), w') /\ idle w' hs /\
    vars_ready w' 0 (length (selected w tests)).
Proof.
  intros Hid Hg. destruct (setup_test_array_run tests 0 w) as (v & R & Hin & Hout). eexists. split; [exact R|]. split.
  - apply (idle_same w); [done..|apply Hid|apply Hid|done].
  - split; [|exact Hin]. cbn. rewrite Hout; [done|]. intros k E. by destruct (test_addr (0 + k)) as (_ & _ & ? & _).
Qed.

(** The failures and errors among the tests of a group. *)
Definition failures (cs : list promise) : nat :=
  (length (filter (fun s => s = CM_TEST_FAILED) cs.*1) + length (filter (fun s => s = CM_TEST_ERROR) cs.*1))%nat.

(** The states a group without fixtures goes through, and the results [ts] and
    totals [c] of its tests: the tests run from [w4] to [w5], the report is
    printed from there to [w6], where the blocks [xs] are left. *)
Record group_runs group_name tests (cs : list promise) w hs ts (c : totals) w1 w3 w4 w5 w6 xs : Prop := {
  gr_start : check_point_allocated_blocks w = (Ret (last_block hs), w1);
  gr_setup : setup_test_array 0 tests (set_state_vars (<[group_state_addr := NULL]> (state_vars w1)) w1) =
    (Ret (imap fresh_test (selected w tests)), w3);
  gr_plan : cmprintf_group_start group_name (length (selected w tests)) w3 = (Ret tt, w4);
  gr_tests : execute_tests 0 (imap fresh_test (selected w tests)) no_totals w4 = (Ret (ts, c), w5);
  gr_report : cmprintf_group_finish group_name (total_executed c) (total_passed c) (total_failed c) (total_errors c)
    (total_skipped c) (total_runtime c) (report_of <$> ts) w5 = (Ret tt, w6);
  gr_result : cmocka_run_group_tests group_name tests None None w =
    (fail_if_blocks_allocated (last_block hs) "cmocka_group_tests";; mret (to_s32 (Z.of_nat (total_failed c + total_errors c)))) w6;
  gr_statuses : ts_status <$> ts = cs.*1;
  gr_idle : idle w6 (hs ++ xs);
  gr_left : remain (existsb snd cs) xs;
}.

Lemma group_runs_promises group_name tests cs w hs :
  startable w hs -> Forall2 keeps_promise (selected w tests) cs -> NUL ∉ chars group_name ->
  (forall u, plat_libc_alloc_ok u (SIZEOF_CMUNITTESTSTATE * Z.of_nat (length tests)) = true) ->
  exists ts c w1 w3 w4 w5 w6 xs, group_runs group_name tests cs w hs ts c w1 w3 w4 w5 w6 xs.
Proof.
  intros Hs Hp Hn Ha. destruct (group_start w hs Hs) as (w1 & R1 & Hid2 & Hg2 & Ft & Fs & _).
  cbv zeta in Hid2. set (w2 := set_state_vars _ w1) in *.
  destruct (setup_idle tests w2 hs Hid2) as (w3 & R3 & Hid3 & Hv3); [apply lookup_insert_eq|].
  assert (selected w2 tests = selected w tests) as Esel by (unfold selected; by rewrite Ft, Fs). rewrite Esel in *.
  destruct (speaks_group_start group_name (length (selected w tests)) w3) as (w4 & R4 & T4).
  assert (vars_ready w4 0 (length (selected w tests))) as Hv4
    by (by destruct T4 as (? & ? & ? & ? & ? & ? & ? & ? & ? & ? & ->)).
  destruct (execute_tests_perform NULL _ cs Hp 0%nat no_totals w4 hs (idle_talks _ _ _ T4 Hid3) Hv4)
    as (ts & c & w5 & xs & R5 & Hst & Hid5 & Hr & _).
  destruct (speaks_group_finish group_name (total_executed c) (total_passed c) (total_failed c) (total_errors c)
    (total_skipped c) (total_runtime c) (report_of <$> ts) Hn w5) as (w6 & R6 & T6).
  exists ts, c, w1, w3, w4, w5, w6, xs. split; try done; [|by eapply idle_talks].
  unfold cmocka_run_group_tests, _cmocka_run_group_tests. mrun R1. unfold store_var. mprim. fold w2. mprim.
  rewrite Ha. cbn [negb]. mrun R3. rewrite length_imap. mrun R4. mprim. cbn [Z.eqb].
  change (imap (fun k => fresh_test (0 + k)) _) with (imap fresh_test (selected w tests)) in R5. mrun R5. mprim. by mrun R6.
Qed.

(** The end of the group. *)
Lemma group_ends group_name tests cs w hs ts c w1 w3 w4 w5 w6 xs :
  group_runs group_name tests cs w hs ts c w1 w3 w4 w5 w6 xs ->
  exists w', cmocka_run_group_tests group_name tests None None w =
      (if existsb snd cs then Exit EXIT_FAILURE else Ret (to_s32 (Z.of_nat (failures cs))), w') /\
    control w' = control w6 /\ (existsb snd cs = false -> idle w' hs).
Proof.
  intros [_ _ _ R5 _ -> Hst Hid6 Hr].
  destruct (execute_tests_counted _ _ _ _ _ _ _ R5) as (_ & (_ & _ & Hf & He & _) & _). cbn in Hf, He.
  destruct (fail_if_blocks_allocated_run w6 hs xs "cmocka_group_tests" (id_heap _ _ Hid6) (id_bytes _ _ Hid6)) as [R7 R8].
  unfold remain in Hr. destruct (decide (xs = [])) as [->|Hx].
  - mrun (R7 eq_refl). rewrite Hr. exists w6. rewrite app_nil_r in Hid6. split; [|done].
    by rewrite Hf, He, !with_count_statuses, Hst.
  - rewrite Hr, bool_decide_false by done. destruct (R8 Hx) as (w7 & R & _). exists w7. split; [|split; [|done] ].
    + rewrite bind_eq, R. unfold exit_outcome. destruct (id_undisturbed _ _ Hid6) as (_ & _ & ->).
      by rewrite (id_running _ _ Hid6).
    + exact (keeps_run _ _ _ _ (keeps_fail_if_blocks _ _) R).
Qed.

(** C1: A group of tests that keep their contracts - with or without setup and
    teardown functions, whether they pass, fail, skip or stop -, started as the
    first group of a process or after others, with any filters and any output
    formats: the selected tests run, each with the status of its contract, and
    [cmocka_run_group_tests] returns the number of those that fail or are
    errors (as an int), with the allocated blocks as before; but if a test
    leaves blocks behind that the runner does not release, the leak check at
    the end exits with status 1 instead. *)
Theorem run_group_tests_returns_failures group_name tests cs w hs :
  startable w hs -> Forall2 keeps_promise (selected w tests) cs -> NUL ∉ chars group_name ->
  (forall u, plat_libc_alloc_ok u (SIZEOF_CMUNITTESTSTATE * Z.of_nat (length tests)) = true) ->
  exists w', cmocka_run_group_tests group_name tests None None w =
      (if existsb snd cs then Exit EXIT_FAILURE else Ret (to_s32 (Z.of_nat (failures cs))), w') /\
    (existsb snd cs = false -> idle w' hs).
Proof.
  intros Hs Hp Hn Ha. destruct (group_runs_promises _ _ _ _ _ Hs Hp Hn Ha) as (ts & c & w1 & w3 & w4 & w5 & w6 & xs & Hr).
  destruct (group_ends _ _ _ _ _ _ _ _ _ _ _ _ _ Hr) as (w' & R & _ & Hid). by exists w'.
Qed.

(** ** Group fixtures *)

(** What a group does before its setup: the check point and the test array. *)
Definition group_prologue (group_name : string) (tests : list CMUnitTest) : CM (ptr * list CMUnitTestState) :=
  group_check_point ← check_point_allocated_blocks;
  store_var group_state_addr NULL;;
  gets (fun w => plat_libc_alloc_ok w (SIZEOF_CMUNITTESTSTATE * Z.of_nat (length tests)));;
  cm_tests ← setup_test_array 0 tests;
  cmprintf_group_start group_name (length cm_tests);;
  mret (group_check_point, cm_tests).

(** The result of the setup of the group. *)
Definition group_setup_result (group_setup : option CMFixtureFunction) (group_check_point : ptr) : CM Z :=
  match group_setup with
  | Some _ => cmocka_run_group_fixture "cmocka_group_setup" group_setup None group_state_addr group_check_point
  | None => mret 0
  end.

(** What a group with any fixtures has done when it returns: if its setup
    returned 0, the tests were run after it and the result is the number of
    failures and errors among them, whatever the teardown of the group
    returned; if not, no test was run and the result is 1. *)
Lemma group_fixtures_decide group_name tests group_setup group_teardown w r w' :
  (forall u n, plat_libc_alloc_ok u n = true) ->
  cmocka_run_group_tests group_name tests group_setup group_teardown w = (Ret r, w') ->
  exists p ts w1 rc w2,
    group_prologue group_name tests w = (Ret (p, ts), w1) /\ group_setup_result group_setup p w1 = (Ret rc, w2) /\
    if rc =? 0 then exists ts' c w3, execute_tests 0 ts no_totals w2 = (Ret (ts', c), w3) /\
      r = to_s32 (Z.of_nat (total_failed c + total_errors c))
    else r = 1.
Proof.
  intros Ha. unfold cmocka_run_group_tests, _cmocka_run_group_tests. intros (p & v1 & R1 & R)%bind_ret_inv.
  apply bind_ret_inv in R as ([] & v2 & R2 & R). apply bind_ret_inv in R as (ok & v3 & R3 & R).
  assert (ok = true) as -> by (injection R3 as <- _; apply Ha). cbn [negb] in R.
  apply bind_ret_inv in R as (ts & v4 & R4 & R). apply bind_ret_inv in R as ([] & w1 & R5 & R).
  apply bind_ret_inv in R as (rc & w2 & R6 & R). exists p, ts, w1, rc, w2.
  split; [unfold group_prologue; mrun R1; mrun R2; mrun R3; mrun R4; by mrun R5|]. split; [exact R6|].
  apply bind_ret_inv in R as ([ts' c] & w3 & R7 & R). apply bind_ret_inv in R as ([] & w4 & _ & R).
  apply bind_ret_inv in R as ([] & w5 & _ & R). apply bind_ret_inv in R as ([] & w6 & _ & R).
  injection R as <- _. destruct (rc =? 0); [by exists ts', c, w3|].
  apply bind_ret_inv in R7 as ([] & w7 & _ & R7). apply bind_ret_inv in R7 as ([] & w8 & _ & R7).
  by injection R7 as _ <- _.
Qed.
End groups.
