(* ===== verification/GroupFixtures.v ===== *)
(** * Groups with fixtures

    The contract of a group with a setup and a teardown function, as a game
    between the runner and the group like the one of TestContract.v, and the
    result of a group that keeps it. *)
From Stdlib Require Import Floats.SpecFloat.
From S2P Require Import Prelude CMonad CString ListNode World Report Memory SymbolMap Mock FloatCompare Compare Alloc AllocBytes AllocProofs AllocOps AllocLeaks Output OutputProofs Runner Api Frame MockSpec MockProofs RunnerProofs TestContract TestRun GroupProofs RunnerTheorems GroupTheorems.

Section fixtures.
Context `{!Platform, !PlatformLaws}.
Implicit Types (w : World) (hs xs : list ptr).

(** ** The contract *)

Section contract.
Context (group_teardown : option CMFixtureFunction) (hs : list ptr) (leaks : bool).

(** At the end of the group its state is [g] and the blocks [xs] are there:
    the teardown releases them, or some remain. *)
Definition group_tears_down (g : ptr) (xs : list ptr) : Prop :=
  match group_teardown with
  | None => remain leaks xs
  | Some f => forall w5, started w5 (hs ++ xs) -> state_vars w5 !! group_state_addr = Some g ->
      exists ys rc, tears_down f group_state_addr hs w5 ys rc /\ remain leaks ys
  end.

(** The tests keep the promises [cs] with the state [g] of the group, and the
    blocks [hs1] of its setup. *)
Definition group_tests_keep (tests : list CMUnitTest) (g : ptr) (hs1 : list ptr) (r : option (list promise)) : Prop :=
  exists cs, r = Some cs /\ Forall2 (keeps_promise_from g) tests cs /\
    forall xs, remain (existsb snd cs) xs -> group_tears_down g (hs1 ++ xs).

(** [r]: the results of the tests, or None if the setup fails.  The tests of a
    group whose setup fails promise nothing. *)
Definition group_performs (group_setup : option CMFixtureFunction) (tests : list CMUnitTest)
    (r : option (list promise)) : Prop :=
  match group_setup with
  | None => group_tests_keep tests NULL [] r
  | Some f => forall w1, started w1 hs -> state_vars w1 !! group_state_addr = Some NULL ->
      exists hs1 rc w2 g, sets_up f group_state_addr hs w1 hs1 rc w2 /\ state_vars w2 !! group_state_addr = Some g /\
        if rc =? 0 then group_tests_keep tests g hs1 r else r = None /\ group_tears_down g hs1
  end.
End contract.

(** What the group returns, without a leak. *)
Definition group_result (r : option (list promise)) : Z :=
  match r with Some cs => to_s32 (Z.of_nat (failures cs)) | None => 1 end.

(** ** The phases of a group *)

Lemma group_addr : group_state_addr <> NULL /\ group_state_addr <> current_state_addr.
Proof. done. Qed.

(** The fixtures leave the variables of the tests alone. *)
Lemma vars_at_fixture g g' w w' i n :
  vars_at g w i n -> others group_state_addr w w' -> state_vars w' !! group_state_addr = Some g' -> vars_at g' w' i n.
Proof.
  intros [_ Hv] Ho Hg. split; [done|]. intros k Hk. destruct (test_addr (i + k)) as (_ & Hc & Hn & _). rewrite Ho; auto.
Qed.
Lemma vars_at_talks g w w' i n : talks w w' -> vars_at g w i n -> vars_at g w' i n.
Proof. by intros (? & ? & ? & ? & ? & ? & ? & ? & ? & ? & ->). Qed.
Lemma speaks_flush : speaks flush_error_message.
Proof.
  unfold flush_error_message. apply speaks_gets. intros [m|]; [|apply speaks_ret].
  apply speaks_seq; [apply speaks_error|]. intros w. eexists. split; [done|talk].
Qed.

(** The state in which the tests start, or in which the setup has failed. *)
Lemma group_setup_phase group_teardown hs leaks group_setup tests r w n :
  group_performs group_teardown hs leaks group_setup tests r -> idle w hs -> vars_at NULL w 0 n ->
  exists rc g hs1 w', group_setup_result group_setup (last_block hs) w = (Ret rc, w') /\ idle w' (hs ++ hs1) /\
    vars_at g w' 0 n /\
    if rc =? 0 then group_tests_keep group_teardown hs leaks tests g hs1 r
    else r = None /\ group_tears_down group_teardown hs leaks g hs1.
Proof.
  intros Hp Hid Hv. unfold group_setup_result. destruct group_setup as [f|].
  2:{ exists 0, NULL, [], w. by rewrite app_nil_r. }
  destruct (setup_run f "cmocka_group_setup" group_state_addr (last_block hs) w hs Hid (proj1 group_addr)) as (w1 & He & Hrun).
  pose proof (entered_started _ _ _ (id_undisturbed _ _ Hid) He) as Hst.
  destruct (entered_resumes _ _ _ _ (proj2 group_addr) He) as [_ Hv1].
  destruct (Hp w1 Hst ltac:(rewrite Hv1; apply Hv)) as (hs1 & rc & w2 & g & Hset & Hg & Hnext).
  destruct (Hrun hs1 rc w2 Hset) as (w' & R & Hid' & [_ Hres] & Ho).
  exists rc, g, hs1, w'. split; [exact R|]. split; [done|]. split; [|done].
  apply (vars_at_fixture NULL g w); [done..|]. congruence.
Qed.

(** What the runner does with the teardown function. *)
Definition group_teardown_step (group_name : string) (group_teardown : option CMFixtureFunction) (group_check_point : ptr) : CM unit :=
  match group_teardown with
  | Some _ =>
      rc ← cmocka_run_group_fixture "cmocka_group_teardown" None group_teardown group_state_addr group_check_point;
      when (negb (rc =? 0))
        (flush_error_message;; cmprintf PRINTF_TEST_ERROR 0 group_name (Some "[  FAILED  ] GROUP TEARDOWN"))
  | None => mret tt
  end.

Lemma group_teardown_phase group_name group_teardown hs leaks g xs w :
  group_tears_down group_teardown hs leaks g xs -> idle w (hs ++ xs) -> state_vars w !! group_state_addr = Some g ->
  exists ys w', group_teardown_step group_name group_teardown (last_block hs) w = (Ret tt, w') /\ idle w' (hs ++ ys) /\ remain leaks ys.
Proof.
  unfold group_tears_down, group_teardown_step. intros Hp Hid Hg. destruct group_teardown as [f|]; [|by exists xs, w].
  destruct (teardown_run f "cmocka_group_teardown" group_state_addr (last_block hs) w hs xs Hid (proj1 group_addr))
    as (w1 & He & Hrun); [by eapply point_heap, Hid|].
  destruct (entered_resumes _ _ _ _ (proj2 group_addr) He) as [_ Hv1].
  destruct (Hp w1 (entered_started _ _ _ (id_undisturbed _ _ Hid) He) ltac:(congruence)) as (ys & rc & Htd & Hr).
  destruct (Hrun ys rc Htd) as (w' & R & Hid' & _). exists ys. unfold cmocka_run_group_fixture. mrun R.
  destruct (speaks_when (negb (rc =? 0)) _ (speaks_seq _ _ speaks_flush (speaks_cmprintf PRINTF_TEST_ERROR 0 group_name
    (Some "[  FAILED  ] GROUP TEARDOWN"))) w') as (w'' & R' & T). exists w''. split; [exact R'|]. split; [by eapply idle_talks|done].
Qed.

(** The tests, or the report of the failed setup: the totals [c] add up to the
    result, and the teardown finds the state and the blocks it expects. *)
Lemma group_tests_phase group_name group_teardown hs leaks tests r rc g hs1 w :
  idle w (hs ++ hs1) -> vars_at g w 0 (length tests) ->
  (if rc =? 0 then group_tests_keep group_teardown hs leaks tests g hs1 r
   else r = None /\ group_tears_down group_teardown hs leaks g hs1) ->
  exists ts c w' xs,
    (if rc =? 0 then execute_tests 0 (imap fresh_test tests) no_totals
     else flush_error_message;;
          cmprintf PRINTF_TEST_ERROR 0 group_name (Some "[  FAILED  ] GROUP SETUP");;
          mret (imap fresh_test tests, count_error no_totals)) w = (Ret (ts, c), w') /\
    to_s32 (Z.of_nat (total_failed c + total_errors c)) = group_result r /\ idle w' (hs ++ xs) /\
    state_vars w' !! group_state_addr = Some g /\ group_tears_down group_teardown hs leaks g xs.
Proof.
  intros Hid Hv Hp. destruct (rc =? 0).
  - destruct Hp as (cs & -> & Hcs & Htd).
    destruct (execute_tests_perform g tests cs Hcs 0 no_totals w _ Hid Hv) as (ts & c & w' & xs & R & Hst & Hid' & Hr & Hg).
    exists ts, c, w', (hs1 ++ xs). rewrite app_assoc. split_and!; [exact R| |done..|by apply Htd].
    destruct (execute_tests_counted _ _ _ _ _ _ _ R) as (_ & (_ & _ & Hf & He & _) & _). cbn in Hf, He.
    cbn [group_result]. unfold failures. by rewrite Hf, He, !with_count_statuses, Hst.
  - destruct Hp as [-> Htd]. destruct (speaks_flush w) as (w1 & R1 & T1). mrun R1.
    destruct (speaks_cmprintf PRINTF_TEST_ERROR 0 group_name (Some "[  FAILED  ] GROUP SETUP") w1) as (w2 & R2 & T2). mrun R2.
    assert (talks w w2) as T by (by etrans).
    eexists _, _, w2, hs1. split_and!; [done|done|by eapply idle_talks|by apply (vars_at_talks g w w2 0 _ T Hv)|done].
Qed.

(** C9: A group with any setup and teardown functions that keeps the contract
    always comes to its result.  If the setup succeeds, every selected test
    runs, with the state the setup has stored if it is not NULL, and the result
    is the number of failures and errors among the tests; if it fails, no test
    is run - the tests may then do anything - and the result is 1.  What the
    teardown returns is not counted; but if blocks remain that neither it nor
    the runner releases, the leak check exits with status 1. *)
Theorem group_fixtures_perform group_name tests group_setup group_teardown r leaks w hs :
  startable w hs -> group_performs group_teardown hs leaks group_setup (selected w tests) r -> NUL ∉ chars group_name ->
  (forall u, plat_libc_alloc_ok u (SIZEOF_CMUNITTESTSTATE * Z.of_nat (length tests)) = true) ->
  exists w', cmocka_run_group_tests group_name tests group_setup group_teardown w =
      (if leaks then Exit EXIT_FAILURE else Ret (group_result r), w') /\
    (leaks = false -> idle w' hs).
Proof.
  intros Hs Hp Hn Ha. destruct (group_start w hs Hs) as (w1 & R1 & Hid2 & Hg2 & Ft & Fs & _).
  cbv zeta in Hid2. set (w2 := set_state_vars _ w1) in *.
  destruct (setup_idle tests w2 hs Hid2) as (w3 & R3 & Hid3 & Hv3); [apply lookup_insert_eq|].
  assert (selected w2 tests = selected w tests) as Esel by (unfold selected; by rewrite Ft, Fs). rewrite Esel in *.
  destruct (speaks_group_start group_name (length (selected w tests)) w3) as (w4 & R4 & T4).
  destruct (group_setup_phase group_teardown hs leaks group_setup _ r w4 _ Hp (idle_talks _ _ _ T4 Hid3)
    (vars_at_talks NULL w3 w4 0 (length (selected w tests)) T4 Hv3)) as (rc & g & hs1 & w5 & R5 & Hid5 & Hv5 & Hp5).
  destruct (group_tests_phase group_name group_teardown hs leaks _ r rc g hs1 w5 Hid5 Hv5 Hp5)
    as (ts & c & w6 & xs & R6 & Hc & Hid6 & Hg6 & Htd).
  destruct (group_teardown_phase group_name group_teardown hs leaks g xs w6 Htd Hid6 Hg6) as (ys & w7 & R7 & Hid7 & Hr).
  destruct (speaks_group_finish group_name (total_executed c) (total_passed c) (total_failed c) (total_errors c)
    (total_skipped c) (total_runtime c) (report_of <$> ts) Hn w7) as (w8 & R8 & T8).
  pose proof (idle_talks _ _ _ T8 Hid7) as Hid8.
  unfold cmocka_run_group_tests, _cmocka_run_group_tests. mrun R1. unfold store_var. mprim. fold w2. mprim.
  rewrite Ha. cbn [negb]. mrun R3. rewrite length_imap. mrun R4. unfold group_setup_result in R5. mrun R5. mrun R6.
  unfold group_teardown_step in R7. mrun R7. mrun R8. rewrite Hc.
  destruct (fail_if_blocks_allocated_run w8 hs ys "cmocka_group_tests" (id_heap _ _ Hid8) (id_bytes _ _ Hid8)) as [R9 R10].
  unfold remain in Hr. destruct (decide (ys = [])) as [->|Hy].
  - mrun (R9 eq_refl). rewrite Hr. exists w8. rewrite app_nil_r in Hid8. by split.
  - rewrite Hr, bool_decide_false by done. destruct (R10 Hy) as (w9 & R & _). exists w9. split; [|done].
    rewrite bind_eq, R. unfold exit_outcome. destruct (id_undisturbed _ _ Hid8) as (_ & _ & ->). by rewrite (id_running _ _ Hid8).
Qed.
End fixtures.
