(* ===== verification/GroupFaults.v ===== *)
(** * Two faults of the runner

    [skip] called by a setup function leaves its flag set: the test is an error,
    and the next test that fails is taken for a skipped one.  And a test in
    which [mock] finds a value of another type that stays queued is undefined
    behaviour: the value is freed twice. *)
From S2P Require Import Prelude CMonad CString ListNode World Report Memory SymbolMap Tree Mock FloatCompare Compare Alloc AllocProofs AllocOps AllocLeaks Output OutputProofs Runner Frame MockSpec MockProofs DoubleFree RunnerProofs TestContract TestRun GroupProofs.

Section faults.
Context `{!Platform, !PlatformLaws}.
Implicit Types (w : World) (hs xs : list ptr).

(** ** Functions that end a test *)

(** Failing does not abort the process. *)
Definition no_abort w : Prop := environ w !! "CMOCKA_TEST_ABORT" <> Some "1".

(** At the start of a function, whatever is in the flag of [skip]. *)
Record begun w hs : Prop := {
  bg_consistent : consistent w no_expectations hs;
  bg_running : global_running_test w = 1;
  bg_stop : global_stop_test w = 0;
  bg_abort : no_abort w;
}.

(** Wherever it is started, [f] leaves the test by a longjmp, with the flag of
    [skip] as [flag] says. *)
Definition leaves {A} (f : ptr -> CM A) (flag : World -> World -> Prop) : Prop :=
  forall addr hs w1, begun w1 hs -> exists w2 a hs1,
    f addr w1 = (LongJmp, w2) /\ left w1 w2 addr a (hs ++ hs1) /\ global_stop_test w2 = 0 /\ flag w1 w2.
Definition setup_skips (f : CMFixtureFunction) : Prop := leaves f (fun _ w2 => global_skip_test w2 <> 0).
Definition function_fails (f : CMUnitTestFunction) : Prop := leaves f (fun w1 w2 => global_skip_test w2 = global_skip_test w1).

(** ** Between tests *)

(** Like [idle], but for the flag of [skip]. *)
Record resting w hs : Prop := {
  rs_heap : heap w hs;
  rs_bytes : bytes_valid w;
  rs_statics : statics w;
  rs_running : global_running_test w = 0;
  rs_stop : global_stop_test w = 0;
  rs_abort : no_abort w;
}.

Lemma resting_same w w' hs :
  same_mem w w' -> raw w' = raw w -> bytes w' = bytes w -> global_running_test w' = global_running_test w ->
  global_stop_test w' = global_stop_test w -> environ w' = environ w -> resting w hs -> resting w' hs.
Proof.
  intros [Hb Hi] Hr Hy Hrun Hs He [Hh Hv Hst Hru Hsp Ha]. split; [| | |congruence..|unfold no_abort; by rewrite He].
  - apply (heap_same w); [|done]. split_and!; [done..|]. intros x _. by rewrite Hb, Hi.
  - unfold bytes_valid. by rewrite Hy.
  - intros h Hin. unfold node_at. rewrite Hb. by apply Hst.
Qed.
Lemma resting_talks w w' hs : talks w w' -> resting w hs -> resting w' hs /\ global_skip_test w' = global_skip_test w.
Proof.
  intros (so & se & m & o & c & v & f & x & p & e & ->) Hr. split; [|done]. by apply (resting_same w).
Qed.
Lemma resting_quiet w w' hs : quiet w w' -> resting w hs -> resting w' hs /\ global_skip_test w' = global_skip_test w.
Proof. intros Hq. by apply resting_talks, quiet_talks. Qed.
Lemma idle_resting w hs : idle w hs -> no_abort w -> resting w hs.
Proof. intros [Hh Hb Hs Hr (_ & Hsp & _)] Ha. by split. Qed.
Lemma entered_begun w w1 hs : resting w hs -> entered w w1 hs -> begun w1 hs.
Proof.
  intros Hr [Hc Hru _ _ (_ & Hs & He & _)]. split; [done..| |unfold no_abort; rewrite He; apply Hr]. rewrite Hs. apply Hr.
Qed.

(** ** One function *)

(** A function that leaves the test: the result is -1, and the flag of [skip]
    is as the function left it. *)
Lemma function_leaves {A} (f : ptr -> CM A) flag name tf sf df st cp w hs :
  leaves f flag -> resting w hs -> st <> NULL ->
  (forall name addr cp w1 w2, f addr w1 = (LongJmp, w2) ->
    setjmp (run_test_body name tf sf df addr cp) test_failed w1 = test_failed w2) ->
  exists hs1 w1 w2 w', entered w w1 hs /\ flag w1 w2 /\
    cmocka_run_one_test_or_fixture name tf sf df st cp w = (Ret (-1), w') /\ resting w' (hs ++ hs1) /\
    global_skip_test w' = global_skip_test w2 /\ others st w w'.
Proof.
  intros Hf Hrs Hst Hjump.
  destruct (run_phase w hs name tf sf df st cp (rs_heap _ _ Hrs) (rs_bytes _ _ Hrs) (rs_statics _ _ Hrs)) as (w1 & He & Hphase).
  destruct (Hf (state_arg st) hs w1 (entered_begun _ _ _ Hrs He)) as (w2 & a & hs1 & R2 & Hl & Hstop & Hflag).
  destruct (jump_run w2 a (hs ++ hs1)) as (w3 & a3 & R3 & Hr3 & Hc3 & Hct & _); [apply Hl|].
  unfold jump_result in R3. rewrite Hstop in R3. cbn [Z.eqb negb andb] in R3.
  destruct (Hphase (-1) w3 a3 (hs ++ hs1)) as (w' & R & Hen & Hct' & _).
  { rewrite (Hjump _ _ _ _ _ R2). exact R3. }
  { done. } { done. } { rewrite (proj1 Hct). apply Hl. }
  exists hs1, w1, w2, w'. split; [done|]. split; [done|]. split; [exact R|].
  destruct Hct as (_ & Hk & Hv & Henv & Hs), Hct' as (_ & Hk' & Hv' & Henv' & Hs'). cbn in Hk, Hv, Henv, Hs.
  split; [|split; [congruence|] ].
  - destruct Hen as [Hr' [_ Hh' Hb' Hst'] _]. split; [done..|congruence|]. unfold no_abort.
    rewrite Henv', Henv, (lf_environ _ _ _ _ _ Hl). apply (bg_abort _ _ (entered_begun _ _ _ Hrs He)).
  - rewrite state_arg_addr in Hl by done. etrans; [by eapply entered_others|]. etrans; [by eapply left_others|].
    apply same_others. congruence.
Qed.

(** ** One test *)

Lemma resting_clock w hs : resting w hs -> resting (set_clock (S (clock w)) w) hs.
Proof. by apply resting_same. Qed.
Lemma resting_message m w hs : resting w hs -> resting (set_cm_error_message m w) hs.
Proof. by apply resting_same. Qed.
Lemma resting_skip k w hs : resting w hs -> resting (set_global_skip_test k w) hs.
Proof. by apply resting_same. Qed.

(** How a test ends, with the flag of [skip]. *)
Definition test_result (t : CMUnitTestState) s w hs (flag : Z -> Prop) (m : outcome (Z * CMUnitTestState) * World) : Prop :=
  exists rc t' w' hs1, m = (Ret (rc, t'), w') /\ ts_status t' = s /\ resting w' (hs ++ hs1) /\ flag (global_skip_test w') /\
    others (ts_state t) w w'.

Lemma skipping_setup_run t f w hs :
  ut_setup_func (ts_test t) = Some f -> setup_skips f -> resting w hs -> ts_state t <> NULL ->
  test_result t CM_TEST_ERROR w hs (fun k => k <> 0) (cmocka_run_one_tests t w).
Proof.
  intros Ef Hf Hrs Hst.
  change (cmocka_run_one_tests t) with (rt ← run_setup t; let '(rc, t) := rt in rest_of_test rc t).
  assert (check_point_allocated_blocks w = (Ret (last_block hs), w)) as Rc.
  { unfold check_point_allocated_blocks. mrun (get_list_run w _ (rs_heap _ _ Hrs)). apply heap_prev, Hrs. }
  destruct (function_leaves f _ (test_name (ts_test t)) None (Some f) None (ts_state t) (last_block hs) w hs Hf Hrs Hst
    (fun name addr cp w1 w2 => setup_jumped name f addr cp w1 w2)) as (hs1 & w1 & w2 & w3 & _ & Hk & R3 & Hrs3 & Hk3 & Ho).
  destruct (prints_cmocka_print_error "Test setup failed" w3) as (w4 & R4 & Q4).
  assert (run_setup t w = (Ret (-1, with_status CM_TEST_ERROR (with_check_point (last_block hs) t)), w4)) as R.
  { unfold run_setup. rewrite Ef. mrun Rc. cbn [ts_test ts_state with_check_point]. mrun R3. cbn [Z.eqb negb]. by mrun R4. }
  mrun R. destruct (resting_quiet _ _ _ Q4 Hrs3) as [Hrs4 Hk4].
  unfold rest_of_test. destruct (clock_run w4) as [start Rs]. mrun Rs. cbn [Z.eqb]. mprim. set (w5 := set_clock _ w4).
  destruct (clock_run w5) as [finish Rf]. mrun Rf. unfold run_teardown.
  destruct (ut_teardown_func _); cbn [Z.eqb]; do 3 mprim;
    (eexists _, _, _, hs1; split_and!; [done|done|by apply resting_message, resting_clock, resting_clock|by cbn; rewrite Hk4, Hk3|];
     etrans; [exact Ho|]; etrans; [by apply quiet_others|by apply same_others]).
Qed.

Lemma failing_function_run t g w hs :
  ut_setup_func (ts_test t) = None -> ut_test_func (ts_test t) = Some g -> ut_teardown_func (ts_test t) = None ->
  function_fails g -> resting w hs -> ts_state t <> NULL ->
  test_result t (if global_skip_test w =? 0 then CM_TEST_FAILED else CM_TEST_SKIPPED) w hs (fun k => k = 0)
    (cmocka_run_one_tests t w).
Proof.
  intros Es Eg Et Hg Hrs Hst.
  change (cmocka_run_one_tests t) with (rt ← run_setup t; let '(rc, t) := rt in rest_of_test rc t).
  assert (run_setup t w = (Ret (0, t), w)) as R by (unfold run_setup; by rewrite Es). mrun R. unfold rest_of_test. destruct (clock_run w) as [start Rs]. mrun Rs. cbn [Z.eqb]. set (w0 := set_clock _ w).
  destruct (function_leaves g _ (test_name (ts_test t)) (Some g) None None (ts_state t) NULL w0 hs Hg (resting_clock _ _ Hrs) Hst
    (fun name addr cp w1 w2 => function_jumped name g None None addr cp w1 w2))
    as (hs1 & w1 & w2 & w3 & He & Hk & R3 & Hrs3 & Hk3 & Ho).
  assert (global_skip_test w3 = global_skip_test w) as Hk' by (rewrite Hk3, Hk; apply (et_flags _ _ _ He)).
  assert (exists w4, run_test t w0 =
    (Ret (with_status (if global_skip_test w =? 0 then CM_TEST_FAILED else CM_TEST_SKIPPED) t), w4) /\
    resting w4 (hs ++ hs1) /\ global_skip_test w4 = 0 /\ others (ts_state t) w3 w4) as (w4 & R4 & Hrs4 & Hk4 & Ho4).
  { unfold run_test. rewrite Eg. mrun R3. cbn [Z.eqb]. mprim. rewrite Hk'. destruct (global_skip_test w =? 0) eqn:E; cbn [negb].
    - exists w3. zbool. split_and!; [done|done|congruence|done].
    - mprim. eexists. split_and!; [done|by apply resting_skip|done|by apply same_others]. }
  mrun R4. destruct (clock_run w4) as [finish Rf]. mrun Rf. unfold run_teardown. cbn [ts_test with_runtime with_status]. rewrite Et.
  do 3 mprim. eexists _, _, _, hs1. split_and!; [done|done|by apply resting_message, resting_clock|done|].
  etrans; [|etrans; [exact Ho4|by apply same_others] ]. etrans; [|exact Ho]. by apply same_others.
Qed.

(** ** Two tests *)

(** One iteration of the loop over the tests. *)
Lemma execute_step i t n w hs s flag c (ts : list CMUnitTestState) :
  resting w hs -> vars_at NULL w i (S n) ->
  (forall w', resting w' hs -> global_skip_test w' = global_skip_test w ->
     test_result (fresh_test i t) s w' hs flag (cmocka_run_one_tests (fresh_test i t) w')) ->
  exists t' c1 w1 hs1, ts_status t' = s /\ resting w1 (hs ++ hs1) /\ flag (global_skip_test w1) /\ vars_at NULL w1 (S i) n /\
    execute_tests i (fresh_test i t :: ts) c w = (rest ← execute_tests (S i) ts c1; mret (t' :: rest.1, rest.2)) w1.
Proof.
  intros Hrs Hv Ht. cbn [execute_tests].
  destruct (speaks_cmprintf PRINTF_TEST_START (S i) (test_name t) None w) as (w1 & R1 & T1). mrun R1.
  destruct (resting_talks _ _ _ T1 Hrs) as [Hrs1 Hk1].
  assert (vars_at NULL w1 i (S n)) as Hv1 by (by destruct T1 as (? & ? & ? & ? & ? & ? & ? & ? & ? & ? & ->)).
  destruct (init_state_vars NULL i t n w1 Hv1) as (v & R2 & Ho2 & _). rewrite init_state_first. mrun R2.
  destruct (Ht (set_state_vars v w1)) as (rc & t' & w3 & hs1 & R3 & Hs & Hrs3 & Hf & Ho3); [by apply (resting_same w1)|done|].
  mrun R3. destruct (count_result rc t' c) as [ [ty msg] c1].
  destruct (speaks_cmprintf ty (S i) (test_name t) msg w3) as (w4 & R4 & T4). mrun R4.
  destruct (resting_talks _ _ _ T4 Hrs3) as [Hrs4 Hk4]. exists t', c1, w4, hs1. split_and!; [done..|by rewrite Hk4| |done].
  assert (vars_at NULL w3 (S i) n) as Hv3 by (by eapply vars_at_next; [|etrans]).
  by destruct T4 as (? & ? & ? & ? & ? & ? & ? & ? & ? & ? & ->).
Qed.

(** C40: [skip] in a setup function hides the next failure: if the setup of a
    test calls [skip], that test is an error, whatever its other functions would
    do, and a test after it whose function fails has the status of a skipped
    test; no failure is counted.  The same failing test is counted as a failure
    when it comes first. *)
Theorem skip_in_setup_hides_failure t1 t2 f g w hs :
  ut_setup_func t1 = Some f -> setup_skips f ->
  ut_setup_func t2 = None -> ut_test_func t2 = Some g -> ut_teardown_func t2 = None -> function_fails g ->
  idle w hs -> no_abort w -> vars_ready w 0 2 ->
  (exists ts c w', execute_tests 0 (imap fresh_test [t1; t2]) no_totals w = (Ret (ts, c), w') /\
     ts_status <$> ts = [CM_TEST_ERROR; CM_TEST_SKIPPED] /\ total_failed c = 0%nat /\ total_skipped c = 1%nat) /\
  (exists ts c w', execute_tests 0 (imap fresh_test [t2]) no_totals w = (Ret (ts, c), w') /\
     ts_status <$> ts = [CM_TEST_FAILED] /\ total_failed c = 1%nat).
Proof.
  intros Ef Hf Es Eg Et Hg Hid Ha Hv. pose proof (idle_resting _ _ Hid Ha) as Hrs.
  assert (global_skip_test w = 0) as Hk by apply Hid. change (imap fresh_test ?l) with (imap (fun k => fresh_test (0 + k)) l).
  split.
  - destruct (execute_step 0 t1 1 w hs CM_TEST_ERROR (fun k => k <> 0) no_totals [fresh_test 1 t2] Hrs Hv)
      as (s1 & c1 & w1 & hs1 & E1 & Hrs1 & Hk1 & Hv1 & R1); [intros; by eapply skipping_setup_run|].
    destruct (execute_step 1 t2 0 w1 _ CM_TEST_SKIPPED (fun k => k = 0) c1 [] Hrs1 Hv1)
      as (s2 & c2 & w2 & hs2 & E2 & _ & _ & _ & R2).
    { intros w' Hrs' Hk'. apply Z.eqb_neq in Hk1. rewrite <-Hk' in Hk1.
      pose proof (failing_function_run (fresh_test 1 t2) g w' _ Es Eg Et Hg Hrs' ltac:(done)) as H2. by rewrite Hk1 in H2. }
    assert (execute_tests 0 (imap fresh_test [t1; t2]) no_totals w = (Ret ([s1; s2], c2), w2)) as R.
    { etrans; [exact R1|]. by mrun R2. }
    exists [s1; s2], c2, w2. split; [exact R|].
    destruct (execute_tests_counted _ _ _ _ _ _ _ R) as (_ & (_ & _ & Hcf & _ & Hcs) & _).
    rewrite Hcf, Hcs, !with_count_statuses. cbn [fmap list_fmap]. by rewrite E1, E2.
  - destruct (execute_step 0 t2 0 w hs CM_TEST_FAILED (fun k => k = 0) no_totals [] Hrs) as (s2 & c2 & w2 & hs2 & E2 & _ & _ & _ & R2).
    { destruct Hv as [Hg' Hv]. split; [done|]. intros k Hlt. apply Hv. lia. }
    { intros w' Hrs' Hk'. pose proof (failing_function_run (fresh_test 0 t2) g w' _ Es Eg Et Hg Hrs' ltac:(done)) as H2.
      by rewrite Hk', Hk in H2. }
    assert (execute_tests 0 (imap fresh_test [t2]) no_totals w = (Ret ([s2], c2), w2)) as R by exact R2.
    exists [s2], c2, w2. split; [exact R|].
    destruct (execute_tests_counted _ _ _ _ _ _ _ R) as (_ & (_ & _ & Hcf & _) & _).
    rewrite Hcf, with_count_statuses. cbn [fmap list_fmap]. by rewrite E2.
Qed.

(** ** A value of another type *)

(** In [w2] the next value of [f], with the count [c], is of another type than
    [n]; the test goes on as it was started in [w1]. *)
Definition mismatched w1 w2 hs f n (c : Z) : Prop :=
  exists a sv q, consistent w2 a hs /\ refcounts_ok 1 (returns a) /\
    tree_get 1 [f] (returns a) = Some (c, sv, q) /\ c <> 0 /\ sv_name sv <> Some n /\
    global_running_test w2 <> 0 /\ undisturbed w2 /\ default_signal_functions w2 = default_signal_functions w1.

(** The test function which does [m] and then gets a value of type [n]. *)
Definition mismatching (m : ptr -> CM unit) f loc line_ n (k : Z -> CM unit) : CMUnitTestFunction :=
  fun addr => m addr;; v ← _mock f loc line_ (Some n); k v.

(** C39: A value of the wrong type is freed twice.  A test gets, after any
    preparation [m], a value that was declared under another type name.  If this
    was the last use of the value, the test fails, whatever it would have done
    next.  Otherwise [_mock] frees a value that is still queued, and the
    runner, which tears the queues down after the failure, frees it again: the
    run of the test is undefined behaviour. *)
Theorem mismatching_test_frees_twice m k f loc line_ n c name st cp w hs :
  idle w hs ->
  (forall w1, started w1 hs -> exists w2 hs1, m (state_arg st) w1 = (Ret tt, w2) /\ mismatched w1 w2 (hs ++ hs1) f n c) ->
  exists w', cmocka_run_one_test_or_fixture name (Some (mismatching m f loc line_ n k)) None None st cp w =
    (if c =? 1 then Ret (-1) else Undef, w').
Proof.
  intros [Hh Hb Hs Hrun Hu] Hm.
  destruct (run_one_start w hs name (Some (mismatching m f loc line_ n k)) None None st cp Hh Hb Hs)
    as (w1 & Hc1 & Hr1 & _ & _ & Hd1 & Hk1 & Hs1 & He1 & _ & ->). fold (state_arg st).
  destruct (Hm w1) as (w2 & hs1 & Rm & a & sv & q & Hc2 & Hrc & Hget & Hc & Hn & Hr2 & Hu2 & Hd2).
  { split; [done..|]. unfold undisturbed, abort_requested. by rewrite Hk1, Hs1, He1. }
  destruct (mock_mismatch_frees_twice w2 a f loc line_ n sv c q (cs_mocks _ _ _ Hc2) Hrc Hget Hc Hn) as (w3 & R3 & Hk3 & Hone & Htwice).
  assert (mismatching m f loc line_ n k (state_arg st) w1 = (LongJmp, w3)) as Rf.
  { unfold mismatching. mrun Rm. apply bind_longjmp. rewrite R3. f_equal. apply exit_longjmp; [apply Hu2|done]. }
  destruct (Hk3) as (_ & _ & _ & Hd3 & _ & _ & Hs3 & _ & _). destruct Hu2 as (_ & Hs2 & _).
  assert (setjmp (run_test_body name (Some (mismatching m f loc line_ n k)) None None (state_arg st) (point hs cp)) test_failed w1 =
    (Ret (-1), set_global_running_test 0 w3)) as R.
  { rewrite (function_jumped name _ None None _ _ _ _ Rf). apply test_failed_run. congruence. }
  destruct (Z.eqb_spec c 1) as [->|Hne].
  - pose proof (consistent_kept _ _ _ _ _ Hc2 Hk3 (Hone eq_refl)) as Hc3.
    destruct (finish_run _ w1 (-1) _ (mkExpectations q (params a) (calls a)) (hs ++ hs1) (disposition w) R) as (w' & R' & _);
      [done|by apply (consistent_same w3)|exact (eq_trans Hd3 (eq_trans Hd2 Hd1))|]. by exists w'.
  - destruct (Htwice Hne (set_global_running_test 0 w3)) as (w' & R'); [done|]. exists w'.
    unfold finish. mrun R. by apply bind_undef.
Qed.
End faults.
