(* ===== verification/XmlReader.v ===== *)
(** * Reading XML documents

    What a well-formed document is, for the part of XML the reports use: a
    reader of characters that builds the tree of the elements.  Character data
    other than white space is accepted as CDATA only, and there are no comments;
    the well-formedness rules kept are that an attribute occurs once and its
    value contains no "<", that tags match, that there is one root, and that a
    declaration comes first. *)
From S2P Require Import Prelude CString CStringTheorems.

Inductive node :=
| Element (name : string) (attributes : list (string * string)) (content : list node)
| Text (s : string).

(** The elements read so far: the attributes of the declaration, the content of
    the innermost open element in reverse, and the open elements, each with its
    name, its attributes and what comes before it. *)
Record tree := mkTree {
  declared : option (list (string * string));
  kids : list node;
  ups : list (string * list (string * string) * list node);
}.

Definition is_nil {A} (l : list A) : bool := match l with [] => true | _ => false end.

Definition add_node (x : node) (t : tree) : tree := mkTree (declared t) (x :: kids t) (ups t).
(** A second root is an error. *)
Definition may_open (t : tree) : bool := negb (is_nil (ups t)) || is_nil (kids t).
Definition open_element (name : string) (attributes : list (string * string)) (t : tree) : option tree :=
  if may_open t then Some (mkTree (declared t) [] ((name, attributes, kids t) :: ups t)) else None.
Definition add_element (name : string) (attributes : list (string * string)) (t : tree) : option tree :=
  if may_open t then Some (add_node (Element name attributes []) t) else None.
Definition add_text (s : string) (t : tree) : option tree :=
  match ups t with [] => None | _ => Some (add_node (Text s) t) end.
Definition close_element (name : string) (t : tree) : option tree :=
  match ups t with
  | (n, attributes, before) :: ups' =>
      if String.eqb n name then Some (mkTree (declared t) (Element n attributes (rev (kids t)) :: before) ups') else None
  | [] => None
  end.

(** What has been read of the current piece of text; lists of characters and of
    attributes are in reverse. *)
Inductive kind := TagKind | DeclarationKind.
Inductive mode :=
| Begin | FirstTag | Content | Tag
| TagName (k : kind) (n : list ascii)
| Inside (k : kind) (n : string) (attributes : list (string * string))
| AttributeName (k : kind) (n : string) (attributes : list (string * string)) (a : list ascii)
| Equals (k : kind) (n : string) (attributes : list (string * string)) (a : string)
| Value (k : kind) (n : string) (attributes : list (string * string)) (a : string) (v : list ascii)
| AfterValue (k : kind) (n : string) (attributes : list (string * string))
| Slash (n : string) (attributes : list (string * string))
| Question (attributes : list (string * string))
| CloseName (n : list ascii)
| Bang (expected : list ascii)
| CData (acc : list ascii).

Definition is_white (c : ascii) : bool := existsb (Ascii.eqb c) (Ascii.ascii_of_nat <$> [32; 10; 9; 13]%nat).
Definition DQUOTE : ascii := Ascii.ascii_of_nat 34.
(** Letters, digits and "-", "." , ":", "_". *)
Definition is_name_char (c : ascii) : bool :=
  let n := Ascii.nat_of_ascii c in
  (Nat.leb 97 n && Nat.leb n 122) || (Nat.leb 65 n && Nat.leb n 90) || (Nat.leb 45 n && Nat.leb n 58 && negb (Nat.eqb n 47))
  || Nat.eqb n 95.

Definition name_of (acc : list ascii) : string := text (rev acc).
Definition decode (acc : list ascii) : string := text (xml_unescape (rev acc)).

(** The end of a start tag, of a declaration or of an empty element. *)
Definition in_tag (k : kind) (n : string) (attributes : list (string * string)) (c : ascii) (t : tree) : option (mode * tree) :=
  match k with
  | TagKind =>
      if Ascii.eqb c ">" then pair Content <$> open_element n (rev attributes) t
      else if Ascii.eqb c "/" then Some (Slash n attributes, t) else None
  | DeclarationKind => if Ascii.eqb c "?" && String.eqb n "xml" then Some (Question attributes, t) else None
  end.

Definition in_markup (c : ascii) (t : tree) : option (mode * tree) :=
  if Ascii.eqb c "/" then Some (CloseName [], t)
  else if Ascii.eqb c "!" then Some (Bang (chars "[CDATA["), t)
  else if is_name_char c then Some (TagName TagKind [c], t) else None.

Definition read_char (s : mode * tree) (c : ascii) : option (mode * tree) :=
  let '(m, t) := s in
  match m with
  | Begin => if Ascii.eqb c "<" then Some (FirstTag, t) else if is_white c then Some (Content, t) else None
  | FirstTag => if Ascii.eqb c "?" then Some (TagName DeclarationKind [], t) else in_markup c t
  | Content => if Ascii.eqb c "<" then Some (Tag, t) else if is_white c then Some (Content, t) else None
  | Tag => in_markup c t
  | TagName k n =>
      if is_name_char c then Some (TagName k (c :: n), t)
      else if is_white c then Some (Inside k (name_of n) [], t) else in_tag k (name_of n) [] c t
  | Inside k n l =>
      if is_white c then Some (Inside k n l, t)
      else if is_name_char c then Some (AttributeName k n l [c], t) else in_tag k n l c t
  | AttributeName k n l a =>
      if is_name_char c then Some (AttributeName k n l (c :: a), t)
      else if Ascii.eqb c "=" && negb (existsb (String.eqb (name_of a)) l.*1) then Some (Equals k n l (name_of a), t) else None
  | Equals k n l a => if Ascii.eqb c DQUOTE then Some (Value k n l a [], t) else None
  | Value k n l a v =>
      if Ascii.eqb c DQUOTE then Some (AfterValue k n ((a, decode v) :: l), t)
      else if Ascii.eqb c "<" then None else Some (Value k n l a (c :: v), t)
  | AfterValue k n l => if is_white c then Some (Inside k n l, t) else in_tag k n l c t
  | Slash n l => if Ascii.eqb c ">" then pair Content <$> add_element n (rev l) t else None
  | Question l => if Ascii.eqb c ">" then Some (Content, mkTree (Some (rev l)) (kids t) (ups t)) else None
  | CloseName n =>
      if is_name_char c then Some (CloseName (c :: n), t)
      else if Ascii.eqb c ">" then pair Content <$> close_element (name_of n) t else None
  | Bang e =>
      match e with
      | d :: e' => if Ascii.eqb c d then Some (if is_nil e' then CData [] else Bang e', t) else None
      | [] => None
      end
  | CData acc =>
      match c, acc with
      | ">"%char, "]"%char :: "]"%char :: acc' => pair Content <$> add_text (name_of acc') t
      | _, _ => Some (CData (c :: acc), t)
      end
  end.

Fixpoint read_chars (l : list ascii) (s : mode * tree) : option (mode * tree) :=
  match l with [] => Some s | c :: l' => read_char s c ≫= read_chars l' end.

(** The declaration, if any, and the root element of a document. *)
Definition read_xml (s : string) : option (option (list (string * string)) * node) :=
  match read_chars (chars s) (Begin, mkTree None [] []) with
  | Some (Content, mkTree d [x] []) => Some (d, x)
  | _ => None
  end.

(** ** Reading pieces *)

Definition reads (s : string) (m m' : mode * tree) : Prop := read_chars (chars s) m = Some m'.

Lemma chars_app s t : chars (s +:+ t) = chars s ++ chars t.
Proof. induction s as [|c s IH]; [done|]. change (c :: chars (s +:+ t) = c :: chars s ++ chars t). by rewrite IH. Qed.
Lemma chars_text l : chars (text l) = l.
Proof. apply String.list_ascii_of_string_of_list_ascii. Qed.
Lemma text_chars s : text (chars s) = s.
Proof. apply String.string_of_list_ascii_of_string. Qed.

Lemma read_chars_app l k s : read_chars (l ++ k) s = read_chars l s ≫= read_chars k.
Proof. revert s. induction l as [|c l IH]; intros s; cbn; [done|]. destruct (read_char s c); cbn; [apply IH|done]. Qed.
Lemma reads_app s t m1 m2 m3 : reads s m1 m2 -> reads t m2 m3 -> reads (s +:+ t) m1 m3.
Proof. unfold reads. rewrite chars_app, read_chars_app. by intros ->. Qed.
Lemma reads_nil m : reads "" m m.
Proof. done. Qed.

(** The value of an attribute: [v] stands for [d]. *)
Definition value (v d : string) : Prop :=
  DQUOTE ∉ chars v /\ "<"%char ∉ chars v /\ text (xml_unescape (chars v)) = d.

Lemma reads_value_chars l k n attributes a acc t : DQUOTE ∉ l -> "<"%char ∉ l ->
  read_chars l (Value k n attributes a acc, t) = Some (Value k n attributes a (rev l ++ acc), t).
Proof.
  revert acc. induction l as [|c l IH]; intros acc Hq Hl; [done|].
  apply not_elem_of_cons in Hq as [Hq ?], Hl as [Hl ?]. cbn [read_chars read_char].
  rewrite (proj2 (Ascii.eqb_neq c DQUOTE)), (proj2 (Ascii.eqb_neq c "<")) by congruence. cbn [mbind option_bind].
  rewrite IH by done. cbn [rev]. by rewrite <-app_assoc.
Qed.

Lemma reads_value v d k n attributes a t : value v d ->
  reads (v +:+ String DQUOTE "") (Value k n attributes a [], t) (AfterValue k n ((a, d) :: attributes), t).
Proof.
  intros (Hq & Hl & <-). eapply reads_app; [by apply reads_value_chars|]. rewrite app_nil_r.
  unfold reads. cbn -[decode]. unfold decode. by rewrite rev_involutive.
Qed.

(** The content of a CDATA section does not contain the characters that end it. *)
Definition cdata (l : list ascii) : Prop := ~ exists a b, l = a ++ chars "]]>" ++ b.

Lemma read_cdata_char acc c t : (forall r, c = ">"%char -> acc <> "]"%char :: "]"%char :: r) ->
  read_char (CData acc, t) c = Some (CData (c :: acc), t).
Proof.
  intros H. cbn. destruct c as [ [] [] [] [] [] [] [] [] ]; try done.
  destruct acc as [|c1 acc]; [done|]. destruct c1 as [ [] [] [] [] [] [] [] [] ]; try done.
  destruct acc as [|c2 acc]; [done|]. destruct c2 as [ [] [] [] [] [] [] [] [] ]; try done.
  by destruct (H acc eq_refl).
Qed.

Lemma read_cdata l acc t : cdata (rev acc ++ l) ->
  read_chars l (CData acc, t) = Some (CData (rev l ++ acc), t).
Proof.
  revert acc. induction l as [|c l IH]; intros acc Hc; [done|]. cbn [read_chars]. rewrite read_cdata_char.
  - cbn [mbind option_bind]. rewrite IH; cbn [rev]; by rewrite <-app_assoc.
  - intros r -> ->. apply Hc. exists (rev r), l. cbn [rev]. by rewrite <-!app_assoc.
Qed.

(** A CDATA section in an element. *)
Lemma reads_cdata s t t' : cdata (chars s) -> add_text s t = Some t' ->
  reads ("<![CDATA[" +:+ s +:+ "]]>") (Content, t) (Content, t').
Proof.
  intros Hc Ht. eapply reads_app; [reflexivity|]. eapply reads_app; [by apply (read_cdata _ [])|].
  unfold reads. cbn -[add_text name_of]. unfold name_of. by rewrite app_nil_r, rev_involutive, text_chars, Ht.
Qed.

(** ** Two documents *)

(** As long as the first document has no root, a reader that already has one
    keeps up with it or fails. *)
Definition keeps_up (s1 s2 : mode * tree) : Prop :=
  (s1.1 = s2.1 \/ (s1.1 = Begin /\ s2.1 = Content) \/ (s1.1 = FirstTag /\ s2.1 = Tag)) /\
  kids s1.2 = [] /\ ups s1.2 = [] /\ kids s2.2 <> [] /\ ups s2.2 = [].

Lemma read_char_keeps_up c s1 s1' s2 : keeps_up s1 s2 -> read_char s1 c = Some s1' ->
  read_char s2 c = None \/ exists s2', read_char s2 c = Some s2' /\ keeps_up s1' s2'.
Proof.
  destruct s1 as [m1 [d1 k1 u1] ], s2 as [m2 [d2 k2 u2] ]. intros (Hm & K1 & U1 & K2 & U2) Hr. cbn in *. subst.
  destruct k2 as [|y k2]; [done|].
  assert (forall m m' d d', m = m' \/ (m = Begin /\ m' = Content) \/ (m = FirstTag /\ m' = Tag) ->
    exists s2', Some (m', mkTree d' (y :: k2) []) = Some s2' /\ keeps_up (m, mkTree d [] []) s2') as Hsome.
  { intros m m' d d' Hmm. by eexists. }
  destruct Hm as [->|[ [-> ->]|[-> ->] ] ]; [destruct m2| |];
    unfold in_tag, in_markup, open_element, add_element, add_text, close_element, may_open in *; cbn in *;
    repeat case_match; simplify_eq/=; auto 7;
    repeat match goal with H : (_ =? _)%char = true |- _ => apply Ascii.eqb_eq in H; subst end; done.
Qed.

Lemma read_chars_keeps_up l : forall s1 s2 d x, keeps_up s1 s2 ->
  read_chars l s1 = Some (Content, mkTree d [x] []) -> read_chars l s2 = None.
Proof.
  induction l as [|c l IH]; intros s1 s2 d x Hk; cbn [read_chars].
  { intros [= ->]. by destruct Hk as (_ & ? & _). }
  intros (s1' & Hr & Hl)%bind_Some. destruct (read_char_keeps_up c s1 s1' s2 Hk Hr) as [->|(s2' & -> & Hk')]; [done|].
  cbn. by eapply IH.
Qed.

Lemma read_xml_state s dx : read_xml s = Some dx <->
  read_chars (chars s) (Begin, mkTree None [] []) = Some (Content, mkTree dx.1 [dx.2] []).
Proof.
  unfold read_xml. destruct dx as [d x]. split; [|by intros ->].
  repeat case_match; naive_solver.
Qed.

(** One document after another is not a document. *)
Lemma read_xml_twice s t : read_xml s <> None -> read_xml t <> None -> read_xml (s +:+ t) = None.
Proof.
  destruct (read_xml s) as [dx|] eqn:Hs; [|done]. destruct (read_xml t) as [ex|] eqn:Ht; [|done]. intros _ _.
  apply read_xml_state in Hs, Ht. unfold read_xml. rewrite chars_app, read_chars_app, Hs. cbn [mbind option_bind].
  assert (keeps_up (Begin, mkTree None [] []) (Content, mkTree dx.1 [dx.2] [])) as Hk by (split; auto; done).
  by rewrite (read_chars_keeps_up _ _ _ _ _ Hk Ht).
Qed.
