(* ===== verification/XmlReport.v ===== *)
(** * The XML report of a group

    What a group writes with XML as output format reads back, with the reader
    of XmlReader.v, as the document of its results: one test suite with its
    counts, one test case per test with its outcome and message. *)
From S2P Require Import Prelude CMonad CString CStringTheorems ListNode World Report Memory FloatCompare Output OutputProofs XmlReader.

(** ** The document *)

Definition result_node (r : report) : list node :=
  match rp_status r with
  | CM_TEST_ERROR | CM_TEST_FAILED =>
      match rp_error_message r with
      | Some m => [Element "failure" [] [Text m]]
      | None => [Element "failure" [("message", "Unknown error")] []]
      end
  | CM_TEST_SKIPPED => [Element "skipped" [] []]
  | CM_TEST_PASSED | CM_TEST_NOT_STARTED => []
  end.

Definition case_node (r : report) : node :=
  Element "testcase" [("name", rp_name r); ("time", fmt_fixed 3 (rp_runtime r))] (result_node r).

Definition suite_node (group_name : string) (executed failed errors skipped : nat) (runtime : fpnum) (rs : list report) : node :=
  Element "testsuites" []
    [Element "testsuite"
       [("name", group_name); ("time", fmt_fixed 3 runtime); ("tests", fmt_number executed);
        ("failures", fmt_number failed); ("errors", fmt_number errors); ("skipped", fmt_number skipped)]
       (case_node <$> rs)].

(** A name that fits in the buffer for attributes, and a test whose message
    does not end its CDATA section. *)
Definition fits (name : string) : Prop :=
  NUL ∉ chars name /\ (length (xml_escape (chars name)) + 7 < BUFFER_SIZE)%nat.
Definition printable (r : report) : Prop :=
  fits (rp_name r) /\ forall m, rp_error_message r = Some m -> cdata (chars m).

(** ** Values of attributes *)

(** Numbers and names of numbers contain no markup. *)
Definition plain (s : string) : Prop := Forall (fun c => c <> DQUOTE /\ c <> "<"%char /\ c <> "&"%char) (chars s).

Lemma plain_app s t : plain s -> plain t -> plain (s +:+ t).
Proof. unfold plain. rewrite chars_app, Forall_app. done. Qed.

Lemma unescape_plain l : Forall (fun c => c <> "&"%char) l -> xml_unescape l = l.
Proof.
  induction 1 as [|c l Hc _ IH]; [done|]. rewrite <-IH at 2.
  destruct c as [ [] [] [] [] [] [] [] [] ]; try done; simpl; congruence.
Qed.

Lemma value_plain s : plain s -> value s s.
Proof.
  unfold plain. intros Hp. pose proof (proj1 (Forall_forall _ _) Hp) as Hc. split_and!.
  - intros Hin. by destruct (Hc _ Hin) as [? _].
  - intros Hin. by destruct (Hc _ Hin) as (_ & ? & _).
  - rewrite unescape_plain, text_chars; [done|]. eapply Forall_impl; [exact Hp|]. by intros c (_ & _ & ?).
Qed.

Lemma plain_pretty_go x s : plain s -> plain (pretty_N_go x s).
Proof.
  revert s. induction (N.lt_wf_0 x) as [x _ IH]; intros s Hs.
  destruct (decide (x = 0)%N) as [->|Hx]; [done|]. rewrite pretty_N_go_step by lia.
  apply IH; [apply N.div_lt; lia|]. constructor; [|done].
  unfold pretty_N_char. by repeat case_match.
Qed.
Lemma plain_fmt_u z : plain (fmt_u z).
Proof.
  unfold fmt_u, pretty, pretty_N. case_decide; [|apply plain_pretty_go; constructor].
  repeat constructor; done.
Qed.
Lemma plain_repeat n s : plain s -> plain (repeat_string n s).
Proof. intros Hs. induction n as [|n IH]; [constructor|]. by apply plain_app. Qed.

Lemma plain_fixed k x : plain (fmt_fixed k x).
Proof.
  assert (forall s : bool, plain (if s then "-" else "")) as Hsign by (intros []; repeat constructor; done).
  assert (forall z u, plain (fmt_u (z / u) +:+ "." +:+
    repeat_string (k - String.length (fmt_u (z mod u))) "0" +:+ fmt_u (z mod u))) as Hd.
  { intros z u. repeat apply plain_app; [apply plain_fmt_u|repeat constructor; done| |apply plain_fmt_u].
    apply plain_repeat. repeat constructor; done. }
  destruct x; cbn [fmt_fixed]; try (apply plain_app; [apply Hsign|]); try apply Hd; repeat constructor; done.
Qed.

(** An escaped name stands for the name. *)
Lemma value_escaped s : value (text (xml_escape (chars s))) s.
Proof.
  unfold value. rewrite chars_text, xml_unescape_escape, text_chars.
  assert (forall c, c = DQUOTE \/ c = "<"%char -> c ∉ xml_escape (chars s)) as Hn.
  { intros c Hc [d [Hin _] ]%list_elem_of_bind. revert Hin. unfold xml_char.
    repeat (case_bool_decide; [by destruct Hc as [->| ->]; vm_compute; intros Hin; set_solver|]).
    rewrite list_elem_of_singleton. intros <-. naive_solver. }
  split_and!; auto.
Qed.

(** ** Lines *)

Lemma reads_dq v d k n attributes a t : value v d ->
  reads (dq v) (Equals k n attributes a, t) (AfterValue k n ((a, d) :: attributes), t).
Proof. intros Hv. eapply (reads_app (String DQUOTE "")); [reflexivity|]. by apply reads_value. Qed.

(** Read the constant at the front of a text, and the values of attributes. *)
Ltac read_piece :=
  lazymatch goal with
  | |- reads (dq _ +:+ _) _ _ => eapply reads_app; [by apply reads_dq|]
  | |- reads (?s +:+ _) ?m _ =>
      let r := eval vm_compute in (read_chars (chars s) m) in
      match r with Some ?m' => apply (reads_app _ _ _ m'); [reflexivity|] end
  | |- reads _ _ _ => reflexivity
  end.

Section lines.
Context (d : option (list (string * string))) (ks : list node) (u : string * list (string * string) * list node)
  (us : list (string * list (string * string) * list node)).

Lemma reads_case_start v name w time : value v name -> value w time ->
  reads ("    <testcase name=" +:+ dq v +:+ " time=" +:+ dq w +:+ " >" +:+ nl)
    (Content, mkTree d ks (u :: us))
    (Content, mkTree d [] (("testcase", [("name", name); ("time", time)], ks) :: u :: us)).
Proof. intros Hv Hw. repeat read_piece. Qed.

Lemma reads_suite_start v name w time n1 n2 n3 n4 : value v name -> value w time ->
  plain n1 -> plain n2 -> plain n3 -> plain n4 ->
  reads ("  <testsuite name=" +:+ dq v +:+ " time=" +:+ dq w +:+ " " +:+
    ("tests" +:+ "=" +:+ dq n1 +:+ " ") +:+ ("failures" +:+ "=" +:+ dq n2 +:+ " ") +:+
    ("errors" +:+ "=" +:+ dq n3 +:+ " ") +:+ ("skipped" +:+ "=" +:+ dq n4 +:+ " ") +:+ ">" +:+ nl)
    (Content, mkTree d ks (u :: us))
    (Content, mkTree d [] (("testsuite", [("name", name); ("time", time); ("tests", n1); ("failures", n2);
       ("errors", n3); ("skipped", n4)], ks) :: u :: us)).
Proof.
  intros Hv Hw H1%value_plain H2%value_plain H3%value_plain H4%value_plain.
  rewrite <-!string_app_assoc. repeat read_piece.
Qed.

Lemma reads_failure m : cdata (chars m) ->
  reads ("      <failure><![CDATA[" +:+ m +:+ "]]></failure>" +:+ nl)
    (Content, mkTree d ks (u :: us)) (Content, mkTree d (Element "failure" [] [Text m] :: ks) (u :: us)).
Proof.
  intros Hm.
  replace ("      <failure><![CDATA[" +:+ _) with
    ("      <failure>" +:+ ("<![CDATA[" +:+ m +:+ "]]>") +:+ "</failure>" +:+ nl) by by rewrite <-!string_app_assoc.
  read_piece. eapply reads_app; [by apply reads_cdata|]. repeat read_piece.
Qed.

Lemma reads_case_end l before : reads ("    </testcase>" +:+ nl) (Content, mkTree d ks (("testcase", l, before) :: u :: us))
  (Content, mkTree d (Element "testcase" l (rev ks) :: before) (u :: us)).
Proof. repeat read_piece. Qed.
Lemma reads_suite_end l before : reads ("  </testsuite>" +:+ nl) (Content, mkTree d ks (("testsuite", l, before) :: us))
  (Content, mkTree d (Element "testsuite" l (rev ks) :: before) us).
Proof. repeat read_piece. Qed.
Lemma reads_suites_end l : reads ("</testsuites>" +:+ nl) (Content, mkTree d ks [("testsuites", l, [])])
  (Content, mkTree d [Element "testsuites" l (rev ks)] []).
Proof. repeat read_piece. Qed.
End lines.

(** ** Writing *)

Definition stream_text (fp : stream) (w : World) : string :=
  match fp with Stdout => stdout_text w | Stderr => stderr_text w | File name => default "" (files w !! name) end.
(** A file that was opened exists. *)
Definition opened (fp : stream) (w : World) : Prop :=
  match fp with File name => is_Some (files w !! name) | _ => True end.

Section writing.
Context `{!Platform}.

(** [m] returns, and what it appends to the stream takes the reader from [a]
    to [b]. *)
Definition writes (fp : stream) (m : CM unit) (a b : mode * tree) : Prop :=
  forall w, opened fp w -> exists w' s, m w = (Ret tt, w') /\ opened fp w' /\
    stream_text fp w' = stream_text fp w +:+ s /\ reads s a b.

Lemma writes_print fp s a b : reads s a b -> writes fp (fprintf fp s) a b.
Proof.
  intros Hs w Hw. destruct fp as [| |name]; cbn [fprintf].
  - by eexists _, s.
  - by eexists _, s.
  - eexists _, s. split; [done|]. cbn. rewrite lookup_insert_eq. by split_and!; [eexists| |].
Qed.
Lemma writes_ret fp a : writes fp (mret tt) a a.
Proof. intros w Hw. exists w, "". by rewrite string_app_nil. Qed.
Lemma writes_seq fp (m k : CM unit) a b c : writes fp m a b -> writes fp k b c -> writes fp (m;; k) a c.
Proof.
  intros Hm Hk w Hw. destruct (Hm w Hw) as (w1 & s1 & R1 & H1 & T1 & S1), (Hk w1 H1) as (w2 & s2 & R2 & H2 & T2 & S2).
  exists w2, (s1 +:+ s2). mrun R1. rewrite T2, T1, string_app_assoc. split_and!; [done..|by eapply reads_app].
Qed.
(** A step that leaves the streams alone. *)
Lemma writes_after {A} fp (m : CM A) (k : A -> CM unit) a b :
  (forall w, exists x w', m w = (Ret x, w') /\ (forall fp, stream_text fp w' = stream_text fp w) /\ files w' = files w /\
    writes fp (k x) a b) ->
  writes fp (m ≫= k) a b.
Proof.
  intros Hm w Hw. destruct (Hm w) as (x & w1 & R & T & F & Hk).
  destruct (Hk w1) as (w2 & s & R2 & H2 & T2 & S2); [by destruct fp; cbn in *; rewrite ?F|].
  exists w2, s. mrun R. rewrite T2, T. by split_and!.
Qed.

Lemma attribute_string_escapes src w : fits src ->
  exists e, attribute_string src w = (Ret (text (xml_escape (chars src))), set_errno e w).
Proof.
  intros [Hn Hl]. unfold attribute_string, with_buffer.
  destruct (cmprepare_escapes src (mkCstate (replicate BUFFER_SIZE NUL) None (errno w)) Hn) as (st & R & Hh & _);
    [by cbn [src_buf]; rewrite length_replicate|].
  cbn [src_buf] in R. rewrite length_replicate in R. rewrite (bind_run _ _ _ _ _ R).
  assert (cstr (src_buf st) = Some (xml_escape (chars src))) as Hc by (destruct Hh as [Hn' [t ->]]; by apply cstr_app).
  rewrite (bind_run _ _ _ (xml_escape (chars src)) st) by by apply deref_run. by eexists.
Qed.

Lemma writes_attribute fp src k a b : fits src ->
  (forall v, value v src -> writes fp (k v) a b) -> writes fp (v ← attribute_string src; k v) a b.
Proof.
  intros Hf Hk. apply writes_after. intros w. destruct (attribute_string_escapes src w Hf) as [e R].
  eexists _, _. split; [exact R|]. split; [by intros []|]. split; [done|]. apply Hk, value_escaped.
Qed.

(** ** The parts of the report *)

#[local] Abbreviation inside d ks u us := (Content, mkTree d ks (u :: us)).

Lemma writes_result fp r d ks u us : printable r ->
  writes fp (print_xml_result fp r) (inside d ks u us) (inside d (rev (result_node r) ++ ks) u us).
Proof.
  intros [_ Hm]. unfold print_xml_result, result_node.
  assert (value "Unknown error" "Unknown error") as Hu by (apply value_plain; repeat constructor; done).
  destruct (rp_status r); try apply writes_ret; try (apply writes_print; repeat read_piece).
  all: destruct (rp_error_message r) as [m|]; apply writes_print; [by apply reads_failure, Hm|repeat read_piece].
Qed.

Definition print_xml_case (fp : stream) (r : report) : CM unit :=
  test_name_escaped ← attribute_string (rp_name r);
  fprintf fp ("    <testcase name=" +:+ dq test_name_escaped +:+ " time=" +:+
    dq (fmt_fixed 3 (rp_runtime r)) +:+ " >" +:+ nl);;
  print_xml_result fp r;;
  fprintf fp ("    </testcase>" +:+ nl).

Lemma writes_case fp r d ks u us : printable r ->
  writes fp (print_xml_case fp r) (inside d ks u us) (inside d (case_node r :: ks) u us).
Proof.
  intros Hr. pose proof Hr as [Hn _]. apply writes_attribute; [done|]. intros v Hv.
  eapply writes_seq; [apply writes_print, reads_case_start; [exact Hv|apply value_plain, plain_fixed]|].
  eapply writes_seq; [by apply writes_result|]. unfold case_node. rewrite app_nil_r.
  rewrite <-(rev_involutive (result_node r)) at 2. apply writes_print, reads_case_end.
Qed.

Lemma writes_cases fp rs d u us : Forall printable rs -> forall ks,
  writes fp (for_each rs (print_xml_case fp)) (inside d ks u us) (inside d (rev (case_node <$> rs) ++ ks) u us).
Proof.
  induction 1 as [|r rs Hr _ IH]; intros ks; cbn [for_each]; [apply writes_ret|].
  eapply writes_seq; [by apply writes_case|]. rewrite fmap_cons. cbn [rev]. rewrite <-app_assoc. apply IH.
Qed.

(** Everything after the declaration. *)
Definition print_xml_suite (fp : stream) (group_name : string) (executed failed errors skipped : nat) (runtime : fpnum)
    (rs : list report) : CM unit :=
  group_name_escaped ← attribute_string group_name;
  fprintf fp ("<testsuites>" +:+ nl);;
  fprintf fp ("  <testsuite name=" +:+ dq group_name_escaped +:+ " time=" +:+ dq (fmt_fixed 3 runtime) +:+ " " +:+
    ("tests" +:+ "=" +:+ dq (fmt_number executed) +:+ " ") +:+ ("failures" +:+ "=" +:+ dq (fmt_number failed) +:+ " ") +:+
    ("errors" +:+ "=" +:+ dq (fmt_number errors) +:+ " ") +:+ ("skipped" +:+ "=" +:+ dq (fmt_number skipped) +:+ " ") +:+
    ">" +:+ nl);;
  for_each rs (print_xml_case fp);;
  fprintf fp ("  </testsuite>" +:+ nl);;
  fprintf fp ("</testsuites>" +:+ nl).

Lemma writes_suite fp group_name executed failed errors skipped runtime rs m d :
  fits group_name -> Forall printable rs -> m = Begin \/ m = Content ->
  writes fp (print_xml_suite fp group_name executed failed errors skipped runtime rs)
    (m, mkTree d [] []) (Content, mkTree d [suite_node group_name executed failed errors skipped runtime rs] []).
Proof.
  intros Hn Hr Hm. apply writes_attribute; [done|]. intros v Hv.
  apply (writes_seq _ _ _ _ (inside d [] ("testsuites", [], []) [])).
  { apply writes_print. destruct Hm as [->| ->]; repeat read_piece. }
  eapply writes_seq; [apply writes_print, reads_suite_start; [exact Hv|apply value_plain, plain_fixed|apply plain_fmt_u..]|].
  eapply writes_seq; [by apply writes_cases|]. rewrite app_nil_r. eapply writes_seq.
  - apply writes_print, reads_suite_end.
  - rewrite rev_involutive. apply writes_print, reads_suites_end.
Qed.
End writing.

Section report.
Context `{!Platform}.

Definition xml_declaration : list (string * string) := [("version", "1.0"); ("encoding", "UTF-8")].

Lemma reads_declaration :
  reads ("<?xml version=" +:+ dq "1.0" +:+ " encoding=" +:+ dq "UTF-8" +:+ " ?>" +:+ nl)
    (Begin, mkTree None [] []) (Content, mkTree (Some xml_declaration) [] []).
Proof. reflexivity. Qed.

(** The stream of the report can be written to, and without CMOCKA_XML_FILE it
    is stdout. *)
Lemma open_report_opened group w : NUL ∉ chars group ->
  exists fp file w', open_xml_report group w = (Ret (fp, file), w') /\ opened fp w' /\
    (environ w !! "CMOCKA_XML_FILE" = None -> fp = Stdout /\ w' = w).
Proof.
  intros Hg. unfold open_xml_report. mprim. destruct (environ w !! _) as [env|]; [|by exists Stdout, false, w].
  destruct (answers_file_name env group Hg w) as (buf & w1 & R1 & _). mrun R1. mprim.
  case_bool_decide as Hf; cbn [negb].
  - mprim. destruct (file_append w1 =? 0); cbn [negb]; [by eexists _, _, _|]. unfold fopen_a. rewrite bind_eq.
    destruct (plat_fopen_w_ok w1 buf); by eexists _, _, _.
  - rewrite bind_eq. unfold fopen_w. destruct (plat_fopen_w_ok w1 buf); [|by eexists _, _, _].
    eexists _, _, _. split; [done|]. split; [|done]. cbn. rewrite lookup_insert_eq. by eexists.
Qed.

(** The report appended to the stream, as the reader reads it. *)
Lemma finish_xml_reads group_name executed failed errors skipped runtime rs w fp file w0 :
  fits group_name -> Forall printable (take executed rs) ->
  open_xml_report group_name w = (Ret (fp, file), w0) -> opened fp w0 ->
  exists w' s, cmprintf_group_finish_xml group_name executed failed errors skipped runtime rs w = (Ret tt, w') /\
    stream_text fp w' = stream_text fp w0 +:+ s /\
    read_xml s = Some
      (if (xml_printed w0 =? 0) || (file && (file_append w0 =? 0)) then Some xml_declaration else None,
       suite_node group_name executed failed errors skipped runtime (take executed rs)).
Proof.
  intros Hn Hr Ro Hop.
  set (decl := (xml_printed w0 =? 0) || (file && (file_append w0 =? 0))).
  unfold cmprintf_group_finish_xml. mrun Ro. mprim. mprim. fold decl.
  assert (forall m d, m = Begin \/ m = Content -> writes fp
    (print_xml_suite fp group_name executed failed errors skipped runtime (take executed rs))
    (m, mkTree d [] [])
    (Content, mkTree d [suite_node group_name executed failed errors skipped runtime (take executed rs)] [])) as Hsuite
    by (intros; by apply writes_suite).
  assert (forall d x m, writes fp m (Begin, mkTree None [] []) (Content, mkTree d [x] []) -> exists w' s, m w0 = (Ret tt, w') /\
    stream_text fp w' = stream_text fp w0 +:+ s /\ read_xml s = Some (d, x)) as Hw.
  { intros d x m Hm. destruct (Hm w0 Hop) as (w' & s & ? & _ & ? & ?). exists w', s. by rewrite read_xml_state. }
  apply Hw. destruct decl; cbn [when]; [|by eapply writes_seq; [apply writes_ret|apply Hsuite; auto]].
  eapply writes_seq; [|by apply Hsuite; right]. eapply writes_seq; [apply writes_print, reads_declaration|].
  destruct file; cbn [negb when]; [apply writes_ret|]. intros w1 Ho1. eexists _, "".
  split; [done|]. rewrite string_app_nil. by destruct fp.
Qed.

(** C23: The XML report of a group reads back as the results of the group.
    Whatever the process has done before, [cmprintf_group_finish_xml] returns,
    and what it appends to the stream it has chosen - stdout if CMOCKA_XML_FILE
    is not set - is one well-formed document: the declaration where it is due,
    and the suite with its name, its times and counts and its tests in order,
    each with its name, its outcome and its message unchanged.  It is so for
    names that fit the buffer when escaped and messages without the end of a
    CDATA section.  If the stream already holds a document, however, it is not
    one any more. *)
Theorem xml_report_reads_back group_name executed failed errors skipped runtime rs w :
  fits group_name -> Forall printable (take executed rs) ->
  exists fp file w0 w' report,
    open_xml_report group_name w = (Ret (fp, file), w0) /\
    cmprintf_group_finish_xml group_name executed failed errors skipped runtime rs w = (Ret tt, w') /\
    (environ w !! "CMOCKA_XML_FILE" = None -> fp = Stdout /\ w0 = w) /\
    stream_text fp w' = stream_text fp w0 +:+ report /\
    read_xml report = Some
      (if (xml_printed w0 =? 0) || (file && (file_append w0 =? 0)) then Some xml_declaration else None,
       suite_node group_name executed failed errors skipped runtime (take executed rs)) /\
    (read_xml (stream_text fp w0) <> None -> read_xml (stream_text fp w') = None).
Proof.
  intros Hn Hr. destruct (open_report_opened group_name w (proj1 Hn)) as (fp & file & w0 & Ro & Hop & Henv).
  destruct (finish_xml_reads _ _ failed errors skipped runtime _ _ _ _ _ Hn Hr Ro Hop) as (w' & s & R & T & S).
  exists fp, file, w0, w', s. split_and!; [done..|]. intros Hdoc. rewrite T. apply read_xml_twice; congruence.
Qed.
End report.
