(* ===== verification/ReportTheorems.v ===== *)
(** * The reports of a group

    What a group prints to stdout in each of the formats for machines: for TAP
    and subunit a text given by the tests, their statuses and their messages,
    for XML a document that reads back as these. *)
From S2P Require Import Prelude CMonad CString ListNode World Report Memory SymbolMap Mock FloatCompare Compare Alloc AllocProofs AllocOps AllocLeaks Output OutputProofs XmlReader XmlReport Runner Api Frame MockSpec MockProofs RunnerProofs TestContract TestRun GroupProofs RunnerTheorems GroupTheorems.

Definition concat_strings : list string -> string := foldr String.append "".

(** ** The report *)

(** The lines of a text; a newline at its end does not begin another line. *)
Fixpoint message_lines (m : string) : list string :=
  match m with
  | "" => []
  | String c m' =>
      if bool_decide (c = Ascii.ascii_of_nat 10) then "" :: message_lines m'
      else match message_lines m' with [] => [String c ""] | l :: ls => String c l :: ls end
  end.

(** A diagnostic of TAP. *)
Definition comment (line : string) : string := "# " +:+ line +:+ nl.
Definition diagnostics (message : option string) : string :=
  concat_strings (comment <$> message_lines (default "" message)).

(** What is printed for a test with the number [n]. *)
Definition tap_result (n : nat) (t : CMUnitTestState) : string :=
  let name := test_name (ts_test t) in
  match ts_status t with
  | CM_TEST_PASSED => "ok " +:+ fmt_number n +:+ " - " +:+ name +:+ nl
  | CM_TEST_FAILED => "not ok " +:+ fmt_number n +:+ " - " +:+ name +:+ nl +:+ diagnostics (ts_error_message t)
  | CM_TEST_SKIPPED => "ok " +:+ fmt_number n +:+ " # SKIP " +:+ name +:+ nl
  | CM_TEST_ERROR => "not ok " +:+ fmt_number n +:+ " - " +:+ name +:+ " " +:+ could_not_run (ts_error_message t) +:+ nl
  | CM_TEST_NOT_STARTED => "not ok " +:+ fmt_number n +:+ " - " +:+ name +:+ " Internal cmocka error" +:+ nl
  end.

(** The report of a group with the results [ts]; the version is printed once
    per process. *)
Definition tap_report (group_name : string) (version : bool) (ts : list CMUnitTestState) : string :=
  (if version then "TAP version 13" +:+ nl else "") +:+
  "1.." +:+ fmt_number (length ts) +:+ nl +:+
  concat_strings (imap (fun i t => tap_result (S i) t) ts) +:+
  "# " +:+ (if forallb (fun t => bool_decide (ts_status t = CM_TEST_PASSED \/ ts_status t = CM_TEST_SKIPPED)) ts
            then "ok" else "not ok") +:+ " - " +:+ group_name +:+ nl.

(** What subunit prints for a test: when it starts, and its result. *)
Definition subunit_start (name : string) : string := "test: " +:+ name +:+ nl.
Definition subunit_result (t : CMUnitTestState) : string :=
  let name := test_name (ts_test t) in
  match ts_status t with
  | CM_TEST_PASSED => "success: " +:+ name +:+ nl
  | CM_TEST_FAILED =>
      "failure: " +:+ name +:+ match ts_error_message t with Some m => " [" +:+ nl +:+ m +:+ nl +:+ "]" +:+ nl | None => "" end
  | CM_TEST_SKIPPED => "skip: " +:+ name +:+ nl
  | CM_TEST_ERROR => "error: " +:+ name +:+ " [ " +:+ could_not_run (ts_error_message t) +:+ " ]" +:+ nl
  | CM_TEST_NOT_STARTED => "error: " +:+ name +:+ " [ Internal cmocka error ]" +:+ nl
  end.
Definition subunit_report (ts : list CMUnitTestState) : string :=
  concat_strings ((fun t => subunit_start (test_name (ts_test t)) +:+ subunit_result t) <$> ts).

Section report.
Context `{!Platform, !PlatformLaws}.
Implicit Types (w : World).

(** ** Printing *)

(** [m] returns, having printed [s] to stdout and done nothing else. *)
Definition says (m : CM unit) (s : string) : Prop :=
  forall w, m w = (Ret tt, set_stdout_text (stdout_text w +:+ s) w).

Lemma says_message s : says (print_message s) s.
Proof. done. Qed.
Lemma says_ret : says (mret tt) "".
Proof. intros w. rewrite string_app_nil. by destruct w. Qed.
Lemma says_seq (m k : CM unit) s t : says m s -> says k t -> says (m;; k) (s +:+ t).
Proof. intros Hm Hk w. rewrite (bind_run _ _ _ _ _ (Hm w)), Hk, string_app_assoc. done. Qed.

Lemma says_comment_lines p : forall q,
  says (print_comment_lines q p)
    (concat_strings (comment <$> match message_lines p with [] => [q] | l :: ls => (q +:+ l) :: ls end)).
Proof.
  induction p as [|c p IH]; intros q; cbn [print_comment_lines message_lines].
  { cbn. rewrite string_app_nil. apply says_message. }
  case_bool_decide.
  - rewrite fmap_cons, string_app_nil. apply says_seq; [apply says_message|]. destruct p as [|c' p]; [apply says_ret|].
    specialize (IH ""). destruct (message_lines (String c' p)) eqn:E; [|exact IH].
    cbn [message_lines] in E. case_bool_decide; [done|]. by destruct (message_lines p).
  - specialize (IH (q +:+ String c "")). destruct (message_lines p) as [|l ls]; [exact IH|].
    by rewrite <-string_app_assoc in IH.
Qed.

Lemma says_diagnostics (ok : World -> bool) m :
  (forall w, ok w = true) ->
  says (b ← gets ok; when b (match m with "" => mret tt | _ => print_comment_lines "" m end)) (diagnostics (Some m)).
Proof.
  intros Hok w. mprim. rewrite Hok. cbn [when]. unfold diagnostics. cbn [default from_option id].
  destruct m as [|c m]; [apply says_ret|]. rewrite (says_comment_lines (String c m) "" w).
  destruct (message_lines (String c m)) eqn:E; [|done].
  cbn [message_lines] in E. case_bool_decide; [done|]. by destruct (message_lines m).
Qed.

(** ** The formats *)

(** Only the format [output] is printed. *)
Definition prints_as (output : Z) w : Prop := chosen_output w = Some output.

Lemma chosen_run output w : prints_as output w -> cm_get_output w = (Ret output, w).
Proof.
  unfold prints_as, chosen_output, cm_get_output. destruct (environ w !! _); [done|]. intros [= ->]. by destruct (env_checked w).
Qed.

Hypothesis alloc_ok : forall w n, plat_libc_alloc_ok w n = true.

(** Choose the printer of the format. *)
Ltac print_as Ht :=
  mrun (chosen_run _ _ Ht);
  repeat match goal with
  | |- context [has_output ?o ?f] => let b := eval vm_compute in (has_output o f) in change (has_output o f) with b
  end; cbn [when]; repeat mprim.

(** What a format prints for a test when it starts, and for its result with a
    number. *)
Record line_format (output : Z) (starts : string -> string) (results : nat -> CMUnitTestState -> string) : Prop := {
  lf_start n name w : prints_as output w ->
    cmprintf PRINTF_TEST_START n name None w = (Ret tt, set_stdout_text (stdout_text w +:+ starts name) w);
  lf_result rc t c ty msg c' n w : prints_as output w -> status_fits rc t -> count_result rc t c = (ty, msg, c') ->
    cmprintf ty n (test_name (ts_test t)) msg w = (Ret tt, set_stdout_text (stdout_text w +:+ results n t) w);
}.

(** Every status, with what is printed for it. *)
Ltac each_status Hf Hc rc :=
  unfold status_fits, count_result in Hf, Hc; destruct (rc =? 0);
  [rewrite !elem_of_cons in Hf; destruct Hf as [Es|[Es|[Es|[]%elem_of_nil] ] ]; rewrite Es in *; injection Hc as <- <- _
  |rewrite Hf in *; injection Hc as <- <- _].

Lemma tap_format : line_format CM_OUTPUT_TAP (fun _ => "") tap_result.
Proof.
  split; intros *.
  - intros Ht. unfold cmprintf. print_as Ht. apply says_ret.
  - intros Ht Hf Hc.
    enough (says (cmprintf_tap ty n (test_name (ts_test t)) msg) (tap_result n t)) as Hs
      by (unfold cmprintf; print_as Ht; apply Hs). clear w Ht.
    unfold tap_result. each_status Hf Hc rc; [done| |done|done].
    replace ("not ok " +:+ _) with
      (("not ok " +:+ fmt_number n +:+ " - " +:+ test_name (ts_test t) +:+ nl) +:+ diagnostics (ts_error_message t))
      by by rewrite <-!string_app_assoc.
    apply says_seq; [apply says_message|]. destruct (ts_error_message t) as [m|]; [by apply says_diagnostics|apply says_ret].
Qed.

Lemma subunit_format : line_format CM_OUTPUT_SUBUNIT subunit_start (fun _ => subunit_result).
Proof.
  split; intros *.
  - intros Ht. unfold cmprintf. by print_as Ht.
  - intros Ht Hf Hc.
    enough (says (cmprintf_subunit ty (test_name (ts_test t)) msg) (subunit_result t)) as Hs
      by (unfold cmprintf; print_as Ht; rewrite (bind_run _ _ _ _ _ (Hs w)); by repeat mprim). clear w Ht.
    unfold subunit_result. each_status Hf Hc rc; [done| |done|done].
    rewrite string_app_assoc. apply says_seq; [apply says_message|]. by destruct (ts_error_message t); [|apply says_ret].
Qed.

(** XML prints nothing before the end of the group. *)
Lemma xml_format : line_format CM_OUTPUT_XML (fun _ => "") (fun _ _ => "").
Proof. split; intros * Ht; intros; unfold cmprintf; print_as Ht; apply says_ret. Qed.

(** ** Functions that leave stdout alone *)

(** What decides where a report goes, and what is on stdout. *)
Definition reporting w : string * option Z * option string :=
  (stdout_text w, chosen_output w, environ w !! "CMOCKA_XML_FILE").
(** [m] neither prints to stdout nor changes the output format. *)
Definition silent {A} (m : CM A) : Prop := forall w, reporting (m w).2 = reporting w.

Lemma silent_keeps {A} (m : CM A) : keeps m -> silent m.
Proof. intros Hm w. specialize (Hm w). unfold reporting. injection Hm. intros -> -> -> *. done. Qed.
Lemma silent_bind_run {A B} (m : CM A) (k : A -> CM B) :
  silent m -> (forall x w w', m w = (Ret x, w') -> silent (k x)) -> silent (m ≫= k).
Proof.
  intros Hm Hk w. specialize (Hm w). rewrite bind_eq. destruct (m w) as [ [x| | | | | |] w1] eqn:E; cbn [snd] in *; try done.
  etrans; [exact (Hk x w w1 E w1)|exact Hm].
Qed.
Lemma silent_bind {A B} (m : CM A) (k : A -> CM B) : silent m -> (forall x, silent (k x)) -> silent (m ≫= k).
Proof. intros Hm Hk. by apply silent_bind_run. Qed.
Lemma silent_modify f : (forall w, reporting (f w) = reporting w) -> silent (modify f).
Proof. intros Hf w. apply Hf. Qed.
Lemma silent_setjmp {A} (m failed : CM A) : silent m -> silent failed -> silent (setjmp m failed).
Proof.
  intros Hm Hf w. specialize (Hm w). unfold setjmp. destruct (m w) as [ [x| | | | | |] w1]; cbn [snd] in *; try done.
  etrans; [exact (Hf w1)|exact Hm].
Qed.
(** Running such a function. *)
Lemma silent_run {A} (m : CM A) w r w' : silent m -> m w = (r, w') -> reporting w' = reporting w.
Proof. intros Hm R. specialize (Hm w). by rewrite R in Hm. Qed.
Lemma reporting_print t w : reporting (set_stdout_text t w) = (t, (reporting w).1.2, (reporting w).2).
Proof. done. Qed.
Lemma reporting_prints_as output w w' : reporting w' = reporting w -> prints_as output w -> prints_as output w'.
Proof. unfold reporting, prints_as. congruence. Qed.

(** The functions of a test. *)
Definition silent_test (t : CMUnitTest) : Prop :=
  (forall f addr, ut_test_func t = Some f -> silent (f addr)) /\
  (forall f addr, ut_setup_func t = Some f -> silent (f addr)) /\
  (forall f addr, ut_teardown_func t = Some f -> silent (f addr)).

Lemma silent_ret {A} (x : A) : silent (mret x).
Proof. by apply silent_keeps, keeps_ret. Qed.
Lemma silent_gets {A} (f : World -> A) : silent (gets f).
Proof. by apply silent_keeps, keeps_gets. Qed.
Lemma silent_store_var p v : silent (store_var p v).
Proof. by apply silent_modify. Qed.
Lemma silent_load_var p : silent (load_var p).
Proof. by apply silent_keeps, keeps_deref. Qed.
Lemma silent_install l : silent (install_handlers l).
Proof.
  induction l as [|x l IH]; cbn [install_handlers]; [apply silent_ret|].
  apply silent_bind; [done|intros old]. apply silent_bind; [done|intros rest]. apply silent_ret.
Qed.
Lemma silent_restore l : forall fs, silent (restore_handlers l fs).
Proof.
  induction l as [|x l IH]; intros [|f fs]; cbn [restore_handlers]; try apply silent_ret.
  apply silent_bind; [done|intros old]. apply IH.
Qed.
Lemma silent_clock : silent clock_gettime.
Proof. done. Qed.
Create HintDb silent discriminated.
#[local] Hint Resolve silent_ret silent_gets silent_store_var silent_load_var silent_install silent_restore silent_clock : silent.
#[local] Hint Resolve keeps_check_point keeps_cmocka_print_error keeps_fail_if_blocks keeps_fail_if_leftover_values
  keeps_has_leftover_values keeps_initialize_testing keeps_teardown_testing : silent.
#[local] Hint Extern 5 (silent _) => apply silent_keeps; solve [eauto with silent keeps nocore] : silent.

(** Walk down a computation. *)
Ltac silent_step :=
  lazymatch goal with
  | |- silent (_ ≫= _) => apply silent_bind; [|intros ?]
  | |- silent (setjmp _ _) => apply silent_setjmp
  | |- silent (modify _) => by apply silent_modify
  | |- silent (let _ := _ in _) => cbv zeta
  | |- silent (if ?b then _ else _) => destruct b
  | |- silent (match ?x with _ => _ end) => destruct x eqn:?
  | |- _ => solve [eauto with silent nocore|eauto|done]
  end.
Ltac silent := repeat silent_step.

Lemma silent_run_one name tf sf df st cp :
  (forall f addr, tf = Some f -> silent (f addr)) -> (forall f addr, sf = Some f -> silent (f addr)) ->
  (forall f addr, df = Some f -> silent (f addr)) ->
  silent (cmocka_run_one_test_or_fixture name tf sf df st cp).
Proof. intros Ht Hs Hd. unfold cmocka_run_one_test_or_fixture, run_test_body, test_failed. silent. Qed.

Lemma silent_run_setup t : silent_test (ts_test t) -> silent (run_setup t).
Proof. intros (Ht & Hs & Hd). unfold run_setup. silent. by apply silent_run_one. Qed.
Lemma silent_run_test t : silent_test (ts_test t) -> silent (run_test t).
Proof. intros (Ht & Hs & Hd). unfold run_test. silent. by apply silent_run_one. Qed.
Lemma silent_run_teardown rc t : silent_test (ts_test t) -> silent (run_teardown rc t).
Proof. intros (Ht & Hs & Hd). unfold run_teardown. silent. by apply silent_run_one. Qed.

Lemma silent_run_one_tests t : silent_test (ts_test t) -> silent (cmocka_run_one_tests t).
Proof.
  intros Ht. unfold cmocka_run_one_tests.
  apply silent_bind_run; [by apply silent_run_setup|intros [rc t1] w w1 [E1 _]%run_setup_status].
  apply silent_bind; [apply silent_clock|intros start]. rewrite <-E1 in Ht.
  apply silent_bind_run; [destruct (rc =? 0); [by apply silent_run_test|apply silent_ret]|intros t2 w2 w3 R2].
  assert (ts_test t2 = ts_test t1) as E2 by (destruct (rc =? 0); [by apply run_test_status in R2 as [? _]|by injection R2 as <- _]).
  apply silent_bind; [apply silent_clock|intros finish]. apply silent_bind; [|intros [rc3 t3]; silent].
  apply silent_run_teardown. cbn. by rewrite E2.
Qed.

(** ** The tests of a group *)

Lemma silent_init_state t : silent (init_state t).
Proof. unfold init_state. silent. Qed.

(** What the tests print. *)
Lemma execute_tests_prints output starts results : line_format output starts results -> forall l, Forall silent_test l ->
  forall i c w ts c' w', prints_as output w ->
  execute_tests i (imap (fun k => fresh_test (i + k)) l) c w = (Ret (ts, c'), w') ->
  reporting w' = reporting (set_stdout_text (stdout_text w +:+
    concat_strings (imap (fun k t => starts (test_name (ts_test t)) +:+ results (S (i + k)) t) ts)) w).
Proof.
  intros Hfmt l. induction 1 as [|t l Ht _ IH]; intros i c w ts c' w' Hw.
  { intros [= <- _ <-]. cbn. by rewrite string_app_nil. }
  rewrite imap_cons, Nat.add_0_r. cbn [execute_tests]. rewrite (bind_run _ _ _ _ _ (lf_start _ _ _ Hfmt _ _ _ Hw)).
  set (w0 := set_stdout_text _ w). assert (prints_as output w0) as Hw0 by exact Hw.
  rewrite init_state_first. intros ([] & w1 & R1 & R)%bind_ret_inv.
  pose proof (silent_run _ _ _ _ (silent_init_state _) R1) as S1. apply bind_ret_inv in R as ([rc t'] & w2 & R2 & R).
  pose proof (silent_run _ _ _ _ (silent_run_one_tests (fresh_test i t) Ht) R2) as S2. rewrite S1 in S2.
  apply run_one_tests_status in R2 as [E2 F2].
  destruct (count_result rc t' c) as [ [ty msg] c1] eqn:Hc.
  change (test_name t) with (test_name (ts_test (fresh_test i t))) in R. rewrite <-E2 in R.
  rewrite (bind_run _ _ _ _ _ (lf_result _ _ _ Hfmt _ _ _ _ _ _ (S i) _ (reporting_prints_as _ _ _ S2 Hw0) F2 Hc)) in R.
  apply bind_ret_inv in R as ([ts1 c2] & w4 & R4 & R). injection R as <- _ <-.
  assert (imap ((fun k => fresh_test (i + k)) ∘ S) l = imap (fun k => fresh_test (S i + k)) l) as E.
  { apply imap_ext. intros k x _. cbn [compose]. by rewrite <-Nat.add_succ_comm. }
  rewrite E in R4. apply IH in R4; [|exact (reporting_prints_as _ _ _ S2 Hw0)].
  assert (stdout_text w2 = stdout_text w +:+ starts (test_name t)) as E3 by exact (f_equal (fun k => k.1.1) S2).
  rewrite R4, !reporting_print, S2. unfold w0. rewrite reporting_print. apply (f_equal (fun x => (x, _, _))).
  cbn [fst stdout_text set_stdout_text]. rewrite E3, imap_cons, Nat.add_0_r, E2.
  change (concat_strings (?x :: ?l)) with (x +:+ concat_strings l). rewrite <-!string_app_assoc. do 4 f_equal.
  apply imap_ext. intros k x _. cbn [compose]. by rewrite <-Nat.add_succ_comm.
Qed.

(** ** The whole report *)

(** What the start and the tests of a group print. *)
Lemma group_prints output starts results plan group_name tests cs w hs ts c w1 w3 w4 w5 w6 xs :
  group_runs group_name tests cs w hs ts c w1 w3 w4 w5 w6 xs -> startable w hs -> Forall silent_test (selected w tests) ->
  line_format output starts results -> prints_as output w ->
  (forall w0 w', prints_as output w0 -> version_printed w0 = version_printed w ->
    cmprintf_group_start group_name (length (selected w tests)) w0 = (Ret tt, w') ->
    reporting w' = reporting (set_stdout_text (stdout_text w0 +:+ plan) w0)) ->
  reporting w5 = reporting (set_stdout_text (stdout_text w +:+ plan +:+
    concat_strings (imap (fun k t => starts (test_name (ts_test t)) +:+ results (S k) t) ts)) w).
Proof.
  intros [R1 R3 R4 R5 _ _ _ _ _] Hs Hsil Hfmt Hw Hplan.
  destruct (group_start w hs Hs) as (w1' & R1' & _ & _ & _ & _ & Hver). rewrite R1 in R1'. injection R1' as <-.
  pose proof (silent_run _ _ _ _ (silent_keeps _ keeps_check_point) R1) as S1.
  destruct (setup_test_array_run tests 0 (set_state_vars (<[group_state_addr := NULL]> (state_vars w1)) w1)) as (v & R3' & _).
  rewrite R3 in R3'. injection R3' as Esel ->. clear Esel. set (w3 := set_state_vars v _) in *.
  assert (reporting w3 = reporting w) as S3 by exact S1. pose proof (reporting_prints_as _ _ _ S3 Hw) as H3.
  pose proof (Hplan _ _ H3 Hver R4) as S4. rewrite reporting_print, S3 in S4.
  assert (prints_as output w4) as H4 by (etrans; [exact (f_equal (fun k => k.1.2) S4)|exact Hw]).
  pose proof (execute_tests_prints _ _ _ Hfmt _ Hsil 0 no_totals w4 ts c w5 H4 R5) as S5.
  rewrite S5, !reporting_print, S4. apply (f_equal (fun x => (x, _, _))).
  replace (stdout_text w4) with (stdout_text w +:+ plan) by
    (symmetry; etrans; [exact (f_equal (fun k => k.1.1) S4)|]; cbn [fst]; f_equal; exact (f_equal (fun k => k.1.1) S3)).
  by rewrite <-string_app_assoc.
Qed.

(** The start and the end of a group in the formats. *)
Lemma tap_plan group_name n w w' : prints_as CM_OUTPUT_TAP w -> cmprintf_group_start group_name n w = (Ret tt, w') ->
  reporting w' = reporting (set_stdout_text (stdout_text w +:+
    (if negb (version_printed w) then "TAP version 13" +:+ nl else "") +:+ "1.." +:+ fmt_number n +:+ nl) w).
Proof.
  intros Ht. unfold cmprintf_group_start. print_as Ht. unfold cmprintf_group_start_tap. mprim.
  destruct (version_printed w); cbn [negb when].
  - mprim. by intros [= <-].
  - intros [= <-]. cbn. by rewrite <-string_app_assoc.
Qed.

Lemma no_plan output group_name n w w' : output = CM_OUTPUT_SUBUNIT \/ output = CM_OUTPUT_XML -> prints_as output w ->
  cmprintf_group_start group_name n w = (Ret tt, w') -> reporting w' = reporting (set_stdout_text (stdout_text w +:+ "") w).
Proof.
  intros [->| ->] Ht; unfold cmprintf_group_start; print_as Ht; intros [= <-]; by rewrite string_app_nil.
Qed.

Lemma tap_summary group_name executed passed failed errors skipped t ts w : prints_as CM_OUTPUT_TAP w ->
  cmprintf_group_finish group_name executed passed failed errors skipped t ts w =
    (Ret tt, set_stdout_text (stdout_text w +:+ "# " +:+ (if Nat.eqb (passed + skipped) executed then "ok" else "not ok") +:+
      " - " +:+ group_name +:+ nl) w).
Proof. intros Ht. unfold cmprintf_group_finish. by print_as Ht. Qed.
Lemma subunit_summary group_name executed passed failed errors skipped t ts w : prints_as CM_OUTPUT_SUBUNIT w ->
  cmprintf_group_finish group_name executed passed failed errors skipped t ts w = (Ret tt, w).
Proof. intros Ht. unfold cmprintf_group_finish. by print_as Ht. Qed.
Lemma xml_summary group_name executed passed failed errors skipped t ts w : prints_as CM_OUTPUT_XML w ->
  cmprintf_group_finish group_name executed passed failed errors skipped t ts w =
    cmprintf_group_finish_xml group_name executed failed errors skipped t ts w.
Proof. intros Ht. unfold cmprintf_group_finish. by print_as Ht. Qed.

Lemma all_passed ts :
  Nat.eqb (with_count CM_TEST_PASSED ts + with_count CM_TEST_SKIPPED ts) (length ts) =
    forallb (fun t => bool_decide (ts_status t = CM_TEST_PASSED \/ ts_status t = CM_TEST_SKIPPED)) ts.
Proof.
  assert (forall ts, (with_count CM_TEST_PASSED ts + with_count CM_TEST_SKIPPED ts <= length ts)%nat) as Hle.
  { clear. induction ts as [|t ts IH]; [done|]. unfold with_count in *. rewrite !filter_cons.
    destruct (ts_status t); repeat case_decide; try done; cbn [length]; lia. }
  induction ts as [|t ts IH]; [done|]. cbn [forallb length]. rewrite <-IH. specialize (Hle ts).
  unfold with_count in *. rewrite !filter_cons.
  destruct (ts_status t) eqn:E; repeat case_decide; try done; cbn [length];
    first [rewrite bool_decide_true by auto | rewrite bool_decide_false by (intros [|]; done)]; cbn [andb].
  all: rewrite ?Nat.add_succ_r; try done. all: apply Nat.eqb_neq; lia.
Qed.

(** The text alone. *)
Lemma reporting_text t w w' : reporting w' = reporting (set_stdout_text t w) -> stdout_text w' = t.
Proof. intros E. exact (f_equal (fun k => k.1.1) E). Qed.

(** Nothing printed for a part of the tests. *)
Lemma concat_nothing (ts : list CMUnitTestState) : concat_strings (imap (fun _ _ => "" +:+ "") ts) = "".
Proof. induction ts as [|t ts IH]; [done|]. by rewrite imap_cons. Qed.

(** The results of the tests of a group. *)
Definition group_results (group_name : string) (tests : list CMUnitTest) : CM (list CMUnitTestState) :=
  p ← group_prologue group_name tests;
  r ← execute_tests 0 p.2 no_totals;
  mret r.1.

Lemma group_results_run group_name tests cs w hs ts c w1 w3 w4 w5 w6 xs :
  group_runs group_name tests cs w hs ts c w1 w3 w4 w5 w6 xs -> group_results group_name tests w = (Ret ts, w5).
Proof.
  intros [R1 R3 R4 R5 _ _ _ _ _]. unfold group_results. rewrite (bind_run _ _ _ (last_block hs, imap fresh_test (selected w tests)) w4).
  - by mrun R5.
  - unfold group_prologue. mrun R1. unfold store_var. mprim. mprim. mrun R3. rewrite length_imap. by mrun R4.
Qed.

(** C20: What a group of tests that keep their contracts and do not write to
    stdout themselves prints when one format for machines is chosen.  For TAP
    it is exactly one document: the version, once per process; a plan with the
    number of the selected tests; for each of them, in order, a line with its
    number that says ok or not ok by its status, followed by the message of a
    failed test, every line of it a comment; and a comment that sums up.  For
    subunit, the start of each test and its result with the message.  For XML
    without a file, a text that reads back as one well-formed document with the
    numbers of tests by status, and the name, outcome and message of each test,
    if the names fit and no message contains the end of a CDATA section. *)
Theorem reports_of_group group_name tests cs w hs :
  startable w hs -> Forall2 keeps_promise (selected w tests) cs -> NUL ∉ chars group_name ->
  Forall silent_test (selected w tests) ->
  exists ts w', (group_results group_name tests w).1 = Ret ts /\ cmocka_run_group_tests group_name tests None None w =
      (if existsb snd cs then Exit EXIT_FAILURE else Ret (to_s32 (Z.of_nat (failures cs))), w') /\
    ts_test <$> ts = selected w tests /\ ts_status <$> ts = cs.*1 /\
    (prints_as CM_OUTPUT_TAP w ->
      stdout_text w' = stdout_text w +:+ tap_report group_name (negb (version_printed w)) ts) /\
    (prints_as CM_OUTPUT_SUBUNIT w -> stdout_text w' = stdout_text w +:+ subunit_report ts) /\
    (prints_as CM_OUTPUT_XML w -> environ w !! "CMOCKA_XML_FILE" = None ->
      fits group_name -> Forall printable (report_of <$> ts) ->
      exists report declaration runtime, stdout_text w' = stdout_text w +:+ report /\
        read_xml report = Some (declaration, suite_node group_name (length ts) (with_count CM_TEST_FAILED ts)
          (with_count CM_TEST_ERROR ts) (with_count CM_TEST_SKIPPED ts) runtime (report_of <$> ts))).
Proof.
  intros Hs Hp Hn Hsil.
  destruct (group_runs_promises _ _ _ _ _ Hs Hp Hn (fun u => alloc_ok u _)) as (ts & c & w1 & w3 & w4 & w5 & w6 & xs & Hr).
  destruct (group_ends _ _ _ _ _ _ _ _ _ _ _ _ _ Hr) as (w' & R & Hct & _). pose proof Hr as [_ _ _ R5 R6 _ Hst _ _].
  exists ts, w'. split; [by rewrite (group_results_run _ _ _ _ _ _ _ _ _ _ _ _ _ Hr)|]. split; [exact R|].
  pose proof (execute_tests_counted _ _ _ _ _ _ _ R5) as (HT & (Hx & Hps & Hf & He & Hsk) & _). cbn in Hx, Hps, Hf, He, Hsk.
  assert (ts_test <$> ts = selected w tests) as Hts.
  { rewrite HT, fmap_imap. etrans; [apply imap_const|]. apply list_fmap_id. }
  split_and!; [done..| | |]; intros Ht; try intros Henv Hfit Hpr;
    rewrite (f_equal (fun k => k.1.2) Hct : stdout_text w' = stdout_text w6).
  - unshelve epose proof (group_prints CM_OUTPUT_TAP _ _
      ((if negb (version_printed w) then "TAP version 13" +:+ nl else "") +:+ "1.." +:+ fmt_number (length (selected w tests)) +:+ nl)
      _ _ _ _ _ _ _ _ _ _ _ _ _ Hr Hs Hsil tap_format Ht _) as S5; [by intros w0 w'' H5 V E; rewrite <-V; exact (tap_plan _ _ _ _ H5 E)|].
    pose proof (reporting_prints_as _ _ _ S5 Ht) as H5. rewrite (tap_summary _ _ _ _ _ _ _ _ _ H5) in R6. injection R6 as <-.
    cbn [stdout_text set_stdout_text]. rewrite (reporting_text _ _ _ S5), Hx, Hps, Hsk, all_passed.
    unfold tap_report. rewrite <-Hts, length_fmap. by rewrite <-!string_app_assoc.
  - unshelve epose proof (group_prints CM_OUTPUT_SUBUNIT _ _ "" _ _ _ _ _ _ _ _ _ _ _ _ _ Hr Hs Hsil subunit_format Ht _) as S5;
      [by intros w0 w'' H5 _ E; exact (no_plan _ _ _ _ _ (or_introl eq_refl) H5 E)|].
    pose proof (reporting_prints_as _ _ _ S5 Ht) as H5. rewrite (subunit_summary _ _ _ _ _ _ _ _ _ H5) in R6. injection R6 as <-.
    rewrite (reporting_text _ _ _ S5). unfold subunit_report. f_equal. change ("" +:+ ?x) with x. f_equal. apply (imap_const (fun t => subunit_start (test_name (ts_test t)) +:+ subunit_result t)).
  - unshelve epose proof (group_prints CM_OUTPUT_XML _ _ "" _ _ _ _ _ _ _ _ _ _ _ _ _ Hr Hs Hsil xml_format Ht _) as S5;
      [by intros w0 w'' H5 _ E; exact (no_plan _ _ _ _ _ (or_intror eq_refl) H5 E)|].
    pose proof (reporting_prints_as _ _ _ S5 Ht) as H5. rewrite (xml_summary _ _ _ _ _ _ _ _ _ H5) in R6.
    assert (stdout_text w5 = stdout_text w) as S6.
    { rewrite (reporting_text _ _ _ S5), concat_nothing. apply string_app_nil. }
    assert (environ w5 !! "CMOCKA_XML_FILE" = None) as E5 by (etrans; [exact (f_equal snd S5)|exact Henv]).
    assert (take (total_executed c) (report_of <$> ts) = report_of <$> ts) as Eall by (rewrite Hx; apply take_ge; by rewrite length_fmap).
    assert (open_xml_report group_name w5 = (Ret (Stdout, false), w5)) as Ro by (unfold open_xml_report; mprim; by rewrite E5).
    destruct (finish_xml_reads group_name (total_executed c) (total_failed c) (total_errors c) (total_skipped c)
      (total_runtime c) (report_of <$> ts) w5 Stdout false w5 Hfit ltac:(by rewrite Eall) Ro I) as (w7 & s & R7 & T7 & S7).
    rewrite R6 in R7. injection R7 as <-. cbn [stream_text] in T7. rewrite S6 in T7.
    rewrite Eall, Hx, Hf, He, Hsk in S7. eauto.
Qed.
End report.
