(* ===== verification/ClientSupport.v ===== *)
(** * Programs under test

    What the programs that run inside a test may do with the library - allocate,
    store, release, print - seen from the contract of a test: the library's
    memory stays consistent and the control state of the runner is left
    alone. *)
From S2P Require Import Prelude CMonad CString ListNode World Report Memory SymbolMap Tree SymbolTree Mock FloatCompare Compare Alloc AllocBytes AllocProofs AllocOps AllocTheorems AllocLeaks Output OutputProofs Runner Frame MockSpec MockProofs RunnerProofs TestContract.

(** ** Integers in memory *)

(** sizeof(int), and an int as bytes. *)
Definition SIZEOF_INT : Z := 4.
Definition int_bytes (v : Z) : list Z :=
  (fun k => to_u32 v / 256 ^ k mod 256) <$> [0; 1; 2; 3].
Definition int_of_bytes (l : list Z) : Z :=
  to_s32 (foldr (fun b n => b + 256 * n) 0 l).
Definition store_int (p : ptr) (v : Z) : CM unit := store_bytes p (int_bytes v).
Definition load_int (p : ptr) : CM Z :=
  l ← deref (fun w => read_bytes (bytes w) p (Z.to_nat SIZEOF_INT));
  mret (int_of_bytes l).

(** An array of ints. *)
Definition ints (vs : list Z) : list Z := vs ≫= int_bytes.

Lemma int_bytes_length v : length (int_bytes v) = 4%nat.
Proof. done. Qed.

Lemma int_bytes_byte v : Forall (fun b => 0 <= b < 256) (int_bytes v).
Proof. unfold int_bytes. repeat constructor; by apply Z.mod_pos_bound. Qed.

Lemma int_of_int_bytes v : -2 ^ 31 <= v < 2 ^ 31 -> int_of_bytes (int_bytes v) = v.
Proof.
  intros Hv. unfold int_of_bytes, int_bytes, to_u32, to_s32. cbn [fmap list_fmap foldr].
  change (256 ^ 0) with 1. change (256 ^ 1) with 256. change (256 ^ 2) with 65536. change (256 ^ 3) with 16777216.
  Z.to_euclidean_division_equations. lia.
Qed.

Lemma ints_length vs : length (ints vs) = (4 * length vs)%nat.
Proof. unfold ints. induction vs as [|v vs IH]; [done|]. rewrite bind_cons, length_app, IH, int_bytes_length. cbn [length]. lia. Qed.

Lemma ints_app vs us : ints (vs ++ us) = ints vs ++ ints us.
Proof. apply bind_app. Qed.

Lemma ints_zero n : ints (replicate n 0) = replicate (4 * n) 0.
Proof.
  induction n as [|n IH]; [done|]. rewrite replicate_S. unfold ints in *. rewrite bind_cons, IH.
  by replace (4 * S n)%nat with (4 + 4 * n)%nat by lia.
Qed.

Section support.
Context `{!Platform, !PlatformLaws}.
Implicit Types (w : World) (hs : list ptr) (a : expectations) (p : ptr) (l : list Z).

(** ** Control *)

(** The flags, variables and signals of the runner are as before. *)
Definition same_run w w' : Prop := same_control w w' /\ global_running_test w' = global_running_test w.

#[export] Instance same_run_preorder : PreOrder same_run.
Proof.
  split; [done|]. unfold same_run, same_control. intros w1 w2 w3 [? ?] [? ?]. destruct_and?. split_and!; congruence.
Qed.

Lemma same_run_memory w w' : memory_only w w' -> same_run w w'.
Proof. by intros (b & i & r & m & ->). Qed.
Lemma same_run_quiet w w' : quiet w w' -> same_run w w'.
Proof. by intros (m & e & o & c & ->). Qed.
Lemma same_run_talks w w' : talks w w' -> same_run w w'.
Proof. by intros (so & se & m & o & c & v & f & x & p & e & ->). Qed.

Lemma left_same w1 w2 addr a hs :
  same_run w1 w2 -> global_running_test w1 = 1 -> consistent w2 a hs -> left w1 w2 addr a hs.
Proof.
  intros [(Hd & Hk & Hv & He & Hs) Hr] H1 Hc. split; [done| |done..|]; [by rewrite Hr, H1|]. intros p _. by rewrite Hv.
Qed.

Lemma undisturbed_run w w' : same_run w w' -> undisturbed w -> undisturbed w'.
Proof. intros [Hc _]. by apply undisturbed_same. Qed.

(** A function that ends the test, without [skip] or [stop]. *)
Lemma exit_jumps {A} w : undisturbed w -> global_running_test w = 1 -> @exit_outcome A w = LongJmp.
Proof. intros (_ & _ & Ha) Hr. apply exit_longjmp; [done|by rewrite Hr]. Qed.

Lemma jump_fails w a : undisturbed w -> jump_verdict w a = CM_TEST_FAILED.
Proof. intros (Hk & Hs & _). unfold jump_verdict, jump_result. by rewrite Hs, Hk. Qed.

(** ** Memory *)

Lemma statics_kept w w' : blocks_kept w w' -> statics w -> statics w'.
Proof.
  intros Hk Hs h Hh. specialize (Hs h Hh). unfold node_at in *. rewrite Hk; [done| |].
  - intros ->. unfold store_heads in Hh. rewrite !elem_of_cons in Hh. by destruct Hh as [?|[?|[?|?%elem_of_nil]]].
  - apply bool_decide_eq_true in Hs. destruct (blocks w !! h); [eauto|by destruct Hs].
Qed.

Lemma consistent_allocated w w' a hs p l loc :
  consistent w a hs -> allocated w w' hs p l loc -> consistent w' a (hs ++ [header_of p]).
Proof.
  intros [Hm Hh Hv Hs] Ha. split.
  - eapply mocks_kept; [done|apply (al_kept _ _ _ _ _ _ Ha)|done].
  - apply (al_heap _ _ _ _ _ _ Ha).
  - by apply (al_valid _ _ _ _ _ _ Ha).
  - eapply statics_kept; [apply (al_kept _ _ _ _ _ _ Ha)|done].
Qed.

Lemma consistent_freed w w' a hs h block n hs' :
  consistent w a hs -> freed w w' h block n hs' -> consistent w' a hs'.
Proof.
  intros [Hm Hh Hv Hs] Hf. split.
  - eapply mocks_kept; [done|apply (fr_kept _ _ _ _ _ _ Hf)|done].
  - apply (fr_heap _ _ _ _ _ _ Hf).
  - apply (fr_valid _ _ _ _ _ _ Hf).
  - eapply statics_kept; [apply (fr_kept _ _ _ _ _ _ Hf)|done].
Qed.

Lemma consistent_quiet w w' a hs : quiet w w' -> consistent w a hs -> consistent w' a hs.
Proof. by intros (m & e & o & c & ->) Hc; apply (consistent_same w). Qed.

(** Storing bytes where there are some. *)
Lemma consistent_store w a hs p d :
  consistent w a hs -> present (bytes w) p (Z.of_nat (length d)) -> Forall (fun b => 0 <= b < 256) d ->
  exists w', store_bytes p d w = (Ret tt, w') /\ w' = set_bytes (write_bytes p d (bytes w)) w /\ consistent w' a hs /\
    forall h b s loc, live w h b s loc -> live w' h b s loc.
Proof.
  intros [Hm Hh Hv Hs] Hp Hd. eexists. split; [by apply store_bytes_run|]. split; [done|].
  assert (forall x, is_Some (bytes w !! x) -> is_Some (write_bytes p d (bytes w) !! x)) as Hkeep by apply write_bytes_present.
  split; [split|].
  - by eapply mocks_kept; [|intros x _ _|].
  - by apply heap_set_bytes.
  - intros x b. cbn. rewrite write_bytes_lookup. case_decide; [|apply Hv].
    intros Hb. by eapply (proj1 (Forall_lookup _ _) Hd).
  - done.
  - intros h b s loc Hl. by apply live_set_bytes.
Qed.

(** A block whose guards are not intact ends the test when it is freed. *)
Lemma free_ends w hs h block n loc p file_ lno :
  live w h block n loc -> p = user_of h -> bytes_valid w -> ~ guards_intact w h n ->
  undisturbed w -> global_running_test w = 1 ->
  exists w', _test_free p file_ lno w = (LongJmp, w') /\ quiet w w'.
Proof.
  intros Hl -> Hv Hg Hu Hr. destruct (test_free_corrupt w h block n loc file_ lno Hl Hv Hg) as (w' & R & Q).
  exists w'. by rewrite exit_jumps in R.
Qed.

(** ** Tests without fixtures *)

Lemma plain_performs t (f : CMUnitTestFunction) start s leaks :
  ut_setup_func t = None -> ut_test_func t = Some f -> ut_teardown_func t = None ->
  (forall addr hs w1, started w1 hs -> state_vars w1 !! addr = Some start ->
     exists hs2 xs w4, test_ends f addr hs w1 hs2 xs s w4 /\ remain leaks xs) ->
  performs t start s leaks.
Proof.
  intros Es Ef Et Hf addr hs w1 _ _ Hst Hv. unfold then_setup. rewrite Es. unfold then_test.
  destruct (Hf addr hs w1 Hst Hv) as (hs2 & xs & w4 & He & Hr). exists f, hs2, xs, s, w4.
  rewrite app_nil_r. split_and!; [done..|]. intros w5 _ _. unfold then_teardown. by rewrite Et.
Qed.

(** A test that leaves nothing behind passes. *)
Lemma test_passes (f : CMUnitTestFunction) addr hs w1 w4 :
  started w1 hs -> f addr w1 = (Ret tt, w4) -> left w1 w4 addr no_expectations hs -> undisturbed w4 ->
  test_ends f addr hs w1 [] [] CM_TEST_PASSED w4.
Proof.
  intros Hs R Hl Hu. exists no_expectations. rewrite app_nil_r. split; [done|]. left. split_and!; try done.
  intros h b n l Hh. by apply elem_of_nil in Hh.
Qed.

(** A test whose function jumps fails. *)
Lemma test_fails (f : CMUnitTestFunction) addr hs w1 w4 a xs :
  f addr w1 = (LongJmp, w4) -> left w1 w4 addr a (hs ++ xs) -> undisturbed w4 ->
  test_ends f addr hs w1 xs xs CM_TEST_FAILED w4.
Proof.
  intros R Hl Hu. exists a. split; [done|]. right. split_and!; [done..|by rewrite jump_fails|done].
Qed.

(** ** A block of a program *)

(** The last allocated block is at [p] and holds [l], its guards intact. *)
Record block_at w a hs p l : Prop := {
  bk_consistent : consistent w a (hs ++ [header_of p]);
  bk_live : exists block loc, live w (header_of p) block (Z.of_nat (length l)) loc;
  bk_guards : guards_intact w (header_of p) (Z.of_nat (length l));
  bk_content : read_bytes (bytes w) p (length l) = Some l;
}.

Lemma block_at_allocated w w' a hs p l loc : consistent w a hs -> allocated w w' hs p l loc -> block_at w' a hs p l.
Proof.
  intros Hc Ha. destruct (al_new _ _ _ _ _ _ Ha) as [block Hl]. split; [by eapply consistent_allocated|by eauto|apply Ha..].
Qed.

Lemma block_same w w' a hs p l :
  same_mem w w' -> raw w' = raw w -> bytes w' = bytes w -> block_at w a hs p l -> block_at w' a hs p l.
Proof.
  intros [Hb Hi] Hr Hy [Hc (block & loc & Hl) Hg Hd]. split.
  - by apply (consistent_same w).
  - exists block, loc. apply (live_frame w); [done|by rewrite Hb; apply Hl|by rewrite Hi|by rewrite Hr|by rewrite Hy].
  - unfold guards_intact, filled in *. by rewrite Hy.
  - by rewrite Hy.
Qed.

(** Writing inside it. *)
Lemma block_store w a hs p l (off : nat) d :
  block_at w a hs p l -> (off + length d <= length l)%nat -> Forall (fun b => 0 <= b < 256) d ->
  exists w', store_bytes (p + Z.of_nat off) d w = (Ret tt, w') /\ w' = set_bytes (write_bytes (p + Z.of_nat off) d (bytes w)) w /\
    block_at w' a hs p (take off l ++ d ++ skipn (off + length d) l).
Proof.
  intros [Hc (block & loc & Hl) [G1 G2] Hd] Hlen Hb. pose proof (proj1 (read_bytes_iff _ _ _ _) Hd) as [_ Hget].
  destruct (consistent_store w a _ (p + Z.of_nat off) d Hc) as (w' & R & Hw' & Hc' & Hl').
  { intros x Hx. unfold in_range in Hx. specialize (Hget (Z.to_nat (x - p)) ltac:(lia)).
    replace (p + Z.of_nat (Z.to_nat (x - p))) with x in Hget by lia. rewrite Hget. apply lookup_lt_is_Some_2. lia. }
  { done. }
  exists w'. split_and!; [done..|].
  assert (length (take off l ++ d ++ skipn (off + length d) l) = length l) as Hlen'
    by (rewrite !length_app, length_take, length_skipn; lia).
  split; rewrite ?Hlen'; [done|by eauto| |].
  - assert (forall x, ~ in_range p (Z.of_nat (length l)) x -> bytes w' !! x = bytes w !! x) as Hout.
    { intros x Hx. rewrite Hw'. cbn. rewrite write_bytes_lookup, decide_False; [done|]. unfold in_range in *. lia. }
    unfold guards_intact, filled, header_of, in_range, MALLOC_GUARD_SIZE, SIZEOF_MALLOCBLOCKINFODATA in *.
    split; intros x Hx; (rewrite Hout by lia); [by apply G1|by apply G2].
  - apply read_bytes_iff. split; [done|]. intros i Hi. rewrite Hw'. cbn. rewrite write_bytes_lookup, Hget by done.
    unfold in_range. case_decide as Hin.
    + rewrite lookup_app_r by (rewrite length_take; lia). rewrite lookup_app_l by (rewrite length_take; lia).
      f_equal. rewrite length_take. lia.
    + destruct (decide (i < off)%nat).
      * rewrite lookup_app_l by (rewrite length_take; lia). by rewrite lookup_take_lt by lia.
      * rewrite lookup_app_r, lookup_app_r by (rewrite ?length_take; lia). rewrite lookup_drop. f_equal.
        rewrite length_take. lia.
Qed.

(** Allocating and releasing it. *)
Lemma block_calloc `{!PlatformTotal} w a hs n size_ loc lno :
  consistent w a hs -> 0 <= n -> 0 <= size_ -> n * size_ + OVERHEAD <= SIZE_MAX -> n <= SIZE_MAX ->
  exists p w', _test_calloc n size_ loc lno w = (Ret p, w') /\ p <> NULL /\
    block_at w' a hs p (replicate (Z.to_nat (n * size_)) 0) /\ memory_only w w'.
Proof.
  intros Hc Hn Hs Hfit Hmax. destruct (calloc_run w hs n size_ loc lno (cs_heap _ _ _ Hc) ltac:(lia) Hs Hfit) as (p & w' & R & Hp & Ha);
    [apply plat_malloc_total|].
  exists p, w'. split_and!; [done..|by eapply block_at_allocated|apply Ha].
Qed.

Lemma intact_free w a hs h file_ lno :
  consistent w a (hs ++ [h]) -> all_intact w [h] ->
  exists w', _test_free (user_of h) file_ lno w = (Ret tt, w') /\ consistent w' a hs /\ memory_only w w'.
Proof.
  intros Hc Hi. destruct (hp_live _ _ (cs_heap _ _ _ Hc) h) as (block & n & loc & Hl); [by apply elem_of_app; right; left|].
  destruct (test_free_run w hs h [] block n loc file_ lno (cs_heap _ _ _ Hc) Hl (cs_bytes _ _ _ Hc)) as (w' & R & Hf).
  { eapply Hi, Hl. by left. }
  rewrite app_nil_r in Hf. exists w'. split_and!; [done|by eapply consistent_freed|apply Hf].
Qed.

Lemma block_intact w a hs p l : block_at w a hs p l -> all_intact w [header_of p].
Proof.
  intros [_ (block & loc & Hl) Hg _] h b n l' ->%list_elem_of_singleton Hl'.
  by destruct (live_unique _ _ _ _ _ _ _ _ Hl Hl') as (_ & <- & _).
Qed.

(** ** Arrays of ints *)

Lemma store_int_run w a hs p vs k v :
  block_at w a hs p (ints vs) -> (k < length vs)%nat ->
  exists w', store_int (p + SIZEOF_INT * Z.of_nat k) v w = (Ret tt, w') /\ block_at w' a hs p (ints (<[k := v]> vs)) /\ memory_only w w'.
Proof.
  intros Hb Hk. destruct (block_store w a hs p (ints vs) (4 * k) (int_bytes v) Hb) as (w' & R & Hw' & Hb').
  - rewrite ints_length, int_bytes_length. lia.
  - apply int_bytes_byte.
  - exists w'. split; [|split].
    + unfold store_int, SIZEOF_INT. by rewrite <-R; do 2 f_equal; lia.
    + destruct (lookup_lt_is_Some_2 vs k Hk) as [u Hu]. pose proof (take_drop_middle vs k u Hu) as Hvs.
      rewrite insert_take_drop by done. rewrite int_bytes_length in Hb'.
      assert (length (take k vs) = k) as Ht by (rewrite length_take; lia).
      rewrite <-Hvs in Hb' at 1 2. rewrite ints_app in Hb'. unfold ints at 2 4 in Hb'. rewrite bind_cons in Hb'.
      rewrite take_app_length', skipn_app in Hb' by (rewrite ints_length, Ht; lia).
      rewrite skipn_all2 in Hb' by (rewrite ints_length, Ht; lia).
      replace (4 * k + 4 - length (ints (take k vs)))%nat with 4%nat in Hb' by (rewrite ints_length, Ht; lia).
      rewrite skipn_app, skipn_all2 in Hb' by (by rewrite int_bytes_length).
      rewrite ints_app. unfold ints at 2. rewrite bind_cons. exact Hb'.
    + rewrite Hw'. apply memory_only_set_bytes.
Qed.

Lemma load_int_run w a hs p vs k v :
  block_at w a hs p (ints vs) -> vs !! k = Some v -> -2 ^ 31 <= v < 2 ^ 31 ->
  load_int (p + SIZEOF_INT * Z.of_nat k) w = (Ret v, w).
Proof.
  intros [_ _ _ Hd] Hk Hv. unfold load_int.
  enough (read_bytes (bytes w) (p + SIZEOF_INT * Z.of_nat k) 4 = Some (int_bytes v)) as Hr.
  { change (Z.to_nat SIZEOF_INT) with 4%nat. rewrite (bind_run _ _ w (int_bytes v) w) by by apply deref_run.
    unfold mret, M_ret. by rewrite int_of_int_bytes. }
  apply read_bytes_iff. split; [done|]. intros i Hi. pose proof (proj1 (read_bytes_iff _ _ _ _) Hd) as [_ Hget].
  pose proof (lookup_lt_Some _ _ _ Hk) as Hlen.
  replace (p + SIZEOF_INT * Z.of_nat k + Z.of_nat i) with (p + Z.of_nat (4 * k + i)) by (unfold SIZEOF_INT; lia).
  rewrite Hget by (rewrite ints_length; lia). pose proof (take_drop_middle vs k v Hk) as Hvs. rewrite <-Hvs at 1.
  rewrite ints_app. unfold ints at 2. rewrite bind_cons.
  assert (length (ints (take k vs)) = (4 * k)%nat) as Hl by (rewrite ints_length, length_take; lia).
  rewrite lookup_app_r, lookup_app_l by (rewrite ?Hl, ?int_bytes_length; lia). f_equal. lia.
Qed.
End support.
