(* ===== verification/Calculator.v ===== *)
(** * Example: a calculator

    src/example/calculator.c, built for its tests: [assert] is [mock_assert],
    [calloc] and [free] are those of the checked memory.  [printf] and
    [fprintf] are given by an interface, because the tests replace them.  The
    int variables whose addresses are passed around are in [state_vars], the
    array of intermediate values is in the checked memory, four bytes a
    value. *)
From S2P Require Import Prelude CMonad CString ListNode World Report Memory SymbolMap Tree SymbolTree Mock FloatCompare Compare Alloc AllocBytes AllocProofs AllocOps AllocTheorems AllocLeaks Output OutputProofs Runner Frame MockSpec MockProofs RunnerProofs TestContract ClientSupport.

(** ** Integers of the C language *)

Definition INT_MAX : Z := 2 ^ 31 - 1.
Definition in_int (z : Z) : bool := (-2 ^ 31 <=? z) && (z <=? INT_MAX).

(** The result of signed arithmetic; overflow is undefined. *)
Definition signed (z : Z) : CM Z := if in_int z then mret z else undef.

(** ** strtol() in base 10 *)

Definition is_space (c : Ascii.ascii) : bool :=
  let n := Ascii.nat_of_ascii c in (n =? 32)%nat || ((9 <=? n)%nat && (n <=? 13)%nat).
Definition digit_value (c : Ascii.ascii) : option Z :=
  let n := Z.of_nat (Ascii.nat_of_ascii c) in
  if (48 <=? n) && (n <=? 57) then Some (n - 48) else None.
(** The number at the start of [s], if there is a digit. *)
Fixpoint digits (started : bool) (n : Z) (s : string) : option Z :=
  match s with
  | String c s' =>
      match digit_value c with
      | Some d => digits true (10 * n + d) s'
      | None => if started then Some n else None
      end
  | "" => if started then Some n else None
  end.
Fixpoint skip_space (s : string) : string :=
  match s with String c s' => if is_space c then skip_space s' else s | "" => "" end.
Definition LONG_MAX : Z := 2 ^ 63 - 1.
(** The result of strtol(), a value that does not fit being the nearest long;
    [None] if there is no number ([*endptr] is the start of the string). *)
Definition strtol (s : string) : option Z :=
  match skip_space s with
  | String "-" s' => (fun n => Z.max (- LONG_MAX - 1) (- n)) <$> digits false 0 s'
  | String "+" s' => Z.min LONG_MAX <$> digits false 0 s'
  | s' => Z.min LONG_MAX <$> digits false 0 s'
  end.
(** (int)strtol(...) *)
Definition parse_int (s : string) : option Z := to_s32 <$> strtol s.

(** ** The code *)

(** The streams stdout and stderr. *)
Class Stdio := {
  printf : string -> CM unit;
  fprintf_stderr : string -> CM unit;
}.

Definition BinaryOperator : Type := Z -> Z -> CM Z.
(** [F]: what a function pointer of the table points to. *)
Record OperatorFunction (F : Type) := mkOperatorFunction { operator : string; function : option F }.
Arguments mkOperatorFunction {F}.
Arguments operator {F}.
Arguments function {F}.

(** An array of strings, or NULL. *)
Definition strings : Type := option (list (option string)).

Definition CALCULATOR_C : option string := Some "calculator.c".

Section code.
Context `{!Platform, !Stdio}.

Definition assert (expression : bool) (text : string) (line_ : Z) : CM unit :=
  mock_assert (if expression then 1 else 0) text CALCULATOR_C line_.

Definition add (a b : Z) : CM Z := signed (a + b).
Definition subtract (a b : Z) : CM Z := signed (a - b).
Definition multiply (a b : Z) : CM Z := signed (a * b).
Definition divide (a b : Z) : CM Z :=
  assert (negb (b =? 0)) "b" 135;;
  if b =? 0 then undef else signed (Z.quot a b).

Definition operator_function_map : list (OperatorFunction BinaryOperator) :=
  [mkOperatorFunction "+" (Some add); mkOperatorFunction "-" (Some subtract);
   mkOperatorFunction "*" (Some multiply); mkOperatorFunction "/" (Some divide)].

(** The loop over the table from index [i] on, [count] more elements. *)
Fixpoint find_function_loop {F} (count i : nat) (operator_functions : option (list (OperatorFunction F)))
    (operator_string : option string) : CM (option F) :=
  match count with
  | O => mret None
  | S k =>
      operator_function ← deref (fun _ => fs ← operator_functions; fs !! i);
      s ← deref (fun _ => operator_string);
      if bool_decide (operator operator_function = s) then mret (function operator_function)
      else find_function_loop k (S i) operator_functions operator_string
  end.

Definition find_operator_function_by_string {F} (number_of_operator_functions : Z)
    (operator_functions : option (list (OperatorFunction F))) (operator_string : option string)
    : CM (option F) :=
  assert ((number_of_operator_functions =? 0) || bool_decide (is_Some operator_functions))
    "!number_of_operator_functions || operator_functions" 148;;
  assert (bool_decide (is_Some operator_string)) "operator_string != NULL" 149;;
  find_function_loop (Z.to_nat number_of_operator_functions) 0 operator_functions operator_string.

(** arguments[i] *)
Definition argument (arguments : strings) (i : Z) : CM (option string) :=
  deref (fun _ => l ← arguments; if i <? 0 then None else l !! Z.to_nat i).
Definition parse_argument (arguments : strings) (i : Z) : CM (option Z) :=
  s ← argument arguments i;
  s ← deref (fun _ => s);
  mret (parse_int s).

Section operation.
Context (number_of_arguments : Z) (arguments : strings) (number_of_operator_functions : Z)
  (operator_functions : option (list (OperatorFunction BinaryOperator)))
  (number_of_intermediate_values intermediate_values error_occurred : ptr).

(** An error is reported, and noted for the end of the function. *)
Definition fail_operation (value : Z) (message : string) : CM Z :=
  fprintf_stderr message;;
  store_var error_occurred 1;;
  mret value.

(** The while loop; the result is [value]. *)
Fixpoint perform_loop (fuel : nat) (i value : Z) : CM Z :=
  match fuel with
  | O => no_fuel
  | S k =>
    if negb (i <? number_of_arguments) then mret value else
    operator_string ← argument arguments i;
    function ← find_operator_function_by_string number_of_operator_functions operator_functions operator_string;
    values ← load_var intermediate_values;
    number ← load_var number_of_intermediate_values;
    let intermediate_value := values + SIZEOF_INT * number in
    store_var number_of_intermediate_values (number + 1);;
    match function with
    | None =>
        fail_operation value ("Unknown operator " +:+ fmt_s operator_string +:+ ", argument " +:+ fmt_d i +:+ nl)
    | Some f =>
        let i := i + 1 in
        if i =? number_of_arguments then
          fail_operation value ("Binary operator " +:+ fmt_s operator_string +:+ " missing argument" +:+ nl)
        else
          other_value ← parse_argument arguments i;
          match other_value with
          | None =>
              s ← argument arguments i;
              fail_operation value ("Unable to parse integer " +:+ fmt_s s +:+ " of argument " +:+ fmt_d i +:+ nl)
          | Some other_value =>
              let i := i + 1 in
              result ← f value other_value;
              store_int intermediate_value result;;
              value ← load_int intermediate_value;
              perform_loop k i value
          end
    end
  end.

Definition perform_operation : CM Z :=
  assert ((number_of_arguments =? 0) || bool_decide (is_Some arguments)) "!number_of_arguments || arguments" 184;;
  assert ((number_of_operator_functions =? 0) || bool_decide (is_Some operator_functions))
    "!number_of_operator_functions || operator_functions" 185;;
  assert (negb (error_occurred =? NULL)) "error_occurred != NULL" 186;;
  assert (negb (number_of_intermediate_values =? NULL)) "number_of_intermediate_values != NULL" 187;;
  assert (negb (intermediate_values =? NULL)) "intermediate_values != NULL" 188;;
  store_var error_occurred 0;;
  store_var number_of_intermediate_values 0;;
  store_var intermediate_values NULL;;
  if number_of_arguments =? 0 then mret 0 else
  value ← parse_argument arguments 0;
  match value with
  | None =>
      s ← argument arguments 0;
      fprintf_stderr ("Unable to parse integer from argument " +:+ fmt_s s +:+ nl);;
      store_var error_occurred 1;;
      mret 0
  | Some value =>
      p ← _test_calloc (to_u64 (Z.quot (number_of_arguments - 1) 2)) SIZEOF_INT CALCULATOR_C 207;
      store_var intermediate_values p;;
      value ← perform_loop (S (Z.to_nat number_of_arguments)) 1 value;
      error ← load_var error_occurred;
      if negb (error =? 0) then
        values ← load_var intermediate_values;
        _test_free values CALCULATOR_C 250;;
        store_var intermediate_values NULL;;
        store_var number_of_intermediate_values 0;;
        mret 0
      else mret value
  end.
End operation.

(** The frame of [main]: where its variables are. *)
Section main.
Context (frame : ptr).
Definition return_value_addr : ptr := frame.
Definition number_of_intermediate_values_addr : ptr := frame + 8.
Definition intermediate_values_addr : ptr := frame + 16.

(** The loop that prints the operations. *)
Fixpoint print_loop (fuel : nat) (argc : Z) (argv : strings) (i intermediate_value_index : Z) : CM unit :=
  match fuel with
  | O => no_fuel
  | S k =>
    if negb (i <? argc) then mret tt else
    number ← load_var number_of_intermediate_values_addr;
    assert (intermediate_value_index <? number) "intermediate_value_index < number_of_intermediate_values" 275;;
    operator ← argument argv i;
    operand ← argument argv (i + 1);
    values ← load_var intermediate_values_addr;
    v ← load_int (values + SIZEOF_INT * intermediate_value_index);
    printf ("  " +:+ fmt_s operator +:+ " " +:+ fmt_s operand +:+ " = " +:+ fmt_d v +:+ nl);;
    print_loop k argc argv (i + 2) (intermediate_value_index + 1)
  end.

Definition example_main (argc : Z) (argv : list (option string)) : CM Z :=
  result ← perform_operation (argc - 1) (Some (skipn 1 argv)) 4 (Some operator_function_map)
    number_of_intermediate_values_addr intermediate_values_addr return_value_addr;
  return_value ← load_var return_value_addr;
  when ((return_value =? 0) && (1 <? argc))
    (s ← argument (Some argv) 1;
     printf (fmt_s s +:+ nl);;
     print_loop (S (Z.to_nat argc)) argc (Some argv) 2 0;;
     printf ("= " +:+ fmt_d result +:+ nl));;
  values ← load_var intermediate_values_addr;
  when (negb (values =? NULL)) (_test_free values CALCULATOR_C 282);;
  load_var return_value_addr.
End main.
End code.
