(* ===== verification/CalculatorTheorems.v ===== *)
(** * What the calculator computes

    [evaluate] says what an expression means: its operators are applied from
    left to right.  The theorems show that [perform_operation] and
    [example_main] of Calculator.v compute it. *)
From S2P Require Import Prelude CMonad CString ListNode World Report Memory SymbolMap Tree SymbolTree Mock FloatCompare Compare Alloc AllocBytes AllocProofs AllocOps AllocTheorems AllocLeaks Output OutputProofs Runner Frame MockSpec MockProofs RunnerProofs TestContract ClientSupport Calculator.

(** ** Expressions *)

(** The result of an operation on ints. *)
Inductive arithmetic := Exact (z : Z) | Overflow | ByZero.
Definition exact (z : Z) : arithmetic := if in_int z then Exact z else Overflow.

(** The operations of the table. *)
Definition operation (name : string) : option (Z -> Z -> arithmetic) :=
  if bool_decide ("+" = name) then Some (fun a b => exact (a + b))
  else if bool_decide ("-" = name) then Some (fun a b => exact (a - b))
  else if bool_decide ("*" = name) then Some (fun a b => exact (a * b))
  else if bool_decide ("/" = name) then Some (fun a b => if b =? 0 then ByZero else exact (Z.quot a b))
  else None.

(** What comes of an expression: a value and those of its operations, an error
    message, or none of them. *)
Inductive evaluation :=
  | Value (value : Z) (intermediate : list Z)
  | Failure (message : string)
  | DividesByZero
  | Overflows.

(** The rest of an expression, from argument [i] on: [value] is that of the
    operations so far, whose results are [vals]. *)
Fixpoint evaluate_from (value i : Z) (args : list string) (vals : list Z) : evaluation :=
  match args with
  | [] => Value value vals
  | op :: rest =>
      match operation op with
      | None => Failure ("Unknown operator " +:+ op +:+ ", argument " +:+ fmt_d i +:+ nl)
      | Some apply =>
          match rest with
          | [] => Failure ("Binary operator " +:+ op +:+ " missing argument" +:+ nl)
          | x :: rest' =>
              match parse_int x with
              | None => Failure ("Unable to parse integer " +:+ x +:+ " of argument " +:+ fmt_d (i + 1) +:+ nl)
              | Some b =>
                  match apply value b with
                  | Exact z => evaluate_from z (i + 2) rest' (vals ++ [z])
                  | Overflow => Overflows
                  | ByZero => DividesByZero
                  end
              end
          end
      end
  end.

Definition evaluate (args : list string) : evaluation :=
  match args with
  | [] => Value 0 []
  | x :: rest =>
      match parse_int x with
      | None => Failure ("Unable to parse integer from argument " +:+ x +:+ nl)
      | Some v => evaluate_from v 1 rest []
      end
  end.

Section theorems.
Context `{!Platform, !PlatformLaws, !PlatformTotal, !Stdio}.
Implicit Types (w : World) (hs : list ptr) (x : expectations) (p : ptr) (args : list string).

(** ** Preliminaries *)

(** Only the memory and the variables change. *)
Definition works w w' : Prop :=
  exists b i r m v, w' = set_state_vars v (set_blocks b (set_infos i (set_raw r (set_bytes m w)))).

Instance works_preorder : PreOrder works.
Proof.
  split.
  - intros w. exists (blocks w), (infos w), (raw w), (bytes w), (state_vars w). by destruct w.
  - intros w1 w2 w3 (? & ? & ? & ? & ? & ->) (b & i & r & m & v & ->). by exists b, i, r, m, v.
Qed.

Lemma works_memory w w' : memory_only w w' -> works w w'.
Proof. intros (b & i & r & m & ->). exists b, i, r, m, (state_vars w). by destruct w. Qed.
Lemma works_vars w v : works w (set_state_vars v w).
Proof. exists (blocks w), (infos w), (raw w), (bytes w), v. by destruct w. Qed.

(** Where a false assertion leads. *)
Definition assert_outcome {A} w : outcome A := if global_expecting_assert w =? 0 then exit_outcome w else AssertJmp.

Lemma works_assert_outcome {A} w w' : works w w' -> @assert_outcome A w' = assert_outcome w.
Proof. by intros (b & i & r & m & v & ->). Qed.

Lemma assert_outcome_bind {A B} (m : CM A) (k : A -> CM B) w u w' :
  m w = (assert_outcome u, w') -> (m ≫= k) w = (assert_outcome u, w').
Proof.
  unfold assert_outcome. destruct (global_expecting_assert u =? 0); [apply exit_outcome_bind|].
  intros R. rewrite bind_eq. by rewrite R.
Qed.

Lemma assert_holds b text lno w : b = true -> assert b text lno w = (Ret tt, w).
Proof. by intros ->. Qed.

Lemma assert_stops text lno w : exists w', assert false text lno w = (assert_outcome w, w') /\
  same_mem w w' /\ raw w' = raw w /\ bytes w' = bytes w.
Proof.
  unfold assert, mock_assert, assert_outcome. cbn [Z.eqb when]. mprim. destruct (global_expecting_assert w =? 0); cbn [negb].
  - destruct (prints_then_fail (cmocka_print_error ("ASSERT: " +:+ text +:+ nl)) CALCULATOR_C lno w)
      as (w' & R & Q); [apply prints_cmocka_print_error|]. exists w'. split; [done|].
    by destruct Q as (m & e & o & c & ->).
  - mprim. by eexists.
Qed.

Lemma store_run q c w : store_var q c w = (Ret tt, set_state_vars (<[q := c]> (state_vars w)) w).
Proof. done. Qed.

Lemma live_vars w v h b s l : live (set_state_vars v w) h b s l -> live w h b s l.
Proof. intros Hl. by apply (live_frame (set_state_vars v w)); [|apply Hl|..]. Qed.

(** ** Operators *)

Definition computes (f : BinaryOperator) (apply : Z -> Z -> arithmetic) : Prop :=
  forall a b w, match apply a b with
  | Exact z => f a b w = (Ret z, w) /\ -2 ^ 31 <= z < 2 ^ 31
  | Overflow => f a b w = (Undef, w)
  | ByZero => exists w', f a b w = (assert_outcome w, w') /\ same_mem w w' /\ raw w' = raw w /\ bytes w' = bytes w
  end.

Lemma signed_computes z w :
  match exact z with
  | Exact z' => signed z w = (Ret z', w) /\ -2 ^ 31 <= z' < 2 ^ 31
  | Overflow => signed z w = (Undef, w)
  | ByZero => False
  end.
Proof.
  unfold exact, signed. destruct (in_int z) eqn:E; [|done]. split; [done|]. unfold in_int, INT_MAX in E. zbool. lia.
Qed.

Lemma add_computes : computes add (fun a b => exact (a + b)).
Proof. intros a b w. pose proof (signed_computes (a + b) w) as Hr. by destruct (exact _). Qed.
Lemma subtract_computes : computes subtract (fun a b => exact (a - b)).
Proof. intros a b w. pose proof (signed_computes (a - b) w) as Hr. by destruct (exact _). Qed.
Lemma multiply_computes : computes multiply (fun a b => exact (a * b)).
Proof. intros a b w. pose proof (signed_computes (a * b) w) as Hr. by destruct (exact _). Qed.
Lemma divide_computes : computes divide (fun a b => if b =? 0 then ByZero else exact (Z.quot a b)).
Proof.
  intros a b w. unfold divide. destruct (b =? 0); cbn [negb].
  - destruct (assert_stops "b" 135 w) as (w' & R & Hs). exists w'. split; [by apply assert_outcome_bind|done].
  - mrun (assert_holds true "b" 135 w eq_refl). pose proof (signed_computes (Z.quot a b) w) as Hr. by destruct (exact _).
Qed.

Lemma find_operator_run op w :
  match operation op with
  | Some apply => exists f, find_operator_function_by_string 4 (Some operator_function_map) (Some op) w = (Ret (Some f), w) /\
      computes f apply
  | None => find_operator_function_by_string 4 (Some operator_function_map) (Some op) w = (Ret None, w)
  end.
Proof.
  unfold find_operator_function_by_string. mrun (assert_holds true "!number_of_operator_functions || operator_functions" 148 w eq_refl).
  mrun (assert_holds true "operator_string != NULL" 149 w eq_refl). change (Z.to_nat 4) with 4%nat.
  assert (find_function_loop 4 0 (Some operator_function_map) (Some op) w = (Ret (
    if bool_decide ("+" = op) then Some add else if bool_decide ("-" = op) then Some subtract
    else if bool_decide ("*" = op) then Some multiply else if bool_decide ("/" = op) then Some divide else None), w)) as ->.
  { do 4 (cbn [find_function_loop]; do 2 (erewrite bind_run; [|apply deref_run; reflexivity]); cbn [operator];
      case_bool_decide; [done|]). done. }
  unfold operation. repeat (case_bool_decide; [eexists; split; [done|];
    first [apply add_computes|apply subtract_computes|apply multiply_computes|apply divide_computes]|]). done.
Qed.

(** ** The loop *)

Section operation.
Context (args : list string) (number_of_intermediate_values intermediate_values error_occurred : ptr).
Context (distinct : number_of_intermediate_values <> intermediate_values /\
  number_of_intermediate_values <> error_occurred /\ intermediate_values <> error_occurred).

#[local] Abbreviation n := (Z.of_nat (length args)).
#[local] Abbreviation arguments := (Some (Some <$> args)).
#[local] Abbreviation operators := (Some operator_function_map).
#[local] Abbreviation loop :=
  (perform_loop n arguments 4 operators number_of_intermediate_values intermediate_values error_occurred).
#[local] Abbreviation perform :=
  (perform_operation n arguments 4 operators number_of_intermediate_values intermediate_values error_occurred).

(** The three variables hold [k], [v] and [e]; the others are those of [w0]. *)
Definition outputs w0 w (k v e : Z) : Prop :=
  state_vars w !! number_of_intermediate_values = Some k /\
  state_vars w !! intermediate_values = Some v /\
  state_vars w !! error_occurred = Some e /\
  forall q, q <> number_of_intermediate_values -> q <> intermediate_values -> q <> error_occurred ->
    state_vars w !! q = state_vars w0 !! q.

Lemma outputs_memory w0 w w' k v e : memory_only w w' -> outputs w0 w k v e -> outputs w0 w' k v e.
Proof. by intros (b & i & r & m & ->). Qed.

(** Assigning one of them. *)
Lemma assigned (m : gmap Z Z) q c u v : q <> u -> m !! u = Some v -> <[q := c]> m !! u = Some v.
Proof. intros. by rewrite lookup_insert_ne. Qed.
Lemma assigned_other (m m' : gmap Z Z) q c u : q <> u -> m !! u = m' !! u -> <[q := c]> m !! u = m' !! u.
Proof. intros. by rewrite lookup_insert_ne. Qed.
Ltac set_output :=
  destruct distinct as (N1 & N2 & N3); intros (Hk & Hv & He & Ho); unfold outputs; cbn [state_vars set_state_vars];
  split_and!; [..|intros q Hq1 Hq2 Hq3; apply assigned_other; [by apply not_eq_sym|by apply Ho]];
  first [apply lookup_insert_eq|apply assigned; [first [done|by apply not_eq_sym]|done]].
Lemma set_number w0 w k v e c : outputs w0 w k v e ->
  outputs w0 (set_state_vars (<[number_of_intermediate_values := c]> (state_vars w)) w) c v e.
Proof. set_output. Qed.
Lemma set_values w0 w k v e c : outputs w0 w k v e ->
  outputs w0 (set_state_vars (<[intermediate_values := c]> (state_vars w)) w) k c e.
Proof. set_output. Qed.
Lemma set_error w0 w k v e c : outputs w0 w k v e ->
  outputs w0 (set_state_vars (<[error_occurred := c]> (state_vars w)) w) k v c.
Proof. set_output. Qed.

Lemma argument_run i s w : args !! i = Some s -> argument arguments (Z.of_nat i) w = (Ret (Some s), w).
Proof.
  intros Hi. apply deref_run. cbn. rewrite (proj2 (Z.ltb_ge _ _)) by lia. by rewrite Nat2Z.id, list_lookup_fmap, Hi.
Qed.

Lemma parse_run i s w : args !! i = Some s -> parse_argument arguments (Z.of_nat i) w = (Ret (parse_int s), w).
Proof. intros Hi. unfold parse_argument. by mrun (argument_run i s w Hi). Qed.

(** During the computation: the block at [p] holds the ints [zs], [k] is the
    number of intermediate values, no error has occurred. *)
Record computing w0 w x hs p (zs : list Z) (k : nat) : Prop := {
  cp_block : block_at w x hs p (ints zs);
  cp_outputs : outputs w0 w (Z.of_nat k) p 0;
  cp_works : works w0 w;
}.

(** The intermediate value number [length vals] is stored. *)
Lemma store_value w0 w x hs p vals r k v :
  computing w0 w x hs p (vals ++ replicate (S r) 0) k -> -2 ^ 31 <= v < 2 ^ 31 ->
  exists w', (forall A (g : Z -> CM A), (store_int (p + SIZEOF_INT * Z.of_nat (length vals)) v;;
      u ← load_int (p + SIZEOF_INT * Z.of_nat (length vals)); g u) w = g v w') /\
    computing w0 w' x hs p ((vals ++ [v]) ++ replicate r 0) k.
Proof.
  intros [Hb Ho Hw] Hv. assert (lt (length vals) (length (vals ++ replicate (S r) (0 : Z)))) as Hlen
    by (rewrite length_app, length_replicate; lia).
  destruct (store_int_run w x hs p _ (length vals) v Hb Hlen) as (w' & R & Hb' & Hm).
  assert (<[length vals := v]> (vals ++ replicate (S r) 0) = (vals ++ [v]) ++ replicate r 0) as E.
  { rewrite <-(Nat.add_0_r (length vals)), insert_app_r. cbn [replicate]. by rewrite <-app_assoc. }
  rewrite E in Hb'. exists w'. split.
  - intros A g. mrun R. apply bind_run, (load_int_run w' x hs p _ (length vals) v Hb'); [|done].
    by rewrite <-app_assoc, lookup_app_r, Nat.sub_diag.
  - split; [done|by eapply outputs_memory|]. etrans; [done|by apply works_memory].
Qed.

(** How the loop ends, from argument [i] and [value] on. *)
Definition loop_ends w0 w x hs p fuel i value (e : evaluation) : Prop :=
  match e with
  | Value v vals => exists w', loop fuel i value w = (Ret v, w') /\ computing w0 w' x hs p vals (length vals)
  | Failure m => exists w1 v zs k, loop fuel i value w = fail_operation error_occurred v m w1 /\ computing w0 w1 x hs p zs k
  | DividesByZero => exists w', loop fuel i value w = (assert_outcome w0, w') /\ consistent w' x (hs ++ [header_of p])
  | Overflows => exists w', loop fuel i value w = (Undef, w')
  end.

Lemma loop_run w0 x hs p : forall fuel value rest vals (i : nat) w,
  skipn i args = rest -> (i <= length args)%nat -> i = S (2 * length vals) -> (length rest < fuel)%nat ->
  computing w0 w x hs p (vals ++ replicate (Nat.div2 (length rest)) 0) (length vals) ->
  loop_ends w0 w x hs p fuel (Z.of_nat i) value (evaluate_from value (Z.of_nat i) rest vals).
Proof.
  induction fuel as [|fuel IH]; intros value rest vals i w Hrest Hle Hi Hfuel Hc; [lia|].
  assert (length rest = length args - i)%nat as Hlen by (by rewrite <-Hrest, length_skipn).
  destruct rest as [|op rest1]; unfold loop_ends; cbn [evaluate_from perform_loop].
  { rewrite (proj2 (Z.ltb_ge _ _)) by (cbn in Hlen; lia). exists w. by rewrite app_nil_r in Hc. }
  assert (args !! i = Some op) as Hop by (by rewrite <-(Nat.add_0_r i), <-lookup_drop, Hrest).
  rewrite (proj2 (Z.ltb_lt _ _)) by (cbn in Hlen; lia). cbn [negb].
  pose proof (drop_S _ _ _ Hop) as Hd. rewrite Hrest in Hd. injection Hd as Hrest1.
  mrun (argument_run i op w Hop). destruct Hc as [Hb Ho Hw]. pose proof Ho as (Hnum & Hval & _ & _).
  pose proof (set_number _ _ _ _ _ (Z.of_nat (S (length vals))) Ho) as Ho1. set (w1 := set_state_vars _ w) in Ho1.
  assert (forall zs, block_at w x hs p zs -> block_at w1 x hs p zs) as Hkeep by (intros zs; by apply block_same).
  assert (works w0 w1) as Hw1 by (etrans; [done|apply works_vars]).
  assert (load_var intermediate_values w = (Ret p, w)) as Rp by by apply deref_run.
  assert (load_var number_of_intermediate_values w = (Ret (Z.of_nat (length vals)), w)) as Rk by by apply deref_run.
  assert (store_var number_of_intermediate_values (Z.of_nat (length vals) + 1) w = (Ret tt, w1)) as Rs
    by (unfold store_var, w1; by replace (Z.of_nat (length vals) + 1) with (Z.of_nat (S (length vals))) by lia).
  pose proof (find_operator_run op w) as Hf. destruct (operation op) as [apply|]; cycle 1.
  { mrun Hf. mrun Rp. mrun Rk. mrun Rs. exists w1, value. do 2 eexists. split; [done|]. split; [by apply Hkeep|done..]. }
  destruct Hf as (f & Hf & Hcomp). mrun Hf. mrun Rp. mrun Rk. mrun Rs.
  replace (Z.of_nat i + 1) with (Z.of_nat (S i)) by lia.
  destruct rest1 as [|a1 rest2].
  { rewrite (proj2 (Z.eqb_eq _ _)) by (cbn in Hlen; lia). exists w1, value. do 2 eexists. split; [done|]. split; [by apply Hkeep|done..]. }
  rewrite (proj2 (Z.eqb_neq _ _)) by (cbn in Hlen; lia).
  assert (args !! S i = Some a1) as Ha1 by (by rewrite <-(Nat.add_0_r (S i)), <-lookup_drop, <-Hrest1).
  pose proof (drop_S _ _ _ Ha1) as Hd. rewrite <-Hrest1 in Hd. injection Hd as Hrest2.
  mrun (parse_run (S i) a1 w1 Ha1). destruct (parse_int a1) as [b|]; cycle 1.
  { mrun (argument_run (S i) a1 w1 Ha1). exists w1, value. do 2 eexists. split; [done|]. split; [by apply Hkeep|done..]. }
  specialize (Hcomp value b w1). destruct (apply value b) as [z| |]; cbn beta iota.
  - destruct Hcomp as [Rf Hz]. mrun Rf.
    destruct (store_value w0 w1 x hs p vals (Nat.div2 (length rest2)) (S (length vals)) z) as (w2 & R2 & Hc2); [|done|].
    { split; [by apply Hkeep|done..]. }
    rewrite R2. assert (length (vals ++ [z]) = S (length vals)) as El by (rewrite length_app; cbn; lia).
    replace (Z.of_nat (S i) + 1) with (Z.of_nat (S (S i))) by lia. replace (Z.of_nat i + 2) with (Z.of_nat (S (S i))) by lia.
    rewrite <-El in Hc2. apply (IH z rest2 (vals ++ [z]) (S (S i)) w2); [done| | | |done]; cbn in Hlen, Hfuel; lia.
  - rewrite bind_eq, Hcomp. by eexists.
  - destruct Hcomp as (w2 & R2 & Hm & Hr & Hy). rewrite (works_assert_outcome w0 w1 Hw1) in R2.
    exists w2. split; [by apply assert_outcome_bind|]. apply (consistent_same w1); [done..|]. apply (Hkeep _ Hb).
Qed.

(** ** The operation *)

Context (addresses : error_occurred <> NULL /\ number_of_intermediate_values <> NULL /\ intermediate_values <> NULL).

(** The variables are initialised. *)
Lemma operation_start w : exists w1, outputs w w1 0 NULL 0 /\ w1 = set_state_vars (state_vars w1) w /\
  perform w = (if n =? 0 then mret 0 else
    value ← parse_argument arguments 0;
    match value with
    | None =>
        s ← argument arguments 0;
        fprintf_stderr ("Unable to parse integer from argument " +:+ fmt_s s +:+ nl);; store_var error_occurred 1;; mret 0
    | Some value =>
        p ← _test_calloc (to_u64 (Z.quot (n - 1) 2)) SIZEOF_INT CALCULATOR_C 207;
        store_var intermediate_values p;;
        value ← loop (S (Z.to_nat n)) 1 value;
        error ← load_var error_occurred;
        if negb (error =? 0) then
          values ← load_var intermediate_values;
          _test_free values CALCULATOR_C 250;;
          store_var intermediate_values NULL;;
          store_var number_of_intermediate_values 0;;
          mret 0
        else mret value
    end) w1.
Proof.
  destruct addresses as (A1 & A2 & A3), distinct as (N1 & N2 & N3). eexists. split; [|split; [|]]; cycle 2.
  - unfold perform_operation. mrun (assert_holds _ "!number_of_arguments || arguments" 184 w (orb_true_r (n =? 0))).
    mrun (assert_holds true "!number_of_operator_functions || operator_functions" 185 w eq_refl).
    rewrite (proj2 (Z.eqb_neq _ _) A1), (proj2 (Z.eqb_neq _ _) A2), (proj2 (Z.eqb_neq _ _) A3).
    mrun (assert_holds true "error_occurred != NULL" 186 w eq_refl).
    mrun (assert_holds true "number_of_intermediate_values != NULL" 187 w eq_refl).
    mrun (assert_holds true "intermediate_values != NULL" 188 w eq_refl). do 3 (rewrite (bind_run _ _ _ _ _ (store_run _ _ _))). reflexivity.
  - unfold outputs. cbn [state_vars set_state_vars]. split_and!.
    + apply assigned; [by apply not_eq_sym|apply lookup_insert_eq].
    + apply lookup_insert_eq.
    + apply assigned; [done|]. apply assigned; [done|apply lookup_insert_eq].
    + intros q Hq1 Hq2 Hq3. by do 3 (apply assigned_other; [by apply not_eq_sym|]).
  - done.
Qed.

(** What [fprintf] may do so that the function goes on: the expectations are
    then [x'], the blocks [hs1] of the function intact. *)
Definition reported w1 w2 x' hs hs1 m : Prop :=
  fprintf_stderr m w1 = (Ret tt, w2) /\ consistent w2 x' (hs ++ hs1) /\ all_intact w2 hs1 /\ state_vars w2 = state_vars w1.

(** The array of the results is allocated. *)
Lemma results_allocated w w0 x hs (rest : list string) :
  works w w0 -> consistent w0 x hs -> outputs w w0 0 NULL 0 -> length args = S (length rest) -> n <= INT_MAX ->
  exists p w2, p <> NULL /\ computing w w2 x hs p (replicate (Nat.div2 (length rest)) 0) 0 /\
    forall k : CM Z, (p ← _test_calloc (to_u64 (Z.quot (n - 1) 2)) SIZEOF_INT CALCULATOR_C 207; store_var intermediate_values p;; k) w0 = k w2.
Proof.
  intros Hw Hc0 Ho Hlen Hmax.
  assert (to_u64 (Z.quot (n - 1) 2) = Z.of_nat (Nat.div2 (length rest))) as ->.
  { rewrite Z.quot_div_nonneg by lia. replace (n - 1) with (Z.of_nat (length rest)) by lia.
    rewrite Nat.div2_div, Nat2Z.inj_div. apply to_u64_small. unfold INT_MAX in Hmax.
    Z.to_euclidean_division_equations. lia. }
  set (c := Nat.div2 (length rest)). assert (c <= length rest)%nat as Hcmax by (unfold c; rewrite Nat.div2_div; apply Nat.Div0.div_le_upper_bound; lia).
  destruct (block_calloc w0 x hs (Z.of_nat c) SIZEOF_INT CALCULATOR_C 207 Hc0) as (p & w1 & R1 & Hp & Hb & Hm);
    [lia|done|unfold INT_MAX, SIZEOF_INT, OVERHEAD, SIZE_MAX, SIZEOF_MALLOCBLOCKINFODATA, MALLOC_GUARD_SIZE, MALLOC_ALIGNMENT in *; lia
    |unfold INT_MAX, SIZE_MAX in *; lia|].
  eexists p, _. split; [done|]. split; [|by intros k; mrun R1; rewrite (bind_run _ _ _ _ _ (store_run _ _ _))].
  split; [|eapply set_values; by eapply outputs_memory|].
  - apply (block_same w1); [done..|]. rewrite ints_zero. unfold SIZEOF_INT in Hb.
    by replace (Z.to_nat (Z.of_nat c * 4)) with (4 * c)%nat in Hb by lia.
  - etrans; [done|]. etrans; [by apply works_memory|apply works_vars].
Qed.

(** What follows the loop. *)
#[local] Abbreviation after_loop := (fun value : Z =>
  error ← load_var error_occurred;
  if negb (error =? 0) then
    values ← load_var intermediate_values;
    _test_free values CALCULATOR_C 250;;
    store_var intermediate_values NULL;;
    store_var number_of_intermediate_values 0;;
    mret 0
  else mret value).

(** After a message that was printed the array is released. *)
Lemma results_released w w3 w4 x x' hs p zs k v m :
  computing w w3 x hs p zs k -> reported w3 w4 x' hs [header_of p] m ->
  exists w', (fail_operation error_occurred v m ≫= after_loop) w3 = (Ret 0, w') /\ works w4 w' /\
    consistent w' x' hs /\ outputs w w' 0 NULL 1.
Proof.
  intros [_ Ho3 _] (R & Hc4 & Hi4 & Hv4).
  assert (outputs w w4 (Z.of_nat k) p 0) as Ho4 by (unfold outputs; by rewrite Hv4).
  pose proof (set_error _ _ _ _ _ 1 Ho4) as Ho5. set (w5 := set_state_vars _ w4) in Ho5.
  assert (fail_operation error_occurred v m w3 = (Ret v, w5)) as Rl.
  { unfold fail_operation. mrun R. by rewrite (bind_run _ _ _ _ _ (store_run _ _ _)). }
  mrun Rl. pose proof Ho5 as (_ & Hv5 & He5 & _).
  assert (load_var error_occurred w5 = (Ret 1, w5)) as Re by by apply deref_run. mrun Re. cbn [Z.eqb negb].
  assert (load_var intermediate_values w5 = (Ret p, w5)) as Rp by by apply deref_run. mrun Rp.
  destruct (intact_free w5 x' hs (header_of p) CALCULATOR_C 250) as (w6 & R6 & Hc6 & Hm6).
  { by apply (consistent_same w4). }
  { intros h b s l Hh Hl. apply (Hi4 h b s l Hh). by eapply live_vars. }
  rewrite user_header in R6. mrun R6. rewrite !(bind_run _ _ _ _ _ (store_run _ _ _)).
  pose proof (set_number _ _ _ _ _ 0 (set_values _ _ _ _ _ NULL (outputs_memory _ _ _ _ _ _ Hm6 Ho5))) as Ho7.
  eexists. split; [done|]. split; [|split; [by apply (consistent_same w6)|exact Ho7] ].
  etrans; [apply works_vars|]. etrans; [apply (works_memory _ _ Hm6)|]. etrans; apply works_vars.
Qed.

(** The whole function. *)
Lemma perform_operation_evaluates w x hs :
  consistent w x hs -> n <= INT_MAX ->
  match evaluate args with
  | Value v vals => exists w', perform w = (Ret v, w') /\ works w w' /\
      if decide (args = []) then consistent w' x hs /\ outputs w w' 0 NULL 0
      else exists p, p <> NULL /\ block_at w' x hs p (ints vals) /\ outputs w w' (Z.of_nat (length vals)) p 0
  | Failure m => exists w1 hs1, works w w1 /\ consistent w1 x (hs ++ hs1) /\ all_intact w1 hs1 /\
      (forall w2 x', reported w1 w2 x' hs hs1 m -> exists w', perform w = (Ret 0, w') /\ works w2 w' /\
         consistent w' x' hs /\ outputs w w' 0 NULL 1) /\
      (forall w2, fprintf_stderr m w1 = (LongJmp, w2) -> perform w = (LongJmp, w2))
  | DividesByZero => exists w' h, perform w = (assert_outcome w, w') /\ consistent w' x (hs ++ [h])
  | Overflows => exists w', perform w = (Undef, w')
  end.
Proof.
  intros Hc Hmax. destruct (operation_start w) as (w0 & Ho & Hw0 & ->). assert (works w w0) as Hw by (rewrite Hw0; apply works_vars).
  assert (consistent w0 x hs) as Hc0 by (rewrite Hw0; by apply (consistent_same w)).
  assert (args = [] \/ exists arg0 rest, args = arg0 :: rest) as [Eargs|(arg0 & rest & Eargs)]
    by (destruct args as [|arg0 rest]; [by left|right; by eauto]).
  { assert (evaluate args = Value 0 []) as -> by by rewrite Eargs. assert (n = 0) as -> by by rewrite Eargs.
    cbn [Z.eqb]. exists w0. by rewrite decide_True by done. }
  assert (evaluate args = match parse_int arg0 with
    | None => Failure ("Unable to parse integer from argument " +:+ arg0 +:+ nl)
    | Some v => evaluate_from v 1 rest [] end) as -> by by rewrite Eargs.
  assert (args !! 0%nat = Some arg0) as Harg by by rewrite Eargs.
  assert (length args = S (length rest)) as Hlen by by rewrite Eargs.
  assert (skipn 1 args = rest) as Hrest by by rewrite Eargs. assert (args <> []) as Hne by by rewrite Eargs.
  rewrite (proj2 (Z.eqb_neq _ _)) by lia. mrun (parse_run 0 arg0 w0 Harg). destruct (parse_int arg0) as [value|]; cycle 1.
  { mrun (argument_run 0 arg0 w0 Harg). exists w0, []. rewrite app_nil_r. split_and!; [done..| | |].
    - intros h b s l Hh. by apply elem_of_nil in Hh.
    - intros w2 x' (R & Hc2 & _ & Hv). mrun R. rewrite (bind_run _ _ _ _ _ (store_run _ _ _)). rewrite app_nil_r in Hc2.
      eexists. split; [done|]. split; [apply works_vars|]. split; [by apply (consistent_same w2)|].
      apply set_error with (e := 0). by unfold outputs; rewrite Hv.
    - intros w2 R. by apply bind_longjmp. }
  destruct (results_allocated w w0 x hs rest Hw Hc0 Ho Hlen Hmax) as (p & w2 & Hp & Hc2 & ->).
  pose proof (loop_run w x hs p (S (Z.to_nat n)) value rest [] 1 w2 Hrest ltac:(lia) eq_refl ltac:(lia) Hc2) as Hloop.
  unfold loop_ends in Hloop. change (Z.of_nat 1) with 1 in Hloop.
  destruct (evaluate_from value 1 rest []) as [v vals|m| |].
  - destruct Hloop as (w3 & R3 & [Hb3 Ho3 Hw3]). mrun R3. pose proof Ho3 as (_ & _ & He & _).
    assert (load_var error_occurred w3 = (Ret 0, w3)) as Re by by apply deref_run. mrun Re. cbn [Z.eqb negb].
    exists w3. split; [done|]. split; [done|]. rewrite decide_False by done. by exists p.
  - destruct Hloop as (w3 & v & zs & k & R3 & [Hb3 Ho3 Hw3]). exists w3, [header_of p].
    split; [done|]. split; [apply Hb3|]. split; [by eapply block_intact|]. split.
    + intros w4 x' Hrep. rewrite bind_eq, R3, <-bind_eq. by eapply results_released.
    + intros w4 R. apply bind_longjmp. rewrite R3. unfold fail_operation. by apply bind_longjmp.
  - destruct Hloop as (w3 & R3 & Hc3). exists w3, (header_of p). split; [by apply assert_outcome_bind|done].
  - destruct Hloop as (w3 & R3). exists w3. rewrite bind_eq. by rewrite R3.
Qed.
End operation.

(** C34: [perform_operation] with the table of the program computes the
    expression in its arguments, from left to right, for any caller and any
    [fprintf], such as that of the tests.  It always ends.  For a value it
    returns the value and leaves in the checked memory a block with the
    results of all operations, whose number it stores; no int is ever stored
    outside the block.  If the expression is malformed it calls [fprintf] with
    the message of [evaluate], once and with the block intact; if that returns
    and has not damaged the block, whatever it did to the expectations, the
    block is released, the three variables are 0, NULL and 1 and the result is
    0; if it leaves the test, so does the function.  A division by zero is an
    assertion that fails, with the block still allocated; an overflow of the
    int type is undefined behaviour.  With a value or a message no variable but
    the three is changed. *)
Theorem perform_operation_computes args (number values error : ptr) w x hs :
  number <> values /\ number <> error /\ values <> error ->
  error <> NULL /\ number <> NULL /\ values <> NULL ->
  consistent w x hs -> Z.of_nat (length args) <= INT_MAX ->
  let perform := perform_operation (Z.of_nat (length args)) (Some (Some <$> args)) 4 (Some operator_function_map)
    number values error in
  let outputs := outputs number values error in
  match evaluate args with
  | Value v vals => exists w', perform w = (Ret v, w') /\ works w w' /\
      if decide (args = []) then consistent w' x hs /\ outputs w w' 0 NULL 0
      else exists p, p <> NULL /\ block_at w' x hs p (ints vals) /\ outputs w w' (Z.of_nat (length vals)) p 0
  | Failure m => exists w1 hs1, works w w1 /\ consistent w1 x (hs ++ hs1) /\ all_intact w1 hs1 /\
      (forall w2 x', fprintf_stderr m w1 = (Ret tt, w2) -> consistent w2 x' (hs ++ hs1) -> all_intact w2 hs1 ->
         state_vars w2 = state_vars w1 ->
         exists w', perform w = (Ret 0, w') /\ works w2 w' /\ consistent w' x' hs /\ outputs w w' 0 NULL 1) /\
      (forall w2, fprintf_stderr m w1 = (LongJmp, w2) -> perform w = (LongJmp, w2))
  | DividesByZero => exists w' h, perform w = (assert_outcome w, w') /\ consistent w' x (hs ++ [h])
  | Overflows => exists w', perform w = (Undef, w')
  end.
Proof.
  intros Hd Ha Hc Hmax perform outputs. pose proof (perform_operation_evaluates args number values error Hd Ha w x hs Hc Hmax) as He.
  destruct (evaluate args); try exact He. destruct He as (w1 & hs1 & Hw & Hc1 & Hi1 & Hret & Hjump). exists w1, hs1.
  split_and!; [done..| |exact Hjump]. intros w2 x' R Hc2 Hi Hv. by apply (Hret w2 x').
Qed.
End theorems.
