(* ===== verification/CalculatorMain.v ===== *)
(** * The calculator as a program

    [example_main] of Calculator.v with the standard streams: what it prints
    and returns, for every expression. *)
From S2P Require Import Prelude CMonad CString ListNode World Report Memory SymbolMap Tree SymbolTree Mock FloatCompare Compare Alloc AllocBytes AllocProofs AllocOps AllocTheorems AllocLeaks Output OutputProofs Runner Frame MockSpec MockProofs RunnerProofs TestContract ClientSupport Calculator CalculatorTheorems ReportTheorems.

(** stdout and stderr *)
Definition standard_streams : Stdio := {|
  printf s := modify (fun w => set_stdout_text (stdout_text w +:+ s) w);
  fprintf_stderr s := modify (fun w => set_stderr_text (stderr_text w +:+ s) w);
|}.
#[local] Existing Instance standard_streams.

Lemma printf_run s w : printf s w = (Ret tt, set_stdout_text (stdout_text w +:+ s) w).
Proof. done. Qed.

(** ** What is printed *)

Fixpoint operation_lines (rest : list string) (vals : list Z) : string :=
  match rest, vals with
  | op :: x :: rest', z :: vals' =>
      ("  " +:+ op +:+ " " +:+ x +:+ " = " +:+ fmt_d z +:+ nl) +:+ operation_lines rest' vals'
  | _, _ => ""
  end.
Definition calculation (args : list string) (v : Z) (vals : list Z) : string :=
  match args with
  | [] => ""
  | first :: rest => (first +:+ nl) +:+ operation_lines rest vals +:+ ("= " +:+ fmt_d v +:+ nl)
  end.

(** An int is printed for each operation. *)
Lemma apply_range op f a b z : operation op = Some f -> f a b = Exact z -> -2 ^ 31 <= z < 2 ^ 31.
Proof.
  assert (forall y, exact y = Exact z -> -2 ^ 31 <= z < 2 ^ 31) as Hex.
  { intros y. unfold exact. destruct (in_int y) eqn:E; [|done]. intros [= <-]. unfold in_int, INT_MAX in E. zbool. lia. }
  unfold operation. repeat case_bool_decide; intros [= <-]; try apply Hex. destruct (b =? 0); [done|apply Hex].
Qed.

Lemma evaluate_from_shape n : forall value i rest vals v vals', (length rest <= n)%nat ->
  evaluate_from value i rest vals = Value v vals' ->
  exists us, vals' = vals ++ us /\ length rest = (2 * length us)%nat /\ Forall (fun z => -2 ^ 31 <= z < 2 ^ 31) us.
Proof.
  induction n as [|n IH]; intros value i rest vals v vals' Hn; destruct rest as [|op rest1]; try (cbn in Hn; lia).
  1,2: intros [= _ <-]; exists []; by rewrite app_nil_r.
  cbn [evaluate_from]. destruct (operation op) as [f|] eqn:Hf; [|done]. destruct rest1 as [|y rest2]; [done|].
  destruct (parse_int y) as [b|]; [|done]. destruct (f value b) as [z| |] eqn:Hz; [|done..].
  intros (us & -> & Hl & Hus)%IH; [|cbn in Hn; lia]. exists (z :: us). rewrite <-app_assoc. split; [done|].
  split; [cbn in *; lia|]. constructor; [|done]. by eapply apply_range.
Qed.

Section main.
Context `{!Platform, !PlatformLaws, !PlatformTotal}.
Implicit Types (w : World) (hs : list ptr) (x : expectations).
Context (name : string) (args : list string) (frame : ptr) (frame_ok : 0 < frame).

#[local] Abbreviation argv := (Some <$> name :: args).
#[local] Abbreviation argc := (Z.of_nat (S (length args))).

(** The text [s] is written to stdout. *)
Definition prints_text w s : World := set_stdout_text (stdout_text w +:+ s) w.

Lemma print_loop_run x hs p (vals : list Z) : forall fuel rest us (k : nat) w,
  Forall (fun z => -2 ^ 31 <= z < 2 ^ 31) vals -> block_at w x hs p (ints vals) ->
  state_vars w !! number_of_intermediate_values_addr frame = Some (Z.of_nat (length vals)) ->
  state_vars w !! intermediate_values_addr frame = Some p ->
  skipn (S (2 * k)) args = rest -> skipn k vals = us -> length rest = (2 * length us)%nat -> (length us < fuel)%nat ->
  (S (2 * k) <= length args)%nat ->
  print_loop frame fuel argc (Some argv) (Z.of_nat (S (S (2 * k)))) (Z.of_nat k) w =
    (Ret tt, prints_text w (operation_lines rest us)).
Proof.
  induction fuel as [|fuel IH]; intros rest us k w Hr Hb Hn Hv Hrest Hus Hlen Hfuel Hk; [lia|].
  assert (length rest = length args - S (2 * k))%nat as Hl by by rewrite <-Hrest, length_skipn.
  cbn [print_loop]. destruct us as [|z us].
  { destruct rest; [|done]. rewrite (proj2 (Z.ltb_ge _ _)) by (cbn in Hl; lia).
    unfold prints_text. cbn [operation_lines]. rewrite string_app_nil. by destruct w. }
  destruct rest as [|op [|y rest]]; [done|cbn in Hlen; lia|].
  rewrite (proj2 (Z.ltb_lt _ _)) by (cbn in Hl; lia). cbn [negb].
  assert (forall j s, args !! j = Some s -> argument (Some argv) (Z.of_nat (S j)) w = (Ret (Some s), w)) as Harg.
  { intros j s Hj. apply deref_run. cbn [option_bind mbind]. rewrite (proj2 (Z.ltb_ge _ _)) by lia.
    rewrite Nat2Z.id, list_lookup_fmap. change ((name :: args) !! S j) with (args !! j). by rewrite Hj. }
  assert (vals !! k = Some z) as Hz by (by rewrite <-(Nat.add_0_r k), <-lookup_drop, Hus).
  pose proof (lookup_lt_Some _ _ _ Hz).
  assert (args !! (S (2 * k)) = Some op) as Hop by (by rewrite <-(Nat.add_0_r (S _)), <-lookup_drop, Hrest).
  assert (args !! (S (S (2 * k))) = Some y) as Hy
    by (replace (S (S (2 * k))) with (S (2 * k) + 1)%nat by lia; by rewrite <-lookup_drop, Hrest).
  assert (load_var (number_of_intermediate_values_addr frame) w = (Ret (Z.of_nat (length vals)), w)) as Rn by by apply deref_run.
  assert (load_var (intermediate_values_addr frame) w = (Ret p, w)) as Rv by by apply deref_run.
  assert ((Z.of_nat k <? Z.of_nat (length vals)) = true) as Hlt by (apply Z.ltb_lt; lia).
  mrun Rn. mrun (assert_holds _ "intermediate_value_index < number_of_intermediate_values" 275 w Hlt).
  mrun (Harg _ _ Hop). replace (Z.of_nat (S (S (2 * k))) + 1) with (Z.of_nat (S (S (S (2 * k))))) by lia.
  mrun (Harg _ _ Hy). mrun Rv. assert (-2 ^ 31 <= z < 2 ^ 31) as Hzr by by eapply (proj1 (Forall_lookup _ _) Hr).
  mrun (load_int_run w x hs p vals k z Hb Hz Hzr). rewrite (bind_run _ _ _ _ _ (printf_run _ _)).
  replace (Z.of_nat (S (S (2 * k))) + 2) with (Z.of_nat (S (S (2 * S k)))) by lia. replace (Z.of_nat k + 1) with (Z.of_nat (S k)) by lia.
  rewrite (IH rest us (S k)).
  - unfold prints_text. cbn [operation_lines]. cbn [stdout_text set_stdout_text]. by rewrite <-string_app_assoc.
  - done.
  - by apply (block_same w).
  - done.
  - done.
  - replace (S (2 * S k)) with (2 + S (2 * k))%nat by lia. by rewrite <-skipn_skipn, Hrest.
  - replace (S k) with (1 + k)%nat by lia. by rewrite <-skipn_skipn, Hus.
  - cbn in *. lia.
  - cbn in *. lia.
  - cbn in *. lia.
Qed.

(** What [main] does after the operation. *)
Definition main_end (result : Z) : CM Z :=
  return_value ← load_var (return_value_addr frame);
  when ((return_value =? 0) && (1 <? argc))
    (s ← argument (Some argv) 1;
     printf (fmt_s s +:+ nl);;
     print_loop frame (S (Z.to_nat argc)) argc (Some argv) 2 0;;
     printf ("= " +:+ fmt_d result +:+ nl));;
  values ← load_var (intermediate_values_addr frame);
  when (negb (values =? NULL)) (_test_free values CALCULATOR_C 282);;
  load_var (return_value_addr frame).

#[local] Abbreviation outputs :=
  (outputs (number_of_intermediate_values_addr frame) (intermediate_values_addr frame) (return_value_addr frame)).

(** No block, because there is no expression or because it is malformed. *)
Lemma main_end_without_block w0 w result e :
  outputs w0 w 0 NULL e -> args = [] \/ e <> 0 -> main_end result w = (Ret e, w).
Proof.
  intros (_ & Hv & He & _) Hnone. unfold main_end.
  assert (load_var (return_value_addr frame) w = (Ret e, w)) as Re by by apply deref_run. mrun Re.
  assert ((e =? 0) && (1 <? argc) = false) as ->.
  { destruct Hnone as [->|Hz]; [by rewrite andb_false_r|]. by rewrite (proj2 (Z.eqb_neq _ _) Hz). }
  cbn [when]. mprim. assert (load_var (intermediate_values_addr frame) w = (Ret NULL, w)) as Rv by by apply deref_run. mrun Rv.
  cbn [Z.eqb NULL negb when]. by mprim.
Qed.

(** With the results [vals] in the block at [p]. *)
Lemma main_end_prints w0 w x hs p v vals first rest :
  args = first :: rest -> p <> NULL -> block_at w x hs p (ints vals) -> outputs w0 w (Z.of_nat (length vals)) p 0 ->
  Forall (fun z => -2 ^ 31 <= z < 2 ^ 31) vals -> length rest = (2 * length vals)%nat ->
  exists w', main_end v w = (Ret 0, w') /\ consistent w' x hs /\
    stdout_text w' = stdout_text w +:+ calculation args v vals /\ stderr_text w' = stderr_text w.
Proof.
  intros Ha Hp Hb (Hn & Hv & He & _) Hr Hl. unfold main_end.
  assert (load_var (return_value_addr frame) w = (Ret 0, w)) as Re by by apply deref_run. mrun Re.
  assert (length args = S (length rest)) as Hlen by by rewrite Ha.
  rewrite (proj2 (Z.ltb_lt _ _)) by lia. cbn [Z.eqb andb when].
  assert (argument (Some argv) 1 w = (Ret (Some first), w)) as R1 by (apply deref_run; cbn; by rewrite Ha).
  rewrite bind_assoc_run. mrun R1. rewrite bind_assoc_run. mrun (printf_run (fmt_s (Some first) +:+ nl) w).
  set (w1 := set_stdout_text _ w). rewrite bind_assoc_run.
  pose proof (print_loop_run x hs p vals (S (Z.to_nat argc)) rest vals 0 w1 Hr) as Hloop.
  mrun (Hloop ltac:(by apply (block_same w)) Hn Hv ltac:(by rewrite Ha) eq_refl Hl ltac:(lia) ltac:(lia)).
  rewrite (bind_run _ _ _ _ _ (printf_run _ _)). set (w2 := set_stdout_text _ (prints_text w1 _)).
  assert (load_var (intermediate_values_addr frame) w2 = (Ret p, w2)) as Rv by by apply deref_run. mrun Rv.
  rewrite (proj2 (Z.eqb_neq _ _) Hp). cbn [negb when]. assert (block_at w2 x hs p (ints vals)) as Hb2 by by apply (block_same w).
  destruct (intact_free w2 x hs (header_of p) CALCULATOR_C 282 (bk_consistent _ _ _ _ _ Hb2) (block_intact _ _ _ _ _ Hb2))
    as (w3 & R3 & Hc3 & Hm3). rewrite user_header in R3. mrun R3. exists w3.
  assert (state_vars w3 = state_vars w /\ stdout_text w3 = stdout_text w2 /\ stderr_text w3 = stderr_text w) as (E1 & E2 & E3)
    by (by destruct Hm3 as (b & i & r & m & ->)).
  split; [apply deref_run; by rewrite E1|]. split; [done|]. split; [|done]. rewrite E2, Ha.
  unfold calculation. cbn [w2 w1 prints_text stdout_text set_stdout_text]. by rewrite <-!string_app_assoc.
Qed.

(** C33: The calculator, started with the arguments [args] where blocks [hs] are
    allocated: if the arguments are an expression with a value, it prints the
    first argument, a line for each operation with its result, and the value
    - nothing if there are no arguments - and returns 0; if they are not, it
    prints what is wrong to stderr and returns 1.  In both cases it leaves the
    allocated blocks and the expectations of the test as they were.  A division
    by zero ends in a failed assertion, an overflow is undefined behaviour. *)
Theorem example_main_prints w x hs :
  consistent w x hs -> Z.of_nat (length args) <= INT_MAX ->
  match evaluate args with
  | Value v vals => exists w', example_main frame argc argv w = (Ret 0, w') /\ consistent w' x hs /\
      stdout_text w' = stdout_text w +:+ calculation args v vals /\ stderr_text w' = stderr_text w
  | Failure m => exists w', example_main frame argc argv w = (Ret 1, w') /\ consistent w' x hs /\
      stdout_text w' = stdout_text w /\ stderr_text w' = stderr_text w +:+ m
  | DividesByZero => exists w', example_main frame argc argv w = (assert_outcome w, w')
  | Overflows => exists w', example_main frame argc argv w = (Undef, w')
  end.
Proof.
  intros Hc Hmax. unfold example_main. replace (argc - 1) with (Z.of_nat (length args)) by lia.
  change (skipn 1 argv) with (Some <$> args).
  pose proof (perform_operation_evaluates args (number_of_intermediate_values_addr frame) (intermediate_values_addr frame)
    (return_value_addr frame)) as Hp.
  unfold number_of_intermediate_values_addr, intermediate_values_addr, return_value_addr, NULL in Hp.
  specialize (Hp ltac:(lia) ltac:(lia) w x hs Hc Hmax).
  destruct (evaluate args) as [v vals|m| |] eqn:Ev.
  - destruct Hp as (w1 & R1 & Hw1 & Hblock). mrun R1. change (exists w', main_end v w1 = (Ret 0, w') /\ consistent w' x hs /\
      stdout_text w' = stdout_text w +:+ calculation args v vals /\ stderr_text w' = stderr_text w).
    assert (stdout_text w1 = stdout_text w /\ stderr_text w1 = stderr_text w) as [<- <-]
      by (by destruct Hw1 as (b & i & r & m & u & ->)).
    case_decide as Hargs.
    + destruct Hblock as [Hc1 Ho1]. exists w1. rewrite (main_end_without_block w w1 v 0) by (done || by left).
      split_and!; [done..| |done]. rewrite Hargs. cbn. by rewrite string_app_nil.
    + destruct Hblock as (p & Hp & Hb1 & Ho1). destruct args as [|first rest] eqn:Ea; [done|]. rewrite <-Ea in *.
      rewrite Ea in Ev. cbn [evaluate] in Ev. destruct (parse_int first); [|done].
      destruct (evaluate_from_shape _ _ _ _ _ _ _ (le_n _) Ev) as (us & -> & Hl & Hr). cbn [app] in *.
      by apply (main_end_prints w w1 x hs p v us first rest).
  - destruct Hp as (w1 & hs1 & Hw1 & Hc1 & Hi1 & Hret & _).
    destruct (Hret (set_stderr_text (stderr_text w1 +:+ m) w1) x) as (w2 & R2 & Hw2 & Hc2 & Ho2).
    { split; [done|]. split; [by apply (consistent_same w1)|]. split; [|done]. intros h b s l Hh Hl. apply (Hi1 h b s l Hh).
      by apply (live_frame (set_stderr_text (stderr_text w1 +:+ m) w1)); [|apply Hl|..]. }
    mrun R2. exists w2. split; [apply (main_end_without_block w w2 0 1 Ho2); by right|]. split; [done|].
    destruct Hw1 as (b1 & i1 & r1 & m1 & u1 & ->). by destruct Hw2 as (b & i & r & mm & u & ->).
  - destruct Hp as (w1 & h & R1 & _). exists w1. by apply assert_outcome_bind.
  - destruct Hp as (w1 & R1). exists w1. rewrite bind_eq. by setoid_rewrite R1.
Qed.
End main.
