(* ===== verification/CalculatorTests.v ===== *)
(** * The tests of the calculator

    src/example/calculator_test.c on Calculator.v: the mocks of printf(),
    fprintf() and of a binary operator, the 22 tests, and a run of the whole
    program on the concrete platform of TestPlatform.v. *)
From S2P Require Import Prelude CMonad CString ListNode World TestPlatform Report Memory SymbolMap Mock FloatCompare Compare Checks Asserts Alloc Output Runner Frame MockSpec MockProofs RunnerProofs TestContract ClientSupport Calculator Api.

Definition at_test_line (l : Z) : site := mkSite (Some "calculator_test.c") l.

(** ** Data of the test program *)

(** static char temporary_buffer[256] *)
Definition temporary_buffer : ptr := 1024.
Definition string_bytes (s : string) : list Z := (fun c => Z.of_nat (Ascii.nat_of_ascii c)) <$> chars s.

(** The string literals it compares texts with. *)
Definition literals : list string :=
  ["Unable to parse integer from argument test" +:+ nl; "Unknown operator *, argument 1" +:+ nl;
   "Binary operator + missing argument" +:+ nl; "Unable to parse integer test of argument 2" +:+ nl;
   "1" +:+ nl; "  + 3 = 4" +:+ nl; "  * 10 = 40" +:+ nl; "= 40" +:+ nl].
Definition literal (k : nat) : ptr := 2048 + 64 * Z.of_nat k.

(** The memory at the start of the program. *)
Definition program_data : gmap Z Z :=
  write_bytes temporary_buffer (replicate 256 0)
    (foldr (fun p m => write_bytes (literal p.1) (string_bytes p.2 ++ [0]) m) ∅ (imap pair literals)).

(** The local variables of a test, and the frame of [example_main]. *)
Definition number_of_intermediate_values : ptr := 3000.
Definition intermediate_values : ptr := 3008.
Definition error_occurred : ptr := 3016.
Definition main_frame : ptr := 3024.

Section tests.
Context `{!Platform}.

(** ** The mocks *)

(** vsnprintf(temporary_buffer, sizeof(temporary_buffer), ...) *)
Definition print_to_buffer (text : string) : CM unit :=
  store_bytes temporary_buffer (take 255 (string_bytes text) ++ [0]).
(** The mock is called with stderr. *)
Definition example_test_fprintf (text : string) : CM unit :=
  assert_true (at_test_line 69) "file == stderr" 1;;
  print_to_buffer text;;
  check_expected_ptr "example_test_fprintf" (at_test_line 73) "temporary_buffer" temporary_buffer.
Definition example_test_printf (text : string) : CM unit :=
  print_to_buffer text;;
  check_expected_ptr "example_test_printf" (at_test_line 86) "temporary_buffer" temporary_buffer.
#[local] Instance test_stdio : Stdio := {| printf := example_test_printf; fprintf_stderr := example_test_fprintf |}.

Definition binary_operator : BinaryOperator := fun a b =>
  check_expected "binary_operator" (at_test_line 93) "a" a;;
  check_expected "binary_operator" (at_test_line 94) "b" b;;
  v ← mock "binary_operator" (at_test_line 95); mret (to_s32 v).

(** ** The tests *)

Definition equals (m : CM Z) (l expected : Z) : CM unit := r ← m; assert_int_equal (at_test_line l) r expected.
Definition expect_assert (m : CM unit) (text : string) (l : Z) : CM unit :=
  expect_assert_failure m text (Some "calculator_test.c") l.

Definition test_add : CMUnitTestFunction := fun _ => equals (add 3 3) 103 6;; equals (add 3 (-3)) 104 0.
Definition test_subtract : CMUnitTestFunction := fun _ => equals (subtract 3 3) 111 0;; equals (subtract 3 (-3)) 112 6.
Definition test_multiply : CMUnitTestFunction := fun _ => equals (multiply 3 3) 119 9;; equals (multiply 3 0) 120 0.
Definition test_divide : CMUnitTestFunction := fun _ => equals (divide 10 2) 127 5;; equals (divide 2 10) 128 0.
Definition test_divide_by_zero : CMUnitTestFunction := fun _ =>
  expect_assert (divide 100 0;; mret tt) "divide(100, 0)" 135.

Definition plus_only : list (OperatorFunction BinaryOperator) := [mkOperatorFunction "+" (Some binary_operator)].

Definition test_find_null_functions : CMUnitTestFunction := fun _ =>
  expect_assert (find_operator_function_by_string (F:=BinaryOperator) 1 None (Some "test");; mret tt)
    "find_operator_function_by_string(1, NULL, test)" 143.
Definition test_find_null_string : CMUnitTestFunction := fun _ =>
  expect_assert (find_operator_function_by_string 1 (Some plus_only) None;; mret tt)
    "find_operator_function_by_string( array_length(operator_functions), operator_functions, NULL)" 155.
(** A function pointer is NULL if there is no function. *)
Definition test_find_valid_null_functions : CMUnitTestFunction := fun _ =>
  f ← find_operator_function_by_string (F:=ptr) 0 None (Some "test"); assert_null (at_test_line 164) (default NULL f).
Definition test_find_not_found : CMUnitTestFunction := fun _ =>
  f ← find_operator_function_by_string (F:=ptr) 3 (Some [mkOperatorFunction "+" (Some 4096); mkOperatorFunction "-" (Some 4096);
    mkOperatorFunction "/" (Some 4096)]) (Some "test");
  assert_null (at_test_line 178) (default NULL f).
Definition test_find_found : CMUnitTestFunction := fun _ =>
  f ← find_operator_function_by_string 3 (Some [mkOperatorFunction "+" (Some 0x12345678); mkOperatorFunction "-" (Some 0xDEADBEEF);
    mkOperatorFunction "/" (Some 0xABADCAFE)]) (Some "-");
  assert_int_equal (at_test_line 193) (default NULL f) 0xDEADBEEF.

Definition arguments (l : list string) : strings := Some (Some <$> l).
Definition five_arguments : strings := arguments ["1"; "+"; "2"; "*"; "4"].

Definition test_perform_operation_null_args : CMUnitTestFunction := fun _ =>
  expect_assert (perform_operation 1 None 1 (Some plus_only) number_of_intermediate_values intermediate_values error_occurred;; mret tt)
    "perform_operation(...)" 212.
Definition test_perform_operation_null_operator_functions : CMUnitTestFunction := fun _ =>
  expect_assert (perform_operation 5 five_arguments 1 None number_of_intermediate_values intermediate_values error_occurred;; mret tt)
    "perform_operation(...)" 230.
Definition test_perform_operation_null_number_of_intermediate_values : CMUnitTestFunction := fun _ =>
  expect_assert (perform_operation 5 five_arguments 1 (Some plus_only) NULL intermediate_values error_occurred;; mret tt)
    "perform_operation(...)" 249.
Definition test_perform_operation_null_intermediate_values : CMUnitTestFunction := fun _ =>
  expect_assert (perform_operation 5 five_arguments 1 (Some plus_only) number_of_intermediate_values NULL error_occurred;; mret tt)
    "perform_operation(...)" 268.
Definition test_perform_operation_no_arguments : CMUnitTestFunction := fun _ =>
  equals (perform_operation 0 None 0 None number_of_intermediate_values intermediate_values error_occurred) 282 0;;
  equals (load_var error_occurred) 285 0.

(** A malformed expression: the message is literal [k], expected in line [l],
    and the results are checked in lines [l1] and [l2]. *)
Definition malformed (k : nat) (l l1 l2 : Z) (args : list string) : CMUnitTestFunction := fun _ =>
  expect_string (at_test_line l) "example_test_fprintf" "temporary_buffer" (literal k);;
  equals (perform_operation (Z.of_nat (length args)) (arguments args) 1 (Some plus_only)
    number_of_intermediate_values intermediate_values error_occurred) l1 0;;
  equals (load_var error_occurred) l2 1.
Definition test_perform_operation_first_arg_not_integer : CMUnitTestFunction :=
  malformed 0 303 306 310 ["test"; "+"; "2"; "*"; "4"].
Definition test_perform_operation_unknown_operator : CMUnitTestFunction :=
  malformed 1 328 331 335 ["1"; "*"; "2"; "*"; "4"].
Definition test_perform_operation_missing_argument : CMUnitTestFunction := malformed 2 353 356 360 ["1"; "+"].
Definition test_perform_operation_no_integer_after_operator : CMUnitTestFunction :=
  malformed 3 378 381 385 ["1"; "+"; "test"].

Definition test_perform_operation : CMUnitTestFunction := fun _ =>
  expect_value (at_test_line 406) "binary_operator" "a" 1;;
  expect_value (at_test_line 407) "binary_operator" "b" 3;;
  will_return (at_test_line 408) "binary_operator" 4;;
  expect_value (at_test_line 411) "binary_operator" "a" 4;;
  expect_value (at_test_line 412) "binary_operator" "b" 10;;
  will_return (at_test_line 413) "binary_operator" 40;;
  equals (perform_operation 5 (arguments ["1"; "+"; "3"; "*"; "10"]) 2
    (Some [mkOperatorFunction "+" (Some binary_operator); mkOperatorFunction "*" (Some binary_operator)])
    number_of_intermediate_values intermediate_values error_occurred) 415 40;;
  equals (load_var error_occurred) 419 0;;
  values ← load_var intermediate_values;
  assert_non_null (at_test_line 421) values;;
  equals (load_int values) 422 4;;
  equals (load_int (values + SIZEOF_INT)) 423 40;;
  test_free (at_test_line 424) values.

Definition test_example_main_no_args : CMUnitTestFunction := fun _ =>
  equals (example_main main_frame 1 [Some "example"]) 436 0.
Definition test_example_main : CMUnitTestFunction := fun _ =>
  expect_string (at_test_line 449) "example_test_printf" "temporary_buffer" (literal 4);;
  expect_string (at_test_line 450) "example_test_printf" "temporary_buffer" (literal 5);;
  expect_string (at_test_line 451) "example_test_printf" "temporary_buffer" (literal 6);;
  expect_string (at_test_line 452) "example_test_printf" "temporary_buffer" (literal 7);;
  equals (example_main main_frame 6 (Some <$> ["example"; "1"; "+"; "3"; "*"; "10"])) 454 0.

Definition calculator_tests : list CMUnitTest :=
  [cmocka_unit_test "test_add" test_add;
   cmocka_unit_test "test_subtract" test_subtract;
   cmocka_unit_test "test_multiply" test_multiply;
   cmocka_unit_test "test_divide" test_divide;
   cmocka_unit_test "test_divide_by_zero" test_divide_by_zero;
   cmocka_unit_test "test_find_operator_function_by_string_null_functions" test_find_null_functions;
   cmocka_unit_test "test_find_operator_function_by_string_null_string" test_find_null_string;
   cmocka_unit_test "test_find_operator_function_by_string_valid_null_functions" test_find_valid_null_functions;
   cmocka_unit_test "test_find_operator_function_by_string_not_found" test_find_not_found;
   cmocka_unit_test "test_find_operator_function_by_string_found" test_find_found;
   cmocka_unit_test "test_perform_operation_null_args" test_perform_operation_null_args;
   cmocka_unit_test "test_perform_operation_null_operator_functions" test_perform_operation_null_operator_functions;
   cmocka_unit_test "test_perform_operation_null_number_of_intermediate_values"
     test_perform_operation_null_number_of_intermediate_values;
   cmocka_unit_test "test_perform_operation_null_intermediate_values" test_perform_operation_null_intermediate_values;
   cmocka_unit_test "test_perform_operation_no_arguments" test_perform_operation_no_arguments;
   cmocka_unit_test "test_perform_operation_first_arg_not_integer" test_perform_operation_first_arg_not_integer;
   cmocka_unit_test "test_perform_operation_unknown_operator" test_perform_operation_unknown_operator;
   cmocka_unit_test "test_perform_operation_missing_argument" test_perform_operation_missing_argument;
   cmocka_unit_test "test_perform_operation_no_integer_after_operator" test_perform_operation_no_integer_after_operator;
   cmocka_unit_test "test_perform_operation" test_perform_operation;
   cmocka_unit_test "test_example_main_no_args" test_example_main_no_args;
   cmocka_unit_test "test_example_main" test_example_main].

(** main() of the test program *)
Definition calculator_test_main : CM Z := cmocka_run_group_tests "tests" calculator_tests None None.
End tests.

(** ** The run *)

#[local] Existing Instance test_platform.

(** The test program passes: its 22 tests - which expect failed assertions, the
    texts that are printed, the calls of a mock operator and its results -
    leave nothing behind, and [main] returns 0. *)
Example calculator_tests_pass :
  fst (calculator_test_main (set_bytes program_data initial_world)) = Ret 0.
Proof. vm_compute. reflexivity. Qed.
