(* ===== verification/AssertExamples.v ===== *)
(** * Examples: assertions

    src/example/assert_module.c and src/example/assert_macro.c, the contract
    macros of src/include/cmocka_pbc.h, and the test programs
    src/example/assert_module_test.c and src/example/assert_macro_test.c. *)
From S2P Require Import Prelude CMonad CString ListNode World TestPlatform Report Memory SymbolMap Mock FloatCompare Compare Checks Asserts Alloc Output Runner Frame MockSpec MockProofs RunnerProofs TestContract ClientSupport Calculator Api.

Definition ASSERT_MODULE_C : option string := Some "assert_module.c".

Section code.
Context `{!Platform}.

(** ** assert_module.c *)

Definition increment_value (value : ptr) : CM unit :=
  mock_assert (if value =? NULL then 0 else 1) "value" ASSERT_MODULE_C 30;;
  v ← load_int value;
  v ← signed (v + 1);
  store_int value v.

Definition decrement_value (value : ptr) : CM unit :=
  when (negb (value =? NULL))
    (v ← load_int value;
     v ← signed (v - 1);
     store_int value v).

(** ** assert_macro.c *)

Definition status_code_strings : list string :=
  ["Address not found"; "Connection dropped"; "Connection timed out"].

Definition get_status_code_string (status_code : Z) : CM string :=
  deref (fun _ => if status_code <? 0 then None else status_code_strings !! Z.to_nat status_code).

(** The loop from index [i] on, [count] more elements. *)
Fixpoint status_code_loop (count i : nat) (status_code_string : string) : CM Z :=
  match count with
  | O => mret (2 ^ 32 - 1)
  | S k =>
      s ← deref (fun _ => status_code_strings !! i);
      if bool_decide (s = status_code_string) then mret (Z.of_nat i)
      else status_code_loop k (S i) status_code_string
  end.
Definition string_to_status_code (status_code_string : string) : CM Z :=
  status_code_loop (length status_code_strings) 0 status_code_string.

(** ** cmocka_pbc.h *)

(** [assert], given by the file that includes the header, ends a function when
    its condition is false; [checked]: UNIT_TESTING or DEBUG is defined. *)
Section contracts.
Context (checked : bool) (assert : bool -> CM unit).
Definition REQUIRE (cond : bool) : CM unit := when checked (assert cond).
Definition ENSURE (cond : bool) : CM unit := when checked (assert cond).
End contracts.

(** ** The test programs *)

Definition increment_value_fail : CMUnitTestFunction := fun _ => increment_value NULL.
Definition increment_value_assert : CMUnitTestFunction := fun _ =>
  expect_assert_failure (increment_value NULL) "increment_value(NULL)" (Some "assert_module_test.c") 40.
Definition decrement_value_fail : CMUnitTestFunction := fun _ =>
  expect_assert_failure (decrement_value NULL) "decrement_value(NULL)" (Some "assert_module_test.c") 48.
Definition assert_module_main : CM Z :=
  cmocka_run_group_tests "tests"
    [cmocka_unit_test "increment_value_fail" increment_value_fail;
     cmocka_unit_test "increment_value_assert" increment_value_assert;
     cmocka_unit_test "decrement_value_fail" decrement_value_fail] None None.

(** A string of the program in memory: those of the table, in 64 bytes each. *)
Definition status_code_data : gmap Z Z :=
  foldr (fun p m => write_bytes (2048 + 64 * Z.of_nat p.1) (((fun c => Z.of_nat (Ascii.nat_of_ascii c)) <$> chars p.2) ++ [0]) m)
    ∅ (imap pair status_code_strings).
Definition string_at (s : string) : ptr :=
  default NULL ((fun p => 2048 + 64 * Z.of_nat p.1) <$> list.list_find (fun x => x = s) status_code_strings).

Definition get_status_code_string_test : CMUnitTestFunction := fun _ =>
  s ← get_status_code_string 0;
  assert_string_equal (mkSite (Some "assert_macro_test.c") 30) (string_at s) (string_at "Address not found");;
  s ← get_status_code_string 1;
  assert_string_equal (mkSite (Some "assert_macro_test.c") 31) (string_at s) (string_at "Connection timed out").
Definition string_to_status_code_test : CMUnitTestFunction := fun _ =>
  c ← string_to_status_code "Address not found"; assert_int_equal (mkSite (Some "assert_macro_test.c") 38) c 0;;
  c ← string_to_status_code "Connection timed out"; assert_int_equal (mkSite (Some "assert_macro_test.c") 39) c 1.
Definition assert_macro_main : CM Z :=
  cmocka_run_group_tests "tests"
    [cmocka_unit_test "get_status_code_string_test" get_status_code_string_test;
     cmocka_unit_test "string_to_status_code_test" string_to_status_code_test] None None.

(** ** What they do *)

Implicit Types (w : World).

Lemma status_code_loop_run s w : forall count i, (i + count = length status_code_strings)%nat ->
  status_code_loop count i s w =
    (Ret (if decide (s ∈ skipn i status_code_strings) then
            default 0 ((fun p => Z.of_nat (i + p.1)) <$> list.list_find (fun x => x = s) (skipn i status_code_strings))
          else 2 ^ 32 - 1), w).
Proof.
  induction count as [|k IH]; intros i Hi; cbn [status_code_loop].
  { rewrite skipn_all2 by lia. by rewrite decide_False by apply not_elem_of_nil. }
  destruct (lookup_lt_is_Some_2 status_code_strings i ltac:(lia)) as [e He].
  rewrite (bind_run _ _ w e w) by by apply deref_run. rewrite (drop_S _ _ _ He). cbn [list.list_find].
  case_bool_decide as E.
  - rewrite decide_True by (subst; by left). rewrite decide_True by done. cbn. by rewrite Nat.add_0_r.
  - rewrite (IH (S i)) by lia. destruct (decide (e = s)); [done|].
    destruct (decide (s ∈ skipn (S i) status_code_strings)) as [Hin|Hin].
    + rewrite decide_True by (by right). destruct (list.list_find _ _) as [ [j y]|]; [|done]. cbn. by rewrite <-Nat.add_succ_comm.
    + rewrite decide_False; [done|]. intros [?|?]%elem_of_cons; [by subst|done].
Qed.

(** The two functions are inverse to each other on the codes 0 to 2; another
    string has no code, and another code is an access outside the table. *)
Lemma status_codes_round_trip w c s :
  (0 <= c < 3 -> exists t, get_status_code_string c w = (Ret t, w) /\ string_to_status_code t w = (Ret c, w)) /\
  (s ∉ status_code_strings -> string_to_status_code s w = (Ret (2 ^ 32 - 1), w)) /\
  (~ 0 <= c < 3 -> get_status_code_string c w = (Undef, w)).
Proof.
  split_and!.
  - intros Hc. assert (c = 0 \/ c = 1 \/ c = 2) as [->|[->| ->] ] by lia; by eexists.
  - intros Hs. unfold string_to_status_code. rewrite status_code_loop_run by done. by rewrite decide_False.
  - intros Hc. unfold get_status_code_string, deref. destruct (c <? 0) eqn:E; [done|]. zbool.
    rewrite lookup_ge_None_2; [done|]. change (length status_code_strings) with 3%nat. lia.
Qed.

(** {P} C {Q}: with checks, a function under contract returns exactly if its
    precondition holds, its body returns and its postcondition holds of the
    result; without them the contract has no effect. *)
Lemma contract_checked {A} checked assert (P : World -> bool) (C : CM A) (Q : A -> World -> bool) w r w' :
  (forall b u v, assert b u = (Ret tt, v) <-> b = true /\ v = u) ->
  (p ← gets P; REQUIRE checked assert p;; r ← C; q ← gets (Q r); ENSURE checked assert q;; mret r) w = (Ret r, w') <->
  C w = (Ret r, w') /\ (checked = true -> P w = true /\ Q r w' = true).
Proof.
  intros Ha. unfold REQUIRE, ENSURE. destruct checked; cbn [when].
  - split.
    + intros (p & w1 & [= <- <-] & R)%bind_ret_inv. apply bind_ret_inv in R as ([] & w1 & [HP ->]%Ha & R).
      apply bind_ret_inv in R as (r' & w2 & RC & R). apply bind_ret_inv in R as (q & w3 & [= <- <-] & R).
      apply bind_ret_inv in R as ([] & w3 & [HQ ->]%Ha & R). by injection R as <- <-.
    + intros [RC [HP HQ] ]; [done|]. mprim. mrun (proj2 (Ha (P w) w w) (conj HP eq_refl)). mrun RC. mprim.
      by mrun (proj2 (Ha (Q r w') w' w') (conj HQ eq_refl)).
  - split.
    + intros R. split; [|done]. revert R. do 2 mprim. intros (r' & w2 & RC & R)%bind_ret_inv. revert R. do 2 mprim. by intros [= <- <-].
    + intros [RC _]. do 2 mprim. mrun RC. by do 2 mprim.
Qed.
End code.

(** ** Runs *)

#[local] Existing Instance test_platform.

(** The two test programs fail as src/example/CMakeLists.txt expects: of the
    three tests of the first one, that of a failed assertion and that of an
    assertion that does not come fail, and so do both of the second one; each
    program returns 2. *)
Theorem assert_examples_fail :
  fst (assert_module_main initial_world) = Ret 2 /\
  fst (assert_macro_main (set_bytes status_code_data initial_world)) = Ret 2.
Proof. split; vm_compute; reflexivity. Qed.
