(* ===== verification/AllocateModule.v ===== *)
(** * Example: a module with memory errors

    src/example/allocate_module.c, built for its tests, and the tests of
    src/example/allocate_module_test.c: a leak, a write past the end and a
    write before the start of a block.  Every test fails, and the program ends
    with status 1. *)
From S2P Require Import Prelude CMonad CString ListNode World Report Memory SymbolMap Tree SymbolTree Mock FloatCompare Compare Alloc AllocBytes AllocProofs AllocOps AllocTheorems AllocLeaks Output OutputProofs Runner Api Frame MockSpec MockProofs RunnerProofs TestContract TestRun GroupProofs RunnerTheorems GroupTheorems ReportTheorems ClientSupport.

(** __FILE__ *)
Definition ALLOCATE_MODULE_C : option string := Some "allocate_module.c".

Section code.
Context `{!Platform}.

Definition leak_memory : CM unit :=
  temporary ← _test_malloc SIZEOF_INT ALLOCATE_MODULE_C 41;
  store_int temporary 0.

Definition buffer_overflow : CM unit :=
  memory ← _test_malloc SIZEOF_INT ALLOCATE_MODULE_C 46;
  store_bytes (memory + SIZEOF_INT) [33];;
  _test_free memory ALLOCATE_MODULE_C 48.

Definition buffer_underflow : CM unit :=
  memory ← _test_malloc SIZEOF_INT ALLOCATE_MODULE_C 52;
  store_bytes (memory - 1) [33];;
  _test_free memory ALLOCATE_MODULE_C 54.

Definition leak_memory_test : CMUnitTestFunction := fun _ => leak_memory.
Definition buffer_overflow_test : CMUnitTestFunction := fun _ => buffer_overflow.
Definition buffer_underflow_test : CMUnitTestFunction := fun _ => buffer_underflow.

Definition allocate_module_tests : list CMUnitTest :=
  [cmocka_unit_test "leak_memory_test" leak_memory_test;
   cmocka_unit_test "buffer_overflow_test" buffer_overflow_test;
   cmocka_unit_test "buffer_underflow_test" buffer_underflow_test].

(** main() of the tests *)
Definition allocate_module_main : CM Z := cmocka_run_group_tests "tests" allocate_module_tests None None.
End code.

Section proofs.
Context `{!Platform, !PlatformLaws, !PlatformTotal}.
Implicit Types (w : World) (hs : list ptr).

(** A block of the size of an int, allocated in a test. *)
Lemma int_allocated w hs lno :
  started w hs ->
  exists p w', _test_malloc SIZEOF_INT ALLOCATE_MODULE_C lno w = (Ret p, w') /\
    allocated w w' hs p [186; 186; 186; 186] (mkSourceLocation ALLOCATE_MODULE_C lno) /\ started w' (hs ++ [header_of p]) /\
    same_run w w'.
Proof.
  intros [Hc Hr Hu]. destruct (malloc_run w hs SIZEOF_INT ALLOCATE_MODULE_C lno (cs_heap _ _ _ Hc)) as (p & w' & R & _ & Ha);
    [done|done|apply plat_malloc_total|].
  pose proof (same_run_memory _ _ (al_only _ _ _ _ _ _ Ha)) as Hs.
  exists p, w'. split_and!; [done..| |done]. split; [by eapply consistent_allocated| |by eapply undisturbed_run].
  by rewrite (proj2 Hs).
Qed.

(** Writing one byte [off] bytes from the start of such a block, into one of
    its guards, and releasing it: the test ends there, and the block remains. *)
Lemma guard_written_ends w hs off lno lno' :
  started w hs -> -16 <= off < 0 \/ 4 <= off < 20 ->
  exists h w', (memory ← _test_malloc SIZEOF_INT ALLOCATE_MODULE_C lno; store_bytes (memory + off) [33];;
      _test_free memory ALLOCATE_MODULE_C lno') w = (LongJmp, w') /\
    consistent w' no_expectations (hs ++ [h]) /\ same_run w w' /\ undisturbed w'.
Proof.
  intros Hst Hoff. destruct (int_allocated w hs lno Hst) as (p & w1 & R1 & Ha & [Hc1 Hr1 Hu1] & Hs1).
  destruct (al_new _ _ _ _ _ _ Ha) as [block Hl]. pose proof (lv_bytes _ _ _ _ _ Hl) as Hp.
  assert (in_range (header_of p + SIZEOF_MALLOCBLOCKINFODATA) 36 (p + off)) as Hin.
  { unfold in_range, header_of, MALLOC_GUARD_SIZE, SIZEOF_MALLOCBLOCKINFODATA. lia. }
  destruct (consistent_store w1 no_expectations (hs ++ [header_of p]) (p + off) [33] Hc1) as (w2 & R2 & Hw2 & Hc2 & Hl2).
  { intros x Hx. apply Hp. unfold in_range, MALLOC_GUARD_SIZE in *. cbn in *. lia. }
  { by repeat constructor. }
  assert (same_run w1 w2) as Hs2 by (rewrite Hw2; apply same_run_memory, memory_only_set_bytes).
  assert (~ guards_intact w2 (header_of p) 4) as Hg.
  { intros [G1 G2]. assert (bytes w2 !! (p + off) = Some 33) as Hb.
    { rewrite Hw2. cbn. by rewrite lookup_insert_eq. }
    unfold filled, in_range, header_of, MALLOC_GUARD_SIZE, SIZEOF_MALLOCBLOCKINFODATA in G1, G2.
    destruct Hoff; [rewrite G1 in Hb by lia|rewrite G2 in Hb by lia]; discriminate. }
  destruct (free_ends w2 (hs ++ [header_of p]) (header_of p) block 4 _ p ALLOCATE_MODULE_C lno' (Hl2 _ _ _ _ Hl))
    as (w3 & R3 & Q3).
  - symmetry. apply user_header.
  - apply (cs_bytes _ _ _ Hc2).
  - done.
  - by eapply undisturbed_run.
  - by rewrite (proj2 Hs2).
  - exists (header_of p), w3. mrun R1. mrun R2. rewrite R3. split; [done|]. split; [by eapply consistent_quiet|].
    assert (same_run w w3) as Hs by (etrans; [done|]; etrans; [done|by apply same_run_quiet]).
    split; [done|]. by eapply undisturbed_run, Hst.
Qed.

Lemma leak_memory_performs : keeps_promise (cmocka_unit_test "leak_memory_test" leak_memory_test) (CM_TEST_FAILED, false).
Proof.
  apply (plain_performs _ leak_memory_test); [done..|]. intros addr hs w1 Hst _.
  destruct (int_allocated w1 hs 41 Hst) as (p & w2 & R2 & Ha & [Hc2 Hr2 Hu2] & Hs2).
  destruct (allocated_store w1 w2 hs p _ [0; 0; 0; 0] _ Ha) as (w3 & R3 & Ha3); [done|by repeat constructor|].
  pose proof (same_run_memory _ _ (al_only _ _ _ _ _ _ Ha3)) as Hs3.
  exists [header_of p], [], w3. split; [|done]. exists no_expectations. split.
  - apply left_same; [done|apply Hst|]. by eapply consistent_allocated; [apply Hst|].
  - left. split; [|split; [by eapply undisturbed_run, Hst|split; [|done] ] ].
    + unfold leak_memory_test, leak_memory. mrun R2. exact R3.
    + intros h b n l ->%list_elem_of_singleton Hl. destruct (al_new _ _ _ _ _ _ Ha3) as [block Hl'].
      destruct (live_unique _ _ _ _ _ _ _ _ Hl Hl') as (_ & -> & _). apply (al_guards _ _ _ _ _ _ Ha3).
Qed.

Lemma guard_written_performs name (f : CMUnitTestFunction) off lno lno' :
  (forall st, f st = (memory ← _test_malloc SIZEOF_INT ALLOCATE_MODULE_C lno; store_bytes (memory + off) [33];;
    _test_free memory ALLOCATE_MODULE_C lno')) ->
  -16 <= off < 0 \/ 4 <= off < 20 -> keeps_promise (cmocka_unit_test name f) (CM_TEST_FAILED, true).
Proof.
  intros Hf Hoff. apply (plain_performs _ f); [done..|]. intros addr hs w1 Hst _.
  destruct (guard_written_ends w1 hs off lno lno' Hst Hoff) as (h & w2 & R & Hc & Hs & Hu).
  exists [h], [h], w2. split; [|done]. apply (test_fails _ _ _ _ _ no_expectations); [by rewrite Hf| |done].
  apply left_same; [done|apply Hst|done].
Qed.

Lemma allocate_module_promises :
  Forall2 keeps_promise allocate_module_tests [(CM_TEST_FAILED, false); (CM_TEST_FAILED, true); (CM_TEST_FAILED, true)].
Proof.
  repeat constructor.
  - apply leak_memory_performs.
  - apply (guard_written_performs _ _ 4 46 48); [done|lia].
  - apply (guard_written_performs _ _ (-1) 52 54); [done|lia].
Qed.

(** C35: The example program for the checked memory: its three tests fail, the
    leak because a block is left, the writes past the end and before the start
    of a block because of the guards, when the block is released; these two
    blocks remain, so that the program, started without filters, ends with
    status 1 in the leak check of the group - which src/example/CMakeLists.txt
    expects - and not with the number of its failures. *)
Theorem allocate_module_main_exits w hs :
  startable w hs -> global_test_filter_pattern w = None -> global_skip_filter_pattern w = None ->
  (forall u n, plat_libc_alloc_ok u n = true) ->
  Forall2 keeps_promise allocate_module_tests [(CM_TEST_FAILED, false); (CM_TEST_FAILED, true); (CM_TEST_FAILED, true)] /\
  exists w', allocate_module_main w = (Exit EXIT_FAILURE, w').
Proof.
  intros Hs Ht Hk Ha. pose proof allocate_module_promises as Hp. split; [exact Hp|].
  assert (selected w allocate_module_tests = allocate_module_tests) as Hsel by (unfold selected; by rewrite Ht, Hk).
  rewrite <-Hsel in Hp at 1.
  destruct (group_runs_promises "tests" allocate_module_tests _ w hs Hs Hp) as (ts & c & w1 & w3 & w4 & w5 & w6 & xs & Hr);
    [by apply (bool_decide_unpack _); vm_compute|done|].
  destruct (group_ends _ _ _ _ _ _ _ _ _ _ _ _ _ Hr) as (w' & R & _). by exists w'.
Qed.
End proofs.
