(* ===== verification/Programs.v ===== *)
(** * Programs that test

    A language of test functions: each step is an operation on the library -
    declare a mock value, a parameter or a call, be the mock, assert, allocate,
    write, release -, and the next step may depend on what it returns.
    [interp] runs a program with the operations of the library; [verdict_of] is
    what the library promises, in terms of queues of expectations and sizes of
    blocks, without memory.  ProgramTheorems.v proves that the library keeps
    the promise. *)
From S2P Require Import Prelude CMonad ListNode World Report Memory SymbolMap Tree Mock FloatCompare Compare Checks Asserts Alloc AllocProofs Output Runner Api MockSpec MockProofs TestContract.

(** ** Programs *)

(** What a parameter may be expected to be. *)
Inductive condition :=
  | Equals (x : Z) | Differs (x : Z) | Anything.

Inductive operation :=
  | OpWillReturn (f : string) (name : option string) (value count : Z)
  | OpMock (f : string) (name : option string)
  | OpExpect (f p : string) (c : condition) (count : Z)
  | OpCheck (f p : string) (value : Z)
  | OpExpectCall (f : string) (count : Z)
  | OpCalled (f : string)
  | OpAssert (ok : bool)
  | OpMalloc (n : Z)
  | OpWrite (i : nat) (offset value : Z)
  | OpFree (i : nat).

(** Blocks are referred to by their place among those that are allocated.  A
    step is at a line of the test. *)
Inductive program :=
  | Return
  | CallFail (lno : Z) | CallSkip (lno : Z) | CallStop
  | Step (lno : Z) (o : operation) (k : Z -> program).

(** __FILE__ of the tests *)
Definition CLIENT_C : string := "client.c".

Section interp.
Context `{!Platform}.

Definition declare_expected (lno : Z) (f p : string) (c : condition) (count : Z) : CM unit :=
  match c with
  | Equals x => _expect_value f p (Some CLIENT_C) lno x count
  | Differs x => _expect_not_value f p (Some CLIENT_C) lno x count
  | Anything => _expect_any f p (Some CLIENT_C) lno count
  end.

(** The operation [o], when the blocks at [ps] are allocated. *)
Definition perform (lno : Z) (o : operation) (ps : list ptr) : CM (Z * list ptr) :=
  match o with
  | OpWillReturn f name value count => _will_return f (Some CLIENT_C) lno name value count;; mret (0, ps)
  | OpMock f name => v ← _mock f (Some CLIENT_C) lno name; mret (v, ps)
  | OpExpect f p c count => declare_expected lno f p c count;; mret (0, ps)
  | OpCheck f p value => _check_expected f p (Some CLIENT_C) lno value;; mret (0, ps)
  | OpExpectCall f count => _expect_function_call (Some f) (Some CLIENT_C) lno count;; mret (0, ps)
  | OpCalled f => _function_called f (Some CLIENT_C) lno;; mret (0, ps)
  | OpAssert ok => _assert_true (Z.b2z ok) "ok" (Some CLIENT_C) lno;; mret (0, ps)
  | OpMalloc n => p ← _test_malloc n (Some CLIENT_C) lno; mret (Z.of_nat (length ps), ps ++ [p])
  | OpWrite i offset value => p ← deref (fun _ => ps !! i); store_bytes (p + offset) [value];; mret (0, ps)
  | OpFree i => p ← deref (fun _ => ps !! i); _test_free p (Some CLIENT_C) lno;; mret (0, delete i ps)
  end.

Fixpoint interp (p : program) (ps : list ptr) : CM unit :=
  match p with
  | Return => mret tt
  | CallFail lno => _fail (Some CLIENT_C) lno
  | CallSkip lno => _skip (Some CLIENT_C) lno
  | CallStop => _stop
  | Step lno o k => r ← perform lno o ps; interp (k r.1) r.2
  end.

(** The test of a name and a program. *)
Definition program_test (t : string * program) : CMUnitTest := cmocka_unit_test t.1 (fun _ => interp t.2 []).
End interp.

(** ** What the library promises *)

(** What a parameter must satisfy. *)
Definition condition_holds (c : condition) (value : Z) : bool :=
  match c with
  | Equals x => bool_decide (uint_val value = uint_val x)
  | Differs x => bool_decide (uint_val value <> uint_val x)
  | Anything => true
  end.

(** The state of a test: what is expected, and the blocks, each with its size
    and whether its guards are intact. *)
Record client := mkClient {
  cl_returns : tree SymbolValue 1;
  cl_params : tree condition 2;
  cl_calls : tree FuncOrderingValue 0;
  cl_blocks : list (Z * bool);
}.
Definition new_client : client := mkClient [] [] [] [].

(** What an operation comes to: a result, the end of the test, or nothing that
    the library promises (the state is as C leaves it). *)
Inductive reply := Goes (r : Z) (c : client) | Ends (c : client) | Unspecified.

(** A count that fits in an int. *)
Definition count_fits (count : Z) : bool := (INT_MIN <? count) && (count <? 2 ^ 31) && negb (count =? 0).

(** A write of [value] at [offset] of a block. *)
Definition write_reply (c : client) (i : nat) (offset value : Z) : reply :=
  match cl_blocks c !! i with
  | Some (n, intact) =>
      if negb ((0 <=? value) && (value <? 256)) then Unspecified
      else if (0 <=? offset) && (offset <? n) then Goes 0 c
      else if (- MALLOC_GUARD_SIZE <=? offset) && (offset <? n + MALLOC_GUARD_SIZE) then
        if negb (value =? MALLOC_GUARD_PATTERN) then
          Goes 0 (mkClient (cl_returns c) (cl_params c) (cl_calls c) (<[i := (n, false)]> (cl_blocks c)))
        else if (intact : bool) then Goes 0 c else Unspecified
      else Unspecified
  | None => Unspecified
  end.

Definition respond (lno : Z) (o : operation) (c : client) : reply :=
  match o with
  | OpWillReturn f name value count =>
      if count_fits count then
        Goes 0 (mkClient (tree_add 1 [f] (mkSymbolValue name (mkSourceLocation (Some CLIENT_C) lno) value) count (cl_returns c))
                  (cl_params c) (cl_calls c) (cl_blocks c))
      else Unspecified
  | OpMock f name =>
      match tree_get 1 [f] (cl_returns c) with
      | None => Ends c
      | Some (rc, v, u) =>
          let c' := mkClient u (cl_params c) (cl_calls c) (cl_blocks c) in
          if name_matches name v then Goes (sv_value v) c' else if rc =? 1 then Ends c' else Unspecified
      end
  | OpExpect f p cond count =>
      if count_fits count then
        Goes 0 (mkClient (cl_returns c) (tree_add 2 [f; p] cond count (cl_params c)) (cl_calls c) (cl_blocks c))
      else Unspecified
  | OpCheck f p value =>
      match tree_get 2 [f; p] (cl_params c) with
      | None => Ends c
      | Some (_, cond, u) =>
          let c' := mkClient (cl_returns c) u (cl_calls c) (cl_blocks c) in
          if condition_holds cond value then Goes 0 c' else Ends c'
      end
  | OpExpectCall f count =>
      if count_fits count then
        Goes 0 (mkClient (cl_returns c) (cl_params c)
                  (cl_calls c ++ [(mkFuncOrderingValue (mkSourceLocation (Some CLIENT_C) lno) f, count)]) (cl_blocks c))
      else Unspecified
  | OpCalled f =>
      match call_step f (cl_calls c) with
      | None => Ends c
      | Some q => Goes 0 (mkClient (cl_returns c) (cl_params c) q (cl_blocks c))
      end
  | OpAssert ok => if ok then Goes 0 c else Ends c
  | OpMalloc n =>
      if (0 <=? n) && (n + OVERHEAD <=? SIZE_MAX) then
        Goes (Z.of_nat (length (cl_blocks c)))
          (mkClient (cl_returns c) (cl_params c) (cl_calls c) (cl_blocks c ++ [(n, true)]))
      else Unspecified
  | OpWrite i offset value => write_reply c i offset value
  | OpFree i =>
      match cl_blocks c !! i with
      | None => Unspecified
      | Some (_, intact) =>
          if (intact : bool) then Goes 0 (mkClient (cl_returns c) (cl_params c) (cl_calls c) (delete i (cl_blocks c)))
          else Ends c
      end
  end.

(** Nothing that must be used up is left of the expectations. *)
Definition all_used (c : client) : bool :=
  tree_is_nil (tree_remove_always 1 (cl_returns c)) && tree_is_nil (tree_remove_always 2 (cl_params c)) &&
  tree_is_nil (n:=0) (List.filter (fun e => negb (e.2 <? -1)) (cl_calls c)).
Definition has_blocks (c : client) : bool := negb (bool_decide (cl_blocks c = [])).

(** The status of the test, and whether blocks remain after it. *)
Fixpoint verdict_of (p : program) (c : client) : option (CMUnitTestStatus * bool) :=
  match p with
  | Return =>
      if forallb snd (cl_blocks c) then Some (verdict (negb (has_blocks c) && all_used c), false) else None
  | CallFail _ => Some (CM_TEST_FAILED, has_blocks c)
  | CallSkip _ => Some (CM_TEST_SKIPPED, has_blocks c)
  | CallStop => Some (verdict (all_used c), has_blocks c)
  | Step lno o k =>
      match respond lno o c with
      | Goes r c' => verdict_of (k r) c'
      | Ends c' => Some (CM_TEST_FAILED, has_blocks c')
      | Unspecified => None
      end
  end.
