(* ===== verification/ProgramProofs.v ===== *)
(** * Programs run as promised

    The simulation behind ProgramTheorems.v: the memory of a running program
    represents the state [client] of its specification, and every operation
    keeps it so. *)
From S2P Require Import Prelude CMonad CString ListNode World Report Memory SymbolMap Tree SymbolTree SymbolGet SymbolAdd Mock FloatCompare Compare Checks Asserts CompareProofs CheckSpec Alloc AllocBytes AllocProofs AllocOps AllocTheorems AllocLeaks Output OutputProofs Runner Api Frame MockSpec MockProofs ParamProofs RunnerProofs TestContract TestRun GroupProofs ClientSupport Programs.

Lemma Forall2_impl_in {A B} (P Q : A -> B -> Prop) l k :
  Forall2 P l k -> (forall x y, x ∈ l -> P x y -> Q x y) -> Forall2 Q l k.
Proof.
  intros Hl. induction Hl as [|x y l k Hxy Hl IH]; intros HPQ; constructor.
  - apply HPQ; [by left|done].
  - apply IH. intros x' y' Hx'. apply HPQ. by right.
Qed.

(** The check [b] in memory checks [c]. *)
Definition checks_for (b : Block) (c : condition) : Prop :=
  is_Some (block_event b) /\ forall mem v, check_passes mem b v = Some (condition_holds c v).

(** The expectations [a] are those of [c]. *)
Record meets (c : client) (a : expectations) : Prop := {
  me_returns : returns a = cl_returns c;
  me_params : tree_rel checks_for 2 (params a) (cl_params c);
  me_calls : calls a = cl_calls c;
}.

(** The block of [b.1] bytes at [p], with intact guards or not. *)
Definition holds_block (w : World) (p : ptr) (b : Z * bool) : Prop :=
  exists block loc, live w (header_of p) block b.1 loc /\ (guards_intact w (header_of p) b.1 <-> b.2 = true).

Section proofs.
Context `{!Platform, !PlatformLaws, !PlatformTotal}.
Implicit Types (w : World) (a : expectations) (hs : list ptr) (c : client) (ps : list ptr).

(** The test that started in [w0] with the blocks [hs] has come to [w]. *)
Record running w0 hs w c ps : Prop := {
  rn_memory : exists a, meets c a /\ consistent w a (hs ++ (header_of <$> ps));
  rn_run : same_run w0 w;
  rn_blocks : Forall2 (holds_block w) ps (cl_blocks c);
  rn_returns : counts_valid 1 (cl_returns c);
  rn_params : counts_valid 2 (cl_params c);
}.

(** ** Blocks *)

(** Guards where the memory agrees. *)
Lemma guards_agree w w' h n : 0 <= n ->
  (forall x, in_range (h + SIZEOF_MALLOCBLOCKINFODATA) (n + 2 * MALLOC_GUARD_SIZE) x -> bytes w' !! x = bytes w !! x) ->
  guards_intact w' h n <-> guards_intact w h n.
Proof.
  intros Hn Hb. unfold guards_intact, filled, in_range, MALLOC_GUARD_SIZE in *.
  split; intros [G1 G2]; (split; intros x Hx; [specialize (G1 x Hx)|specialize (G2 x Hx)]);
    (rewrite Hb in * by lia || rewrite Hb by lia); done.
Qed.

(** A block in a state where it is live and its bytes are as before. *)
Lemma holds_block_agree w w' p b :
  (forall block loc, live w (header_of p) block b.1 loc -> live w' (header_of p) block b.1 loc /\
     forall x, in_range (header_of p + SIZEOF_MALLOCBLOCKINFODATA) (b.1 + 2 * MALLOC_GUARD_SIZE) x -> bytes w' !! x = bytes w !! x) ->
  holds_block w p b -> holds_block w' p b.
Proof.
  intros Hall (block & loc & Hl & Hg). destruct (Hall block loc Hl) as [Hl' Hb]. exists block, loc. split; [done|].
  rewrite <-Hg. apply guards_agree; [by eapply lv_size|done].
Qed.

Lemma holds_block_kept w w' p b : heap_kept w w' -> holds_block w p b -> holds_block w' p b.
Proof.
  intros (Hr & Hy & Hk). apply holds_block_agree. intros block loc Hl. split; [|by rewrite Hy].
  pose proof (lv_place _ _ _ _ _ Hl). pose proof (lv_meta _ _ _ _ _ Hl) as Hm.
  destruct (Hk (header_of p)) as [Eb Ei].
  { right. split; [lia|]. split; [apply Hl|]. destruct (infos w !! header_of p); [eauto|done]. }
  eapply live_frame; [exact Hl|by rewrite Eb; apply Hl|done|by rewrite Hr|by rewrite Hy].
Qed.

Lemma blocks_kept_by w w' ps bs : heap_kept w w' -> Forall2 (holds_block w) ps bs -> Forall2 (holds_block w') ps bs.
Proof. intros Hk Hb. eapply Forall2_impl; [exact Hb|]. intros p b. by apply holds_block_kept. Qed.

(** What writing a byte means for the guards. *)
Lemma guards_outside w p n offset value : in_range 0 n offset ->
  guards_intact (set_bytes (write_bytes (p + offset) [value] (bytes w)) w) (header_of p) n <-> guards_intact w (header_of p) n.
Proof.
  unfold guards_intact, filled, in_range, header_of, MALLOC_GUARD_SIZE, SIZEOF_MALLOCBLOCKINFODATA. cbn. intros Ho.
  split; intros [G1 G2]; (split; intros x Hx; [specialize (G1 x Hx)|specialize (G2 x Hx)]);
    rewrite lookup_insert_ne in * by lia; done.
Qed.

Lemma guards_pattern w p n offset :
  guards_intact w (header_of p) n ->
  guards_intact (set_bytes (write_bytes (p + offset) [MALLOC_GUARD_PATTERN] (bytes w)) w) (header_of p) n.
Proof.
  intros [G1 G2]. split; intros x Hx; cbn; (destruct (decide (p + offset = x)) as [->|];
    [by rewrite lookup_insert_eq|rewrite lookup_insert_ne by done; auto]).
Qed.

Lemma guards_written w p n offset value :
  - MALLOC_GUARD_SIZE <= offset < 0 \/ n <= offset < n + MALLOC_GUARD_SIZE -> value <> MALLOC_GUARD_PATTERN ->
  ~ guards_intact (set_bytes (write_bytes (p + offset) [value] (bytes w)) w) (header_of p) n.
Proof.
  intros Ho Hne [G1 G2]. cbn in G1, G2. unfold filled, in_range, header_of, MALLOC_GUARD_SIZE, SIZEOF_MALLOCBLOCKINFODATA in *.
  apply Hne. destruct Ho; [specialize (G1 (p + offset) ltac:(lia))|specialize (G2 (p + offset) ltac:(lia))];
    cbn in *; rewrite lookup_insert_eq in *; congruence.
Qed.

(** The guards and the user memory lie in the region of the block. *)
Lemma user_in_region w h block n loc x :
  live w h block n loc -> in_range (h + SIZEOF_MALLOCBLOCKINFODATA) (n + 2 * MALLOC_GUARD_SIZE) x ->
  in_range block (n + OVERHEAD) x.
Proof.
  intros Hl. pose proof (lv_place _ _ _ _ _ Hl). pose proof (lv_size _ _ _ _ _ Hl).
  unfold in_range, OVERHEAD, MALLOC_GUARD_SIZE, SIZEOF_MALLOCBLOCKINFODATA. lia.
Qed.

(** A block in a state that differs only in the region of another one. *)
Lemma holds_block_apart w w' hs p q block n loc b :
  heap w hs -> header_of p ∈ hs -> header_of q ∈ hs -> p <> q -> live w (header_of q) block n loc ->
  (forall block' n' l, live w (header_of p) block' n' l -> live w' (header_of p) block' n' l) ->
  (forall x, ~ in_range block (n + OVERHEAD) x -> bytes w' !! x = bytes w !! x) ->
  holds_block w p b -> holds_block w' p b.
Proof.
  intros Hh Hp Hq Hne Hlq Hlive Hb. apply holds_block_agree. intros block' l Hl. split; [by apply Hlive|].
  intros x Hx. apply Hb. eapply (live_apart w hs (header_of p) (header_of q)); [done..| |done|done|].
  - unfold header_of. lia.
  - by eapply user_in_region.
Qed.

Lemma header_in hs ps i p : ps !! i = Some p -> header_of p ∈ hs ++ (header_of <$> ps).
Proof. intros Hi. apply elem_of_app. right. apply list_elem_of_fmap_2. by eapply list_elem_of_lookup_2. Qed.

(** The blocks are different ones. *)
Lemma blocks_distinct w hs ps : heap w (hs ++ (header_of <$> ps)) -> NoDup ps.
Proof.
  intros Hh. pose proof (proj1 (hp_list _ _ Hh)) as Hnd. rewrite addrs_headers in Hnd.
  apply NoDup_cons in Hnd as [_ Hnd]. apply NoDup_app in Hnd as (_ & _ & Hnd). by eapply NoDup_fmap_1.
Qed.

(** ** Operations on expectations *)

(** What follows for the rest of the state from an operation on expectations. *)
Lemma running_kept w0 hs w w' c c' ps a' :
  running w0 hs w c ps -> kept w w' -> cl_blocks c' = cl_blocks c -> meets c' a' -> mocks w' a' ->
  counts_valid 1 (cl_returns c') -> counts_valid 2 (cl_params c') -> running w0 hs w' c' ps.
Proof.
  intros [ (a & _ & Hcs) Hr Hb _ _] Hkept E Hme Hm C1 C2. destruct (Hkept) as (Hk & _ & Hc). split; [|etrans; [exact Hr|]| |done..].
  - exists a'. split; [done|]. by eapply consistent_kept.
  - unfold calm in Hc. unfold same_run, same_control. destruct_and?. by split_and!.
  - rewrite E. by apply (blocks_kept_by w).
Qed.

Lemma running_quiet w0 hs w w' c ps : running w0 hs w c ps -> quiet w w' -> running w0 hs w' c ps.
Proof.
  intros Hrun Hq. destruct (rn_memory _ _ _ _ _ Hrun) as (a & Hme & Hc).
  eapply running_kept; [exact Hrun|by apply kept_quiet|done|exact Hme| |apply Hrun|apply Hrun].
  eapply mocks_same_mem; [by apply quiet_same_mem|apply Hc].
Qed.
(** ** The answers of the library *)

(** The operation ends in the state its specification says. *)
Definition answers w0 hs w c ps lno o : Prop :=
  match respond lno o c with
  | Goes r c' => exists w' ps', perform lno o ps w = (Ret (r, ps'), w') /\ running w0 hs w' c' ps'
  | Ends c' => exists w', perform lno o ps w = (LongJmp, w') /\ running w0 hs w' c' ps
  | Unspecified => True
  end.

Section step.
Context (w0 : World) (hs : list ptr) (Hw0 : started w0 hs).

Lemma running_jumps {A} w c ps : running w0 hs w c ps -> @exit_outcome A w = LongJmp.
Proof.
  intros [_ Hr _ _ _]. apply exit_jumps; [by eapply undisturbed_run, Hw0|]. rewrite (proj2 Hr). apply Hw0.
Qed.

(** A call that ends the test, without touching more than messages. *)
Lemma ends_quietly {A} (m : CM A) w c ps (k : A -> CM (Z * list ptr)) :
  running w0 hs w c ps -> (exists w', m w = (exit_outcome w, w') /\ quiet w w') ->
  exists w', (m ≫= k) w = (LongJmp, w') /\ running w0 hs w' c ps.
Proof.
  intros Hrun (w' & R & Q). exists w'. split; [|by eapply running_quiet].
  rewrite bind_eq, R. by rewrite (running_jumps w c ps Hrun).
Qed.

Lemma ends_kept {A} (m : CM A) w w' c c' ps a' (k : A -> CM (Z * list ptr)) :
  running w0 hs w c ps -> m w = (exit_outcome w, w') -> kept w w' -> cl_blocks c' = cl_blocks c ->
  meets c' a' -> mocks w' a' -> counts_valid 1 (cl_returns c') -> counts_valid 2 (cl_params c') ->
  exists w', (m ≫= k) w = (LongJmp, w') /\ running w0 hs w' c' ps.
Proof.
  intros Hrun R Hk Hb Hme Hm C1 C2. exists w'. split; [|by eapply running_kept].
  rewrite bind_eq, R. by rewrite (running_jumps w c ps Hrun).
Qed.

Lemma goes_kept {A} (m : CM A) (x : A) w w' c c' ps a' (k : A -> CM (Z * list ptr)) r :
  running w0 hs w c ps -> m w = (Ret x, w') -> k x w' = (Ret (r, ps), w') -> kept w w' -> cl_blocks c' = cl_blocks c ->
  meets c' a' -> mocks w' a' -> counts_valid 1 (cl_returns c') -> counts_valid 2 (cl_params c') ->
  exists w' ps', (m ≫= k) w = (Ret (r, ps'), w') /\ running w0 hs w' c' ps'.
Proof.
  intros Hrun R Rk Hk Hb Hme Hm C1 C2. exists w', ps. split; [|by eapply running_kept]. by rewrite (bind_run _ _ _ _ _ R).
Qed.

Lemma count_fits_spec count : count_fits count = true -> INT_MIN < count < 2 ^ 31 /\ count <> 0.
Proof. unfold count_fits. intros [ [Hlo Hhi]%andb_true_iff Hz]%andb_true_iff. zbool. apply negb_true_iff in Hz. zbool. lia. Qed.

Lemma will_return_answers w c ps lno f name value count :
  running w0 hs w c ps -> answers w0 hs w c ps lno (OpWillReturn f name value count).
Proof.
  intros Hrun. unfold answers. cbn [respond]. destruct (count_fits count) eqn:Hc; [|done].
  apply count_fits_spec in Hc as [Hr Hz]. destruct (rn_memory _ _ _ _ _ Hrun) as (a & [Er Ep Ec] & [Hm _ _ _]).
  destruct (will_return_spec w a f (Some CLIENT_C) lno name value count Hm Hz) as (w' & R & Hm' & Ht).
  eapply goes_kept; [exact Hrun|exact R|done|by apply typed_only_kept|done| |exact Hm'| |apply Hrun].
  - split; cbn; [by rewrite Er|done|done].
  - apply (counts_valid_add 1); [lia|done|apply Hrun].
Qed.

Lemma mock_answers w c ps lno f name : running w0 hs w c ps -> answers w0 hs w c ps lno (OpMock f name).
Proof.
  intros Hrun. unfold answers. cbn [respond]. destruct (rn_memory _ _ _ _ _ Hrun) as (a & [Er Ep Ec] & [Hm _ _ _]).
  pose proof (rn_returns _ _ _ _ _ Hrun) as Hc. rewrite <-Er in Hc |- *.
  pose proof (counts_valid_refcounts 1 _ Hc) as Hrc.
  destruct (tree_get 1 [f] (returns a)) as [ [ [rc v] u]|] eqn:Hget.
  - destruct (counts_valid_get 1 _ _ _ _ _ Hc Hget) as [Hz Hu].
    destruct (name_matches name v) eqn:Hn; [|destruct (rc =? 1) eqn:Hone; zbool; [|done] ].
    + destruct (mock_value_spec w a f (Some CLIENT_C) lno name rc v u Hm Hrc Hget Hz Hn) as (w' & R & Hm' & _ & Hk).
      eapply goes_kept; [exact Hrun|exact R|done|done|done| |exact Hm'|exact Hu|apply Hrun]. by split.
    + destruct (mock_mismatch_spec w a f (Some CLIENT_C) lno name rc v u Hm Hrc Hget Hz Hn) as (w' & R & Hm' & Hk & _).
      eapply ends_kept; [exact Hrun|exact R|done|done| |by apply Hm'|exact Hu|apply Hrun]. by split.
  - apply ends_quietly; [done|]. by apply mock_no_value_spec with (a := a).
Qed.

Lemma declare_expected_spec w a lno f p cond count : mocks w a ->
  exists w' b, declare_expected lno f p cond count w = (Ret tt, w') /\ checks_for b cond /\
    mocks w' (add_param f p b count a) /\ typed_only w w'.
Proof.
  intros Hm.
  assert (forall fn data, (forall mem v, check_passes mem (BCheckParameterEvent
      (mkCheckParameterEvent (mkSourceLocation (Some CLIENT_C) lno) p fn data)) v = Some (condition_holds cond v)) ->
    exists w' b, _expect_check f p (Some CLIENT_C) lno fn data NULL count w = (Ret tt, w') /\ checks_for b cond /\
      mocks w' (add_param f p b count a) /\ typed_only w w') as Hplain.
  { intros fn data Hok. destruct (expect_check_plain w a f p (Some CLIENT_C) lno fn data count Hm) as (w' & R & Hm' & Ht).
    eexists w', _. split_and!; [exact R| |exact Hm'|done]. split; [by eexists|exact Hok]. }
  destruct cond; by apply Hplain.
Qed.

Lemma expect_answers w c ps lno f p cond count :
  running w0 hs w c ps -> answers w0 hs w c ps lno (OpExpect f p cond count).
Proof.
  intros Hrun. unfold answers. cbn [respond]. destruct (count_fits count) eqn:Hc; [|done].
  destruct (rn_memory _ _ _ _ _ Hrun) as (a & [Er Ep Ec] & [Hm _ _ _]).
  destruct (declare_expected_spec w a lno f p cond count Hm) as (w' & b & R & Hb & Hm' & Ht).
  eapply goes_kept; [exact Hrun|exact R|done|by apply typed_only_kept|done| |exact Hm'|apply Hrun|].
  - split; [done| |done]. by apply (tree_rel_add checks_for 2).
  - apply count_fits_spec in Hc as [? ?]. apply (counts_valid_add 2); [lia|done|apply Hrun].
Qed.

Lemma check_answers w c ps lno f p value : running w0 hs w c ps -> answers w0 hs w c ps lno (OpCheck f p value).
Proof.
  intros Hrun. unfold answers. cbn [respond]. destruct (rn_memory _ _ _ _ _ Hrun) as (a & [Er Ep Ec] & [Hm _ _ _]).
  pose proof (rn_params _ _ _ _ _ Hrun) as Hc.
  pose proof (tree_rel_refcounts _ 2 _ _ Ep (counts_valid_refcounts 2 _ Hc)) as Hrc.
  pose proof (tree_rel_get _ 2 [f; p] _ _ Ep) as Hg. unfold get_rel in Hg.
  destruct (tree_get 2 [f; p] (params a)) as [ [ [rc b] q]|] eqn:Ha,
    (tree_get 2 [f; p] (cl_params c)) as [ [ [rc' cond] u]|] eqn:Hget; try done.
  - destruct Hg as (-> & [ [e He] Hok] & Hq). destruct (counts_valid_get 2 _ _ _ _ _ Hc Hget) as [Hz Hu].
    destruct (check_expected_spec w a f p (Some CLIENT_C) lno value rc' b q (condition_holds cond value) e Hm Hrc Ha Hz He (Hok _ _))
      as (w' & R & Hm' & _ & Hk). destruct (condition_holds cond value).
    + eapply goes_kept; [exact Hrun|exact R|done|done|done| |exact Hm'|apply Hrun|exact Hu]. by split.
    + eapply ends_kept; [exact Hrun|exact R|done|done| |exact Hm'|apply Hrun|exact Hu]. by split.
  - apply ends_quietly; [done|]. by apply check_expected_none with (a := a).
Qed.

Lemma expect_call_answers w c ps lno f count : running w0 hs w c ps -> answers w0 hs w c ps lno (OpExpectCall f count).
Proof.
  intros Hrun. unfold answers. cbn [respond]. destruct (count_fits count) eqn:Hc; [|done].
  apply count_fits_spec in Hc as [Hr Hz]. destruct (rn_memory _ _ _ _ _ Hrun) as (a & [Er Ep Ec] & [Hm _ _ _]).
  destruct (expect_function_call_spec w a f CLIENT_C lno count Hm Hz) as (w' & R & Hm' & Ht).
  eapply goes_kept; [exact Hrun|exact R|done|by apply typed_only_kept|done| |exact Hm'|apply Hrun|apply Hrun].
  split; cbn; [done|done|by rewrite Ec].
Qed.

Lemma called_answers w c ps lno f : running w0 hs w c ps -> answers w0 hs w c ps lno (OpCalled f).
Proof.
  intros Hrun. unfold answers. cbn [respond]. destruct (rn_memory _ _ _ _ _ Hrun) as (a & [Er Ep Ec] & [Hm _ _ _]).
  pose proof (function_called_spec w a f (Some CLIENT_C) lno Hm) as Hs. rewrite <-Ec. destruct (call_step f (calls a)) as [q|].
  - destruct Hs as (w' & R & Hm' & Hk).
    eapply goes_kept; [exact Hrun|exact R|done|done|done| |exact Hm'|apply Hrun|apply Hrun]. by split.
  - by apply ends_quietly.
Qed.

Lemma assert_answers w c ps lno ok : running w0 hs w c ps -> answers w0 hs w c ps lno (OpAssert ok).
Proof.
  intros Hrun. unfold answers. cbn [respond]. destruct ok.
  - by exists w, ps.
  - apply ends_quietly; [done|]. cbn [Z.b2z]. apply (prints_then_fail (cmocka_print_error _)). apply prints_cmocka_print_error.
Qed.

(** ** Operations on blocks *)

Lemma running_memory w w' c c' ps ps' a :
  running w0 hs w c ps -> memory_only w w' -> meets c a -> consistent w' a (hs ++ (header_of <$> ps')) ->
  Forall2 (holds_block w') ps' (cl_blocks c') ->
  cl_returns c' = cl_returns c -> cl_params c' = cl_params c -> cl_calls c' = cl_calls c ->
  running w0 hs w' c' ps'.
Proof.
  intros [_ Hr _ C1 C2] Hm [Er Ep Ec] Hc Hb E1 E2 E3. split; rewrite ?E1, ?E2; [|etrans; [exact Hr|by apply same_run_memory]|done..].
  exists a. split; [|done]. by split; rewrite ?E1, ?E2, ?E3.
Qed.

Lemma malloc_answers w c ps lno n : running w0 hs w c ps -> answers w0 hs w c ps lno (OpMalloc n).
Proof.
  intros Hrun. unfold answers. cbn [respond]. destruct ((0 <=? n) && (n + OVERHEAD <=? SIZE_MAX)) eqn:Hn; [|done].
  apply andb_true_iff in Hn as [Hn Hmax]. zbool. destruct (rn_memory _ _ _ _ _ Hrun) as (a & Hme & Hc).
  destruct (malloc_run w _ n (Some CLIENT_C) lno (cs_heap _ _ _ Hc) Hn Hmax) as (p & w' & R & _ & Ha); [apply plat_malloc_total|].
  pose proof (Forall2_length _ _ _ (rn_blocks _ _ _ _ _ Hrun)) as Hlen.
  exists w', (ps ++ [p]). split; [cbn [perform]; mrun R; by rewrite Hlen|].
  eapply running_memory; [exact Hrun|apply Ha|exact Hme| | |done..].
  - rewrite fmap_app, app_assoc. by eapply consistent_allocated.
  - apply Forall2_app.
    + eapply Forall2_impl; [apply Hrun|]. intros q b. apply holds_block_agree. intros block l Hl.
      split; [by apply (al_old _ _ _ _ _ _ Ha)|]. intros x Hx. by apply (al_bytes _ _ _ _ _ _ Ha), (lv_bytes _ _ _ _ _ Hl).
    + constructor; [|constructor]. destruct (al_new _ _ _ _ _ _ Ha) as [block Hl]. pose proof (al_guards _ _ _ _ _ _ Ha) as Hg.
      rewrite length_replicate, Z2Nat.id in Hl, Hg by done. by exists block, (mkSourceLocation (Some CLIENT_C) lno).
Qed.

(** Writing a byte into the block or its guards. *)
Lemma write_run w c ps i p n b offset value intact :
  running w0 hs w c ps -> ps !! i = Some p -> cl_blocks c !! i = Some (n, b) -> 0 <= value < 256 ->
  - MALLOC_GUARD_SIZE <= offset < n + MALLOC_GUARD_SIZE ->
  (guards_intact (set_bytes (write_bytes (p + offset) [value] (bytes w)) w) (header_of p) n <-> intact = true) ->
  exists w', store_bytes (p + offset) [value] w = (Ret tt, w') /\
    running w0 hs w' (mkClient (cl_returns c) (cl_params c) (cl_calls c) (<[i := (n, intact)]> (cl_blocks c))) ps.
Proof.
  intros Hrun Hp Hb Hv Ho Hg. destruct (rn_memory _ _ _ _ _ Hrun) as (a & Hme & Hc).
  pose proof (proj1 (Forall2_lookup _ _ _) (rn_blocks _ _ _ _ _ Hrun)) as Hall.
  pose proof (Hall i) as Hi. rewrite Hp, Hb in Hi. inversion Hi as [? ? (block & loc & Hl & _)|]; subst. cbn [fst] in Hl.
  assert (in_range (header_of p + SIZEOF_MALLOCBLOCKINFODATA) (n + 2 * MALLOC_GUARD_SIZE) (p + offset)) as Hin.
  { unfold in_range, header_of, MALLOC_GUARD_SIZE, SIZEOF_MALLOCBLOCKINFODATA in *. lia. }
  destruct (consistent_store w a _ (p + offset) [value] Hc) as (w' & R & Hw' & Hc' & Hl').
  { intros x Hx. replace x with (p + offset) by (unfold in_range in Hx; cbn in Hx; lia). by apply (lv_bytes _ _ _ _ _ Hl). }
  { by apply Forall_singleton. }
  exists w'. split; [done|].
  eapply running_memory; [exact Hrun|rewrite Hw'; apply memory_only_set_bytes|exact Hme|exact Hc'| |done..].
  apply Forall2_lookup. intros j. cbn [cl_blocks]. destruct (decide (i = j)) as [<-|Hne].
  - rewrite Hp, list_lookup_insert_eq by (by eapply lookup_lt_Some). constructor. exists block, loc.
    split; [by apply Hl'|]. by rewrite Hw'.
  - rewrite list_lookup_insert_ne by done. specialize (Hall j). inversion Hall as [q bj Hq Eq Eb|]; constructor.
    eapply (holds_block_apart w w' _ q p); [apply (cs_heap _ _ _ Hc)|by eapply header_in|by eapply header_in| |exact Hl| | |done].
    + intros ->. apply Hne. eapply NoDup_lookup; [by eapply blocks_distinct, (cs_heap _ _ _ Hc)|done|done].
    + intros block' n' l. apply Hl'.
    + intros x Hx. rewrite Hw'. cbn. rewrite lookup_insert_ne; [done|]. intros <-. apply Hx. by eapply user_in_region.
Qed.

Lemma write_answers w c ps lno i offset value : running w0 hs w c ps -> answers w0 hs w c ps lno (OpWrite i offset value).
Proof.
  intros Hrun. unfold answers. cbn [respond]. unfold write_reply. destruct (cl_blocks c !! i) as [ [n b]|] eqn:Hb; [|done].
  pose proof (proj1 (Forall2_lookup _ _ _) (rn_blocks _ _ _ _ _ Hrun) i) as Hi. rewrite Hb in Hi.
  inversion Hi as [p ? (block & loc & Hl & Hg) Hp|]; subst. cbn [fst snd] in Hl, Hg. symmetry in Hp.
  destruct ((0 <=? value) && (value <? 256)) eqn:Hv; cbn [negb]; [|done]. apply andb_true_iff in Hv as [Hv1 Hv2]. zbool.
  assert (forall intact, - MALLOC_GUARD_SIZE <= offset < n + MALLOC_GUARD_SIZE ->
    (guards_intact (set_bytes (write_bytes (p + offset) [value] (bytes w)) w) (header_of p) n <-> intact = true) ->
    exists w' ps', perform lno (OpWrite i offset value) ps w = (Ret (0, ps'), w') /\
      running w0 hs w' (mkClient (cl_returns c) (cl_params c) (cl_calls c) (<[i := (n, intact)]> (cl_blocks c))) ps') as Hw.
  { intros intact Ho Hi'. destruct (write_run w c ps i p n b offset value intact Hrun Hp Hb ltac:(lia) Ho Hi') as (w' & R & Hr).
    exists w', ps. split; [|done]. cbn [perform].
    assert (forall A (k : ptr -> CM A), (q ← deref (fun _ => ps !! i); k q) w = k p w) as Rd.
    { intros A k. rewrite (bind_run _ _ w p w); [done|]. by apply deref_run. }
    rewrite Rd. by mrun R. }
  assert (mkClient (cl_returns c) (cl_params c) (cl_calls c) (<[i := (n, b)]> (cl_blocks c)) = c) as Eid.
  { rewrite list_insert_id by done. by destruct c. }
  pose proof (lv_size _ _ _ _ _ Hl).
  destruct ((0 <=? offset) && (offset <? n)) eqn:Hin.
  { apply andb_true_iff in Hin as [Hin1 Hin2]. zbool. rewrite <-Eid. apply Hw; [unfold MALLOC_GUARD_SIZE; lia|].
    rewrite <-Hg. apply guards_outside. unfold in_range. lia. }
  destruct ((- MALLOC_GUARD_SIZE <=? offset) && (offset <? n + MALLOC_GUARD_SIZE)) eqn:Hgd; [|done].
  apply andb_true_iff in Hgd as [Hg1 Hg2]. apply andb_false_iff in Hin. zbool.
  destruct (value =? MALLOC_GUARD_PATTERN) eqn:Hpat; cbn [negb]; zbool.
  - destruct b; [|done]. rewrite <-Eid. apply Hw; [lia|]. split; [done|]. intros _.
    rewrite Hpat. by apply guards_pattern, Hg.
  - apply Hw; [lia|]. split; [|done]. intros Hi'. exfalso. eapply guards_written; [|exact Hpat|exact Hi'].
    destruct Hin; zbool; lia.
Qed.

(** Releasing a block whose guards are intact, or not. *)
Lemma free_answers w c ps lno i : running w0 hs w c ps -> answers w0 hs w c ps lno (OpFree i).
Proof.
  intros Hrun. unfold answers. cbn [respond]. destruct (cl_blocks c !! i) as [ [n b]|] eqn:Hb; [|done].
  pose proof (proj1 (Forall2_lookup _ _ _) (rn_blocks _ _ _ _ _ Hrun) i) as Hi. rewrite Hb in Hi.
  inversion Hi as [p ? (block & loc & Hl & Hg) Hp|]; subst. cbn [fst snd] in Hl, Hg. symmetry in Hp.
  destruct (rn_memory _ _ _ _ _ Hrun) as (a & Hme & Hc).
  assert (forall A (k : ptr -> CM A), (q ← deref (fun _ => ps !! i); k q) w = k p w) as Rd.
  { intros A k. rewrite (bind_run _ _ w p w); [done|]. by apply deref_run. }
  cbn [perform]. rewrite Rd. pose proof (user_header p) as Hu. destruct b.
  - set (hs1 := hs ++ (header_of <$> take i ps)). set (hs2 := header_of <$> skipn (S i) ps).
    assert (hs ++ (header_of <$> ps) = hs1 ++ header_of p :: hs2) as E.
    { unfold hs1, hs2. rewrite <-(take_drop_middle ps i p Hp) at 1. by rewrite fmap_app, fmap_cons, app_assoc. }
    assert (hs ++ (header_of <$> delete i ps) = hs1 ++ hs2) as E'.
    { unfold hs1, hs2. by rewrite delete_take_drop, fmap_app, app_assoc. }
    pose proof (cs_heap _ _ _ Hc) as Hh. rewrite E in Hh.
    destruct (test_free_run w hs1 (header_of p) hs2 block n loc (Some CLIENT_C) lno Hh Hl (cs_bytes _ _ _ Hc)) as (w' & R & Hf);
      [by apply Hg|]. rewrite Hu in R. exists w', (delete i ps). split; [by mrun R|].
    eapply running_memory; [exact Hrun|apply Hf|exact Hme| | |done..].
    + rewrite E'. by eapply consistent_freed.
    + apply (Forall2_impl_in (holds_block w)); [by apply Forall2_delete, Hrun|]. intros q bq Hq.
      pose proof (blocks_distinct _ _ _ (cs_heap _ _ _ Hc)) as Hnd.
      assert (header_of q ∈ hs1 ++ hs2) as Hq'.
      { rewrite <-E', elem_of_app. right. by apply list_elem_of_fmap_2. }
      apply (holds_block_apart w w' _ q p block n loc bq Hh).
      * apply elem_of_app in Hq' as [?|?]; apply elem_of_app; [by left|by right; right].
      * apply elem_of_app. right. by left.
      * intros ->. rewrite delete_take_drop in Hq. rewrite <-(take_drop_middle ps i p Hp) in Hnd.
        apply NoDup_app_cons_middle in Hnd as (N1 & N2 & _). by apply elem_of_app in Hq as [?|?].
      * exact Hl.
      * intros block' n' l. by apply (fr_live _ _ _ _ _ _ Hf).
      * intros x Hx. by rewrite (fr_bytes _ _ _ _ _ _ Hf), decide_False.
  - apply ends_quietly; [done|]. rewrite <-Hu. eapply test_free_corrupt; [exact Hl|apply Hc|]. by intros [=]%Hg.
Qed.

(** The library answers every operation as specified. *)
Lemma library_answers w c ps lno o : running w0 hs w c ps -> answers w0 hs w c ps lno o.
Proof.
  destruct o.
  - apply will_return_answers.
  - apply mock_answers.
  - apply expect_answers.
  - apply check_answers.
  - apply expect_call_answers.
  - apply called_answers.
  - apply assert_answers.
  - apply malloc_answers.
  - apply write_answers.
  - apply free_answers.
Qed.
End step.
End proofs.
