(* ===== verification/ProgramTheorems.v ===== *)
(** * Test programs get the verdicts of their specification

    From the start of a program to the status the runner gives it, and a whole
    group of such tests. *)
From S2P Require Import Prelude CMonad CString ListNode World TestPlatform Report Memory SymbolMap Tree SymbolTree Mock FloatCompare Compare Checks Alloc AllocProofs AllocOps AllocLeaks Output OutputProofs Runner Api Frame MockSpec MockProofs RunnerProofs TestContract TestRun GroupProofs RunnerTheorems GroupTheorems ClientSupport Programs ProgramProofs.

Section theorems.
Context `{!Platform, !PlatformLaws, !PlatformTotal}.
Implicit Types (w : World) (a : expectations) (hs : list ptr) (c : client) (ps : list ptr).

(** Nothing is left of the expectations exactly when the specification says so. *)
Lemma meets_all_used c a : meets c a -> nothing_left (leftover a) = all_used c.
Proof.
  intros [Er Ep Ec]. unfold nothing_left, leftover, all_used. cbn [returns params calls].
  rewrite Er, Ec. by rewrite (tree_rel_is_nil _ 2 _ _ (tree_rel_remove_always _ 2 _ _ Ep)).
Qed.

Section test.
Context (addr : ptr) (w0 : World) (hs : list ptr) (Hw0 : started w0 hs).

(** The computation [m] ends in [w4] as a test function may end. *)
Definition finishes (m : CM unit) w hs2 xs (s : CMUnitTestStatus) w4 : Prop :=
  exists a, left w0 w4 addr a (hs ++ hs2) /\
    ((m w = (Ret tt, w4) /\ undisturbed w4 /\ all_intact w4 hs2 /\ xs = [] /\
      s = verdict (bool_decide (hs2 = []) && nothing_left (leftover a))) \/
     (m w = (LongJmp, w4) /\ xs = hs2 /\ s = jump_verdict w4 a /\ (s = CM_TEST_PASSED -> global_skip_test w4 = 0))).

Lemma running_left w c ps : running w0 hs w c ps ->
  exists a, meets c a /\ left w0 w addr a (hs ++ (header_of <$> ps)) /\ undisturbed w.
Proof.
  intros [ (a & Hme & Hc) Hr _ _ _]. exists a. split_and!; [done|by apply left_same, Hc; [|apply Hw0]|].
  by eapply undisturbed_run, Hw0.
Qed.

Lemma running_no_blocks w c ps : running w0 hs w c ps -> bool_decide (header_of <$> ps = []) = bool_decide (cl_blocks c = []).
Proof. intros [_ _ Hb _ _]. by destruct Hb. Qed.

Lemma running_remain w c ps : running w0 hs w c ps -> remain (has_blocks c) (header_of <$> ps).
Proof. intros Hrun. unfold remain, has_blocks. by rewrite (running_no_blocks _ _ _ Hrun). Qed.

(** The program jumps out, without [skip] or [stop]. *)
Lemma jump_finishes m w w4 c ps : running w0 hs w4 c ps -> m w = (LongJmp, w4) ->
  finishes m w (header_of <$> ps) (header_of <$> ps) CM_TEST_FAILED w4.
Proof.
  intros Hrun R. destruct (running_left w4 c ps Hrun) as (a & _ & Hl & Hu). exists a. split; [done|]. right.
  split_and!; [done|done|by rewrite jump_fails|done].
Qed.

(** ... with one of them, which set a flag before they jump. *)
Lemma flag_finishes m w w1 w2 c ps s (g : World -> World) : running w0 hs w1 c ps -> quiet (g w1) w2 -> m w = (exit_outcome (g w1), w2) ->
  (forall u, same_mem u (g u) /\ raw (g u) = raw u /\ bytes (g u) = bytes u /\ global_running_test (g u) = global_running_test u /\
     default_signal_functions (g u) = default_signal_functions u /\ environ (g u) = environ u /\ state_vars (g u) = state_vars u) ->
  (forall u a, undisturbed u -> meets c a -> s = jump_verdict (g u) a /\ abort_requested (g u) = false /\
     (s = CM_TEST_PASSED -> global_skip_test (g u) = 0)) ->
  finishes m w (header_of <$> ps) (header_of <$> ps) s w2.
Proof.
  intros Hrun Q R Hg Hs. destruct (running_left w1 c ps Hrun) as (a & Hme & [Hc Hr Hsig He Hv] & Hu).
  destruct (Hg w1) as (G1 & G2 & G3 & G4 & G5 & G6 & G7). destruct (Hs w1 a Hu Hme) as (E & Ha & Hp). exists a. split.
  - pose proof (consistent_same _ _ _ _ G1 G2 G3 Hc) as Hc'. pose proof (consistent_quiet _ _ _ _ Q Hc') as Hc2.
    split; [done|..]; destruct Q as (m' & e & o & k & ->); cbn; [by rewrite G4|by rewrite G5|by rewrite G6|].
    intros p Hp'. rewrite G7. by apply Hv.
  - right. split_and!; [|done|..].
    + rewrite R, exit_longjmp; [done|done|by rewrite G4].
    + by destruct Q as (m' & e & o & k & ->).
    + by destruct Q as (m' & e & o & k & ->).
Qed.

(** Every program ends with the verdict of its specification. *)
Lemma program_finishes p : forall w c ps s leaks, running w0 hs w c ps -> verdict_of p c = Some (s, leaks) ->
  exists hs2 xs w4, finishes (interp p ps) w hs2 xs s w4 /\ remain leaks xs.
Proof.
  induction p as [|lno|lno| |lno o k IH]; intros w c ps s leaks Hrun Hv; cbn [verdict_of] in Hv; cbn [interp].
  - destruct (forallb snd (cl_blocks c)) eqn:Hi; [|done]. injection Hv as <- <-.
    destruct (running_left w c ps Hrun) as (a & Hme & Hl & Hu). exists (header_of <$> ps), [], w. split; [|done].
    exists a. split; [done|]. left. split_and!; [done|done| |done|].
    + intros h b n l (p & -> & Hp)%list_elem_of_fmap Hlh. apply list_elem_of_lookup_1 in Hp as [i Hp].
      pose proof (proj1 (Forall2_lookup _ _ _) (rn_blocks _ _ _ _ _ Hrun) i) as Hb. rewrite Hp in Hb.
      inversion Hb as [q [n' intact] (b' & l' & Hl' & Hg) Eq E|]; subst. cbn [fst snd] in *.
      destruct (live_unique _ _ _ _ _ _ _ _ Hlh Hl') as (_ & -> & _). apply Hg.
      symmetry in E. apply list_elem_of_lookup_2, list_elem_of_In in E. by apply (proj1 (forallb_forall _ _) Hi _ E).
    + rewrite (meets_all_used c a Hme), (running_no_blocks _ _ _ Hrun). unfold has_blocks. by rewrite negb_involutive.
  - injection Hv as <- <-. destruct (fail_run (Some CLIENT_C) lno w) as (w' & R & Q). rewrite (running_jumps _ _ Hw0 _ _ _ Hrun) in R.
    exists (header_of <$> ps), (header_of <$> ps), w'. pose proof (running_quiet _ _ _ _ _ _ Hrun Q) as Hrun'.
    split; [by eapply jump_finishes|by eapply running_remain].
  - injection Hv as <- <-. destruct (prints_cmocka_print_error (fmt_location (Some CLIENT_C) lno +:+ ": Skipped!" +:+ nl) w) as (w1 & R1 & Q1).
    destruct (exit_test_then (libc_exit EXIT_FAILURE : CM unit) (set_global_skip_test 1 w1)) as (w2 & R2 & Q2).
    pose proof (running_quiet _ _ _ _ _ _ Hrun Q1) as Hrun1.
    exists (header_of <$> ps), (header_of <$> ps), w2. split; [|by eapply running_remain].
    eapply flag_finishes; [exact Hrun1|exact Q2| |done|].
    + unfold _skip. mrun R1. mprim. exact R2.
    + intros u a (Hk & Hs & Ha) _. unfold jump_verdict, jump_result, abort_requested in *. cbn. by rewrite Hs.
  - injection Hv as <- <-.
    destruct (exit_test_then (libc_exit EXIT_FAILURE : CM unit) (set_global_stop_test 1 w)) as (w2 & R2 & Q2).
    exists (header_of <$> ps), (header_of <$> ps), w2. split; [|by eapply running_remain].
    eapply flag_finishes; [exact Hrun|exact Q2| |done|].
    + unfold _stop. mprim. exact R2.
    + intros u a (Hk & Hs & Ha) Hme. unfold jump_verdict, jump_result. cbn. rewrite (meets_all_used c a Hme), Hk.
      split_and!; [by destruct (all_used c)|done|done].
  - pose proof (library_answers w0 hs Hw0 w c ps lno o Hrun) as Ha. unfold answers in Ha.
    destruct (respond lno o c) as [r c'|c'|]; [| |done].
    + destruct Ha as (w' & ps' & R & Hrun'). destruct (IH r w' c' ps' s leaks Hrun' Hv) as (hs2 & xs & w4 & (a & Hl & Hf) & Hr).
      exists hs2, xs, w4. split; [|done]. exists a. split; [done|]. rewrite (bind_run _ _ _ _ _ R). exact Hf.
    + injection Hv as <- <-. destruct Ha as (w' & R & Hrun'). exists (header_of <$> ps), (header_of <$> ps), w'.
      split; [|by eapply running_remain]. eapply jump_finishes; [exact Hrun'|]. by rewrite bind_eq, R.
Qed.
End test.

(** A new program. *)
Lemma running_start w hs : started w hs -> running w hs w new_client [].
Proof.
  intros Hs. split; [|done|constructor|constructor|constructor]. exists no_expectations. split.
  - split; [done|constructor|done].
  - rewrite fmap_nil, app_nil_r. apply Hs.
Qed.

Lemma program_keeps_promise t v : verdict_of t.2 new_client = Some v -> keeps_promise (program_test t) v.
Proof.
  destruct v as [s leaks]. intros Hv. apply (plain_performs _ (fun _ => interp t.2 [])); [done..|]. intros addr hs w1 Hs _.
  destruct (program_finishes addr w1 hs Hs t.2 w1 new_client [] s leaks (running_start w1 hs Hs) Hv) as (hs2 & xs & w4 & Hf & Hr).
  exists hs2, xs, w4. split; [exact Hf|exact Hr].
Qed.

(** C2: Any test program - a sequence of [will_return], [mock], [expect_value],
    [expect_not_value], [expect_any], [check_expected],
    [expect_function_call], [function_called], assertions, allocations, writes
    and releases, each of which may depend on the values returned before, ended
    by a return, [fail], [skip] or [stop] - gets the verdict of its
    specification [verdict_of], which knows queues of expectations and sizes
    of blocks but no memory: the test fails at the first operation that does
    not match the expectations or finds a guard overwritten; if it returns, it
    passes exactly if no block is left and nothing that must be used up.  A
    group of such programs returns the number of those that fail, with the
    allocated blocks as before, or exits with status 1 if blocks remain that
    the runner does not release.  The specification leaves out what C leaves
    undefined (a write beyond the guards, a released block) and what
    cmocka does not promise (a count of 0, a value of another type that is not
    at its last use, a return with a guard overwritten). *)
Theorem programs_get_their_verdicts group_name (ts : list (string * program)) (vs : list promise) w hs :
  startable w hs -> global_test_filter_pattern w = None -> global_skip_filter_pattern w = None ->
  Forall2 (fun t v => verdict_of t.2 new_client = Some v) ts vs -> NUL ∉ chars group_name ->
  (forall u n, plat_libc_alloc_ok u n = true) ->
  Forall2 keeps_promise (program_test <$> ts) vs /\
  exists w', cmocka_run_group_tests group_name (program_test <$> ts) None None w =
      (if existsb snd vs then Exit EXIT_FAILURE else Ret (to_s32 (Z.of_nat (failures vs))), w') /\
    (existsb snd vs = false -> idle w' hs).
Proof.
  intros Hs Ht Hk Hv Hn Ha.
  assert (Forall2 keeps_promise (program_test <$> ts) vs) as Hp.
  { apply Forall2_fmap_l. eapply Forall2_impl; [exact Hv|]. intros t v. apply program_keeps_promise. }
  split; [done|]. assert (selected w (program_test <$> ts) = program_test <$> ts) as Hsel.
  { unfold selected. rewrite Ht, Hk. clear. induction ts as [|t ts IH]; [done|]. rewrite fmap_cons. by rewrite filter_cons_True, IH. }
  rewrite <-Hsel in Hp. destruct (group_runs_promises group_name _ vs w hs Hs Hp Hn) as (r & c & w1 & w3 & w4 & w5 & w6 & xs & Hr); [done|].
  destruct (group_ends _ _ _ _ _ _ _ _ _ _ _ _ _ Hr) as (w' & R & _ & Hid). by exists w'.
Qed.
End theorems.
