(* ===== verification/ApiTheorems.v ===== *)
(** * The macros, as a test uses them

    What [will_return_*] stores [mock_*] reads back, and what [expect_*]
    declares [check_expected] decides, on the values of the C expressions. *)
From Stdlib Require Import Floats.SpecFloat.
From S2P Require Import Prelude CMonad ListNode World TestPlatform Report Memory SymbolMap Tree SymbolTree Mock FloatCompare FloatTheorems Compare Checks Asserts CompareProofs CheckSpec AssertTheorems Alloc Output Runner Api MockSpec MockProofs ParamProofs ParamTheorems MockTheorems.

(** ** The bits of a double *)




Section theorems.
Context `{!Platform, !PlatformLaws, !PlatformTotal}.
Implicit Types (w : World) (a : expectations) (f p : string) (here there : site).

(** ** Mock values *)

Lemma int_val_signed v : - 2 ^ 63 <= v < 2 ^ 63 -> int_val (cast_int_to_cmocka_value v) = v.
Proof. apply to_s64_u64. Qed.
Lemma uint_val_unsigned u : 0 <= u < 2 ^ 64 -> uint_val (cast_int_to_cmocka_value u) = u.
Proof. intros Hu. unfold uint_val, cast_int_to_cmocka_value. by rewrite to_u64_idemp, to_u64_small. Qed.

(** What a declaration of a value for [f] by a macro gives to a macro that
    reads it.  In every state of the stores the declaration puts one value, to
    be used [count] times, at the end of the values pending for [f], and
    changes nothing else.  Whenever this value is the next of [f], whatever
    its count is by then, the reader returns [result] and uses the value up
    once, or, if [result] is None, ends the test. *)
Definition gives {A} f (count : Z) (declare : CM unit) (read : CM A) (result : option A) : Prop :=
  exists v,
    (forall w a, mocks w a -> returns_ok a ->
       exists w1 a1, declare w = (Ret tt, w1) /\ typed_only w w1 /\ mocks w1 a1 /\ returns_ok a1 /\ same_but_returns a a1 /\
         forall g, pending g (returns a1) = pending g (returns a) ++ (if decide (f = g) then [(v, count)] else [])) /\
    (forall w a c q, mocks w a -> returns_ok a -> pending f (returns a) = (v, c) :: q -> c <> 0 ->
       match result with
       | Some x => exists w' a', read w = (Ret x, w') /\ mocks w' a' /\ returns_ok a' /\ same_but_returns a a' /\
           forall g, pending g (returns a') = if decide (f = g) then use_first ((v, c) :: q) else pending g (returns a)
       | None => exists w', read w = (exit_outcome w, w')
       end).

Section gives.
Context {A : Type} (f : string) (here there : site) (name name' : option string) (value count : Z) (read : Z -> A).
Hypotheses (Hcount : INT_MIN < count) (Hzero : count <> 0).

#[local] Abbreviation declare :=
  (_will_return f (site_file here) (site_line here) name value count).
#[local] Abbreviation read_value :=
  (v ← _mock f (site_file there) (site_line there) name'; mret (read v)).
#[local] Abbreviation declared :=
  (mkSymbolValue name (mkSourceLocation (site_file here) (site_line here)) value).



End gives.


(** Declaring and reading, for a function without pending values. *)
Lemma gives_first {A} f count declare (read : CM A) result w a :
  gives f count declare read result -> count <> 0 -> mocks w a -> returns_ok a -> pending f (returns a) = [] ->
  exists w', (declare;; read) w = (match result with Some x => Ret x | None => exit_outcome w end, w').
Proof.
  intros (v & Hd & Hr) Hz Hm Hok Hp. destruct (Hd w a Hm Hok) as (w1 & a1 & R1 & Ht & Hm1 & Hok1 & _ & Hp1).
  specialize (Hp1 f). rewrite Hp, decide_True in Hp1 by done.
  specialize (Hr w1 a1 count [] Hm1 Hok1 Hp1 Hz). destruct result as [x|].
  - destruct Hr as (w2 & a2 & R & _). exists w2. by mrun R1.
  - destruct Hr as (w2 & R). exists w2. mrun R1. by rewrite R, (typed_only_exit w w1).
Qed.


(** ** Expected parameters *)

(** Conditions on the bits of signed numbers. *)
Lemma uint_val_eq_signed v x :
  - 2 ^ 63 <= v < 2 ^ 63 -> - 2 ^ 63 <= x < 2 ^ 63 ->
  uint_val (cast_int_to_cmocka_value v) = uint_val (cast_to_uintmax_type x) <-> v = x.
Proof.
  intros Hv Hx. unfold uint_val, cast_int_to_cmocka_value, cast_to_uintmax_type.
  rewrite !to_u64_idemp, !to_u64_signed by done. repeat case_match; zbool; lia.
Qed.

Lemma uint_val_range_signed v lo hi :
  - 2 ^ 63 <= v < 2 ^ 63 -> - 2 ^ 63 <= lo <= hi -> hi < 2 ^ 63 ->
  to_u64 lo <= uint_val (cast_int_to_cmocka_value v) <= to_u64 hi <->
  lo <= v <= hi /\ ~ (lo < 0 <= hi).
Proof.
  intros Hv Hlo Hhi. unfold uint_val, cast_int_to_cmocka_value.
  rewrite !to_u64_idemp, !to_u64_signed by lia. repeat case_match; zbool; lia.
Qed.

(** Declaring one check by a macro and checking the parameter. *)
Section decides.
Context (w : World) (a : expectations) (f p : string) (here there : site).
Hypotheses (Hm : mocks w a) (Hp : params a = []) (Haddr : forall n, address_ok w n).

Definition decides (declare : CM unit) (y : CMockaValueData) (condition : bool) : Prop :=
  exists w', (declare;; _check_expected f p (site_file there) (site_line there) y) w =
    ((if condition then Ret tt else exit_outcome w), w') /\ mocks w' a.

Lemma plain_decides fn data y ok :
  check_passes (bytes w) (BCheckParameterEvent (mkCheckParameterEvent
    (mkSourceLocation (site_file here) (site_line here)) p fn data)) y = Some ok ->
  decides (_expect_check f p (site_file here) (site_line here) fn data NULL 1) y ok.
Proof. intros Hok. eapply declare_and_check; [done|by apply expect_check_plain|done|done]. Qed.

Lemma range_decides lo hi fn y ok :
  (forall x, check_passes (bytes w) (range_block x p (site_file here) (site_line here) fn lo hi) y = Some ok) ->
  decides (expect_range f p (site_file here) (site_line here) lo hi fn 1) y ok.
Proof.
  intros Hok. destruct (expect_range_spec w a f p (site_file here) (site_line here) lo hi fn 1 Hm (Haddr _))
    as (x & Hx). by eapply declare_and_check.
Qed.

Section sets.
Context (set : list Z) (Hset : 0 < Z.of_nat (length set) < 2 ^ 56).

Lemma integer_set_decides (signed : bool) y :
  decides (if signed
    then _expect_int_in_set f p (site_file here) (site_line here) (Some set) (Z.of_nat (length set)) (to_u64 1)
    else _expect_uint_in_set f p (site_file here) (site_line here) (Some set) (Z.of_nat (length set)) (to_u64 1)) y
    (if signed then bool_decide (int_val y ∈ set) else bool_decide (uint_val y ∈ set)).
Proof.
  assert (set_bytes_of (Z.of_nat (length set)) <= SIZE_MAX) as Hs.
  { unfold set_bytes_of, SIZEOF_CHECKINTEGERSET, SIZEOF_UINTMAX, SIZE_MAX. lia. }
  destruct (expect_integer_set_spec w a f p (site_file here) (site_line here) set _ (to_u64 1) Hm Hs (Haddr _)
    ltac:(lia) signed) as (x & Hx).
  destruct (set_check_passes (bytes w) x p (site_file here) (to_s32 (site_line here)) set y) as (Hi & Hu & _).
  destruct signed; (eapply declare_and_check; [done|exact Hx|done|]); assumption.
Qed.

Lemma not_in_set_decides y :
  decides (_expect_not_in_set f p (site_file here) (site_line here) (Some set) (Z.of_nat (length set)) 1) y
    (bool_decide (uint_val y ∉ set)).
Proof.
  destruct (expect_set_spec w a f p (site_file here) (site_line here) set (Z.of_nat (length set))
    Check_not_in_set 1 Hm (Haddr _) ltac:(lia)) as (x & Hx).
  eapply declare_and_check; [done|exact Hx|done|apply set_check_passes].
Qed.
End sets.

Lemma memory_decides mem l q l' fn ok :
  read_bytes (bytes w) mem (length l) = Some l -> mem <> NULL -> 0 < Z.of_nat (length l) < 2 ^ 64 ->
  read_bytes (bytes w) q (length l) = Some l' -> 0 <= q < 2 ^ 64 ->
  (forall x, check_passes (bytes w) (memory_block x p (site_file here) (site_line here) fn l
     (to_u64 (Z.of_nat (length l)))) q = Some ok) ->
  decides (expect_memory_setup f p (site_file here) (site_line here) mem (to_u64 (Z.of_nat (length l))) fn 1) q ok.
Proof.
  intros Hl Hmem Hn Hl' Hq Hok. assert (to_u64 (Z.of_nat (length l)) = Z.of_nat (length l)) as Hu
    by (apply to_u64_small; lia).
  destruct (expect_memory_spec w a f p (site_file here) (site_line here) mem (to_u64 (Z.of_nat (length l))) l
    fn 1 Hm (Haddr _) Hmem) as (x & Hx); [rewrite Hu; lia|by rewrite Hu, Nat2Z.id|].
  by eapply declare_and_check.
Qed.
End decides.

(** C25: On a parameter of a signed type, [expect_value], [expect_not_value],
    [expect_int_in_set] and [expect_any] decide what they say, for all 64-bit
    values; but [expect_in_range] compares as unsigned, so that a range from a
    negative to a non-negative number accepts nothing and
    [expect_not_in_range] with it accepts everything.  On an unsigned
    parameter [expect_in_set], [expect_uint_in_set] and [expect_not_in_set]
    decide membership, and [expect_memory] and [expect_not_memory] compare the
    bytes a pointer parameter points to with those at the time of the
    declaration.  Each expectation is used up by the check. *)
Theorem expect_macros_decide w a f p here there v x lo hi u set mem q l l' :
  mocks w a -> params a = [] -> (forall n, address_ok w n) ->
  - 2 ^ 63 <= v < 2 ^ 63 -> - 2 ^ 63 <= x < 2 ^ 63 -> - 2 ^ 63 <= lo <= hi -> hi < 2 ^ 63 ->
  0 <= u < 2 ^ 64 -> 0 < Z.of_nat (length set) < 2 ^ 56 ->
  read_bytes (bytes w) mem (length l) = Some l -> mem <> NULL -> 0 < Z.of_nat (length l) < 2 ^ 64 ->
  read_bytes (bytes w) q (length l) = Some l' -> 0 <= q < 2 ^ 64 ->
  let decides (m : CM unit) (condition : bool) :=
    exists w', m w = ((if condition then Ret tt else exit_outcome w), w') /\ mocks w' a in
  let signed := check_expected f there p v in
  let unsigned := check_expected f there p u in
  let pointer := check_expected_ptr f there p q in
  decides (expect_value here f p x;; signed) (bool_decide (v = x)) /\
  decides (expect_not_value here f p x;; signed) (bool_decide (v <> x)) /\
  decides (expect_in_range here f p lo hi;; signed) (bool_decide (lo <= v <= hi /\ ~ (lo < 0 <= hi))) /\
  decides (expect_not_in_range here f p lo hi;; signed) (bool_decide (~ (lo <= v <= hi) \/ lo < 0 <= hi)) /\
  decides (expect_int_in_set here f p set;; signed) (bool_decide (v ∈ set)) /\
  decides (expect_any here f p;; signed) true /\
  decides (expect_in_set here f p set;; unsigned) (bool_decide (u ∈ set)) /\
  decides (expect_uint_in_set here f p set;; unsigned) (bool_decide (u ∈ set)) /\
  decides (expect_not_in_set here f p set;; unsigned) (bool_decide (u ∉ set)) /\
  decides (expect_memory here f p mem (Z.of_nat (length l));; pointer) (bool_decide (l' = l)) /\
  decides (expect_not_memory here f p mem (Z.of_nat (length l));; pointer) (bool_decide (l' <> l)).
Proof.
  intros Hm Hp Haddr Hv Hx Hlo Hhi Hu Hset Hl Hmem Hsize Hl' Hq decides signed unsigned pointer.
  pose proof (integer_set_decides w a f p here there Hm Hp Haddr set Hset) as Hin.
  pose proof (Hin true (cast_int_to_cmocka_value v)) as Hsigned. cbn beta iota in Hsigned.
  pose proof (Hin false (cast_int_to_cmocka_value u)) as Hunsigned. cbn beta iota in Hunsigned.
  pose proof (not_in_set_decides w a f p here there Hm Hp Haddr set Hset (cast_int_to_cmocka_value u)) as Hnot.
  rewrite uint_val_unsigned in Hunsigned, Hnot by done. rewrite int_val_signed in Hsigned by done.
  assert (val_ptr q = q /\ to_u64 (Z.of_nat (length l)) = Z.of_nat (length l)) as [Hqv Hn]
    by (split; apply to_u64_small; lia).
  split_and!.
  - apply (plain_decides w); [done..|]. cbn. f_equal. by apply bool_decide_ext, uint_val_eq_signed.
  - apply (plain_decides w); [done..|]. cbn. f_equal. by apply bool_decide_ext, not_iff_compat, uint_val_eq_signed.
  - apply (range_decides w); [done..|]. intros y. cbn. f_equal. by apply bool_decide_ext, uint_val_range_signed.
  - apply (range_decides w); [done..|]. intros y. cbn. f_equal. apply bool_decide_ext.
    pose proof (uint_val_range_signed v lo hi Hv Hlo Hhi). lia.
  - exact Hsigned.
  - by apply (plain_decides w).
  - exact Hunsigned.
  - exact Hunsigned.
  - exact Hnot.
  - eapply (memory_decides w); try done. intros y. apply memory_check_passes; [done|unfold cast_ptr_to_cmocka_value; by rewrite Hqv].
  - eapply (memory_decides w); try done. intros y. apply memory_check_passes; [done|unfold cast_ptr_to_cmocka_value; by rewrite Hqv].
Qed.
End theorems.
