(* ===== verification/Witnesses.v ===== *)
(** * Witnesses

    Concrete runs: a test that declares return values, expected parameters and
    expected calls on [test_platform], and the properties applied to the states
    it goes through. *)
From S2P Require Import Prelude CMonad ListNode World TestPlatform Report Memory SymbolMap Tree SymbolTree SymbolGet SymbolAdd SymbolRemove SymbolLeftover SymbolTheorems Mock MockSpec MockProofs MockTheorems.

#[local] Existing Instance test_platform.
#[local] Existing Instance test_laws.
#[local] Existing Instance test_total.

(** ** A test *)

Definition demo_prog : CM unit :=
  initialize_testing;;
  modify (set_global_running_test 1);;
  _will_return "f" (Some "t.c") 10 (Some "int") 7 2;;
  _will_return "f" (Some "t.c") 11 (Some "int") 8 1;;
  _will_return "g" (Some "t.c") 12 None 9 (-2);;
  _expect_check "f" "x" (Some "t.c") 13 Check_value 5 0 1;;
  _expect_check "f" "y" (Some "t.c") 14 Check_any 0 0 (-1);;
  _expect_function_call (Some "f") (Some "t.c") 15 1;;
  _expect_function_call (Some "g") (Some "t.c") 16 (-2).

Definition demo_world : World := Eval vm_compute in (demo_prog initial_world).2.

Definition demo_returns : shape 1 :=
  [mkEntry 4144 4128 "f" [(4160, 4112, 2); (4192, 4176, 1)]; mkEntry 4240 4224 "g" [(4256, 4208, -2)]].
Definition demo_params : shape 2 :=
  [mkEntry 4304 4288 "f"
     [mkEntry 4336 4320 "x" [(4352, 4272, 1)]; mkEntry 4400 4384 "y" [(4416, 4368, -1)]]].
Definition demo_calls : shape 0 := [(4448, 4432, 1); (4480, 4464, -2)].

Definition at_line (n : Z) : SourceLocation := mkSourceLocation (Some "t.c") n.
Definition demo_expectations : expectations :=
  mkExpectations
    [("f", [(mkSymbolValue (Some "int") (at_line 10) 7, 2); (mkSymbolValue (Some "int") (at_line 11) 8, 1)]);
     ("g", [(mkSymbolValue None (at_line 12) 9, -2)])]
    [("f", [("x", [(BCheckParameterEvent (mkCheckParameterEvent (at_line 13) "x" Check_value 5), 1)]);
            ("y", [(BCheckParameterEvent (mkCheckParameterEvent (at_line 14) "y" Check_any 0), -1)])])]
    [(mkFuncOrderingValue (at_line 15) "f", 1); (mkFuncOrderingValue (at_line 16) "g", -2)].

(** Decide the parts of a representation by computation. *)
Ltac compute_rep :=
  repeat first
    [ match goal with |- NoDup _ => apply (bool_decide_unpack _); vm_compute; exact I end
    | match goal with |- Forall2 _ [] [] => apply Forall2_nil end
    | match goal with |- Forall2 _ (_ :: _) _ => apply Forall2_cons end
    | match goal with |- Forall _ [] => apply Forall_nil end
    | match goal with |- Forall _ _ => apply Forall_cons end
    | match goal with |- _ = _ => vm_compute; reflexivity end
    | match goal with |- True => exact I end
    | split
    | progress simpl ].

Lemma demo_mocks_at : mocks_at demo_world demo_returns demo_params demo_calls demo_expectations.
Proof.
  constructor; [constructor|constructor|constructor|].
  all: unfold good, good0, dll, link.
  all: compute_rep.
Qed.

Lemma demo_mocks : mocks demo_world demo_expectations.
Proof. exact (ex_intro _ _ (ex_intro _ _ (ex_intro _ _ demo_mocks_at))). Qed.

Lemma demo_returns_ok : returns_ok demo_expectations.
Proof.
  split; [split|].
  - compute_rep.
  - repeat constructor; discriminate.
  - apply refcounts_pending; [compute_rep|]. repeat constructor.
Qed.

(** ** Lists and symbol maps *)

Lemma list_implements_sequence_witness :
  (exists s', list_remove_free 4240 None demo_world = (Ret tt, s') /\
    dll s' 16 [(4144, 4128, 1)] /\ gone s' 4240) /\
  (exists s', list_initialize 16 demo_world = (Ret 16, s') /\
    list_empty 16 s' = (Ret true, s') /\ list_first 16 s' = (Ret None, s')).
Proof.
  destruct (list_implements_sequence demo_world 16) as [Hi Hl]. split.
  - destruct (Hl [(4144, 4128, 1); (4240, 4224, 1)]) as (_ & Hr & _).
    + unfold dll, link. compute_rep.
    + destruct (Hr [(4144, 4128, 1)] 4240 4224 1 [] eq_refl eq_refl) as (s' & R & Hd & Hg & _).
      exists s'. split; [exact R|]. split; [exact Hd|exact Hg].
  - destruct Hi as (s' & R & Hd & _); [eexists; reflexivity|].
    destruct (list_implements_sequence s' 16) as [_ Hl']. destruct (Hl' [] Hd) as (_ & _ & _ & Hf & He & _).
    exists s'. split; [exact R|]. split; [exact He|exact Hf].
Defined.

Lemma demo_good_returns : good 1 demo_world 16 demo_returns.
Proof. exact (st_good _ _ _ _ _ _ (m_R _ _ _ _ _ demo_mocks_at)). Qed.
Lemma demo_good_params : good 2 demo_world 48 demo_params.
Proof. exact (st_good _ _ _ _ _ _ (m_P _ _ _ _ _ demo_mocks_at)). Qed.

Lemma get_symbol_value_refines_witness :
  exists w' (t' : shape 1), get_symbol_value 16 ["f"] demo_world = (Ret (2, Some 4112), w') /\
    good 1 w' 16 t' /\ erase 1 t' = [("f", [(4112, 1); (4176, 1)]); ("g", [(4208, -2)])].
Proof.
  destruct (get_symbol_value_refines 0 ["f"] demo_world 16 demo_returns) as (w' & t' & R & Hg & He & _).
  - exact demo_good_returns.
  - reflexivity.
  - repeat constructor.
  - exists w', t'. split; [exact R|]. split; [exact Hg|exact He].
Defined.

(** A value that is in memory but not in the map: the function's location. *)
Lemma add_symbol_value_refines_witness :
  exists w' (t' : shape 2), add_symbol_value 48 ["f"; "z"] 4112 3 demo_world = (Ret tt, w') /\
    good 2 w' 48 t' /\
    erase 2 t' = [("f", [("x", [(4272, 1)]); ("y", [(4368, -1)]); ("z", [(4112, 3)])])].
Proof.
  destruct (add_symbol_value_refines 1 ["f"; "z"] demo_world 48 demo_params 4112 3)
    as (w' & t' & R & Hg & He & _).
  - exact demo_good_params.
  - reflexivity.
  - reflexivity.
  - apply (bool_decide_unpack (4112 ∉ 48 :: fp 2 demo_params)). vm_compute. exact I.
  - exists w', t'. split; [exact R|]. split; [exact Hg|exact He].
Defined.

Lemma remove_always_return_values_refines_witness :
  exists w' (t' : shape 1), remove_always_return_values 16 1 demo_world = (Ret tt, w') /\
    good 1 w' 16 t' /\ erase 1 t' = [("f", [(4112, 2); (4176, 1)])].
Proof.
  destruct (remove_always_return_values_refines 0 demo_world 16 demo_returns) as (w' & t' & R & Hg & He & _).
  - exact demo_good_returns.
  - exists w', t'. split; [exact R|]. split; [exact Hg|exact He].
Defined.

Lemma check_for_leftover_values_counts_witness :
  exists w', check_for_leftover_values 48 "left" 2 demo_world = (Ret 1, w') /\ quiet demo_world w'.
Proof.
  destruct (check_for_leftover_values_counts 1 demo_world 48 demo_params "left") as (w' & R & Q).
  - exact demo_good_params.
  - repeat constructor; eexists; vm_compute; reflexivity.
  - exists w'. split; [exact R|exact Q].
Defined.

(** ** Mock functions *)

Definition demo_values : list (SymbolValue * Z) :=
  [(mkSymbolValue None (at_line 20) 5, 2); (mkSymbolValue None (at_line 21) 6, 1)].

Lemma will_return_mock_fifo_witness :
  exists w' a', (declare "h" demo_values;; mock_times "h" (Some "t.c") 30 None 3) demo_world =
      (Ret [5; 5; 6], w') /\ mocks w' a'.
Proof.
  destruct (will_return_mock_fifo demo_world demo_expectations "h" demo_values (Some "t.c") 30 None)
    as (w' & a' & R & Hm & _).
  - exact demo_mocks.
  - exact demo_returns_ok.
  - reflexivity.
  - repeat constructor; discriminate.
  - exists w', a'. split; [exact R|exact Hm].
Defined.

Lemma will_return_always_mock_witness :
  exists w' a', (declare "h" [(mkSymbolValue None (at_line 20) 5, -1)];;
                 mock_times "h" (Some "t.c") 30 None 3) demo_world = (Ret [5; 5; 5], w') /\ mocks w' a'.
Proof.
  destruct (will_return_always_mock demo_world demo_expectations "h" (mkSymbolValue None (at_line 20) 5)
    (-1) 3 (Some "t.c") 30 None) as (w' & a' & R & Hm & _).
  - exact demo_mocks.
  - exact demo_returns_ok.
  - reflexivity.
  - left. reflexivity.
  - reflexivity.
  - exists w', a'. split; [exact R|exact Hm].
Defined.





Lemma function_called_refines_witness :
  (exists w', _function_called "f" (Some "t.c") 30 demo_world = (Ret tt, w')) /\
  (exists w', _function_called "g" (Some "t.c") 30 demo_world = (LongJmp, w')).
Proof.
  split.
  - destruct (function_called_refines demo_world demo_expectations "f" (Some "t.c") 30 demo_mocks)
      as (w' & R & _). exists w'. exact R.
  - destruct (function_called_refines demo_world demo_expectations "g" (Some "t.c") 30 demo_mocks)
      as (w' & R & _). exists w'. exact R.
Defined.

(** The stores right after [initialize_testing]. *)
Definition empty_world : World := Eval vm_compute in (initialize_testing initial_world).2.
Lemma empty_mocks : mocks empty_world no_expectations.
Proof.
  exists ([] : list (Entry (shape 0))), ([] : list (Entry (shape 1))), [].
  constructor; [constructor|constructor|constructor|].
  all: unfold good, good0, dll, link.
  all: compute_rep.
Qed.

Lemma fail_if_leftover_values_spec_of_witness :
  (exists w', fail_if_leftover_values demo_world = (LongJmp, w')) /\
  (exists w', fail_if_leftover_values empty_world = (Ret tt, w')).
Proof.
  split.
  - destruct (fail_if_leftover_values_spec_of demo_world demo_expectations demo_mocks) as (w' & Hm & R).
    exists (fail_if_leftover_values demo_world).2. vm_compute. reflexivity.
  - destruct (fail_if_leftover_values_spec_of empty_world no_expectations empty_mocks) as (w' & Hm & R).
    exists w'. exact R.
Defined.

Lemma testing_lifecycle_witness :
  exists w', teardown_testing demo_world = (Ret tt, w') /\ mocks w' no_expectations.
Proof.
  destruct (testing_lifecycle initial_world demo_world demo_expectations)
    as (_ & w' & R & P & C & _ & Rt & Hm & _).
  - intros h Hh. repeat (apply elem_of_cons in Hh as [->|Hh]; [vm_compute; eexists; reflexivity|]).
    by apply not_elem_of_nil in Hh.
  - exact demo_mocks.
  - exists w'. split; [exact Rt|exact Hm].
Defined.
