(* ===== verification/LibraryWitnesses.v ===== *)
(** * Witnesses of the remaining components

    Concrete inputs of the properties of strings, assertions and their Coverity
    model, expected parameters, checked memory, the runner, whole groups and
    their report, the examples and the macros, on [test_platform]. *)
From Stdlib Require Import Floats.SpecFloat.
From S2P Require Import Prelude CMonad CString CStringTheorems ListNode World TestPlatform Coverity Report Memory SymbolMap Tree SymbolTree Mock FloatCompare FloatTheorems Compare Checks Asserts CompareProofs CheckSpec AssertTheorems Alloc AllocBytes AllocProofs AllocOps AllocTheorems AllocLeaks Output Runner Frame MockSpec MockProofs DoubleFree ParamProofs ParamTheorems MockTheorems RunnerProofs TestContract TestRun GroupProofs RunnerTheorems RunnerExamples GroupTheorems GroupFixtures GroupFaults ReportTheorems XmlReader XmlReport ClientSupport Calculator CalculatorTheorems CalculatorMain AllocateModule Api ApiTheorems Witnesses Programs ProgramProofs ProgramTheorems.

#[local] Existing Instance test_platform.
#[local] Existing Instance test_laws.
#[local] Existing Instance test_total.

(** ** Strings *)

Definition buffer_with (s : string) (n : nat) : cstate := mkCstate (chars s ++ NUL :: replicate n NUL) None 0.

Lemma buffer_holds s n : NUL ∉ chars s -> holds (src_buf (buffer_with s n)) (chars s).
Proof. intros Hs. split; [exact Hs|]. by eexists. Qed.

Lemma c_strreplace_spec_witness :
  (exists ok s' st', c_strreplace false 23 (Some "%g") (Some "group") (buffer_with "a-%g-b" 16) = (Ret ok, st') /\
     replaced (chars "%g") (chars "group") ok (chars "a-%g-b") s') /\
  c_strreplace_loop 1000 9 [] [] 0 (buffer_with "ab" 6) = (NoFuel, buffer_with "ab" 6).
Proof.
  split.
  - destruct (c_strreplace_spec (chars "%g") (chars "group") (chars "a-%g-b") (buffer_with "a-%g-b" 16)) as [Hr _].
    + apply (bool_decide_unpack _). vm_compute. exact I.
    + apply (bool_decide_unpack _). vm_compute. exact I.
    + apply buffer_holds, (bool_decide_unpack _). vm_compute. exact I.
    + destruct Hr as (ok & s' & st' & R & Hr & _); [discriminate|]. exists ok, s', st'. split; [exact R|exact Hr].
  - destruct (c_strreplace_spec [] [] (chars "ab") (buffer_with "ab" 6)) as [_ Hd].
    + apply not_elem_of_nil.
    + apply not_elem_of_nil.
    + apply buffer_holds, (bool_decide_unpack _). vm_compute. exact I.
    + apply Hd; [reflexivity|reflexivity|cbn; lia|reflexivity].
Defined.

(** ** The XML report *)

(** A group with a name that is escaped, a failed test and one that passed. *)
Definition xml_results : list report :=
  [mkReport "a<b" CM_TEST_FAILED (Some ("x[0]>y && y != 2" +:+ nl)) (S754_finite false 3 (-1));
   mkReport "ok" CM_TEST_PASSED None (S754_zero false)].

Lemma xml_report_reads_back_witness :
  exists w', cmprintf_group_finish_xml "R&D" 2 1 0 0 (S754_finite false 1 0) xml_results initial_world = (Ret tt, w') /\
    read_xml (stdout_text w') = Some (Some xml_declaration,
      suite_node "R&D" 2 1 0 0 (S754_finite false 1 0) xml_results).
Proof.
  destruct (xml_report_reads_back "R&D" 2 1 0 0 (S754_finite false 1 0) xml_results initial_world)
    as (fp & file & w0 & w' & s & Ro & R & He & T & Hs & _).
  - split; [apply (bool_decide_unpack _); vm_compute; exact I|vm_compute; lia].
  - constructor; [|constructor; [|constructor] ]; (split; [split; [apply (bool_decide_unpack _); vm_compute; exact I|vm_compute; lia]|]).
    + intros m [= <-] (a & b & E). revert E. apply find_sub_none. reflexivity.
    + discriminate.
  - destruct (He eq_refl) as [-> ->]. exists w'. split; [exact R|].
    change (stream_text Stdout w') with (stdout_text w') in T. rewrite T. exact Hs.
Defined.

(** A message that contains the end of a CDATA section, like the one of
    [assert_true(x[y[0]]>z)], spoils the report. *)
Example xml_report_of_cdata_end :
  read_xml (stdout_text (cmprintf_group_finish_xml "group" 1 1 0 0 (S754_zero false)
    [mkReport "test" CM_TEST_FAILED (Some "x[y[0]]>z is not true") (S754_zero false)] initial_world).2) = None.
Proof. vm_compute. reflexivity. Qed.

(** ** Assertions and expected parameters *)

Lemma scalar_assertions_decide_witness :
  asserts (_assert_int_in_set 2 [1; 2; 3] 3 None 0) true initial_world.
Proof.
  destruct (scalar_assertions_decide 0 0 2 0 0 0 0 NULL NULL "" None [1; 2; 3] 3 None 0 initial_world) as (_ & [Hs _] & _).
  - discriminate.
  - exact Hs.
Defined.

(** Two strings in data memory. *)
Definition string_world : World :=
  set_bytes (write_bytes 5000 [97; 98; 0; 97; 99; 0] ∅) initial_world.

Lemma memory_assertions_decide_witness :
  asserts (_assert_string_not_equal 5000 5003 None 0) true string_world /\
  asserts (_assert_memory_equal 5000 5003 1 None 0) true string_world.
Proof.
  split.
  - destruct (memory_assertions_decide 5000 5003 "ab" "ac" 2 [97; 98] [97; 99] None 0 string_world) as (_ & Hn & _);
      [vm_compute; reflexivity..|exact Hn].
  - destruct (memory_assertions_decide 5000 5003 "ab" "ac" 1 [97] [97] None 0 string_world) as (_ & _ & He & _);
      [vm_compute; reflexivity..|exact He].
Defined.

(** An analyser for which [__coverity_panic__] ends the process. *)
#[local] Instance test_analyser : Coverity.Analyser := {|
  Coverity.__coverity_panic__ := libc_abort;
  Coverity.__coverity_weak_guard_sink__ _ _ := mret tt;
|}.
#[local] Instance test_analyser_laws : Coverity.AnalyserLaws.
Proof. split; [discriminate|reflexivity]. Qed.

Lemma coverity_model_agrees_witness :
  agrees (Coverity._assert_int_in_set 2 [1; 2; 3] 3 None 0) (_assert_int_in_set 2 [1; 2; 3] 3 None 0) string_world.
Proof.
  destruct (coverity_model_agrees 0 0 2 0 0 0 0 "" None 0 string_world [1; 2; 3] 3) as (_ & Hs & _);
    [vm_compute; congruence|exact Hs].
Defined.

(** Floats, two strings with different contents and the bound of a range. *)
Lemma coverity_model_diverges_witness :
  ~ agrees (Coverity._assert_float_equal (float_of 1000 0) (float_of 1003 0) (float_of 5 0) None 0)
      (_assert_float_equal (float_of 1000 0) (float_of 1003 0) (float_of 5 0) None 0) string_world /\
  ~ (agrees (Coverity._assert_string_equal 1 5000 5000 None 0) (_assert_string_equal 5000 5000 None 0) string_world /\
     agrees (Coverity._assert_string_equal 1 5000 5003 None 0) (_assert_string_equal 5000 5003 None 0) string_world) /\
  Coverity._assert_not_in_range 9 3 9 None 0 string_world = (Ret tt, string_world).
Proof.
  destruct (coverity_model_diverges None 0 string_world) as (_ & Hf & _ & Hr & _ & Hs & _). split; [|split].
  - apply (Hf 1000 1003 5 0); lia.
  - apply (Hs 1 5000 5000 5000 5003 "ab" "ab" "ac"); vm_compute; congruence.
  - apply (Hr 3 3 9). lia.
Defined.

(** With epsilon 3 floats 1000 and 1003 are equal, with epsilon 2 they are
    not; doubles that differ by one in 2^23 are equal with epsilon 0. *)
Lemma float_compare_spec_witness :
  float_compare (float_of 1000 0) (float_of 1003 0) (float_of 3 0) = true /\
  float_compare (float_of 1000 0) (float_of 1003 0) (float_of 2 0) = false /\
  double_compare (double_of 8388608 0) (double_of 8388609 0) (double_of 0 0) = true /\
  double_compare (double_of 8388606 0) (double_of 8388607 0) (double_of 0 0) = false.
Proof.
  destruct float_compare_spec as (Hf & Hd & _).
  rewrite !Hf by (reflexivity || lia). rewrite !Hd by (reflexivity || lia).
  repeat split; vm_compute; reflexivity.
Defined.

Lemma check_expected_refines_witness :
  (exists w', _check_expected "f" "x" (Some "t.c") 30 5 demo_world = (Ret tt, w')) /\
  (exists w', _check_expected "f" "x" (Some "t.c") 30 6 demo_world = (LongJmp, w')).
Proof.
  assert (refcounts_ok 2 (params demo_expectations)) as Hrc by (cbn; repeat constructor; cbn; unfold INT_MIN; lia).
  split.
  - destruct (check_expected_refines demo_world demo_expectations "f" "x" (Some "t.c") 30 5 demo_mocks Hrc
      (mkCheckParameterEvent (at_line 13) "x" Check_value 5) true) as (w' & R & _); try reflexivity; [discriminate|].
    exists w'. exact R.
  - destruct (check_expected_refines demo_world demo_expectations "f" "x" (Some "t.c") 30 6 demo_mocks Hrc
      (mkCheckParameterEvent (at_line 13) "x" Check_value 5) false) as (w' & R & _); try reflexivity; [discriminate|].
    exists w'. exact R.
Defined.

(** ** Checked memory *)

(** The allocator after its first use. *)
Definition block_world : World := Eval vm_compute in (get_allocated_blocks_list empty_world).2.

Lemma block_heap : heap block_world [].
Proof.
  destruct (heap_first_use empty_world 0 eq_refl eq_refl) as (w' & R & Hh & _).
  assert (w' = block_world) as <-; [|exact Hh].
  assert (get_allocated_blocks_list empty_world = (Ret hA, block_world)) as R' by (vm_compute; reflexivity).
  congruence.
Qed.

Lemma block_bytes_valid : bytes_valid block_world.
Proof. intros a b Hb. change (bytes block_world) with (∅ : gmap Z Z) in Hb. by rewrite lookup_empty in Hb. Qed.

Lemma test_malloc_decides_witness :
  (exists p w', _test_malloc 4 (Some "t.c") 7 block_world = (Ret p, w') /\ p <> NULL) /\
  (exists w', _test_malloc (SIZE_MAX - 5) (Some "t.c") 7 block_world = (Exit 1, w')).
Proof.
  split.
  - pose proof (test_malloc_decides block_world [] 4 (Some "t.c") 7 block_heap) as Hd.
    rewrite decide_True in Hd; [|split; [discriminate|apply plat_malloc_total]].
    destruct Hd as (p & w' & R & Hp & _); [split; discriminate|]. exists p, w'. split; [exact R|exact Hp].
  - pose proof (test_malloc_decides block_world [] (SIZE_MAX - 5) (Some "t.c") 7 block_heap) as Hd.
    rewrite decide_False in Hd; [|intros [Hs _]; by apply Hs].
    destruct Hd as (w' & R & _); [split; discriminate|]. exists w'. exact R.
Defined.

Lemma test_calloc_zeroes_witness :
  (exists p w', _test_calloc 3 2 (Some "t.c") 7 block_world = (Ret p, w') /\
     read_bytes (bytes w') p 6 = Some [0; 0; 0; 0; 0; 0]) /\
  _test_calloc (2 ^ 63) 2 (Some "t.c") 7 block_world = (Ret NULL, set_errno ENOMEM block_world) /\
  exists w', _test_calloc (2 ^ 63 - 1) 2 (Some "t.c") 7 block_world = (exit_outcome block_world, w').
Proof.
  pose proof (fun n H => test_calloc_zeroes block_world [] n 2 (Some "t.c") 7 block_heap H) as H. split; [|split].
  - specialize (H 3). rewrite decide_False in H by discriminate.
    rewrite decide_True in H by (split; [discriminate|apply plat_malloc_total]).
    destruct H as (p & w' & R & _ & Ha); [split; discriminate..|].
    exists p, w'. split; [exact R|exact (al_content _ _ _ _ _ _ Ha)].
  - specialize (H (2 ^ 63)). rewrite decide_True in H by reflexivity. apply H; split; discriminate.
  - specialize (H (2 ^ 63 - 1)). rewrite decide_False in H by discriminate.
    rewrite decide_False in H by (intros [H0 _]; by apply H0).
    destruct H as (w' & R & _); [split; discriminate..|]. exists w'. exact R.
Defined.

(** A block of four bytes, and the state that holds it. *)
Definition block_state : World := (_test_malloc 4 (Some "t.c") 7 block_world).2.

Lemma block_allocated : exists p, _test_malloc 4 (Some "t.c") 7 block_world = (Ret p, block_state) /\
  allocated block_world block_state [] p [186; 186; 186; 186] (at_line 7).
Proof.
  destruct (malloc_run block_world [] 4 (Some "t.c") 7 block_heap) as (p & w' & R & _ & Ha);
    [discriminate|discriminate|apply plat_malloc_total|].
  exists p. unfold block_state. rewrite R. split; [reflexivity|exact Ha].
Qed.

Lemma test_free_checks_guards_witness :
  exists p w', _test_free p (Some "t.c") 8 block_state = (Ret tt, w') /\ heap w' [].
Proof.
  destruct block_allocated as (p & R & Ha). destruct (al_new _ _ _ _ _ _ Ha) as [block Hl].
  destruct (test_free_checks_guards block_state [] (header_of p) [] block 4 (at_line 7) (Some "t.c") 8) as [Hok _].
  - exact (al_heap _ _ _ _ _ _ Ha).
  - exact Hl.
  - exact (al_valid _ _ _ _ _ _ Ha block_bytes_valid).
  - destruct (Hok (al_guards _ _ _ _ _ _ Ha)) as (w' & R' & Hf).
    exists (user_of (header_of p)), w'. split; [exact R'|exact (fr_heap _ _ _ _ _ _ Hf)].
Defined.

Lemma test_realloc_keeps_content_witness :
  exists q p w', _test_realloc q 6 (Some "t.c") 8 block_state = (Ret p, w') /\ heap w' [header_of p] /\
    read_bytes (bytes w') p 6 = Some [186; 186; 186; 186; 186; 186].
Proof.
  destruct block_allocated as (p & R & Ha). destruct (al_new _ _ _ _ _ _ Ha) as [block Hl].
  destruct (test_realloc_keeps_content block_state [] (header_of p) [] block [186; 186; 186; 186] (at_line 7) 6 (Some "t.c") 8)
    as (p' & w' & b' & R' & Hh & _ & _ & Hc & _).
  - exact (al_heap _ _ _ _ _ _ Ha).
  - exact Hl.
  - exact (al_valid _ _ _ _ _ _ Ha block_bytes_valid).
  - exact (al_guards _ _ _ _ _ _ Ha).
  - rewrite user_header. exact (al_content _ _ _ _ _ _ Ha).
  - reflexivity.
  - discriminate.
  - apply plat_malloc_total.
  - exists (user_of (header_of p)), p', w'. split; [exact R'|]. split; [exact Hh|exact Hc].
Defined.

Lemma fail_if_blocks_allocated_spec_witness :
  fail_if_blocks_allocated hA "t" block_world = (Ret tt, block_world) /\
  exists w', fail_if_blocks_allocated hA "t" block_state = (Exit 1, w').
Proof.
  split.
  - destruct (fail_if_blocks_allocated_spec block_world [] [] "t" block_heap block_bytes_valid) as (_ & Hok & _).
    apply Hok. reflexivity.
  - destruct block_allocated as (p & R & Ha).
    destruct (fail_if_blocks_allocated_spec block_state [] [header_of p] "t") as (_ & _ & Hleak).
    + exact (al_heap _ _ _ _ _ _ Ha).
    + exact (al_valid _ _ _ _ _ _ Ha block_bytes_valid).
    + destruct Hleak as (w' & R' & _); [discriminate|]. exists w'. etrans; [exact R'|]. reflexivity.
Defined.

(** ** The runner *)

Lemma block_statics : statics block_world.
Proof.
  intros h Hh. unfold store_heads in Hh. rewrite !elem_of_cons in Hh.
  destruct Hh as [->|[->|[->|Hh%elem_of_nil]]]; [vm_compute; reflexivity..|destruct Hh].
Qed.

Lemma run_one_test_decides_witness :
  (exists w', cmocka_run_one_test_or_fixture "t" (Some passing_test) None None NULL NULL block_world = (Ret 0, w')) /\
  (exists w', cmocka_run_one_test_or_fixture "t" (Some failing_test) None None NULL NULL block_world = (Ret (-1), w')).
Proof.
  split.
  - destruct (run_one_test_decides block_world [] "t" passing_test NULL block_heap block_bytes_valid block_statics)
      as (w1 & [Hc Hr _ _ (Hk & Hs & He & _)] & Hret & _).
    destruct (Hret w1 no_expectations []) as (w' & R & _).
    + reflexivity.
    + exact Hc.
    + intros h b s l Hh. by apply elem_of_nil in Hh.
    + rewrite Hr. discriminate.
    + rewrite Hs. reflexivity.
    + unfold abort_requested. rewrite Hk, He. reflexivity.
    + reflexivity.
    + exists w'. exact R.
  - destruct (run_one_test_decides block_world [] "t" failing_test NULL block_heap block_bytes_valid block_statics)
      as (w1 & [Hc Hr _ _ (Hk & Hs & He & _)] & _ & Hjmp).
    destruct (fail_run (Some "t.c") 1 w1) as (w2 & R2 & Q2).
    assert (@exit_outcome unit w1 = LongJmp) as Ho
      by (unfold exit_outcome, abort_requested; rewrite Hk, He, Hr; reflexivity).
    rewrite Ho in R2.
    assert (global_stop_test w2 = 0) as Hs2 by (destruct Q2 as (m & e & o & c & ->); cbn; rewrite Hs; reflexivity).
    destruct (Hjmp w2 no_expectations [] R2) as (w' & R & _).
    + destruct Q2 as (m & e & o & c & ->). by apply (consistent_same w1).
    + by destruct Q2 as (m & e & o & c & ->).
    + exists w'. rewrite R, Hs2. reflexivity.
Defined.

(** The state before the tests of a group. *)
Definition idle_world : World := set_state_vars (<[group_state_addr := NULL]> ∅) block_world.

Lemma idle_world_idle : idle idle_world [].
Proof.
  split; [by apply (heap_same block_world); [|exact block_heap]|exact block_bytes_valid|exact block_statics|reflexivity|].
  by split_and!.
Qed.

(** ** Tests that keep their contract *)

(** A test without effect. *)
Lemma no_effect addr hs w1 : started w1 hs -> left w1 w1 addr no_expectations hs.
Proof. intros [Hc Hr _]. by apply left_same. Qed.

Lemma passing_performs name : keeps_promise (simple_test name passing_test) (CM_TEST_PASSED, false).
Proof.
  apply (plain_performs _ passing_test); [done..|]. intros addr hs w1 Hst _. exists [], [], w1. split; [|done].
  apply test_passes; [done..|by apply no_effect|apply Hst].
Qed.

(** A test function that calls [fail]. *)
Lemma failing_ends addr hs w1 : started w1 hs ->
  exists w2, test_ends failing_test addr hs w1 [] [] CM_TEST_FAILED w2.
Proof.
  intros Hst. destruct (fail_run (Some "t.c") 1 w1) as (w2 & R2 & Q2).
  rewrite exit_jumps in R2 by apply Hst. pose proof (same_run_quiet _ _ Q2) as Hs. exists w2.
  apply (test_fails _ _ _ _ _ no_expectations); [exact R2| |by eapply undisturbed_run, Hst].
  rewrite app_nil_r. apply left_same; [done|apply Hst|]. eapply consistent_quiet, Hst. done.
Qed.

Lemma failing_performs name : keeps_promise (simple_test name failing_test) (CM_TEST_FAILED, false).
Proof.
  apply (plain_performs _ failing_test); [done..|]. intros addr hs w1 Hst _.
  destruct (failing_ends addr hs w1 Hst) as (w2 & He). by exists [], [], w2.
Qed.

(** A setup function that sets the state of the test, and one that fails. *)
Definition storing_setup : CMFixtureFunction := fun addr => store_var addr 4096;; mret 0.
Definition failing_setup : CMFixtureFunction := fun _ => mret 1.
Definition failing_teardown : CMFixtureFunction := fun _ => mret 2.

Definition fixture_test : CMUnitTest :=
  mkCMUnitTest (Some "d") (Some passing_test) (Some storing_setup) (Some failing_teardown) NULL.
Definition setup_test : CMUnitTestState :=
  fresh_test 0 (mkCMUnitTest (Some "a") (Some passing_test) (Some failing_setup) None NULL).

Lemma storing_setup_ends addr hs w1 : started w1 hs ->
  sets_up storing_setup addr hs w1 [] 0 (set_state_vars (<[addr := 4096]> (state_vars w1)) w1).
Proof.
  intros Hst. exists no_expectations. rewrite app_nil_r. split; [|split; [apply Hst|left; by exists 0] ].
  destruct Hst as [ [Hm Hh Hb Hs] Hr Hu]. split; [|by cbn; rewrite Hr|done..|].
  - apply (consistent_same w1); [done..|by split].
  - intros p Hp. by apply lookup_insert_ne.
Qed.
Lemma failing_setup_ends addr hs w1 : started w1 hs -> sets_up failing_setup addr hs w1 [] 1 w1.
Proof.
  intros Hst. exists no_expectations. rewrite app_nil_r. split; [by apply no_effect|]. split; [apply Hst|]. left. by exists 1.
Qed.
Lemma failing_teardown_ends addr hs w5 : started w5 hs -> tears_down failing_teardown addr hs w5 [] 2.
Proof.
  intros Hst. exists w5, no_expectations, []. rewrite app_nil_r. split; [by apply no_effect|]. split; [apply Hst|].
  left. exists 2. split_and!; try done. intros h b n l Hh. by apply elem_of_nil in Hh.
Qed.

Lemma fixture_performs : keeps_promise fixture_test (CM_TEST_ERROR, false).
Proof.
  intros addr hs w1 Ha _ Hst Hv. exists [], 0, (set_state_vars (<[addr := 4096]> (state_vars w1)) w1).
  split; [by apply storing_setup_ends|].
  intros w3 Hst3 _. exists passing_test, [], [], CM_TEST_PASSED, w3. split; [done|]. rewrite !app_nil_r in *. split.
  { apply test_passes; [done..|by apply no_effect|apply Hst3]. }
  intros w5 Hst5 _. exists [], 2. split; [done|]. split; [|done]. by apply failing_teardown_ends.
Qed.

Lemma setup_performs : keeps_promise (ts_test setup_test) (CM_TEST_ERROR, false).
Proof. intros addr hs w1 _ _ Hst _. exists [], 1, w1. split; [by apply failing_setup_ends|done]. Qed.

Definition group_tests : list CMUnitTest :=
  [simple_test "a" passing_test; simple_test "b" failing_test; fixture_test].

Lemma group_promises :
  Forall2 keeps_promise group_tests [(CM_TEST_PASSED, false); (CM_TEST_FAILED, false); (CM_TEST_ERROR, false)].
Proof.
  repeat constructor; [apply (passing_performs "a")|apply (failing_performs "b")|exact fixture_performs].
Qed.

Lemma execute_tests_totals_witness :
  exists ts c w w', execute_tests 0 (imap fresh_test group_tests) no_totals w = (Ret (ts, c), w') /\
    total_executed c = 3%nat /\ (total_passed c + total_failed c + total_errors c + total_skipped c = total_executed c)%nat.
Proof.
  destruct (setup_idle group_tests idle_world [] idle_world_idle) as (w & _ & Hid & Hv); [reflexivity|].
  destruct (execute_tests_perform NULL group_tests _ group_promises 0%nat no_totals w [] Hid Hv) as (ts & c & w' & xs & R & _).
  destruct (execute_tests_totals (imap fresh_test group_tests) w ts c w' R) as (_ & He & _ & _ & _ & _ & Hsum).
  exists ts, c, w, w'. split; [exact R|]. split; [exact He|exact Hsum].
Defined.

Lemma setup_test_array_selects_witness :
  exists ts v, setup_test_array 0 [simple_test "alpha" passing_test; simple_test "beta" passing_test]
      (set_global_test_filter_pattern (Some "a*") initial_world) =
    (Ret ts, set_state_vars v (set_global_test_filter_pattern (Some "a*") initial_world)) /\
    (ts_test <$> ts) `sublist_of` [simple_test "alpha" passing_test; simple_test "beta" passing_test].
Proof.
  destruct (setup_test_array_selects [simple_test "alpha" passing_test; simple_test "beta" passing_test]
    (set_global_test_filter_pattern (Some "a*") initial_world)) as (ts & v & R & Hsub & _).
  - intros p [Hp|Hp]; cbn in Hp; [by injection Hp as <-|discriminate Hp].
  - exists ts, v. split; [exact R|exact Hsub].
Defined.

Lemma failed_setup_is_error_witness :
  exists t2 w', cmocka_run_one_tests setup_test idle_world = (Ret (1, t2), w') /\ ts_status t2 = CM_TEST_ERROR.
Proof.
  destruct (failed_setup_is_error setup_test idle_world 1
    (with_status CM_TEST_ERROR (with_check_point hA setup_test)) (run_setup setup_test idle_world).2)
    as (t2 & R & _ & Hs & _).
  - vm_compute. reflexivity.
  - discriminate.
  - eexists t2, _. split; [exact R|exact Hs].
Defined.

Lemma expect_assert_failure_decides_witness :
  exists w', expect_assert_failure (mret tt;; mock_assert 0 "p" (Some "t.c") 3;; mret tt) "f()" (Some "t.c") 4 initial_world =
    (Ret tt, w').
Proof.
  destruct (expect_assert_failure_decides (mret tt) (mret tt) 0 "p" "f()" (Some "t.c") 3 (Some "t.c") 4 initial_world
    (set_global_expecting_assert 1 initial_world)) as [R _].
  - reflexivity.
  - discriminate.
  - reflexivity.
  - eexists. exact R.
Defined.

Lemma cm_tspecdiff_nanoseconds_witness :
  nanoseconds (cm_tspecdiff (mkTimespec 5 100) (mkTimespec 4 999999900)) = 200.
Proof.
  destruct (cm_tspecdiff_nanoseconds (mkTimespec 5 100) (mkTimespec 4 999999900)) as [E _].
  - split; [discriminate|reflexivity].
  - split; [discriminate|reflexivity].
  - exact E.
Defined.

(** ** A whole group, from the start of the process *)

Lemma initial_startable output : startable (set_global_msg_output output initial_world) [].
Proof.
  split.
  - right. split; [reflexivity|]. split; [|reflexivity]. eexists. vm_compute. reflexivity.
  - intros a b Hb. change (bytes _) with (∅ : gmap Z Z) in Hb. by rewrite lookup_empty in Hb.
  - intros h Hh. unfold store_heads in Hh. rewrite !elem_of_cons in Hh.
    by destruct Hh as [->|[->|[->|?%elem_of_nil]]].
  - by split_and!.
Qed.

Lemma run_group_tests_returns_failures_witness :
  (exists w', cmocka_run_group_tests "group_tests" group_tests None None initial_world = (Ret 2, w')) /\
  exists w', cmocka_run_group_tests "tests" allocate_module_tests None None initial_world = (Exit EXIT_FAILURE, w').
Proof.
  split.
  - destruct (run_group_tests_returns_failures "group_tests" group_tests
      [(CM_TEST_PASSED, false); (CM_TEST_FAILED, false); (CM_TEST_ERROR, false)] initial_world []) as (w' & R & _).
    + exact (initial_startable CM_OUTPUT_STANDARD).
    + change (selected initial_world group_tests) with group_tests. exact group_promises.
    + apply (bool_decide_unpack _). vm_compute. exact I.
    + reflexivity.
    + exists w'. exact R.
  - destruct (run_group_tests_returns_failures "tests" allocate_module_tests
      [(CM_TEST_FAILED, false); (CM_TEST_FAILED, true); (CM_TEST_FAILED, true)] initial_world []) as (w' & R & _).
    + exact (initial_startable CM_OUTPUT_STANDARD).
    + change (selected initial_world allocate_module_tests) with allocate_module_tests. exact allocate_module_promises.
    + apply (bool_decide_unpack _). vm_compute. exact I.
    + reflexivity.
    + exists w'. exact R.
Defined.

Lemma allocate_module_main_exits_witness :
  exists w', allocate_module_main initial_world = (Exit EXIT_FAILURE, w').
Proof.
  destruct (allocate_module_main_exits initial_world [] (initial_startable CM_OUTPUT_STANDARD)) as [_ H]; [reflexivity..|exact H].
Defined.

(** ** Test programs *)

(** A mock of one call, one parameter and one value, and a block that is
    written and released. *)
Definition mocked_program : program :=
  Step 1 (OpWillReturn "f" (Some "int") 7 1) (fun _ => Step 2 (OpExpect "f" "x" (Equals 3) (-1)) (fun _ =>
  Step 3 (OpExpectCall "f" 1) (fun _ => Step 4 (OpCalled "f") (fun _ => Step 5 (OpCheck "f" "x" 3) (fun _ =>
  Step 6 (OpMock "f" (Some "int")) (fun v => Step 7 (OpAssert (v =? 7)) (fun _ => Step 8 (OpMalloc 4) (fun i =>
  Step 9 (OpWrite (Z.to_nat i) 3 65) (fun _ => Step 10 (OpFree (Z.to_nat i)) (fun _ => Return)))))))))).
Definition overwritten_program : program :=
  Step 1 (OpMalloc 4) (fun _ => Step 2 (OpWrite 0 4 65) (fun _ => Step 3 (OpFree 0) (fun _ => Return))).
Definition test_programs : list (string * program) :=
  [("mocked", mocked_program); ("leaks", Step 1 (OpMalloc 4) (fun _ => Return));
   ("leftover", Step 1 (OpExpectCall "f" 1) (fun _ => Return));
   ("wrong_parameter", Step 1 (OpExpect "f" "x" (Differs 3) 1) (fun _ => Step 2 (OpCheck "f" "x" 3) (fun _ => Return)));
   ("skipped", CallSkip 1); ("stopped", Step 1 (OpWillReturn "f" None 1 (-2)) (fun _ => CallStop))].

Lemma programs_get_their_verdicts_witness :
  (exists w', cmocka_run_group_tests "programs" (program_test <$> test_programs) None None initial_world = (Ret 3, w')) /\
  (exists w', cmocka_run_group_tests "programs" [program_test ("overwritten", overwritten_program)] None None initial_world =
     (Exit EXIT_FAILURE, w')).
Proof.
  split.
  - destruct (programs_get_their_verdicts "programs" test_programs
      [(CM_TEST_PASSED, false); (CM_TEST_FAILED, false); (CM_TEST_FAILED, false); (CM_TEST_FAILED, false);
       (CM_TEST_SKIPPED, false); (CM_TEST_PASSED, false)] initial_world [] (initial_startable CM_OUTPUT_STANDARD))
      as (_ & w' & R & _).
    + reflexivity.
    + reflexivity.
    + repeat constructor.
    + apply (bool_decide_unpack _). vm_compute. exact I.
    + reflexivity.
    + exists w'. exact R.
  - destruct (programs_get_their_verdicts "programs" [("overwritten", overwritten_program)]
      [(CM_TEST_FAILED, true)] initial_world [] (initial_startable CM_OUTPUT_STANDARD)) as (_ & w' & R & _).
    + reflexivity.
    + reflexivity.
    + repeat constructor.
    + apply (bool_decide_unpack _). vm_compute. exact I.
    + reflexivity.
    + exists w'. exact R.
Defined.

(** ** The calculator *)

Lemma block_mocks : mocks block_world no_expectations.
Proof.
  exists ([] : list (Entry (shape 0))), ([] : list (Entry (shape 1))), [].
  constructor; [constructor|constructor|constructor|].
  all: unfold good, good0, dll, link.
  all: compute_rep.
Qed.

Lemma block_consistent : consistent block_world no_expectations [].
Proof. split; [exact block_mocks|exact block_heap|exact block_bytes_valid|exact block_statics]. Qed.

#[local] Existing Instance standard_streams.

Lemma perform_operation_computes_witness :
  (exists w' p, perform_operation 5 (Some (Some <$> ["1"; "+"; "3"; "*"; "10"])) 4 (Some operator_function_map)
     3000 3008 3016 block_world = (Ret 40, w') /\ read_bytes (bytes w') p 8 = Some [4; 0; 0; 0; 40; 0; 0; 0]) /\
  (exists w', perform_operation 3 (Some (Some <$> ["1"; "/"; "0"])) 4 (Some operator_function_map)
     3000 3008 3016 block_world = (assert_outcome block_world, w')).
Proof.
  assert (3000 <> 3008 /\ 3000 <> 3016 /\ 3008 <> 3016) as Hd by (repeat split; discriminate).
  assert (3016 <> NULL /\ 3000 <> NULL /\ 3008 <> NULL) as Ha by (repeat split; discriminate).
  split.
  - destruct (perform_operation_computes ["1"; "+"; "3"; "*"; "10"] 3000 3008 3016 block_world no_expectations [] Hd Ha
      block_consistent) as (w' & R & _ & p & _ & Hb & _); [discriminate|].
    exists w', p. split; [exact R|exact (bk_content _ _ _ _ _ Hb)].
  - destruct (perform_operation_computes ["1"; "/"; "0"] 3000 3008 3016 block_world no_expectations [] Hd Ha
      block_consistent) as (w' & h & R & _); [discriminate|]. exists w'. exact R.
Defined.

Lemma example_main_prints_witness :
  (exists w', example_main 3000 6 (Some <$> ["calculator"; "1"; "+"; "3"; "*"; "10"]) block_world = (Ret 0, w') /\
     stdout_text w' = "1" +:+ nl +:+ "  + 3 = 4" +:+ nl +:+ "  * 10 = 40" +:+ nl +:+ "= 40" +:+ nl) /\
  (exists w', example_main 3000 3 (Some <$> ["calculator"; "1"; "+"]) block_world = (Ret 1, w') /\
     stderr_text w' = "Binary operator + missing argument" +:+ nl).
Proof.
  split.
  - destruct (example_main_prints "calculator" ["1"; "+"; "3"; "*"; "10"] 3000 eq_refl block_world no_expectations [] block_consistent)
      as (w' & R & _ & S & _); [discriminate|]. exists w'. split; [exact R|]. rewrite S. vm_compute. reflexivity.
  - destruct (example_main_prints "calculator" ["1"; "+"] 3000 eq_refl block_world no_expectations [] block_consistent)
      as (w' & R & _ & _ & S); [discriminate|]. exists w'. split; [exact R|]. rewrite S. vm_compute. reflexivity.
Defined.

(** ** The reports of a group *)

(** CMOCKA_MESSAGE_OUTPUT is not set, and the program has selected a format. *)
Definition world_of (output : Z) : World := set_global_msg_output output initial_world.

Lemma group_silent : Forall silent_test group_tests.
Proof.
  assert (silent (_fail (Some "t.c") 1)) as Hfail by apply silent_keeps, keeps_fail.
  unfold group_tests. rewrite !Forall_cons. split_and!; [..|constructor].
  all: split_and!; intros f addr [= <-].
  all: try apply silent_ret; try exact Hfail.
  apply silent_bind; [apply silent_store_var|intros []; apply silent_ret].
Qed.

Lemma alloc_succeeds w n : plat_libc_alloc_ok w n = true.
Proof. reflexivity. Qed.

(** The results as the reports print them. *)
Definition results_in (w : World) : list report :=
  match (group_results "g" group_tests w).1 with Ret ts => report_of <$> ts | _ => [] end.

Lemma results_printable : Forall printable (results_in (world_of CM_OUTPUT_XML)).
Proof.
  assert (forall r, bool_decide (NUL ∉ chars (rp_name r)) = true ->
    Nat.ltb (length (xml_escape (chars (rp_name r))) + 7) BUFFER_SIZE = true ->
    find_sub (chars "]]>") (chars (default "" (rp_error_message r))) = None -> printable r) as Hr.
  { intros r Hn Hl Hf. split; [split; [by apply bool_decide_eq_true in Hn|by apply Nat.ltb_lt]|].
    intros m Em (a & b & E). rewrite Em in Hf. by apply (find_sub_none _ _ Hf a b). }
  set (l := results_in _). vm_compute in l. subst l. repeat (constructor; [by apply Hr; vm_compute|]). constructor.
Qed.

Lemma reports_of_group_witness :
  (exists ts w', cmocka_run_group_tests "g" group_tests None None (world_of CM_OUTPUT_TAP) = (Ret 2, w') /\
    stdout_text w' = tap_report "g" true ts) /\
  (exists ts w', cmocka_run_group_tests "g" group_tests None None (world_of CM_OUTPUT_SUBUNIT) = (Ret 2, w') /\
    stdout_text w' = subunit_report ts) /\
  (exists w' d t, cmocka_run_group_tests "g" group_tests None None (world_of CM_OUTPUT_XML) = (Ret 2, w') /\
    read_xml (stdout_text w') = Some (d, suite_node "g" 3 1 1 0 t (results_in (world_of CM_OUTPUT_XML)))).
Proof.
  assert (forall o, selected (world_of o) group_tests = group_tests) as Hsel by reflexivity.
  pose (cs := [(CM_TEST_PASSED, false); (CM_TEST_FAILED, false); (CM_TEST_ERROR, false)] : list promise).
  assert (NUL ∉ chars "g") as Hn by (apply (bool_decide_unpack _); vm_compute; exact I).
  split; [|split].
  - destruct (reports_of_group alloc_succeeds "g" group_tests cs (world_of CM_OUTPUT_TAP) [])
      as (ts & w' & _ & R & _ & _ & S & _ & _);
      [exact (initial_startable _)|rewrite Hsel; exact group_promises|exact Hn|rewrite Hsel; exact group_silent|].
    exists ts, w'. split; [exact R|exact (S eq_refl)].
  - destruct (reports_of_group alloc_succeeds "g" group_tests cs (world_of CM_OUTPUT_SUBUNIT) [])
      as (ts & w' & _ & R & _ & _ & _ & S & _);
      [exact (initial_startable _)|rewrite Hsel; exact group_promises|exact Hn|rewrite Hsel; exact group_silent|].
    exists ts, w'. split; [exact R|exact (S eq_refl)].
  - destruct (reports_of_group alloc_succeeds "g" group_tests cs (world_of CM_OUTPUT_XML) [])
      as (ts & w' & G & R & _ & Hst & _ & _ & S);
      [exact (initial_startable _)|rewrite Hsel; exact group_promises|exact Hn|rewrite Hsel; exact group_silent|].
    assert (report_of <$> ts = results_in (world_of CM_OUTPUT_XML)) as E by (unfold results_in; rewrite G; reflexivity).
    destruct (S eq_refl eq_refl) as (s & d & t & T & Hs).
    { split; [exact Hn|vm_compute; lia]. }
    { rewrite E. exact results_printable. }
    exists w', d, t. split; [exact R|]. rewrite T. change (stdout_text (world_of CM_OUTPUT_XML)) with "".
    change ("" +:+ s) with s. rewrite Hs, E.
    assert (length ts = 3%nat) as -> by (rewrite <-(length_fmap ts_status ts), Hst; reflexivity).
    rewrite !with_count_statuses, Hst. reflexivity.
Defined.

(** ** The macros *)

Definition line_10 : site := mkSite (Some "t.c") 10.
Definition line_20 : site := mkSite (Some "t.c") 20.


(** Two areas in data memory. *)
Definition memory_world : World := Eval vm_compute in
  set_bytes (write_bytes 5000 [97; 98; 97; 99] ∅) empty_world.

Lemma memory_world_mocks : mocks memory_world no_expectations.
Proof.
  exists ([] : list (Entry (shape 0))), ([] : list (Entry (shape 1))), [].
  constructor; [constructor|constructor|constructor|].
  all: unfold good, good0, dll, link.
  all: compute_rep.
Qed.

Lemma expected_parameter_decides_witness :
  (exists w', (_expect_in_range "f" "x" (Some "t.c") 1 3 9 1;; _check_expected "f" "x" (Some "t.c") 2 5) memory_world =
    (Ret tt, w') /\ mocks w' no_expectations) /\
  (exists w', (_expect_memory "f" "x" (Some "t.c") 1 5000 2 1;; _check_expected "f" "x" (Some "t.c") 2 5002) memory_world =
    (Exit 1, w') /\ mocks w' no_expectations) /\
  (exists w', (_expect_check "f" "x" (Some "t.c") 1 (Custom 0) 7 NULL 1;; _check_expected "f" "x" (Some "t.c") 2 5) memory_world =
    (Exit 1, w') /\ mocks w' no_expectations).
Proof.
  destruct (expected_parameter_decides memory_world no_expectations "f" "x" (Some "t.c") 1 1 0 3 9 [1] 1 5000 2 [97; 98] 0 7)
    as ((_ & _ & Hr & _) & (_ & _ & Hb & _) & _ & Hc).
  - exact memory_world_mocks.
  - intros n. vm_compute. reflexivity.
  - split; [discriminate|reflexivity].
  - split; [discriminate|reflexivity].
  - split; [reflexivity|discriminate].
  - discriminate.
  - discriminate.
  - reflexivity.
  - vm_compute. reflexivity.
  - split; [|split].
    + apply (expects_first _ _ _ _ _ _ _ (Some "t.c") 2 5 true Hr); reflexivity.
    + apply (expects_first _ _ _ _ _ _ _ (Some "t.c") 2 5002 false Hb); [reflexivity|].
      intros w1 ->. exists [97; 99]. split; vm_compute; reflexivity.
    + apply (expects_first _ _ _ _ _ _ _ (Some "t.c") 2 5 false Hc); [reflexivity|].
      intros w1 _. exists 0. split; [reflexivity|]. intros w3 _. exists w3. split; reflexivity.
Defined.

Lemma expect_macros_decide_witness :
  (exists w', (expect_value line_10 "f" "x" (-5);; check_expected "f" line_20 "x" (-5)) memory_world = (Ret tt, w')) /\
  (exists w', (expect_in_range line_10 "f" "x" (-1) 1;; check_expected "f" line_20 "x" (-5)) memory_world =
     (Exit 1, w')) /\
  (exists w', (expect_memory line_10 "f" "x" 5000 2;; check_expected_ptr "f" line_20 "x" 5002) memory_world =
     (Exit 1, w')).
Proof.
  destruct (expect_macros_decide memory_world no_expectations "f" "x" line_10 line_20 (-5) (-5) (-1) 1 7 [3; 7]
    5000 5002 [97; 98] [97; 99]) as ((w1 & R1 & _) & _ & (w2 & R2 & _) & _ & _ & _ & _ & _ & _ & (w3 & R3 & _) & _).
  - exact memory_world_mocks.
  - reflexivity.
  - intros n. vm_compute. reflexivity.
  - split; [discriminate|reflexivity].
  - split; [discriminate|reflexivity].
  - split; discriminate.
  - reflexivity.
  - split; [discriminate|reflexivity].
  - split; reflexivity.
  - vm_compute. reflexivity.
  - discriminate.
  - split; reflexivity.
  - vm_compute. reflexivity.
  - split; [discriminate|reflexivity].
  - split; [exists w1; exact R1|]. split; [exists w2; exact R2|exists w3; exact R3].
Defined.

(** The tests of a group see the state its setup has stored; a group whose setup
    fails never gets to its tests, whatever they do. *)
Definition reading_test : CMUnitTestFunction := fun addr =>
  p ← load_var addr; when (negb (p =? 4096)) (_fail (Some "t.c") 2).
Definition wild_test : CMUnitTestFunction := fun _ => undef.

Lemma reading_performs name : keeps_promise_from 4096 (simple_test name reading_test) (CM_TEST_PASSED, false).
Proof.
  apply (plain_performs _ reading_test); [done..|]. intros addr hs w1 Hst Hv. exists [], [], w1. split; [|done].
  apply test_passes; [done| |by apply no_effect|apply Hst]. unfold reading_test.
  assert (load_var addr w1 = (Ret 4096, w1)) as R by by apply deref_run. by mrun R.
Qed.

Lemma failing_performs_from g name : keeps_promise_from g (simple_test name failing_test) (CM_TEST_FAILED, false).
Proof.
  apply (plain_performs _ failing_test); [done..|]. intros addr hs w1 Hst _.
  destruct (failing_ends addr hs w1 Hst) as (w2 & He). by exists [], [], w2.
Qed.

Lemma group_fixtures_perform_witness :
  (exists w', cmocka_run_group_tests "g" [simple_test "r" reading_test; simple_test "b" failing_test]
     (Some storing_setup) (Some failing_teardown) initial_world = (Ret 1, w')) /\
  (exists w', cmocka_run_group_tests "g" [simple_test "w" wild_test] (Some failing_setup) None initial_world = (Ret 1, w')).
Proof.
  assert (NUL ∉ chars "g") as Hn by (apply (bool_decide_unpack _); vm_compute; exact I).
  split.
  - destruct (group_fixtures_perform "g" [simple_test "r" reading_test; simple_test "b" failing_test]
      (Some storing_setup) (Some failing_teardown) (Some [(CM_TEST_PASSED, false); (CM_TEST_FAILED, false)]) false initial_world [])
      as (w' & R & _).
    + exact (initial_startable CM_OUTPUT_STANDARD).
    + intros w1 Hst _. exists [], 0, (set_state_vars (<[group_state_addr := 4096]> (state_vars w1)) w1), 4096.
      split; [exact (storing_setup_ends group_state_addr [] w1 Hst)|]. split; [apply lookup_insert_eq|].
      eexists. split; [reflexivity|].
      split; [repeat constructor; [apply (reading_performs "r")|apply (failing_performs_from 4096 "b")]|].
      intros xs Hr w5 Hst5 _. assert (xs = []) as -> by (by destruct xs).
      exists [], 2. split; [exact (failing_teardown_ends group_state_addr [] w5 Hst5)|reflexivity].
    + exact Hn.
    + reflexivity.
    + exists w'. exact R.
  - destruct (group_fixtures_perform "g" [simple_test "w" wild_test] (Some failing_setup) None None false initial_world [])
      as (w' & R & _).
    + exact (initial_startable CM_OUTPUT_STANDARD).
    + intros w1 Hst Hv. exists [], 1, w1, NULL. split; [exact (failing_setup_ends group_state_addr [] w1 Hst)|].
      split; [exact Hv|]. split; reflexivity.
    + exact Hn.
    + reflexivity.
    + exists w'. exact R.
Defined.

(** ** Faults *)

Lemma begun_jumps {A} w hs : begun w hs -> @exit_outcome A w = LongJmp.
Proof.
  intros [_ Hr _ Ha]. apply exit_longjmp; [|by rewrite Hr]. unfold no_abort in Ha. unfold abort_requested. rewrite bool_decide_eq_false_2 by done. apply andb_false_r.
Qed.

(** A function that fails, and one that skips. *)
Lemma fail_leaves : function_fails failing_test.
Proof.
  intros addr hs w1 Hb. destruct (fail_run (Some "t.c") 1 w1) as (w2 & R & Q). rewrite (begun_jumps _ _ Hb) in R.
  exists w2, no_expectations, []. rewrite app_nil_r. split; [exact R|]. split.
  - apply left_same; [by apply same_run_quiet|apply Hb|]. by eapply consistent_quiet, Hb.
  - destruct Q as (m & e & o & c & ->). split; [apply Hb|done].
Qed.

Lemma skip_leaves : setup_skips skipping_fixture.
Proof.
  intros addr hs w1 Hb. destruct (prints_cmocka_print_error (fmt_location (Some "t.c") 2 +:+ ": Skipped!" +:+ nl) w1) as (w2 & R2 & Q2).
  set (w3 := set_global_skip_test 1 w2). destruct (exit_test_then (libc_exit EXIT_FAILURE : CM unit) w3) as (w4 & R4 & Q4).
  assert (@exit_outcome unit w3 = LongJmp) as Ho.
  { apply exit_longjmp; [done|]. destruct Q2 as (m & e & o & c & ->). cbn. by rewrite (bg_running _ _ Hb). }
  exists w4, no_expectations, []. rewrite app_nil_r. split.
  - unfold skipping_fixture. rewrite bind_eq. unfold _skip. mrun R2. mprim. fold w3. rewrite R4. by rewrite Ho.
  - destruct Hb as [Hc Hr Hs _]. assert (consistent w4 no_expectations hs) as Hc4.
    { eapply consistent_quiet; [exact Q4|]. apply (consistent_same w2); [done..|by split|]. by eapply consistent_quiet. }
    destruct Q2 as (m2 & e2 & o2 & c2 & ->), Q4 as (m4 & e4 & o4 & c4 & ->).
    split; [|split; [exact Hs|done] ]. split; [exact Hc4|by cbn; rewrite Hr|done..].
Qed.

Definition skip_in_setup : CMUnitTest := mkCMUnitTest (Some "a") (Some passing_test) (Some skipping_fixture) None NULL.

Lemma skip_in_setup_hides_failure_witness :
  exists w, (exists ts c w', execute_tests 0 (imap fresh_test [skip_in_setup; simple_test "b" failing_test]) no_totals w =
      (Ret (ts, c), w') /\ ts_status <$> ts = [CM_TEST_ERROR; CM_TEST_SKIPPED] /\ total_failed c = 0%nat) /\
    (exists ts c w', execute_tests 0 (imap fresh_test [simple_test "b" failing_test]) no_totals w = (Ret (ts, c), w') /\
      total_failed c = 1%nat).
Proof.
  destruct (setup_idle [skip_in_setup; simple_test "b" failing_test] idle_world [] idle_world_idle) as (w & R & Hid & Hv); [reflexivity|].
  exists w. destruct (skip_in_setup_hides_failure skip_in_setup (simple_test "b" failing_test) skipping_fixture failing_test w [])
    as ((ts & c & w' & R1 & Hs & Hf & _) & ts' & c' & w'' & R2 & _ & Hf').
  - reflexivity.
  - exact skip_leaves.
  - reflexivity.
  - reflexivity.
  - reflexivity.
  - exact fail_leaves.
  - exact Hid.
  - destruct (setup_test_array_run [skip_in_setup; simple_test "b" failing_test] 0 idle_world) as (v & R' & _).
    assert (w = set_state_vars v idle_world) as -> by congruence. change (environ idle_world !! "CMOCKA_TEST_ABORT" <> Some "1"). by vm_compute.
  - exact Hv.
  - split; [exists ts, c, w'; split; [exact R1|split; [exact Hs|exact Hf] ]|exists ts', c', w''; split; [exact R2|exact Hf'] ].
Defined.

(** A value declared for every call, fetched under another type name. *)
Definition int_value : SymbolValue := mkSymbolValue (Some "int") (mkSourceLocation (Some "t.c") 5) 7.

Definition declaring (count : Z) : ptr -> CM unit := fun _ => _will_return "f" (Some "t.c") 5 (Some "int") 7 count.

Lemma declaring_mismatches count w1 hs :
  started w1 hs -> count <> 0 -> INT_MIN < count ->
  exists w2 hs1, declaring count (state_arg NULL) w1 = (Ret tt, w2) /\ mismatched w1 w2 (hs ++ hs1) "f" "long" count.
Proof.
  intros [Hc Hr Hu] Hz Hmin.
  destruct (will_return_spec w1 no_expectations "f" (Some "t.c") 5 (Some "int") 7 count (cs_mocks _ _ _ Hc) Hz) as (w2 & R & Hm & Ht).
  apply typed_only_kept in Ht. exists w2, []. rewrite app_nil_r. split; [exact R|].
  eexists _, int_value, _. split; [by eapply consistent_kept|]. split; [by repeat constructor|]. split; [done|].
  destruct Ht as (_ & _ & Hd & H1 & H2 & H3 & H4 & H5 & H6). destruct Hu as (U1 & U2 & U3).
  split; [done|]. split; [done|]. split; [by rewrite H2, Hr|]. split; [by apply (undisturbed_same w1)|done].
Qed.

Lemma mismatching_test_frees_twice_witness :
  (exists w', cmocka_run_one_test_or_fixture "t" (Some (mismatching (declaring WILL_RETURN_ALWAYS) "f" (Some "t.c") 6 "long" (fun _ => mret tt)))
     None None NULL NULL idle_world = (Undef, w')) /\
  (exists w', cmocka_run_one_test_or_fixture "t" (Some (mismatching (declaring 1) "f" (Some "t.c") 6 "long" (fun _ => undef)))
     None None NULL NULL idle_world = (Ret (-1), w')).
Proof.
  split.
  - destruct (mismatching_test_frees_twice (declaring WILL_RETURN_ALWAYS) (fun _ => mret tt) "f" (Some "t.c") 6 "long"
      WILL_RETURN_ALWAYS "t" NULL NULL idle_world []) as (w' & R).
    + exact idle_world_idle.
    + intros w1 Hw1. apply (declaring_mismatches _ w1 [] Hw1); [discriminate|reflexivity].
    + exists w'. exact R.
  - destruct (mismatching_test_frees_twice (declaring 1) (fun _ => undef) "f" (Some "t.c") 6 "long"
      1 "t" NULL NULL idle_world []) as (w' & R).
    + exact idle_world_idle.
    + intros w1 Hw1. apply (declaring_mismatches _ w1 [] Hw1); [discriminate|reflexivity].
    + exists w'. exact R.
Defined.
